(** * electrum/transaction.py: a shallow embedding and its verified properties

    The development follows the layout of [electrum/transaction.py]:
    the script walker and template matcher, the transaction data model,
    the network serialization and txid, the PSBT input/output records
    with their setters, combine and finalize, and the signature
    pre-image with the BIP-69 ordering.

    Conventions of the embedding.
    - Python [bytes] are [list byte]; Python [int] is [Z].
    - A hex string ([str] produced by [bh2u]/[.hex()], consumed by [bfh])
      is represented by the bytes it encodes, so [len(s) // 2] is
      [length] and string concatenation is [++].
    - A raised exception is the [Raise] arm of [result].  The methods
      of a PSBT input that assign to it are [method]s: they give the
      input as the call leaves it, also when the call raises.  For the
      other operations the state of a mutated object after a raised
      exception is not tracked.
    - A dict with byte-string keys is a [gmap bytes _]; [d.update(e)] is
      [e ∪ d] (stdpp's union prefers its left operand). *)

From Stdlib Require Import ZArith List Lia Bool String Ascii.
From Stdlib Require Import Strings.Byte.
From stdpp Require Import base option list gmap strings sorting.

#[local] Open Scope Z_scope.

(** ** Bytes *)

Abbreviation bytes := (list byte).

#[global] Instance byte_eq_dec : EqDecision byte := Byte.byte_eq_dec.
#[global] Instance byte_countable : Countable byte :=
  inj_countable Byte.to_N Byte.of_N Byte.of_to_N.

Definition byte_val (b : byte) : Z := Z.of_N (Byte.to_N b).

Definition byte_of_Z (z : Z) : byte :=
  match Byte.of_N (Z.to_N (z mod 256)) with
  | Some b => b
  | None => x00
  end.

(** [len(b)] *)
Definition len {A} (l : list A) : Z := Z.of_nat (length l).

(** [b[lo:hi]] for [0 <= lo] and [0 <= hi]: both ends are clamped to
    [len(b)], and an empty range gives [b'']. *)
Definition py_slice {A} (b : list A) (lo hi : Z) : list A :=
  let lo' := Z.min lo (len b) in
  let hi' := Z.min hi (len b) in
  firstn (Z.to_nat (hi' - lo')) (skipn (Z.to_nat lo') b).

(** [b[i]]: a negative index counts from the end; [None] stands for
    IndexError. *)
Definition py_index {A} (b : list A) (i : Z) : option A :=
  let j := if i <? 0 then i + len b else i in
  if (0 <=? j) && (j <? len b) then nth_error b (Z.to_nat j) else None.

(** Little-endian value of a byte string ([struct.unpack('<H' ...)],
    [int.from_bytes(_, 'little')]). *)
Fixpoint le_decode (b : bytes) : Z :=
  match b with
  | [] => 0
  | x :: r => byte_val x + 256 * le_decode r
  end.

(** Little-endian bytes of [z mod 256^n], [n] bytes wide. *)
Fixpoint le_encode (n : nat) (z : Z) : bytes :=
  match n with
  | O => []
  | S n' => byte_of_Z z :: le_encode n' (z / 256)
  end.

(** ** Exceptions and the error monad *)

Inductive exn : Type :=
| MalformedBitcoinScript
| SerializationError
| PSBTInputConsistencyFailure
| UnknownTxinType
| NotImplementedError
| AssertionError
| IndexError
| AttributeError
| TypeError
| OverflowError
| struct_error
| UnexpectedEndOfStream
| Exception (msg : string).

Inductive result (A : Type) : Type :=
| Ok (a : A)
| Raise (e : exn).
Arguments Ok {A} a.
Arguments Raise {A} e.

#[global] Instance result_ret : MRet result := fun A a => Ok a.
#[global] Instance result_bind : MBind result := fun A B f m =>
  match m with
  | Ok a => f a
  | Raise e => Raise e
  end.
#[global] Instance result_fmap : FMap result := fun A B f m =>
  match m with
  | Ok a => Ok (f a)
  | Raise e => Raise e
  end.

Definition is_Ok {A} (r : result A) : bool :=
  match r with Ok _ => true | Raise _ => false end.

(** [assert c] *)
Definition py_assert (c : bool) : result unit :=
  if c then Ok tt else Raise AssertionError.

(** [l[i]] raising IndexError. *)
Definition index_or_raise {A} (l : list A) (i : Z) : result A :=
  match py_index l i with
  | Some a => Ok a
  | None => Raise IndexError
  end.

(** ** Calls that update their object

    A call that may assign to attributes of its object and may raise is
    a function from the object to the object as the call leaves it,
    whether it returns or raises, together with the value it returns or
    the exception it raises. *)
Definition method (S A : Type) : Type := S -> S * result A.

#[global] Instance method_ret {S} : MRet (method S) := fun A a s => (s, Ok a).
#[global] Instance method_bind {S} : MBind (method S) := fun A B f m s =>
  match m s with
  | (s', Ok a) => f a s'
  | (s', Raise e) => (s', Raise e)
  end.

(** The object itself. *)
Definition this {S} : method S S := fun s => (s, Ok s).

(** An expression that reads the object and may raise. *)
Definition reading {S A} (f : S -> result A) : method S A := fun s => (s, f s).

(** An assignment to attributes of the object. *)
Definition assign {S} (f : S -> S) : method S unit := fun s => (f s, Ok tt).

(** The object and the value after a call that returns. *)
Definition returning {S A} (m : method S A) (s : S) : result (S * A) :=
  match m s with
  | (s', Ok a) => Ok (s', a)
  | (_, Raise e) => Raise e
  end.

(** ** Opcodes *)

(** Modelled from the spec: the table [ravencoin.opcodes] is defined in
    another module, [electrum/ravencoin.py], which is not available.
    The numbering is that of Bitcoin script, which the spec's walker
    ("for opcodes [≤ OP_PUSHDATA4] the payload is the pushed bytes")
    presupposes; [OP_RVN_ASSET] is the chain-specific asset marker. *)
Module opcodes.
Definition OP_0 : Z := 0.
Definition OP_PUSHDATA1 : Z := 76.
Definition OP_PUSHDATA2 : Z := 77.
Definition OP_PUSHDATA4 : Z := 78.
Definition OP_1 : Z := 81.
Definition OP_16 : Z := 96.
Definition OP_DUP : Z := 118.
Definition OP_EQUAL : Z := 135.
Definition OP_EQUALVERIFY : Z := 136.
Definition OP_HASH160 : Z := 169.
Definition OP_CODESEPARATOR : Z := 171.
Definition OP_CHECKSIG : Z := 172.
Definition OP_CHECKMULTISIG : Z := 174.
Definition OP_RVN_ASSET : Z := 192.
End opcodes.

(** ** The script walker *)

(** One element yielded by [script_GetOp]: [(opcode, vch, i)]. *)
Record ScriptOp : Type := mkScriptOp {
  sop_opcode : Z;
  sop_vch : option bytes;
  sop_next : Z
}.

(** [struct.unpack_from(fmt, _bytes, i)] for an unsigned little-endian
    field of [w] bytes; [None] stands for [struct.error] (fewer than [w]
    bytes from offset [i]). *)
Definition unpack_from (w : Z) (_bytes : bytes) (i : Z) : option Z :=
  if i + w <=? len _bytes then Some (le_decode (py_slice _bytes i (i + w)))
  else None.

(** The size announced by the push at [opcode] and the cursor after its
    length prefix. *)
Definition read_push_size (_bytes : bytes) (opcode i : Z) : result (Z * Z) :=
  if opcode =? opcodes.OP_PUSHDATA1 then
    match py_index _bytes i with
    | Some b => Ok (byte_val b, i + 1)
    | None => Raise MalformedBitcoinScript
    end
  else if opcode =? opcodes.OP_PUSHDATA2 then
    match unpack_from 2 _bytes i with
    | Some n => Ok (n, i + 2)
    | None => Raise MalformedBitcoinScript
    end
  else if opcode =? opcodes.OP_PUSHDATA4 then
    match unpack_from 4 _bytes i with
    | Some n => Ok (n, i + 4)
    | None => Raise MalformedBitcoinScript
    end
  else Ok (opcode, i).

(** One turn of the [while] loop: the triple yielded and nothing else. *)
Definition script_GetOp_step (_bytes : bytes) (i : Z) : result ScriptOp :=
  match py_index _bytes i with
  | None => Raise IndexError
  | Some b =>
    let opcode := byte_val b in
    let i := i + 1 in
    if opcode <=? opcodes.OP_PUSHDATA4 then
      '(nSize, i) ← read_push_size _bytes opcode i;
      let vch := py_slice _bytes i (i + nSize) in
      let i := i + nSize in
      Ok (mkScriptOp opcode (Some vch) i)
    else Ok (mkScriptOp opcode None i)
  end.

(** The generator, run to exhaustion as every caller in the file does
    ([[x for x in script_GetOp(b)]]).  Each turn advances the cursor by
    at least one, so [fuel] bounds the number of turns. *)
Fixpoint script_GetOp_from (fuel : nat) (_bytes : bytes) (i : Z)
  : result (list ScriptOp) :=
  match fuel with
  | O => Ok []
  | S fuel' =>
    if i <? len _bytes then
      op ← script_GetOp_step _bytes i;
      rest ← script_GetOp_from fuel' _bytes (sop_next op);
      Ok (op :: rest)
    else Ok []
  end.

Definition script_GetOp (_bytes : bytes) : result (list ScriptOp) :=
  script_GetOp_from (length _bytes) _bytes 0.

(** ** Script templates *)

(** An item of a template: an [OPPushDataGeneric] object (or the class
    itself) with its [check_data_len], an [OPGeneric] object with its
    [matcher], or a plain opcode. *)
Inductive template_item : Type :=
| OPPushDataGeneric (check_data_len : Z -> bool)
| OPGeneric (matcher : Z -> bool)
| OP (opcode : Z).

(** The class method [OPPushDataGeneric.check_data_len]. *)
Definition default_check_data_len (datalen : Z) : bool :=
  (datalen <=? opcodes.OP_PUSHDATA4) && (0 <=? datalen).

Definition OP_ANYSEGWIT_VERSION : template_item :=
  OPGeneric (fun x => (opcodes.OP_1 <=? x) && (x <? opcodes.OP_16 + 1)).

Definition SCRIPTPUBKEY_TEMPLATE_P2PK : list template_item :=
  [OPPushDataGeneric (fun x => (x =? 33) || (x =? 65)); OP opcodes.OP_CHECKSIG].
Definition SCRIPTPUBKEY_TEMPLATE_P2PKH : list template_item :=
  [OP opcodes.OP_DUP; OP opcodes.OP_HASH160;
   OPPushDataGeneric (fun x => x =? 20);
   OP opcodes.OP_EQUALVERIFY; OP opcodes.OP_CHECKSIG].
Definition SCRIPTPUBKEY_TEMPLATE_P2SH : list template_item :=
  [OP opcodes.OP_HASH160; OPPushDataGeneric (fun x => x =? 20); OP opcodes.OP_EQUAL].
Definition SCRIPTPUBKEY_TEMPLATE_WITNESS_V0 : list template_item :=
  [OP opcodes.OP_0; OPPushDataGeneric (fun x => (x =? 20) || (x =? 32))].
Definition SCRIPTPUBKEY_TEMPLATE_P2WPKH : list template_item :=
  [OP opcodes.OP_0; OPPushDataGeneric (fun x => x =? 20)].
Definition SCRIPTPUBKEY_TEMPLATE_P2WSH : list template_item :=
  [OP opcodes.OP_0; OPPushDataGeneric (fun x => x =? 32)].
Definition SCRIPTPUBKEY_TEMPLATE_ANYSEGWIT : list template_item :=
  [OP_ANYSEGWIT_VERSION; OPPushDataGeneric (fun x => (2 <=? x) && (x <? 40 + 1))].

(** The [script] argument of [match_script_against_template]: [None], a
    byte string still to decode, or an already decoded list. *)
Inductive script_arg : Type :=
| script_None
| script_bytes (b : bytes)
| script_decoded (l : list ScriptOp).

(** The search loop of "Chop off assets": the index of the first element
    whose opcode is [OP_RVN_ASSET], or [len(script)] when there is none. *)
Fixpoint find_op_rvn_asset (script : list ScriptOp) : nat :=
  match script with
  | [] => O
  | x :: r =>
    if sop_opcode x =? opcodes.OP_RVN_ASSET then O else S (find_op_rvn_asset r)
  end.

(** The three tests of the comparison loop on one position: the item is
    accepted when a generic push accepts the opcode, a generic opcode
    matcher accepts it, or the template opcode equals it (an object never
    equals an int). *)
Definition template_item_accepts (template_item : template_item) (script_item : ScriptOp) : bool :=
  match template_item with
  | OPPushDataGeneric check_data_len => check_data_len (sop_opcode script_item)
  | OPGeneric matcher => matcher (sop_opcode script_item)
  | OP opcode => opcode =? sop_opcode script_item
  end.

(** [for i in range(len(script))] over two lists of the same length. *)
Fixpoint template_items_accept (script : list ScriptOp) (template : list template_item) : bool :=
  match script, template with
  | script_item :: script', template_item :: template' =>
    template_item_accepts template_item script_item
    && template_items_accept script' template'
  | _, _ => true
  end.

(** [match_script_against_template] from "Chop off assets" on. *)
Definition match_decoded_against_template
    (script : list ScriptOp) (template : list template_item) : bool :=
  let op_rvn_asset := find_op_rvn_asset script in
  let script := firstn op_rvn_asset script in
  if negb (Nat.eqb (length script) (length template)) then false
  else template_items_accept script template.

Definition match_script_against_template
    (script : script_arg) (template : list template_item) : bool :=
  match script with
  | script_None => false
  | script_bytes b =>
    match script_GetOp b with
    | Ok script => match_decoded_against_template script template
    | Raise _ => false
    end
  | script_decoded script => match_decoded_against_template script template
  end.

(** The prefix of a decoded script that strictly precedes the first
    occurrence of [OP_RVN_ASSET], written after the specification's
    sentence rather than after the code. *)
Fixpoint prefix_before_asset_spec (script : list ScriptOp) : list ScriptOp :=
  match script with
  | [] => []
  | x :: r =>
    if bool_decide (sop_opcode x = opcodes.OP_RVN_ASSET) then []
    else x :: prefix_before_asset_spec r
  end.

(** What a template item stands for, written after the meaning of the
    templates rather than after the comparison loop: a generic push
    stands for the opcodes its length test admits, a generic opcode for
    those its matcher admits, and a plain opcode for itself. *)
Definition template_item_stands_for (template_item : template_item) (opcode : Z) : Prop :=
  match template_item with
  | OPPushDataGeneric check_data_len => check_data_len opcode = true
  | OPGeneric matcher => matcher opcode = true
  | OP template_opcode => opcode = template_opcode
  end.

(** A decoded script has the shape of a template when it has one
    element for each item of the template and the opcode of each element
    is one that the item at its position stands for. *)
Definition has_template_shape (script : list ScriptOp) (template : list template_item) : Prop :=
  Forall2 (fun script_item template_item =>
             template_item_stands_for template_item (sop_opcode script_item))
          script template.

(** The hand-written chop of [get_address_from_output_script] and
    [is_output_script_p2pk]: append until the marker, then [break]. *)
Fixpoint chop_at_asset (raw_decoded : list ScriptOp) : list ScriptOp :=
  match raw_decoded with
  | [] => []
  | tup :: r =>
    if sop_opcode tup =? opcodes.OP_RVN_ASSET then [] else tup :: chop_at_asset r
  end.

(** ** The data model *)

(** [TxOutput._value : Union[int, str]]: satoshis, or the max-spend
    marker (['!'], ['2!'], ...). *)
Inductive value : Type :=
| IntValue (v : Z)
| MaxSpend (s : string).

#[global] Instance value_eq_dec : EqDecision value.
Proof. solve_decision. Defined.

(** Modelled from the spec: [util.RavenValue] is defined in
    [electrum/util.py], which is not available.  It is the
    "trusted value (including per-asset amounts)" of the spec; this file
    builds it as [RavenValue(rvn)] or [RavenValue(0, {asset: amount})]
    and reads [.assets], whose first item it takes. *)
Record RavenValue : Type := mkRavenValue {
  rvn_value : value;
  assets : list (string * value)
}.

Record TxOutpoint : Type := mkTxOutpoint {
  txid : bytes;
  out_idx : Z
}.

#[global] Instance TxOutpoint_eq_dec : EqDecision TxOutpoint.
Proof. solve_decision. Defined.

(** The fields [PartialTxOutput.__init__] adds to a [TxOutput]. *)
Record PartialTxOutputExt : Type := mkPartialTxOutputExt {
  out_redeem_script : option bytes;
  out_witness_script : option bytes;
  out_bip32_paths : gmap bytes (bytes * list Z);
  out_unknown : gmap bytes bytes;
  out_script_type : string;
  out_num_sig : Z;
  out_pubkeys : list bytes;
  is_mine : bool;
  is_change : bool
}.

(** A [TxOutput] object; [psbt_out] is present exactly when the object
    is an instance of [PartialTxOutput]. *)
Record TxOutput : Type := mkTxOutput {
  scriptpubkey : bytes;
  _value : value;
  asset : option string;
  psbt_out : option PartialTxOutputExt
}.

(** The fields [PartialTransaction.__init__] adds to a [Transaction].
    [xpubs] is keyed by the serialized [BIP32Node]; the key
    [prevout.to_str()] of [_prevout_overrides] is represented by the
    pair it prints. *)
Record PartialTransactionExt : Type := mkPartialTransactionExt {
  xpubs : gmap bytes (bytes * list Z);
  psbt_unknown : gmap bytes bytes;
  _prevout_overrides : gmap (bytes * Z) bytes
}.

(** What this file reads from the wallet object: the table returned by
    [get_nonstandard_outpoints()]. *)
Record Abstract_Wallet : Type := mkAbstract_Wallet {
  get_nonstandard_outpoints : gmap (bytes * Z) bytes
}.

(** [TxInput], the fields added by [PartialTxInput.__init__], and
    [Transaction] refer to one another: a PSBT input may carry the whole
    previous transaction.  [psbt_in] (resp. [psbt_tx]) is present exactly
    when the object is an instance of [PartialTxInput] (resp.
    [PartialTransaction]).  A [Transaction] value is a deserialized
    transaction ([_inputs] and [_outputs] are populated, so
    [deserialize()] returns at once); [_cached_network_ser] is the hex
    text it was parsed from or last serialized to, if any. *)
Inductive TxInput : Type := mkTxInput {
  prevout : TxOutpoint;
  script_sig : option bytes;
  nsequence : Z;
  witness : option bytes;
  _is_coinbase_output : bool;
  sighash : option Z;
  psbt_in : option PartialTxInputExt
}
with PartialTxInputExt : Type := mkPartialTxInputExt {
  _utxo : option Transaction;
  _witness_utxo : option TxOutput;
  part_sigs : gmap bytes bytes;
  bip32_paths : gmap bytes (bytes * list Z);
  redeem_script : option bytes;
  witness_script : option bytes;
  _unknown : gmap bytes bytes;
  script_type : string;
  num_sig : Z;
  pubkeys : list bytes;
  _trusted_value_sats : option RavenValue;
  _trusted_address : option string;
  block_height : option Z;
  spent_height : option Z;
  spent_txid : option string;
  _is_p2sh_segwit : option bool;
  _is_native_segwit : option bool;
  witness_sizehint : option Z
}
with Transaction : Type := mkTransaction {
  _version : Z;
  _locktime : Z;
  _inputs : list TxInput;
  _outputs : list TxOutput;
  for_swap : bool;
  _cached_network_ser : option bytes;
  _cached_txid : option bytes;
  _wallet : option Abstract_Wallet;
  psbt_tx : option PartialTransactionExt
}.

(** *** Field updates *)

Definition set_script_sig (v : option bytes) (t : TxInput) : TxInput :=
  mkTxInput (prevout t) v (nsequence t) (witness t) (_is_coinbase_output t)
            (sighash t) (psbt_in t).
Definition set_witness (v : option bytes) (t : TxInput) : TxInput :=
  mkTxInput (prevout t) (script_sig t) (nsequence t) v (_is_coinbase_output t)
            (sighash t) (psbt_in t).
Definition set_nsequence (v : Z) (t : TxInput) : TxInput :=
  mkTxInput (prevout t) (script_sig t) v (witness t) (_is_coinbase_output t)
            (sighash t) (psbt_in t).
Definition set_sighash (v : option Z) (t : TxInput) : TxInput :=
  mkTxInput (prevout t) (script_sig t) (nsequence t) (witness t)
            (_is_coinbase_output t) v (psbt_in t).
Definition set_psbt_in (v : option PartialTxInputExt) (t : TxInput) : TxInput :=
  mkTxInput (prevout t) (script_sig t) (nsequence t) (witness t)
            (_is_coinbase_output t) (sighash t) v.

Definition set__utxo (v : option Transaction) (e : PartialTxInputExt) : PartialTxInputExt :=
  mkPartialTxInputExt v (_witness_utxo e) (part_sigs e) (bip32_paths e)
    (redeem_script e) (witness_script e) (_unknown e) (script_type e) (num_sig e)
    (pubkeys e) (_trusted_value_sats e) (_trusted_address e) (block_height e)
    (spent_height e) (spent_txid e) (_is_p2sh_segwit e) (_is_native_segwit e)
    (witness_sizehint e).
Definition set__witness_utxo (v : option TxOutput) (e : PartialTxInputExt) : PartialTxInputExt :=
  mkPartialTxInputExt (_utxo e) v (part_sigs e) (bip32_paths e)
    (redeem_script e) (witness_script e) (_unknown e) (script_type e) (num_sig e)
    (pubkeys e) (_trusted_value_sats e) (_trusted_address e) (block_height e)
    (spent_height e) (spent_txid e) (_is_p2sh_segwit e) (_is_native_segwit e)
    (witness_sizehint e).
Definition set_part_sigs (v : gmap bytes bytes) (e : PartialTxInputExt) : PartialTxInputExt :=
  mkPartialTxInputExt (_utxo e) (_witness_utxo e) v (bip32_paths e)
    (redeem_script e) (witness_script e) (_unknown e) (script_type e) (num_sig e)
    (pubkeys e) (_trusted_value_sats e) (_trusted_address e) (block_height e)
    (spent_height e) (spent_txid e) (_is_p2sh_segwit e) (_is_native_segwit e)
    (witness_sizehint e).
Definition set_bip32_paths (v : gmap bytes (bytes * list Z)) (e : PartialTxInputExt) : PartialTxInputExt :=
  mkPartialTxInputExt (_utxo e) (_witness_utxo e) (part_sigs e) v
    (redeem_script e) (witness_script e) (_unknown e) (script_type e) (num_sig e)
    (pubkeys e) (_trusted_value_sats e) (_trusted_address e) (block_height e)
    (spent_height e) (spent_txid e) (_is_p2sh_segwit e) (_is_native_segwit e)
    (witness_sizehint e).
Definition set_redeem_script (v : option bytes) (e : PartialTxInputExt) : PartialTxInputExt :=
  mkPartialTxInputExt (_utxo e) (_witness_utxo e) (part_sigs e) (bip32_paths e)
    v (witness_script e) (_unknown e) (script_type e) (num_sig e)
    (pubkeys e) (_trusted_value_sats e) (_trusted_address e) (block_height e)
    (spent_height e) (spent_txid e) (_is_p2sh_segwit e) (_is_native_segwit e)
    (witness_sizehint e).
Definition set_witness_script (v : option bytes) (e : PartialTxInputExt) : PartialTxInputExt :=
  mkPartialTxInputExt (_utxo e) (_witness_utxo e) (part_sigs e) (bip32_paths e)
    (redeem_script e) v (_unknown e) (script_type e) (num_sig e)
    (pubkeys e) (_trusted_value_sats e) (_trusted_address e) (block_height e)
    (spent_height e) (spent_txid e) (_is_p2sh_segwit e) (_is_native_segwit e)
    (witness_sizehint e).
Definition set__is_p2sh_segwit (v : option bool) (e : PartialTxInputExt) : PartialTxInputExt :=
  mkPartialTxInputExt (_utxo e) (_witness_utxo e) (part_sigs e) (bip32_paths e)
    (redeem_script e) (witness_script e) (_unknown e) (script_type e) (num_sig e)
    (pubkeys e) (_trusted_value_sats e) (_trusted_address e) (block_height e)
    (spent_height e) (spent_txid e) v (_is_native_segwit e)
    (witness_sizehint e).
Definition set__is_native_segwit (v : option bool) (e : PartialTxInputExt) : PartialTxInputExt :=
  mkPartialTxInputExt (_utxo e) (_witness_utxo e) (part_sigs e) (bip32_paths e)
    (redeem_script e) (witness_script e) (_unknown e) (script_type e) (num_sig e)
    (pubkeys e) (_trusted_value_sats e) (_trusted_address e) (block_height e)
    (spent_height e) (spent_txid e) (_is_p2sh_segwit e) v
    (witness_sizehint e).
Definition set__unknown (v : gmap bytes bytes) (e : PartialTxInputExt) : PartialTxInputExt :=
  mkPartialTxInputExt (_utxo e) (_witness_utxo e) (part_sigs e) (bip32_paths e)
    (redeem_script e) (witness_script e) v (script_type e) (num_sig e)
    (pubkeys e) (_trusted_value_sats e) (_trusted_address e) (block_height e)
    (spent_height e) (spent_txid e) (_is_p2sh_segwit e) (_is_native_segwit e)
    (witness_sizehint e).

(** The state [PartialTxInput.__init__] adds. *)
Definition PartialTxInputExt_init : PartialTxInputExt :=
  mkPartialTxInputExt None None ∅ ∅ None None ∅ "unknown"%string 0 []
    None None None None None None None None.

(** The state [PartialTxOutput.__init__] adds. *)
Definition PartialTxOutputExt_init : PartialTxOutputExt :=
  mkPartialTxOutputExt None None ∅ ∅ "unknown"%string 0 [] false false.

Definition set_out_ext (v : option PartialTxOutputExt) (o : TxOutput) : TxOutput :=
  mkTxOutput (scriptpubkey o) (_value o) (asset o) v.

Definition set__inputs (v : list TxInput) (t : Transaction) : Transaction :=
  mkTransaction (_version t) (_locktime t) v (_outputs t) (for_swap t)
    (_cached_network_ser t) (_cached_txid t) (_wallet t) (psbt_tx t).
Definition set__outputs (v : list TxOutput) (t : Transaction) : Transaction :=
  mkTransaction (_version t) (_locktime t) (_inputs t) v (for_swap t)
    (_cached_network_ser t) (_cached_txid t) (_wallet t) (psbt_tx t).
Definition set__cached_network_ser (v : option bytes) (t : Transaction) : Transaction :=
  mkTransaction (_version t) (_locktime t) (_inputs t) (_outputs t) (for_swap t)
    v (_cached_txid t) (_wallet t) (psbt_tx t).
Definition set__cached_txid (v : option bytes) (t : Transaction) : Transaction :=
  mkTransaction (_version t) (_locktime t) (_inputs t) (_outputs t) (for_swap t)
    (_cached_network_ser t) v (_wallet t) (psbt_tx t).
Definition set_psbt_tx (v : option PartialTransactionExt) (t : Transaction) : Transaction :=
  mkTransaction (_version t) (_locktime t) (_inputs t) (_outputs t) (for_swap t)
    (_cached_network_ser t) (_cached_txid t) (_wallet t) v.

Definition invalidate_ser_cache (self : Transaction) : Transaction :=
  set__cached_txid None (set__cached_network_ser None self).

(** ** Integer encodings *)

(** Modelled from the spec: [ravencoin.int_to_hex] is defined in
    [electrum/ravencoin.py], which is not available.  The
    spec has fixed-width little-endian integers (§4.1, §6), a value that
    does not fit its field is a serialization failure (§7), and the
    version field is signed (two's complement). *)
Definition int_to_hex (i : Z) (length : nat) : result bytes :=
  let range_size := 256 ^ Z.of_nat length in
  if (i <? - (range_size / 2)) || (range_size <=? i) then Raise OverflowError
  else Ok (le_encode length (if i <? 0 then range_size + i else i)).

(** Modelled from the spec: [ravencoin.var_int] is defined in
    [electrum/ravencoin.py], which is not available.  The
    compact-size varint of §4.1: below 253 one byte; then 253 + u16,
    254 + u32, 255 + u64 (as [BCDataStream.write_compact_size] writes). *)
Definition var_int (i : Z) : result bytes :=
  _ ← py_assert (0 <=? i);
  if i <? 253 then int_to_hex i 1
  else if i <=? 65535 then b ← int_to_hex i 2; Ok (xfd :: b)
  else if i <=? 4294967295 then b ← int_to_hex i 4; Ok (xfe :: b)
  else b ← int_to_hex i 8; Ok (xff :: b).

(** [value.to_bytes(8, byteorder="little", signed=False)] *)
Definition value_to_bytes8 (v : value) : result bytes :=
  match v with
  | IntValue v =>
    if (0 <=? v) && (v <? 2 ^ 64) then Ok (le_encode 8 v) else Raise OverflowError
  | MaxSpend _ => Raise AttributeError
  end.

(** ** Truth values of Python objects *)

Definition truthy_bytes (b : option bytes) : bool :=
  match b with
  | Some (_ :: _) => true
  | _ => false
  end.

Definition truthy_str (s : option string) : bool :=
  match s with
  | Some (String _ _) => true
  | _ => false
  end.

Definition is_not_None {A} (o : option A) : bool :=
  match o with Some _ => true | None => false end.

(** [s[-1]] of a non-empty string, and [s[:-1]]. *)
Fixpoint str_last (s : string) : option ascii :=
  match s with
  | EmptyString => None
  | String c EmptyString => Some c
  | String _ r => str_last r
  end.

Fixpoint str_drop_last (s : string) : string :=
  match s with
  | EmptyString => EmptyString
  | String _ EmptyString => EmptyString
  | String c r => String c (str_drop_last r)
  end.

(** [x in ('a', 'b', ...)] *)
Definition str_in (s : string) (l : list string) : bool :=
  existsb (String.eqb s) l.

(** ** Helpers outside this file *)

(** An element of the list passed to [construct_script] and
    [construct_witness]: an int (opcode or small number) or data. *)
Inductive script_item : Type :=
| item_int (n : Z)
| item_data (b : bytes).

(** The text of a transaction, [str(tx)]: hex (a network transaction)
    or base64 (a PSBT), with the bytes it encodes. *)
Inductive tx_text : Type :=
| hex_text (raw : bytes)
| base64_text (raw : bytes).

(** The functions and tables this file imports from [ravencoin],
    [crypto], [assets], [segwit_addr] and [constants], whose sources are
    not available, and the parser [tx_from_any], which runs the decoding
    half of the codec together with the base64/base43 and BIP-32 helpers
    of those modules.  [Satoshis_value_setter v] is what the [value] setter of
    [TxOutput] leaves in [_value] when it is handed [Satoshis(v)]: the
    setter asserts [isinstance(value, int) or parse_max_spend(value) is
    not None], and [util.Satoshis] and [util.parse_max_spend] are defined
    in [electrum/util.py].  Every statement below holds for every
    instance. *)
Class Externals : Type := {
  sha256d : bytes -> bytes;
  hash_160 : bytes -> bytes;
  hash160_to_p2pkh : bytes -> string;
  hash160_to_p2sh : bytes -> string;
  hash_to_segwit_addr : bytes -> Z -> result string;
  address_to_script : string -> result bytes;
  is_segwit_address : string -> bool;
  is_segwit_script_type : string -> bool;
  decode_segwit_address : string -> option bytes;
  b58_address_to_hash160 : string -> result (Z * bytes);
  ADDRTYPE_P2PKH : Z;
  ADDRTYPE_P2SH : Z;
  BURN_ADDRESSES : list string;
  construct_script : list script_item -> result bytes;
  construct_witness : list script_item -> result bytes;
  p2wsh_nested_script : bytes -> result bytes;
  script_to_p2wsh : bytes -> result string;
  pubkeyhash_to_p2pkh_script : bytes -> result bytes;
  public_key_to_p2pk_script : bytes -> result bytes;
  guess_asset_script_for_vin :
    bytes -> string -> value -> TxInput -> option Abstract_Wallet -> result bytes;
  tx_from_any : tx_text -> result Transaction;
  Satoshis_value_setter : Z -> result value
}.

Section Codec.
Context `{Externals}.

(** ** TxOutput *)

Definition TxOutput_serialize_to_network (self : TxOutput) : result bytes :=
  buf ← (if truthy_str (asset self) then Ok (repeat x00 8)
         else value_to_bytes8 (_value self));
  let script := scriptpubkey self in
  n ← var_int (len script);
  Ok (buf ++ n ++ script).

(** [TxOutput.__eq__] between two [TxOutput] objects (a [PartialTxOutput]
    is one).  Python compares [bytes] with [bytes] and the two values
    with [==]: ints by number, strings by content, an int never equals a
    string. *)
Definition TxOutput_eq (self other : TxOutput) : bool :=
  bool_decide (scriptpubkey self = scriptpubkey other)
  && bool_decide (_value self = _value other).

Definition TxOutput_ne (self other : TxOutput) : bool :=
  negb (TxOutput_eq self other).

(** [TxOutput.__init__] keeps a value that is an int or a max-spend
    string; both arms of [value] are. *)
Definition PartialTxOutput_from_txout (txout : TxOutput) : TxOutput :=
  mkTxOutput (scriptpubkey txout) (_value txout) (asset txout)
             (Some PartialTxOutputExt_init).

(** ** TxOutpoint and TxInput *)

Definition TxOutpoint_serialize_to_network (self : TxOutpoint) : result bytes :=
  idx ← int_to_hex (out_idx self) 4;
  Ok (rev (txid self) ++ idx).

Definition TxOutpoint_is_coinbase (self : TxOutpoint) : bool :=
  bool_decide (txid self = repeat x00 32).

Definition is_coinbase_input (self : TxInput) : bool :=
  TxOutpoint_is_coinbase (prevout self).

(** [TxInput.is_segwit]: [self.witness not in (b'\x00', b'', None)]. *)
Definition TxInput_is_segwit (self : TxInput) : bool :=
  match witness self with
  | None => false
  | Some w => negb (bool_decide (w = [x00])) && negb (bool_decide (w = []))
  end.

Definition PartialTxInput_from_txin (txin : TxInput) (strip_witness : bool) : TxInput :=
  mkTxInput (prevout txin)
            (if strip_witness then None else script_sig txin)
            (nsequence txin)
            (if strip_witness then None else witness txin)
            (_is_coinbase_output txin)
            (sighash txin)
            (Some PartialTxInputExt_init).

(** Access to the [PartialTxInput] part of an input; a plain [TxInput]
    has none of these attributes. *)
Definition ext_of (self : TxInput) : result PartialTxInputExt :=
  match psbt_in self with
  | Some e => Ok e
  | None => Raise AttributeError
  end.

Definition with_ext (f : PartialTxInputExt -> PartialTxInputExt) (self : TxInput) : TxInput :=
  set_psbt_in (f <$> psbt_in self) self.

(** ** Address decoding *)

(** [decoded[i][1]], used as a byte string. *)
Definition vch_at (decoded : list ScriptOp) (i : Z) : result bytes :=
  tup ← index_or_raise decoded i;
  match sop_vch tup with
  | Some v => Ok v
  | None => Raise TypeError
  end.

(** The pairs [(witver, opcode)] of
    [enumerate(range(OP_1, OP_16 + 1), start=1)]. *)
Definition future_witness_versions : list (Z * Z) :=
  (fun witver => (witver, opcodes.OP_1 + witver - 1)) <$> seqZ 1 16.

Definition future_witness_template (opcode : Z) : list template_item :=
  [OP opcode; OPPushDataGeneric (fun x => (2 <=? x) && (x <=? 40))].

Definition get_address_from_output_script (_bytes : bytes) : result (option string) :=
  match script_GetOp _bytes with
  | Raise _ => Ok None
  | Ok raw_decoded =>
    let decoded := chop_at_asset raw_decoded in
    if match_script_against_template (script_decoded decoded) SCRIPTPUBKEY_TEMPLATE_P2PK then
      pubkey_bytes ← vch_at decoded 0;
      Ok (Some (hash160_to_p2pkh (hash_160 pubkey_bytes)))
    else if match_script_against_template (script_decoded decoded) SCRIPTPUBKEY_TEMPLATE_P2PKH then
      h ← vch_at decoded 2; Ok (Some (hash160_to_p2pkh h))
    else if match_script_against_template (script_decoded decoded) SCRIPTPUBKEY_TEMPLATE_P2SH then
      h ← vch_at decoded 1; Ok (Some (hash160_to_p2sh h))
    else if match_script_against_template (script_decoded decoded) SCRIPTPUBKEY_TEMPLATE_WITNESS_V0 then
      h ← vch_at decoded 1; Some <$> hash_to_segwit_addr h 0
    else
      match List.find (fun p => match_script_against_template (script_decoded decoded)
                                   (future_witness_template (snd p)))
                      future_witness_versions with
      | Some (witver, _) => h ← vch_at decoded 1; Some <$> hash_to_segwit_addr h witver
      | None => Ok None
      end
  end.

(** [TxOutput.address] *)
Definition TxOutput_address (self : TxOutput) : result (option string) :=
  get_address_from_output_script (scriptpubkey self).

(** ** Short-circuit [any(...)] / [all(...)] over a generator *)

Fixpoint anyM {A} (f : A -> result bool) (l : list A) : result bool :=
  match l with
  | [] => Ok false
  | x :: r => b ← f x; if b : bool then Ok true else anyM f r
  end.

Fixpoint allM {A} (f : A -> result bool) (l : list A) : result bool :=
  match l with
  | [] => Ok true
  | x :: r => b ← f x; if b : bool then allM f r else Ok false
  end.

(** ** PartialTxInput: derived attributes

    The two memo fields [_is_native_segwit] and [_is_p2sh_segwit] are
    read.  The definitions of this part give the value that one call
    returns in a given state of the input: the memo a call writes is the
    value it returns, so a second read in the same state gives the same
    answer.  The calls together with the memo they leave on the input
    are defined with the methods that assign to a PSBT input, below. *)

(** [RavenValue(0, {asset: value})] or [RavenValue(value)] of an output. *)
Definition RavenValue_of_output (outpoint : TxOutput) : RavenValue :=
  match asset outpoint with
  | Some (String c r) => mkRavenValue (IntValue 0) [(String c r, _value outpoint)]
  | _ => mkRavenValue (_value outpoint) []
  end.

(** [txin.value_sats()]: [TxInput.value_sats] for a plain input,
    [PartialTxInput.value_sats] otherwise. *)
Definition value_sats (self : TxInput) : result (option RavenValue) :=
  match psbt_in self with
  | None => Ok None
  | Some e =>
    match _trusted_value_sats e with
    | Some v => Ok (Some v)
    | None =>
      match _utxo e with
      | Some utxo =>
        outpoint ← index_or_raise (_outputs utxo) (out_idx (prevout self));
        Ok (Some (RavenValue_of_output outpoint))
      | None =>
        match _witness_utxo e with
        | Some outpoint => Ok (Some (RavenValue_of_output outpoint))
        | None => Ok None
        end
      end
    end
  end.

(** [PartialTxInput.scriptpubkey] *)
Definition PartialTxInput_scriptpubkey (self : TxInput) : result (option bytes) :=
  e ← ext_of self;
  match _trusted_address e with
  | Some addr =>
    v ← value_sats self;
    match v with
    | None => Raise AttributeError
    | Some _ => script ← address_to_script addr; Ok (Some script)
    end
  | None =>
    match _utxo e with
    | Some utxo =>
      o ← index_or_raise (_outputs utxo) (out_idx (prevout self));
      Ok (Some (scriptpubkey o))
    | None =>
      match _witness_utxo e with
      | Some o => Ok (Some (scriptpubkey o))
      | None => Ok None
      end
    end
  end.

(** [PartialTxInput.address] *)
Definition PartialTxInput_address (self : TxInput) : result (option string) :=
  e ← ext_of self;
  match _trusted_address e with
  | Some addr => Ok (Some addr)
  | None =>
    spk ← PartialTxInput_scriptpubkey self;
    match spk with
    | Some (b :: r) => get_address_from_output_script (b :: r)
    | _ => Ok None
    end
  end.

Definition is_native_segwit (self : TxInput) : result (option bool) :=
  e ← ext_of self;
  match _is_native_segwit e with
  | Some b => Ok (Some b)
  | None =>
    addr ← PartialTxInput_address self;
    match addr with
    | Some (String c r) => Ok (Some (is_segwit_address (String c r)))
    | _ => Ok None
    end
  end.

Definition calc_if_p2sh_segwit_now (self : TxInput) : result (option bool) :=
  e ← ext_of self;
  addr ← PartialTxInput_address self;
  match addr, redeem_script e with
  | Some (String c r), Some (b :: s) =>
    let addr := String c r in
    let redeem := b :: s in
    if negb (String.eqb addr (hash160_to_p2sh (hash_160 redeem))) then Ok (Some false)
    else
      let decoded := match script_GetOp redeem with
                     | Ok d => script_decoded d
                     | Raise _ => script_None
                     end in
      if match_script_against_template decoded SCRIPTPUBKEY_TEMPLATE_WITNESS_V0
      then Ok (Some true)
      else Ok (Some (existsb (fun p => match_script_against_template decoded
                                          (future_witness_template (snd p)))
                             future_witness_versions))
  | _, _ => Ok None
  end.

Definition is_p2sh_segwit (self : TxInput) : result (option bool) :=
  e ← ext_of self;
  match _is_p2sh_segwit e with
  | Some b => Ok (Some b)
  | None => calc_if_p2sh_segwit_now self
  end.

Definition guess_txintype_from_address (addr : option string) : result string :=
  match addr with
  | None => Ok "p2wpkh"%string
  | Some addr =>
    match decode_segwit_address addr with
    | Some _ => Ok "p2wpkh"%string
    | None =>
      '(addrtype, _) ← b58_address_to_hash160 addr;
      if addrtype =? ADDRTYPE_P2PKH then Ok "p2pkh"%string
      else if addrtype =? ADDRTYPE_P2SH then Ok "p2wpkh-p2sh"%string
      else Raise (Exception "unrecognized address")
    end
  end.

(** [PartialTxInput.is_segwit] *)
Definition PartialTxInput_is_segwit (self : TxInput) (guess_for_address : bool) : result bool :=
  e ← ext_of self;
  if TxInput_is_segwit self then Ok true
  else
    native ← is_native_segwit self;
    p2sh_or ← (if bool_decide (native = Some true) then Ok true
               else p ← is_p2sh_segwit self; Ok (bool_decide (p = Some true)));
    if p2sh_or : bool then Ok true
    else
      both_False ← (if bool_decide (native = Some false)
                    then p ← is_p2sh_segwit self; Ok (bool_decide (p = Some false))
                    else Ok false);
      if both_False : bool then Ok false
      else if truthy_bytes (witness_script e) then Ok true
      else
        _type ← (if String.eqb (script_type e) "address" && guess_for_address
                 then addr ← PartialTxInput_address self; guess_txintype_from_address addr
                 else Ok (script_type e));
        Ok (is_segwit_script_type _type).

(** [txin.is_segwit(guess_for_address=g)], dispatched on the class of
    the object. *)
Definition is_segwit (self : TxInput) (guess_for_address : bool) : result bool :=
  match psbt_in self with
  | None => Ok (TxInput_is_segwit self)
  | Some _ => PartialTxInput_is_segwit self guess_for_address
  end.

(** [PartialTxInput.is_complete]; a plain [TxInput] has no such method. *)
Definition PartialTxInput_is_complete (self : TxInput) : result bool :=
  e ← ext_of self;
  if is_not_None (script_sig self) && is_not_None (witness self) then Ok true
  else if is_coinbase_input self then Ok true
  else
    done_legacy ← (if is_not_None (script_sig self)
                   then sw ← is_segwit self false; Ok (negb sw)
                   else Ok false);
    if done_legacy : bool then Ok true
    else
      let s := Z.of_nat (size (part_sigs e)) in
      if str_in (script_type e) ["p2pk"; "p2pkh"; "p2wpkh"; "p2wpkh-p2sh"]%string
      then Ok (1 <=? s)
      else if str_in (script_type e) ["p2sh"; "p2wsh"; "p2wsh-p2sh"]%string
      then Ok (num_sig e <=? s)
      else Ok false.

(** [tx.is_complete()]: [True] for a [Transaction], all inputs complete
    for a [PartialTransaction] (the list comprehension visits every
    input). *)
Definition Transaction_is_complete (self : Transaction) : result bool :=
  match psbt_tx self with
  | None => Ok true
  | Some _ =>
    l ← mapM PartialTxInput_is_complete (_inputs self);
    Ok (forallb id l)
  end.

(** ** Scripts and witnesses of an input *)

Definition multisig_script (public_keys : list bytes) (m : Z) : result bytes :=
  let n := len public_keys in
  _ ← py_assert ((1 <=? m) && (m <=? n) && (n <=? 15));
  construct_script ([item_int m] ++ (item_data <$> public_keys)
                    ++ [item_int n; item_int opcodes.OP_CHECKMULTISIG]).

(** [Transaction.get_siglist]: the public keys and the signatures, both
    as the data they encode. *)
Definition get_siglist (txin : TxInput) (estimate_size : bool)
  : result (list bytes * list bytes) :=
  if is_coinbase_input txin then Ok ([], [])
  else
    e ← ext_of txin;
    if estimate_size then
      let pubkey_size := match pubkeys e with
                         | pk :: _ => length pk
                         | [] => 33%nat
                         end in
      let num_pubkeys := Z.max 1 (len (pubkeys e)) in
      let pk_list := repeat (repeat x00 pubkey_size) (Z.to_nat num_pubkeys) in
      let num_sig := Z.max 1 (num_sig e) in
      let sig_list := repeat (repeat x00 72) (Z.to_nat num_sig) in
      Ok (pk_list, sig_list)
    else
      let pk_list := pubkeys e in
      let sig_list := (fun pubkey => default [] (part_sigs e !! pubkey)) <$> pubkeys e in
      complete ← PartialTxInput_is_complete txin;
      let sig_list := if complete : bool
                      then List.filter (fun sig => truthy_bytes (Some sig)) sig_list
                      else sig_list in
      Ok (pk_list, sig_list).

Definition serialize_witness (txin : TxInput) (estimate_size : bool) : result bytes :=
  match witness txin with
  | Some w => Ok w
  | None =>
    if is_coinbase_input txin then Ok []
    else
      _ ← py_assert (is_not_None (psbt_in txin));
      e ← ext_of txin;
      let _type := script_type e in
      sw ← is_segwit txin false;
      if negb sw then construct_witness []
      else
        match (if estimate_size then witness_sizehint e else None) with
        | Some hint => Ok (repeat x00 (Z.to_nat hint))
        | None =>
          _type ← (if str_in _type ["address"; "unknown"]%string && estimate_size
                   then addr ← PartialTxInput_address txin; guess_txintype_from_address addr
                   else Ok _type);
          '(pubkeys, sig_list) ← get_siglist txin estimate_size;
          if str_in _type ["p2wpkh"; "p2wpkh-p2sh"]%string then
            sig ← index_or_raise sig_list 0;
            pk ← index_or_raise pubkeys 0;
            construct_witness [item_data sig; item_data pk]
          else if str_in _type ["p2wsh"; "p2wsh-p2sh"]%string then
            witness_script ← multisig_script pubkeys (num_sig e);
            construct_witness ([item_int 0] ++ (item_data <$> sig_list)
                               ++ [item_data witness_script])
          else if str_in _type ["p2pk"; "p2pkh"; "p2sh"]%string then
            construct_witness []
          else Raise UnknownTxinType
        end
  end.

Definition input_script (txin : TxInput) (estimate_size : bool) : result bytes :=
  match script_sig txin with
  | Some s => Ok s
  | None =>
    if is_coinbase_input txin then Ok []
    else
      _ ← py_assert (is_not_None (psbt_in txin));
      e ← ext_of txin;
      p2sh ← is_p2sh_segwit txin;
      if bool_decide (p2sh = Some true) && truthy_bytes (redeem_script e) then
        construct_script [item_data (default [] (redeem_script e))]
      else
        native ← is_native_segwit txin;
        if bool_decide (native = Some true) then Ok []
        else
          let _type := script_type e in
          '(pubkeys, sig_list) ← get_siglist txin estimate_size;
          _type ← (if str_in _type ["address"; "unknown"]%string && estimate_size
                   then addr ← PartialTxInput_address txin; guess_txintype_from_address addr
                   else Ok _type);
          if String.eqb _type "p2pk" then
            sig ← index_or_raise sig_list 0;
            construct_script [item_data sig]
          else if String.eqb _type "p2sh" then
            redeem_script ← multisig_script pubkeys (num_sig e);
            construct_script ([item_int 0] ++ (item_data <$> sig_list)
                              ++ [item_data redeem_script])
          else if String.eqb _type "p2pkh" then
            sig ← index_or_raise sig_list 0;
            pk ← index_or_raise pubkeys 0;
            construct_script [item_data sig; item_data pk]
          else if str_in _type ["p2wpkh"; "p2wsh"]%string then Ok []
          else if String.eqb _type "p2wpkh-p2sh" then Raise NotImplementedError
          else if String.eqb _type "p2wsh-p2sh" then Raise NotImplementedError
          else Raise UnknownTxinType
  end.

(** [OP_CODESEPARATOR in [x[0] for x in script_GetOp(script)]] *)
Definition has_codeseparator (script : bytes) : result bool :=
  ops ← script_GetOp script;
  Ok (existsb (fun x => sop_opcode x =? opcodes.OP_CODESEPARATOR) ops).

Definition outpoint_key (o : TxOutpoint) : bytes * Z := (txid o, out_idx o).

Definition get_preimage_script (txin : TxInput) (wallet : option Abstract_Wallet)
    (txin_locking_script_overrides : gmap (bytes * Z) bytes) : result bytes :=
  e ← ext_of txin;
  match witness_script e with
  | Some (b :: r) =>
    sep ← has_codeseparator (b :: r);
    if sep : bool then Raise (Exception "OP_CODESEPARATOR black magic is not supported")
    else Raise NotImplementedError
  | _ =>
    sw ← is_segwit txin false;
    if negb sw && truthy_bytes (redeem_script e) then
      let redeem := default [] (redeem_script e) in
      sep ← has_codeseparator redeem;
      if sep : bool then Raise (Exception "OP_CODESEPARATOR black magic is not supported")
      else Ok redeem
    else
      let pubkeys := pubkeys e in
      script ← (if str_in (script_type e) ["p2sh"; "p2wsh"; "p2wsh-p2sh"]%string then
                  multisig_script pubkeys (num_sig e)
                else if str_in (script_type e) ["p2pkh"; "p2wpkh"; "p2wpkh-p2sh"]%string then
                  pubkey ← index_or_raise pubkeys 0;
                  pubkeyhash_to_p2pkh_script (hash_160 pubkey)
                else if String.eqb (script_type e) "p2pk" then
                  pubkey ← index_or_raise pubkeys 0;
                  public_key_to_p2pk_script pubkey
                else Raise UnknownTxinType);
      v ← value_sats txin;
      a ← match v with
          | Some v => Ok (assets v)
          | None => Raise AttributeError
          end;
      script ← match a with
               | (asset, amt) :: _ => guess_asset_script_for_vin script asset amt txin wallet
               | [] => Ok script
               end;
      let script := match wallet with
                    | Some w => default script
                                  (get_nonstandard_outpoints w !! outpoint_key (prevout txin))
                    | None => script
                    end in
      let script := default script
                      (txin_locking_script_overrides !! outpoint_key (prevout txin)) in
      Ok script
  end.

Definition serialize_input (txin : TxInput) (script : bytes) : result bytes :=
  s ← TxOutpoint_serialize_to_network (prevout txin);
  n ← var_int (len script);
  seq ← int_to_hex (nsequence txin) 4;
  Ok (s ++ n ++ script ++ seq).

(** ** Transaction: network serialization and txid *)

(** [''.join(f(x) for x in l)] *)
Definition concat_mapM {A} (f : A -> result bytes) (l : list A) : result bytes :=
  parts ← mapM f l; Ok (concat parts).

Record BIP143SharedTxDigestFields : Type := mkBIP143SharedTxDigestFields {
  hashPrevouts : bytes;
  hashSequence : bytes;
  hashOutputs : bytes
}.

Definition _calc_bip143_shared_txdigest_fields (self : Transaction)
  : result BIP143SharedTxDigestFields :=
  let inputs := _inputs self in
  let outputs := _outputs self in
  prevouts ← concat_mapM (fun txin => TxOutpoint_serialize_to_network (prevout txin)) inputs;
  sequences ← concat_mapM (fun txin => int_to_hex (nsequence txin) 4) inputs;
  outs ← concat_mapM TxOutput_serialize_to_network outputs;
  Ok (mkBIP143SharedTxDigestFields (sha256d prevouts) (sha256d sequences) (sha256d outs)).

Definition Transaction_is_segwit (self : Transaction) (guess_for_address : bool) : result bool :=
  anyM (fun txin => is_segwit txin guess_for_address) (_inputs self).

Definition serialize_to_network (self : Transaction)
    (estimate_size include_sigs force_legacy : bool) : result bytes :=
  nVersion ← int_to_hex (_version self) 4;
  nLocktime ← int_to_hex (_locktime self) 4;
  let inputs := _inputs self in
  let outputs := _outputs self in
  let create_script_sig (txin : TxInput) : result bytes :=
    if include_sigs then input_script txin estimate_size else Ok [] in
  n_in ← var_int (len inputs);
  ins ← concat_mapM (fun txin => script ← create_script_sig txin; serialize_input txin script)
                    inputs;
  let txins := n_in ++ ins in
  n_out ← var_int (len outputs);
  outs ← concat_mapM TxOutput_serialize_to_network outputs;
  let txouts := n_out ++ outs in
  use_segwit_ser_for_estimate_size ←
    (if estimate_size then Transaction_is_segwit self true else Ok false);
  use_segwit_ser_for_actual_use ←
    (if negb estimate_size then Transaction_is_segwit self false else Ok false);
  let use_segwit_ser := use_segwit_ser_for_estimate_size || use_segwit_ser_for_actual_use in
  if include_sigs && negb force_legacy && use_segwit_ser then
    witness ← concat_mapM (fun x => serialize_witness x estimate_size) inputs;
    Ok (nVersion ++ [x00] ++ [x01] ++ txins ++ txouts ++ witness ++ nLocktime)
  else Ok (nVersion ++ txins ++ txouts ++ nLocktime).

(** [Transaction.txid]: the returned value and the transaction with its
    txid cache. *)
Definition Transaction_txid (self : Transaction) : result (option bytes * Transaction) :=
  match _cached_txid self with
  | Some cached => Ok (Some cached, self)
  | None =>
    all_segwit ← allM (fun txin => is_segwit txin false) (_inputs self);
    incomplete ← (if negb all_segwit
                  then c ← Transaction_is_complete self; Ok (negb c)
                  else Ok false);
    if incomplete : bool then Ok (None, self)
    else
      match serialize_to_network self false true true with
      | Raise UnknownTxinType => Ok (None, self)
      | Raise e => Raise e
      | Ok ser =>
        let h := rev (sha256d ser) in
        Ok (Some h, set__cached_txid (Some h) self)
      end
  end.

End Codec.

(** ** Sorting

    [list.sort(key=...)] and [sorted(...)] are stable sorts by [<] on the
    keys.  For a total preorder on the keys the stable arrangement is
    unique; it is computed here by insertion from the right, where a new
    element is placed before the first element that is not smaller. *)

Fixpoint insert_sorted {A} (le : A -> A -> bool) (x : A) (l : list A) : list A :=
  match l with
  | [] => [x]
  | y :: r => if le x y then x :: y :: r else y :: insert_sorted le x r
  end.

Definition stable_sort {A} (le : A -> A -> bool) (l : list A) : list A :=
  foldr (insert_sorted le) [] l.

(** [bytes] are ordered lexicographically by unsigned byte value, a
    proper prefix first. *)
Fixpoint bytes_compare (a b : bytes) : comparison :=
  match a, b with
  | [], [] => Eq
  | [], _ :: _ => Lt
  | _ :: _, [] => Gt
  | x :: a', y :: b' =>
    match byte_val x ?= byte_val y with
    | Eq => bytes_compare a' b'
    | c => c
    end
  end.

Definition bytes_leb (a b : bytes) : bool :=
  match bytes_compare a b with Gt => false | _ => true end.

(** [str] are ordered lexicographically by code point. *)
Fixpoint str_compare (a b : string) : comparison :=
  match a, b with
  | EmptyString, EmptyString => Eq
  | EmptyString, String _ _ => Lt
  | String _ _, EmptyString => Gt
  | String x a', String y b' =>
    match N.compare (N_of_ascii x) (N_of_ascii y) with
    | Eq => str_compare a' b'
    | c => c
    end
  end.

(** Order of two [value]s of the same kind.  Python raises TypeError on
    [int < str]; [BIP69_sort] below rules the mixed case out before it
    sorts, so the order between the two kinds is never consulted. *)
Definition value_compare (a b : value) : comparison :=
  match a, b with
  | IntValue x, IntValue y => x ?= y
  | MaxSpend x, MaxSpend y => str_compare x y
  | IntValue _, MaxSpend _ => Lt
  | MaxSpend _, IntValue _ => Gt
  end.

(** Tuples compare lexicographically. *)
Definition lex_leb (c1 c2 : comparison) : bool :=
  match c1 with
  | Lt => true
  | Gt => false
  | Eq => match c2 with Gt => false | _ => true end
  end.

(** The key [(i.prevout.txid, i.prevout.out_idx)]. *)
Definition input_key_leb (a b : TxInput) : bool :=
  lex_leb (bytes_compare (txid (prevout a)) (txid (prevout b)))
          (out_idx (prevout a) ?= out_idx (prevout b)).

(** The key [(o.value, o.scriptpubkey)]. *)
Definition output_key_leb (a b : TxOutput) : bool :=
  lex_leb (value_compare (_value a) (_value b))
          (bytes_compare (scriptpubkey a) (scriptpubkey b)).

Definition is_IntValue (v : value) : bool :=
  match v with IntValue _ => true | MaxSpend _ => false end.

(** Whether sorting the outputs by value compares an int with a string.
    A comparison sort that ends without having compared the two kinds
    would return the same list whichever kind is taken to be the
    smaller, so it does compare them as soon as both are present. *)
Definition values_of_one_kind (l : list TxOutput) : bool :=
  forallb (fun o => is_IntValue (_value o)) l
  || forallb (fun o => negb (is_IntValue (_value o))) l.

(** ** PSBT key-value records *)

Module SIGHASH.
Definition ALL : Z := 1.
Definition NONE : Z := 2.
Definition SINGLE : Z := 3.
Definition ANYONECANPAY : Z := 128.
Definition ALL_ANYONECANPAY : Z := ALL + ANYONECANPAY.
Definition NONE_ANYONECANPAY : Z := NONE + ANYONECANPAY.
Definition SINGLE_ANYONECANPAY : Z := SINGLE + ANYONECANPAY.
(** [list(map(int, SIGHASH))] *)
Definition members : list Z :=
  [ALL; NONE; SINGLE; ANYONECANPAY; ALL_ANYONECANPAY; NONE_ANYONECANPAY;
   SINGLE_ANYONECANPAY].
End SIGHASH.

Module PSBTGlobalType.
Definition UNSIGNED_TX : Z := 0.
Definition XPUB : Z := 1.
Definition VERSION : Z := 251.
End PSBTGlobalType.

Module PSBTOutputType.
Definition REDEEM_SCRIPT : Z := 0.
Definition WITNESS_SCRIPT : Z := 1.
Definition BIP32_DERIVATION : Z := 2.
End PSBTOutputType.

Module PSBTInputType.
Definition NON_WITNESS_UTXO : Z := 0.
Definition WITNESS_UTXO : Z := 1.
Definition PARTIAL_SIG : Z := 2.
Definition SIGHASH_TYPE : Z := 3.
Definition REDEEM_SCRIPT : Z := 4.
Definition WITNESS_SCRIPT : Z := 5.
Definition BIP32_DERIVATION : Z := 6.
Definition FINAL_SCRIPTSIG : Z := 7.
Definition FINAL_SCRIPTWITNESS : Z := 8.
End PSBTInputType.

(** [deser_compact_size] on the stream of a full key: the value read and
    the rest of the stream; [None] at end of file. *)
Definition deser_compact_size (f : bytes) : result (option (Z * bytes)) :=
  match f with
  | [] => Ok None
  | b :: r =>
    let nit := byte_val b in
    let wide (w : nat) :=
      if (len r <? Z.of_nat w) then Raise struct_error
      else Ok (Some (le_decode (firstn w r), skipn w r)) in
    if nit =? 253 then wide 2%nat
    else if nit =? 254 then wide 4%nat
    else if nit =? 255 then wide 8%nat
    else Ok (Some (nit, r))
  end.

Definition get_keytype_and_key_from_fullkey (full_key : bytes) : result (Z * bytes) :=
  r ← deser_compact_size full_key;
  match r with
  | None => Raise UnexpectedEndOfStream
  | Some p => Ok p
  end.

Definition get_fullkey_from_keytype_and_key (key_type : Z) (key : bytes) : result bytes :=
  key_type_bytes ← var_int key_type;
  Ok (key_type_bytes ++ key).

(** The writer [wr] of [create_psbt_writer]: the bytes it appends. *)
Definition wr (key_type : Z) (val : bytes) (key : bytes) : result bytes :=
  full_key ← get_fullkey_from_keytype_and_key key_type key;
  key_size ← var_int (len full_key);
  val_size ← var_int (len val);
  Ok (key_size ++ full_key ++ val_size ++ val).

Definition pack_bip32_root_fingerprint_and_int_path (xfp : bytes) (path : list Z)
  : result bytes :=
  if negb (len xfp =? 4) then Raise (Exception "unexpected xfp length")
  else
    p ← concat_mapM (fun i => if (0 <=? i) && (i <? 2 ^ 32) then Ok (le_encode 4 i)
                              else Raise OverflowError) path;
    Ok (xfp ++ p).

(** [sorted(d.items())] and [sorted(d)] of a dict with [bytes] keys. *)
Definition sorted_items {V} (d : gmap bytes V) : list (bytes * V) :=
  stable_sort (fun a b => bytes_leb (fst a) (fst b)) (map_to_list d).

Section Psbt.
Context `{Externals}.

(** ** PartialTxInput: the calls that write the segwit memo

    [is_native_segwit()] and [is_p2sh_segwit()] store what they compute
    in [_is_native_segwit] and [_is_p2sh_segwit].  The definitions above
    give the value of one call in a given state of the input; here are
    the same methods as calls on the input, which also give the input
    with the memo the call leaves, for the operations that change the
    input between two such calls. *)

Definition is_native_segwit_call : method TxInput (option bool) :=
  e ← reading ext_of;
  _ ← match _is_native_segwit e with
      | None =>
        address ← reading PartialTxInput_address;
        match address with
        | Some (String c r) =>
          assign (with_ext (set__is_native_segwit
                              (Some (is_segwit_address (String c r)))))
        | _ => mret tt
        end
      | Some _ => mret tt
      end;
  e ← reading ext_of;
  mret (_is_native_segwit e).

Definition is_p2sh_segwit_call : method TxInput (option bool) :=
  e ← reading ext_of;
  _ ← match _is_p2sh_segwit e with
      | None =>
        now ← reading calc_if_p2sh_segwit_now;
        assign (with_ext (set__is_p2sh_segwit now))
      | Some _ => mret tt
      end;
  e ← reading ext_of;
  mret (_is_p2sh_segwit e).

(** [PartialTxInput.is_segwit] *)
Definition PartialTxInput_is_segwit_call (guess_for_address : bool) : method TxInput bool :=
  e ← reading ext_of;
  self ← this;
  if TxInput_is_segwit self then mret true
  else
    native ← is_native_segwit_call;
    p2sh_or ← (if bool_decide (native = Some true) then mret true
               else p ← is_p2sh_segwit_call; mret (bool_decide (p = Some true)));
    if p2sh_or : bool then mret true
    else
      native ← is_native_segwit_call;
      both_False ← (if bool_decide (native = Some false)
                    then p ← is_p2sh_segwit_call; mret (bool_decide (p = Some false))
                    else mret false);
      if both_False : bool then mret false
      else if truthy_bytes (witness_script e) then mret true
      else
        _type ← (if String.eqb (script_type e) "address" && guess_for_address
                 then addr ← reading PartialTxInput_address;
                      reading (fun _ => guess_txintype_from_address addr)
                 else mret (script_type e));
        mret (is_segwit_script_type _type).

(** [txin.is_segwit(guess_for_address=g)], dispatched on the class of
    the object. *)
Definition is_segwit_call (guess_for_address : bool) : method TxInput bool :=
  self ← this;
  match psbt_in self with
  | None => mret (TxInput_is_segwit self)
  | Some _ => PartialTxInput_is_segwit_call guess_for_address
  end.

(** [PartialTxInput.is_complete] *)
Definition PartialTxInput_is_complete_call : method TxInput bool :=
  e ← reading ext_of;
  self ← this;
  if is_not_None (script_sig self) && is_not_None (witness self) then mret true
  else if is_coinbase_input self then mret true
  else
    done_legacy ← (if is_not_None (script_sig self)
                   then sw ← is_segwit_call false; mret (negb sw)
                   else mret false);
    if done_legacy : bool then mret true
    else
      let s := Z.of_nat (size (part_sigs e)) in
      if str_in (script_type e) ["p2pk"; "p2pkh"; "p2wpkh"; "p2wpkh-p2sh"]%string
      then mret (1 <=? s)
      else if str_in (script_type e) ["p2sh"; "p2wsh"; "p2wsh-p2sh"]%string
      then mret (num_sig e <=? s)
      else mret false.

(** [Transaction.get_siglist] *)
Definition get_siglist_call (estimate_size : bool)
  : method TxInput (list bytes * list bytes) :=
  txin ← this;
  if is_coinbase_input txin then mret ([], [])
  else
    e ← reading ext_of;
    if estimate_size then
      let pubkey_size := match pubkeys e with
                         | pk :: _ => length pk
                         | [] => 33%nat
                         end in
      let num_pubkeys := Z.max 1 (len (pubkeys e)) in
      let pk_list := repeat (repeat x00 pubkey_size) (Z.to_nat num_pubkeys) in
      let num_sig := Z.max 1 (num_sig e) in
      let sig_list := repeat (repeat x00 72) (Z.to_nat num_sig) in
      mret (pk_list, sig_list)
    else
      let pk_list := pubkeys e in
      let sig_list := (fun pubkey => default [] (part_sigs e !! pubkey)) <$> pubkeys e in
      complete ← PartialTxInput_is_complete_call;
      let sig_list := if complete : bool
                      then List.filter (fun sig => truthy_bytes (Some sig)) sig_list
                      else sig_list in
      mret (pk_list, sig_list).

(** [Transaction.serialize_witness] *)
Definition serialize_witness_call (estimate_size : bool) : method TxInput bytes :=
  txin ← this;
  match witness txin with
  | Some w => mret w
  | None =>
    if is_coinbase_input txin then mret []
    else
      _ ← reading (fun txin => py_assert (is_not_None (psbt_in txin)));
      e ← reading ext_of;
      let _type := script_type e in
      sw ← is_segwit_call false;
      if negb sw then reading (fun _ => construct_witness [])
      else
        match (if estimate_size then witness_sizehint e else None) with
        | Some hint => mret (repeat x00 (Z.to_nat hint))
        | None =>
          _type ← (if str_in _type ["address"; "unknown"]%string && estimate_size
                   then addr ← reading PartialTxInput_address;
                        reading (fun _ => guess_txintype_from_address addr)
                   else mret _type);
          '(pubkeys, sig_list) ← get_siglist_call estimate_size;
          reading (fun _ =>
            if str_in _type ["p2wpkh"; "p2wpkh-p2sh"]%string then
              sig ← index_or_raise sig_list 0;
              pk ← index_or_raise pubkeys 0;
              construct_witness [item_data sig; item_data pk]
            else if str_in _type ["p2wsh"; "p2wsh-p2sh"]%string then
              witness_script ← multisig_script pubkeys (num_sig e);
              construct_witness ([item_int 0] ++ (item_data <$> sig_list)
                                 ++ [item_data witness_script])
            else if str_in _type ["p2pk"; "p2pkh"; "p2sh"]%string then
              construct_witness []
            else Raise UnknownTxinType)
        end
  end.

(** [Transaction.input_script] *)
Definition input_script_call (estimate_size : bool) : method TxInput bytes :=
  txin ← this;
  match script_sig txin with
  | Some s => mret s
  | None =>
    if is_coinbase_input txin then mret []
    else
      _ ← reading (fun txin => py_assert (is_not_None (psbt_in txin)));
      e ← reading ext_of;
      p2sh ← is_p2sh_segwit_call;
      if bool_decide (p2sh = Some true) && truthy_bytes (redeem_script e) then
        reading (fun _ => construct_script [item_data (default [] (redeem_script e))])
      else
        native ← is_native_segwit_call;
        if bool_decide (native = Some true) then mret []
        else
          let _type := script_type e in
          '(pubkeys, sig_list) ← get_siglist_call estimate_size;
          _type ← (if str_in _type ["address"; "unknown"]%string && estimate_size
                   then addr ← reading PartialTxInput_address;
                        reading (fun _ => guess_txintype_from_address addr)
                   else mret _type);
          reading (fun _ =>
            if String.eqb _type "p2pk" then
              sig ← index_or_raise sig_list 0;
              construct_script [item_data sig]
            else if String.eqb _type "p2sh" then
              redeem_script ← multisig_script pubkeys (num_sig e);
              construct_script ([item_int 0] ++ (item_data <$> sig_list)
                                ++ [item_data redeem_script])
            else if String.eqb _type "p2pkh" then
              sig ← index_or_raise sig_list 0;
              pk ← index_or_raise pubkeys 0;
              construct_script [item_data sig; item_data pk]
            else if str_in _type ["p2wpkh"; "p2wsh"]%string then Ok []
            else if String.eqb _type "p2wpkh-p2sh" then Raise NotImplementedError
            else if String.eqb _type "p2wsh-p2sh" then Raise NotImplementedError
            else Raise UnknownTxinType)
  end.

(** [Transaction.is_segwit]: [any(...)] over a generator stops at the
    first input that answers [True]; the inputs asked so far keep the
    memo. *)
Fixpoint any_is_segwit_call (guess_for_address : bool) (inputs : list TxInput)
  : list TxInput * result bool :=
  match inputs with
  | [] => ([], Ok false)
  | txin :: r =>
    match is_segwit_call guess_for_address txin with
    | (txin', Ok true) => (txin' :: r, Ok true)
    | (txin', Ok false) =>
      let '(r', b) := any_is_segwit_call guess_for_address r in (txin' :: r', b)
    | (txin', Raise e) => (txin' :: r, Raise e)
    end
  end.

(** ** PartialTxInput: validation, finalize, PSBT section *)

(** [validate_data].  The [for_signing and False] test is dead.  The
    call [self.utxo.txid()] may fill the txid cache of the previous
    transaction; that write is not threaded (the value read is the same
    with or without it). *)
Definition validate_data (self : TxInput) (for_signing : bool) : result unit :=
  e ← ext_of self;
  _ ← match _utxo e with
      | Some utxo =>
        '(id, _) ← Transaction_txid utxo;
        if negb (bool_decide (Some (txid (prevout self)) = id))
        then Raise PSBTInputConsistencyFailure
        else
          match _witness_utxo e with
          | Some w =>
            o ← index_or_raise (_outputs utxo) (out_idx (prevout self));
            if TxOutput_ne o w then Raise PSBTInputConsistencyFailure else Ok tt
          | None => Ok tt
          end
      | None => Ok tt
      end;
  _ ← (if truthy_bytes (redeem_script e) then
         address ← PartialTxInput_address self;
         if truthy_str address then
           let addr := hash160_to_p2sh (hash_160 (default [] (redeem_script e))) in
           if negb (bool_decide (address = Some addr))
           then Raise PSBTInputConsistencyFailure else Ok tt
         else Ok tt
       else Ok tt);
  match witness_script e with
  | Some (b :: r) =>
    let ws := b :: r in
    if truthy_bytes (redeem_script e) then
      nested ← p2wsh_nested_script ws;
      if negb (bool_decide (redeem_script e = Some nested))
      then Raise PSBTInputConsistencyFailure else Ok tt
    else
      address ← PartialTxInput_address self;
      if truthy_str address then
        a ← script_to_p2wsh ws;
        if negb (bool_decide (address = Some a))
        then Raise PSBTInputConsistencyFailure else Ok tt
      else Ok tt
  | _ => Ok tt
  end.

(** [ensure_there_is_only_one_utxo].  Its assignment
    [self.witness_utxo = None] goes through the property setter, which
    stores [None], validates, and calls this method again; that inner
    call finds no witness UTXO and changes nothing. *)
Definition ensure_there_is_only_one_utxo : method TxInput unit :=
  e ← reading ext_of;
  if is_not_None (_utxo e) && is_not_None (_witness_utxo e) then
    _ ← assign (with_ext (set__witness_utxo None));
    reading (fun self => validate_data self false)
  else mret tt.

Definition clear_fields_when_finalized (self : TxInput) : TxInput :=
  with_ext (fun e => set_witness_script None
                       (set_redeem_script None
                          (set_bip32_paths ∅ (set_part_sigs ∅ e)))) self.

(** [PartialTxInput.finalize] *)
Definition finalize : method TxInput unit :=
  _ ← reading ext_of;
  self ← this;
  if is_not_None (script_sig self) && is_not_None (witness self) then
    assign clear_fields_when_finalized
  else
    complete ← PartialTxInput_is_complete_call;
    if complete : bool then
      script ← input_script_call false;
      _ ← assign (set_script_sig (Some script));
      w ← serialize_witness_call false;
      _ ← assign (set_witness (Some w));
      assign clear_fields_when_finalized
    else mret tt.

(** [struct.pack('<I', x)] *)
Definition pack_uint32 (x : Z) : result bytes :=
  if (0 <=? x) && (x <? 2 ^ 32) then Ok (le_encode 4 x) else Raise struct_error.

(** [wr] when the field is present. *)
Definition wr_opt (key_type : Z) (val : option bytes) : result bytes :=
  match val with
  | Some v => wr key_type v []
  | None => Ok []
  end.

(** [PartialTxInput.serialize_psbt_section_kvs]: the bytes handed to
    the writer, in order. *)
Definition serialize_psbt_section_kvs : method TxInput bytes :=
  _ ← ensure_there_is_only_one_utxo;
  reading (fun self =>
  e ← ext_of self;
  b_witness_utxo ← match _witness_utxo e with
                   | Some w => v ← TxOutput_serialize_to_network w;
                               wr PSBTInputType.WITNESS_UTXO v []
                   | None => Ok []
                   end;
  b_utxo ← match _utxo e with
           | Some u => v ← serialize_to_network u false true false;
                       wr PSBTInputType.NON_WITNESS_UTXO v []
           | None => Ok []
           end;
  b_sigs ← concat_mapM (fun '(pk, val) => wr PSBTInputType.PARTIAL_SIG val pk)
                       (sorted_items (part_sigs e));
  b_sighash ← match sighash self with
              | Some s => v ← pack_uint32 s; wr PSBTInputType.SIGHASH_TYPE v []
              | None => Ok []
              end;
  b_redeem ← wr_opt PSBTInputType.REDEEM_SCRIPT (redeem_script e);
  b_wscript ← wr_opt PSBTInputType.WITNESS_SCRIPT (witness_script e);
  b_paths ← concat_mapM (fun '(k, (xfp, path)) =>
                           packed_path ← pack_bip32_root_fingerprint_and_int_path xfp path;
                           wr PSBTInputType.BIP32_DERIVATION packed_path k)
                        (sorted_items (bip32_paths e));
  b_script_sig ← wr_opt PSBTInputType.FINAL_SCRIPTSIG (script_sig self);
  b_final_witness ← wr_opt PSBTInputType.FINAL_SCRIPTWITNESS (witness self);
  b_unknown ← concat_mapM (fun '(full_key, val) =>
                             '(key_type, key) ← get_keytype_and_key_from_fullkey full_key;
                             wr key_type val key)
                          (sorted_items (_unknown e));
  Ok (b_witness_utxo ++ b_utxo ++ b_sigs ++ b_sighash ++ b_redeem ++ b_wscript
      ++ b_paths ++ b_script_sig ++ b_final_witness ++ b_unknown)).

(** [PartialTxOutput.serialize_psbt_section_kvs] *)
Definition PartialTxOutput_serialize_psbt_section_kvs (self : TxOutput) : result bytes :=
  match psbt_out self with
  | None => Raise AttributeError
  | Some e =>
    b_redeem ← wr_opt PSBTOutputType.REDEEM_SCRIPT (out_redeem_script e);
    b_wscript ← wr_opt PSBTOutputType.WITNESS_SCRIPT (out_witness_script e);
    b_paths ← concat_mapM (fun '(k, (xfp, path)) =>
                             packed_path ← pack_bip32_root_fingerprint_and_int_path xfp path;
                             wr PSBTOutputType.BIP32_DERIVATION packed_path k)
                          (sorted_items (out_bip32_paths e));
    b_unknown ← concat_mapM (fun '(full_key, val) =>
                               '(key_type, key) ← get_keytype_and_key_from_fullkey full_key;
                               wr key_type val key)
                            (sorted_items (out_unknown e));
    Ok (b_redeem ++ b_wscript ++ b_paths ++ b_unknown)
  end.

(** [_serialize_psbt_section]: the records and the section separator. *)
Definition PartialTxInput__serialize_psbt_section : method TxInput bytes :=
  kvs ← serialize_psbt_section_kvs;
  mret (kvs ++ [x00]).

Definition PartialTxOutput__serialize_psbt_section (self : TxOutput) : result bytes :=
  kvs ← PartialTxOutput_serialize_psbt_section_kvs self;
  Ok (kvs ++ [x00]).

(** ** The text of a transaction *)

Definition finalize_psbt (self : Transaction) : result Transaction :=
  ins ← mapM (fun txin => fst <$> returning finalize txin) (_inputs self);
  Ok (set__inputs ins self).

(** [_serialize_psbt]: the transaction after the call (its inputs have
    been through [ensure_there_is_only_one_utxo]) and the bytes written.
    Several global xpubs are written in the order of their serialized
    keys ([BIP32Node] is defined in [electrum/bip32.py]). *)
Definition _serialize_psbt (self : Transaction) : result (Transaction * bytes) :=
  g ← match psbt_tx self with
      | Some g => Ok g
      | None => Raise AttributeError
      end;
  unsigned ← serialize_to_network self false false false;
  b_tx ← wr PSBTGlobalType.UNSIGNED_TX unsigned [];
  b_xpubs ← concat_mapM (fun '(bip32node, (xfp, path)) =>
                           val ← pack_bip32_root_fingerprint_and_int_path xfp path;
                           wr PSBTGlobalType.XPUB val bip32node)
                        (sorted_items (xpubs g));
  b_unknown ← concat_mapM (fun '(full_key, val) =>
                             '(key_type, key) ← get_keytype_and_key_from_fullkey full_key;
                             wr key_type val key)
                          (sorted_items (psbt_unknown g));
  ins ← mapM (returning PartialTxInput__serialize_psbt_section) (_inputs self);
  outs ← concat_mapM PartialTxOutput__serialize_psbt_section (_outputs self);
  Ok (set__inputs (fst <$> ins) self,
      [x70; x73; x62; x74; xff] ++ b_tx ++ b_xpubs ++ b_unknown ++ [x00]
      ++ concat (snd <$> ins) ++ outs).

(** [Transaction.serialize]: the cached text if there is one, else the
    network serialization with signatures, which is cached. *)
Definition Transaction_serialize (self : Transaction) : result (Transaction * bytes) :=
  match _cached_network_ser self with
  | Some (b :: r) => Ok (self, b :: r)
  | _ =>
    ser ← serialize_to_network self false true false;
    Ok (set__cached_network_ser (Some ser) self, ser)
  end.

(** [PartialTransaction.serialize_as_bytes].  In its last branch
    [Transaction.serialize_as_bytes(self)] calls [self.serialize()],
    which finalizes once more and finds the transaction complete again
    ([finalize] changes nothing on a finalized input), and so ends in
    [Transaction.serialize]. *)
Definition PartialTransaction_serialize_as_bytes (self : Transaction) (force_psbt : bool)
  : result (Transaction * bytes) :=
  self ← finalize_psbt self;
  complete ← Transaction_is_complete self;
  if force_psbt || negb complete then _serialize_psbt self
  else Transaction_serialize self.

(** [PartialTransaction.serialize]: hex of the network transaction when
    complete, base64 of the PSBT otherwise. *)
Definition PartialTransaction_serialize (self : Transaction) : result (Transaction * tx_text) :=
  self ← finalize_psbt self;
  complete ← Transaction_is_complete self;
  if complete : bool then
    '(self, ser) ← Transaction_serialize self;
    Ok (self, hex_text ser)
  else
    '(self, raw) ← PartialTransaction_serialize_as_bytes self false;
    Ok (self, base64_text raw).

(** [str(tx)], dispatched on the class of the object. *)
Definition Transaction_str (self : Transaction) : result tx_text :=
  match psbt_tx self with
  | None => '(_, ser) ← Transaction_serialize self; Ok (hex_text ser)
  | Some _ => '(_, text) ← PartialTransaction_serialize self; Ok text
  end.

(** ** PartialTxInput: the UTXO setters and combine *)

(** The [witness_utxo] setter: the value is stored before it is
    validated. *)
Definition witness_utxo_setter (value : option TxOutput) : method TxInput unit :=
  _ ← reading ext_of;
  _ ← assign (with_ext (set__witness_utxo value));
  _ ← reading (fun self => validate_data self false);
  ensure_there_is_only_one_utxo.

(** The [utxo] setter: the transaction is stored before it is
    validated.  [str(tx)] finalizes the transaction handed in; that
    change to the caller's object is not part of the result. *)
Definition utxo_setter (tx : option Transaction) : method TxInput unit :=
  _ ← reading ext_of;
  match tx with
  | None => mret tt
  | Some tx =>
    text ← reading (fun _ => Transaction_str tx);
    tx ← reading (fun _ => tx_from_any text);
    complete ← reading (fun _ => Transaction_is_complete tx);
    if negb complete then mret tt
    else
      _ ← assign (with_ext (set__utxo (Some tx)));
      _ ← reading (fun self => validate_data self false);
      ensure_there_is_only_one_utxo
  end.

(** [PartialTxInput.combine_with_other_txin] *)
Definition combine_with_other_txin (other_txin : TxInput) : method TxInput unit :=
  _ ← reading ext_of;
  _ ← reading (fun self => py_assert (bool_decide (prevout self = prevout other_txin)));
  _ ← match script_sig other_txin with
      | Some s => assign (set_script_sig (Some s))
      | None => mret tt
      end;
  _ ← match witness other_txin with
      | Some w => assign (set_witness (Some w))
      | None => mret tt
      end;
  _ ← match psbt_in other_txin with
      | Some other =>
        _ ← match _witness_utxo other with
            | Some w => witness_utxo_setter (Some w)
            | None => mret tt
            end;
        _ ← match _utxo other with
            | Some u => utxo_setter (Some u)
            | None => mret tt
            end;
        _ ← assign (with_ext (fun e => set_part_sigs (part_sigs other ∪ part_sigs e) e));
        _ ← match sighash other_txin with
            | Some s => assign (set_sighash (Some s))
            | None => mret tt
            end;
        _ ← assign (with_ext (fun e => set_bip32_paths
                                         (bip32_paths other ∪ bip32_paths e) e));
        _ ← match redeem_script other with
            | Some s => assign (with_ext (set_redeem_script (Some s)))
            | None => mret tt
            end;
        _ ← match witness_script other with
            | Some s => assign (with_ext (set_witness_script (Some s)))
            | None => mret tt
            end;
        assign (with_ext (fun e => set__unknown (_unknown other ∪ _unknown e) e))
      | None => mret tt
      end;
  _ ← ensure_there_is_only_one_utxo;
  finalize.

(** ** PartialTxOutput *)

Definition combine_with_other_txout (self other_txout : TxOutput) : result TxOutput :=
  match psbt_out self with
  | None => Raise AttributeError
  | Some e =>
    _ ← py_assert (bool_decide (scriptpubkey self = scriptpubkey other_txout));
    match psbt_out other_txout with
    | None => Ok self
    | Some other =>
      let e' := mkPartialTxOutputExt
                  (match out_redeem_script other with
                   | Some s => Some s
                   | None => out_redeem_script e
                   end)
                  (match out_witness_script other with
                   | Some s => Some s
                   | None => out_witness_script e
                   end)
                  (out_bip32_paths other ∪ out_bip32_paths e)
                  (out_unknown other ∪ out_unknown e)
                  (out_script_type e) (out_num_sig e) (out_pubkeys e)
                  (is_mine e) (is_change e) in
      Ok (set_out_ext (Some e') self)
    end
  end.

(** ** PartialTransaction: finalize and combine *)

(** [for x, y in zip(l, k): f(x, y)] where [f] updates [x] in place: the
    elements of [l] beyond the shorter length stay as they are. *)
Fixpoint for_zip {A B} (f : A -> B -> result A) (l : list A) (k : list B) : result (list A) :=
  match l, k with
  | x :: l', y :: k' =>
    x' ← f x y;
    r ← for_zip f l' k';
    Ok (x' :: r)
  | _, _ => Ok l
  end.

(** [PartialTransaction.combine_with_other_psbt]: the transaction
    after a call that returns.  [serialize_to_network] assigns nothing
    itself; what the first call leaves on the transaction is the memo
    of the [self.is_segwit()] it ends with, which the inputs keep when
    they are merged and finalized.  What the call does to [other_tx]
    (the same memo, and [str(tx)] on the previous transactions it
    carries) is not part of the result. *)
Definition combine_with_other_psbt (self other_tx : Transaction) : result Transaction :=
  g ← match psbt_tx self with
      | Some g => Ok g
      | None => Raise AttributeError
      end;
  mine ← serialize_to_network self false false false;
  let self := set__inputs (fst (any_is_segwit_call false (_inputs self))) self in
  theirs ← serialize_to_network other_tx false false false;
  if negb (bool_decide (mine = theirs))
  then Raise (Exception "A Combiner must not combine two different PSBTs.")
  else
    let g := match psbt_tx other_tx with
             | Some other =>
               mkPartialTransactionExt (xpubs other ∪ xpubs g)
                                       (psbt_unknown other ∪ psbt_unknown g)
                                       (_prevout_overrides g)
             | None => g
             end in
    ins ← for_zip (fun txin other_txin =>
                     fst <$> returning (combine_with_other_txin other_txin) txin)
                  (_inputs self) (_inputs other_tx);
    outs ← for_zip combine_with_other_txout (_outputs self) (_outputs other_tx);
    Ok (invalidate_ser_cache
          (set_psbt_tx (Some g) (set__outputs outs (set__inputs ins self)))).

(** ** BIP-69 ordering with the asset overlay *)

(** The four variables of the overlay loop. *)
Record overlay_vouts : Type := mkOverlay {
  burn_vout : option TxOutput;
  parent_owner_vout : option TxOutput;
  asset_owner_vout : option TxOutput;
  asset_create_vout : option TxOutput
}.

(** [vout.asset[:-1]] of an output taken as an owner output; the asset
    of such an output is a string. *)
Definition owner_asset_stem (vout : TxOutput) : result string :=
  match asset vout with
  | Some a => Ok (str_drop_last a)
  | None => Raise TypeError
  end.

(** One turn of [for o in iter(self._outputs)]. *)
Definition overlay_step (st : overlay_vouts) (o : TxOutput) : result overlay_vouts :=
  address ← TxOutput_address o;
  if match address with
     | Some a => existsb (String.eqb a) BURN_ADDRESSES
     | None => false
     end
  then Ok (mkOverlay (Some o) (parent_owner_vout st) (asset_owner_vout st) (asset_create_vout st))
  else
    match asset o with
    | Some (String c r) =>
      let name := String c r in
      if bool_decide (str_last name = Some "!"%char) then
        match asset_create_vout st with
        | Some create =>
          if bool_decide (Some (str_drop_last name) = asset create) then
            let t := asset_owner_vout st in
            Ok (mkOverlay (burn_vout st)
                          (match parent_owner_vout st with
                           | Some p => Some p
                           | None => t
                           end)
                          (Some o) (asset_create_vout st))
          else Ok (mkOverlay (burn_vout st) (Some o) (asset_owner_vout st) (asset_create_vout st))
        | None =>
          match asset_owner_vout st with
          | Some _ => Ok (mkOverlay (burn_vout st) (Some o) (asset_owner_vout st)
                                    (asset_create_vout st))
          | None => Ok (mkOverlay (burn_vout st) (parent_owner_vout st) (Some o)
                                  (asset_create_vout st))
          end
        end
      else
        match asset_owner_vout st with
        | Some owner =>
          stem ← owner_asset_stem owner;
          if negb (String.eqb stem name) then
            Ok (mkOverlay (burn_vout st) (asset_owner_vout st) (parent_owner_vout st) (Some o))
          else Ok (mkOverlay (burn_vout st) (parent_owner_vout st) (asset_owner_vout st) (Some o))
        | None =>
          Ok (mkOverlay (burn_vout st) (parent_owner_vout st) (asset_owner_vout st) (Some o))
        end
    | _ => Ok st
    end.

Fixpoint overlay_scan (st : overlay_vouts) (outputs : list TxOutput) : result overlay_vouts :=
  match outputs with
  | [] => Ok st
  | o :: r => st' ← overlay_step st o; overlay_scan st' r
  end.

(** [o in (a, b, c, d)]: equality with a member that is not [None]. *)
Definition output_in (o : TxOutput) (t : list (option TxOutput)) : bool :=
  existsb (fun m => match m with
                    | Some m => TxOutput_eq m o
                    | None => false
                    end) t.

Definition opt_to_list {A} (o : option A) : list A :=
  match o with Some a => [a] | None => [] end.

(** The rearrangement after the scan. *)
Definition overlay_arrange (st : overlay_vouts) (outputs : list TxOutput) : list TxOutput :=
  match burn_vout st, asset_create_vout st with
  | Some burn, Some create =>
    let new_outs :=
      List.filter (fun o => negb (output_in o [burn_vout st; parent_owner_vout st;
                                               asset_owner_vout st; asset_create_vout st]))
                  outputs in
    [burn] ++ new_outs ++ opt_to_list (parent_owner_vout st)
           ++ opt_to_list (asset_owner_vout st) ++ [create]
  | _, _ => outputs
  end.

Definition BIP69_sort (self : Transaction) (inputs outputs : bool) : result Transaction :=
  if for_swap self then Ok self
  else
    let self := if inputs
                then set__inputs (stable_sort input_key_leb (_inputs self)) self
                else self in
    self ← (if outputs then
              if negb (values_of_one_kind (_outputs self)) then Raise TypeError
              else
                let sorted := stable_sort output_key_leb (_outputs self) in
                st ← overlay_scan (mkOverlay None None None None) sorted;
                Ok (set__outputs (overlay_arrange st sorted) self)
            else Ok self);
    Ok (invalidate_ser_cache self).

(** ** The signature pre-image *)

(** The legacy input vector when ANYONECANPAY is not set:
    [for k, txin in enumerate(inputs)]. *)
Definition legacy_txin (sighash : Z) (txin_index : nat) (preimage_script : bytes)
    (k : nat) (txin : TxInput) : result bytes :=
  let txin := if ((sighash =? SIGHASH.NONE) || (sighash =? SIGHASH.SINGLE))
                 && negb (Nat.eqb txin_index k)
              then set_nsequence 0 (PartialTxInput_from_txin txin true)
              else txin in
  serialize_input txin (if Nat.eqb txin_index k then preimage_script else []).

(** The output written for position [k < txin_index] under
    SIGHASH_SINGLE: a copy with [scriptpubkey = b''],
    [value = Satoshis((1 << 64) - 1)] and [asset = None]. *)
Definition blanked_txout (txout : TxOutput) : result TxOutput :=
  let txout := PartialTxOutput_from_txout txout in
  v ← Satoshis_value_setter (2 ^ 64 - 1);
  Ok (mkTxOutput [] v None (psbt_out txout)).

Definition serialize_blanked_txout (txout : TxOutput) : result bytes :=
  txout ← blanked_txout txout;
  TxOutput_serialize_to_network txout.

(** [for k, txout in enumerate(outputs)] of the SIGHASH_SINGLE branch,
    started at position [k]. *)
Fixpoint single_txouts (txin_index : nat) (k : nat) (outputs : list TxOutput) : result bytes :=
  match outputs with
  | [] => Ok []
  | txout :: r =>
    if Nat.ltb k txin_index then
      s ← serialize_blanked_txout txout;
      rest ← single_txouts txin_index (S k) r;
      Ok (s ++ rest)
    else if Nat.eqb k txin_index then
      s ← TxOutput_serialize_to_network txout;
      rest ← single_txouts txin_index (S k) r;
      Ok (s ++ rest)
    else Ok []
  end.

(** [PartialTransaction.serialize_preimage(txin_index)] for an index
    [txin_index >= 0].  The keyword argument
    [bip143_shared_txdigest_fields] is only read after the [raise] of
    the segwit branch and is left out. *)
Definition serialize_preimage (self : Transaction) (txin_index : nat) : result bytes :=
  nVersion ← int_to_hex (_version self) 4;
  nLocktime ← int_to_hex (_locktime self) 4;
  let inputs := _inputs self in
  let outputs := _outputs self in
  txin ← index_or_raise inputs (Z.of_nat txin_index);
  let sighash := default SIGHASH.ALL (sighash txin) in
  if negb (existsb (Z.eqb sighash) SIGHASH.members)
  then Raise (Exception "invalid sighash")
  else
    nHashType ← int_to_hex sighash 4;
    g ← match psbt_tx self with
        | Some g => Ok g
        | None => Raise AttributeError
        end;
    preimage_script ← get_preimage_script txin (_wallet self) (_prevout_overrides g);
    segwit ← is_segwit txin false;
    if segwit : bool then Raise NotImplementedError
    else
      txins ← (if negb (Z.land sighash SIGHASH.ANYONECANPAY =? 0) then
                 one ← var_int 1;
                 s ← serialize_input txin preimage_script;
                 if Z.land sighash SIGHASH.SINGLE =? 0 then Raise NotImplementedError
                 else Ok (one ++ s)
               else
                 n ← var_int (len inputs);
                 s ← mapM (fun '(k, txin) => legacy_txin sighash txin_index preimage_script k txin)
                          (imap pair inputs);
                 Ok (n ++ concat s));
      txouts ← (if sighash =? SIGHASH.NONE then var_int 0
                else if sighash =? SIGHASH.SINGLE then
                  if len outputs <? Z.of_nat txin_index
                  then Raise (Exception "Not enough outputs for SIGHASH_SINGLE!")
                  else
                    n ← var_int (Z.of_nat txin_index);
                    s ← single_txouts txin_index 0 outputs;
                    Ok (n ++ s)
                else
                  n ← var_int (len outputs);
                  s ← concat_mapM TxOutput_serialize_to_network outputs;
                  Ok (n ++ s));
      Ok (nVersion ++ txins ++ txouts ++ nLocktime ++ nHashType).

(** The statements of the segwit branch that follow its
    [raise NotImplementedError()]: the BIP-143 assembly.  No call reaches
    them; they are transcribed to state what the specification expects
    of a segwit input.  [amount] is read as the 8-byte little-endian RVN
    amount of [txin.value_sats()]. *)
Definition bip143_preimage (self : Transaction) (txin_index : nat) : result bytes :=
  nVersion ← int_to_hex (_version self) 4;
  nLocktime ← int_to_hex (_locktime self) 4;
  let outputs := _outputs self in
  txin ← index_or_raise (_inputs self) (Z.of_nat txin_index);
  let sighash := default SIGHASH.ALL (sighash txin) in
  nHashType ← int_to_hex sighash 4;
  g ← match psbt_tx self with
      | Some g => Ok g
      | None => Raise AttributeError
      end;
  preimage_script ← get_preimage_script txin (_wallet self) (_prevout_overrides g);
  shared ← _calc_bip143_shared_txdigest_fields self;
  let anyonecanpay := negb (Z.land sighash SIGHASH.ANYONECANPAY =? 0) in
  let single := Z.land sighash 31 =? SIGHASH.SINGLE in
  let none := Z.land sighash 31 =? SIGHASH.NONE in
  let hashPrevouts := if negb anyonecanpay then hashPrevouts shared else repeat x00 32 in
  let hashSequence := if negb anyonecanpay && negb single && negb none
                      then hashSequence shared else repeat x00 32 in
  hashOutputs ← (if negb single && negb none then Ok (hashOutputs shared)
                 else if single && (Z.of_nat txin_index <? len outputs) then
                   o ← index_or_raise outputs (Z.of_nat txin_index);
                   s ← TxOutput_serialize_to_network o;
                   Ok (sha256d s)
                 else Ok (repeat x00 32));
  outpoint ← TxOutpoint_serialize_to_network (prevout txin);
  n ← var_int (len preimage_script);
  let scriptCode := n ++ preimage_script in
  v ← value_sats txin;
  amount ← match v with
           | Some v => match rvn_value v with
                       | IntValue a => int_to_hex a 8
                       | MaxSpend _ => Raise TypeError
                       end
           | None => Raise TypeError
           end;
  nSequence ← int_to_hex (nsequence txin) 4;
  Ok (nVersion ++ hashPrevouts ++ hashSequence ++ outpoint ++ scriptCode ++ amount
      ++ nSequence ++ hashOutputs ++ nLocktime ++ nHashType).

End Psbt.

(** ** A computable instance of the outside helpers

    Stand-ins that let the model run on concrete transactions.  They keep
    the shapes of the real helpers (a 32-byte digest, a 20-byte hash, a
    standard p2pkh locking script, length-prefixed pushes) and nothing of
    their cryptography; the blanked value of SIGHASH_SINGLE is the
    integer 2^64-1 of the specification; the parser is an argument.  The theorems of this file do not depend on
    them: they are stated for every instance. *)

Definition toy_pad (n : nat) (b : bytes) : bytes := firstn n (b ++ repeat x00 n).

Definition toy_push (it : script_item) : bytes :=
  match it with
  | item_int n => [byte_of_Z n]
  | item_data b => byte_of_Z (len b) :: b
  end.

Definition toy_externals_parsing (parser : tx_text -> result Transaction) : Externals := {|
  sha256d b := toy_pad 32 b;
  hash_160 b := toy_pad 20 b;
  hash160_to_p2pkh h := String.append "R" (string_of_list_byte h);
  hash160_to_p2sh h := String.append "r" (string_of_list_byte h);
  hash_to_segwit_addr h witver := Ok (String.append "rc1" (string_of_list_byte h));
  address_to_script a := Raise (Exception "unknown address");
  is_segwit_address a := String.prefix "rc1" a;
  is_segwit_script_type t :=
    str_in t ["p2wpkh"; "p2wpkh-p2sh"; "p2wsh"; "p2wsh-p2sh"]%string;
  decode_segwit_address a := None;
  b58_address_to_hash160 a := Raise (Exception "unknown address");
  ADDRTYPE_P2PKH := 60;
  ADDRTYPE_P2SH := 122;
  BURN_ADDRESSES := [String.append "R" (string_of_list_byte (repeat x00 20))];
  construct_script items := Ok (concat (toy_push <$> items));
  construct_witness items := Ok (byte_of_Z (len items) :: concat (toy_push <$> items));
  p2wsh_nested_script ws := Ok (x00 :: x20 :: toy_pad 32 ws);
  script_to_p2wsh ws := Ok (String.append "rc1" (string_of_list_byte (toy_pad 32 ws)));
  pubkeyhash_to_p2pkh_script pkh := Ok ([x76; xa9; x14] ++ pkh ++ [x88; xac]);
  public_key_to_p2pk_script pk := Ok (byte_of_Z (len pk) :: pk ++ [xac]);
  guess_asset_script_for_vin script name amt txin wallet := Ok script;
  tx_from_any text := parser text;
  Satoshis_value_setter v := Ok (IntValue v)
|}.

(** The instance of the examples that parse nothing. *)
Definition toy_externals : Externals :=
  toy_externals_parsing (fun _ => Raise SerializationError).

(** ** Predicates of the statements *)

(** The input does not hold a non-witness UTXO and a witness UTXO at the
    same time. *)
Definition only_one_utxo (self : TxInput) : Prop :=
  forall e, psbt_in self = Some e -> _utxo e = None \/ _witness_utxo e = None.


(** ** Concrete transactions

    Small PSBTs on which the model is run in the examples, witnesses and
    counterexamples below. *)

Definition ex_outpoint0 : TxOutpoint := mkTxOutpoint (repeat x01 32) 0.
Definition ex_outpoint1 : TxOutpoint := mkTxOutpoint (repeat x02 32) 1.

(** A fresh PSBT input spending [o], with the given sighash. *)
Definition ex_txin (o : TxOutpoint) (sighash : option Z) : TxInput :=
  mkTxInput o None 4294967294 None false sighash (Some PartialTxInputExt_init).

(** A PSBT output of [v] satoshis to [script]. *)
Definition ex_txout (v : Z) (script : bytes) : TxOutput :=
  mkTxOutput script (IntValue v) None (Some PartialTxOutputExt_init).

(** A PSBT, version 2, locktime 0, no wallet. *)
Definition ex_psbt (inputs : list TxInput) (outputs : list TxOutput) : Transaction :=
  mkTransaction 2 0 inputs outputs false None None None
                (Some (mkPartialTransactionExt ∅ ∅ ∅)).

(** A p2sh input with a redeem script, not segwit. *)
Definition ex_txin_redeem (o : TxOutpoint) (sighash : option Z) (redeem : bytes) : TxInput :=
  with_ext (set_redeem_script (Some redeem)) (ex_txin o sighash).

(** A p2wpkh input of the wallet: one public key, a trusted value. *)
Definition ex_txin_p2wpkh : TxInput :=
  mkTxInput ex_outpoint0 None 4294967294 None false None
    (Some (mkPartialTxInputExt None None ∅ ∅ None None ∅ "p2wpkh"%string 0
             [repeat x03 33] (Some (mkRavenValue (IntValue 1000) [])) None
             None None None None None None)).

Definition ex_segwit_psbt : Transaction :=
  ex_psbt [ex_txin_p2wpkh] [ex_txout 900 [x6a]].

(** Two legacy inputs signing with SIGHASH_SINGLE, and one output. *)
Definition ex_single_psbt : Transaction :=
  ex_psbt [ex_txin_redeem ex_outpoint0 (Some SIGHASH.SINGLE) [x51];
           ex_txin_redeem ex_outpoint1 (Some SIGHASH.SINGLE) [x52]]
          [ex_txout 1000 [x6a]].


(** A previous transaction (complete, not a PSBT) with one output, its
    txid under [toy_externals], and a PSBT input that spends its output 0
    and carries it as non-witness UTXO. *)
Definition ex_prev_tx : Transaction :=
  mkTransaction 2 0
    [mkTxInput ex_outpoint1 (Some [x51]) 4294967295 None false None None]
    [mkTxOutput [x6a] (IntValue 5000) None None]
    false None None None None.

Definition ex_prev_txid : bytes :=
  Eval vm_compute in
    match @Transaction_txid toy_externals ex_prev_tx with
    | Ok (Some h, _) => h
    | _ => []
    end.

Definition ex_txin_with_utxo : TxInput :=
  with_ext (set__utxo (Some ex_prev_tx))
           (ex_txin (mkTxOutpoint ex_prev_txid 0) None).


(** "The transaction is complete or every input is segwit", as [txid]
    tests it: completeness is only looked at when some input is not
    segwit. *)
Definition txid_is_attempted `{Externals} (self : Transaction) : Prop :=
  allM (fun txin => is_segwit txin false) (_inputs self) = Ok true
  \/ (allM (fun txin => is_segwit txin false) (_inputs self) = Ok false
      /\ Transaction_is_complete self = Ok true).

(** A PSBT whose only input was finalized elsewhere as native segwit
    (a final witness, no final scriptSig) and carries no UTXO. *)
Definition ex_witness_only_psbt : Transaction :=
  ex_psbt [set_witness (Some [x01; x01; x2a]) (ex_txin ex_outpoint0 None)]
          [ex_txout 900 [x6a]].


(** The orders of the two BIP-69 keys, as relations. *)
Definition input_key_le (a b : TxInput) : Prop := input_key_leb a b = true.
Definition output_key_le (a b : TxOutput) : Prop := output_key_leb a b = true.

(** The output pays to one of the configured burn addresses. *)
Definition is_burn_output `{Externals} (o : TxOutput) : Prop :=
  exists a, TxOutput_address o = Ok (Some a)
            /\ existsb (String.eqb a) BURN_ADDRESSES = true.

(** The output does not pay to a burn address and carries an asset
    whose name does not end in ['!'] (the overlay's "asset create"
    output). *)
Definition is_asset_create_output `{Externals} (o : TxOutput) : Prop :=
  ~ is_burn_output o
  /\ exists name, asset o = Some name /\ name <> EmptyString
                  /\ str_last name <> Some "!"%char.

(** The p2pkh script of the 20-byte hash [h]. *)
Definition ex_p2pkh_script (h : bytes) : bytes :=
  [x76; xa9; x14] ++ h ++ [x88; xac].

(** An issuance: a large payment to the burn address of
    [toy_externals] and an output carrying five units of the new asset. *)
Definition ex_burn_txout : TxOutput := ex_txout 100 (ex_p2pkh_script (repeat x00 20)).
Definition ex_asset_txout : TxOutput :=
  mkTxOutput (ex_p2pkh_script (repeat x07 20)) (IntValue 5) (Some "FOO"%string)
             (Some PartialTxOutputExt_init).
Definition ex_issue_psbt : Transaction :=
  ex_psbt [ex_txin ex_outpoint1 None; ex_txin ex_outpoint0 None]
          [ex_burn_txout; ex_asset_txout].

(** A plain payment with inputs and outputs out of order. *)
Definition ex_unsorted_psbt : Transaction :=
  ex_psbt [ex_txin ex_outpoint1 None; ex_txin ex_outpoint0 None]
          [ex_txout 5 [x02]; ex_txout 5 [x01]; ex_txout 1 [x09]].



(** Merging dict [theirs] into dict [mine] with [mine.update(theirs)],
    key by key. *)
Definition updated_with {V} (mine theirs merged : gmap bytes V) : Prop :=
  forall k, merged !! k = match theirs !! k with
                          | Some v => Some v
                          | None => mine !! k
                          end.



(** One legacy input signing with SIGHASH_SINGLE, and no output. *)
Definition ex_no_output_psbt : Transaction :=
  ex_psbt [ex_txin_redeem ex_outpoint0 (Some SIGHASH.SINGLE) [x51]] [].


(** The helpers with a parser that returns [ex_single_psbt] whatever it
    is given. *)
Definition ex_parsing_externals : Externals :=
  toy_externals_parsing (fun _ => Ok ex_single_psbt).

(** An unsigned PSBT that sends everything (['!']) to one output. *)
Definition ex_maxspend_psbt : Transaction :=
  ex_psbt [ex_txin ex_outpoint0 None]
          [mkTxOutput [x6a] (MaxSpend "!") None (Some PartialTxOutputExt_init)].

(** ** BCDataStream

    The byte buffer with a read cursor.  [input] is [None] until the
    first [write]; [read_cursor] starts at 0 and is only ever moved
    forward by the read methods.  A method returns its value together
    with the stream after the call. *)

(** The six [struct] formats of the [read_*]/[write_*] methods:
    ['<h'], ['<H'], ['<i'], ['<I'], ['<q'], ['<Q']. *)
Inductive struct_format : Type :=
| fmt_h | fmt_H | fmt_i | fmt_I | fmt_q | fmt_Q.

(** [struct.calcsize(format)] *)
Definition calcsize (format : struct_format) : nat :=
  match format with
  | fmt_h | fmt_H => 2%nat
  | fmt_i | fmt_I => 4%nat
  | fmt_q | fmt_Q => 8%nat
  end.

Definition format_is_signed (format : struct_format) : bool :=
  match format with
  | fmt_h | fmt_i | fmt_q => true
  | fmt_H | fmt_I | fmt_Q => false
  end.

(** The least and one past the greatest number a format can pack. *)
Definition format_min (format : struct_format) : Z :=
  if format_is_signed format then - (256 ^ Z.of_nat (calcsize format) / 2) else 0.
Definition format_max (format : struct_format) : Z :=
  if format_is_signed format then 256 ^ Z.of_nat (calcsize format) / 2
  else 256 ^ Z.of_nat (calcsize format).

(** [struct.pack(format, num)]: little-endian, two's complement for the
    signed formats; [struct.error] when [num] does not fit. *)
Definition struct_pack (format : struct_format) (num : Z) : result bytes :=
  if (format_min format <=? num) && (num <? format_max format)
  then Ok (le_encode (calcsize format) (num mod 256 ^ Z.of_nat (calcsize format)))
  else Raise struct_error.

(** The number a format reads from the unsigned value of its bytes. *)
Definition format_value (format : struct_format) (u : Z) : Z :=
  if format_is_signed format && (format_max format <=? u)
  then u - 256 ^ Z.of_nat (calcsize format)
  else u.

Module BCDataStream.

Record t : Type := mk {
  input : option bytes;
  read_cursor : Z
}.

(** [BCDataStream()] *)
Definition init : t := mk None 0.

Definition clear (self : t) : t := mk None 0.

Definition write (self : t) (_bytes : bytes) : t :=
  match input self with
  | None => mk (Some _bytes) (read_cursor self)
  | Some buf => mk (Some (buf ++ _bytes)) (read_cursor self)
  end.

Definition read_bytes (self : t) (length : Z) : result (bytes * t) :=
  match input self with
  | None => Raise SerializationError
  | Some buf =>
    _ ← py_assert (0 <=? length);
    let input_len := len buf in
    let read_begin := read_cursor self in
    let read_end := read_begin + length in
    if (0 <=? read_begin) && (read_begin <=? read_end) && (read_end <=? input_len) then
      let result := py_slice buf read_begin read_end in
      Ok (result, mk (input self) (read_cursor self + length))
    else Raise SerializationError
  end.

Definition write_bytes (self : t) (_bytes : bytes) (length : Z) : result t :=
  _ ← py_assert (len _bytes =? length);
  Ok (write self _bytes).

Definition can_read_more (self : t) : bool :=
  match input self with
  | None | Some [] => false
  | Some buf => read_cursor self <? len buf
  end.

(** [_read_num]: every exception of [struct.unpack_from] (too few
    bytes, or no buffer at all) is turned into SerializationError. *)
Definition _read_num (self : t) (format : struct_format) : result (Z * t) :=
  match input self with
  | None => Raise SerializationError
  | Some buf =>
    match unpack_from (Z.of_nat (calcsize format)) buf (read_cursor self) with
    | Some u =>
      Ok (format_value format u,
          mk (input self) (read_cursor self + Z.of_nat (calcsize format)))
    | None => Raise SerializationError
    end
  end.

(** [_write_num]: the [struct.error] of [struct.pack] is not caught. *)
Definition _write_num (self : t) (format : struct_format) (num : Z) : result t :=
  s ← struct_pack format num;
  Ok (write self s).

Definition read_boolean (self : t) : result (bool * t) :=
  '(b, self) ← read_bytes self 1;
  Ok (negb (bool_decide (b = [x00])), self).
Definition read_int16 (self : t) : result (Z * t) := _read_num self fmt_h.
Definition read_uint16 (self : t) : result (Z * t) := _read_num self fmt_H.
Definition read_int32 (self : t) : result (Z * t) := _read_num self fmt_i.
Definition read_uint32 (self : t) : result (Z * t) := _read_num self fmt_I.
Definition read_int64 (self : t) : result (Z * t) := _read_num self fmt_q.
Definition read_uint64 (self : t) : result (Z * t) := _read_num self fmt_Q.

Definition write_boolean (self : t) (val : bool) : t :=
  write self (if val then [x01] else [x00]).
Definition write_int16 (self : t) (val : Z) : result t := _write_num self fmt_h val.
Definition write_uint16 (self : t) (val : Z) : result t := _write_num self fmt_H val.
Definition write_int32 (self : t) (val : Z) : result t := _write_num self fmt_i val.
Definition write_uint32 (self : t) (val : Z) : result t := _write_num self fmt_I val.
Definition write_int64 (self : t) (val : Z) : result t := _write_num self fmt_q val.
Definition write_uint64 (self : t) (val : Z) : result t := _write_num self fmt_Q val.

(** [read_compact_size]: indexing a buffer that was never written is a
    TypeError, which the [except IndexError] does not catch. *)
Definition read_compact_size (self : t) : result (Z * t) :=
  match input self with
  | None => Raise TypeError
  | Some buf =>
    match py_index buf (read_cursor self) with
    | None => Raise SerializationError
    | Some b =>
      let size := byte_val b in
      let self := mk (input self) (read_cursor self + 1) in
      if size =? 253 then _read_num self fmt_H
      else if size =? 254 then _read_num self fmt_I
      else if size =? 255 then _read_num self fmt_Q
      else Ok (size, self)
    end
  end.

Definition write_compact_size (self : t) (size : Z) : result t :=
  if size <? 0 then Raise SerializationError
  else if size <? 253 then Ok (write self [byte_of_Z size])
  else if size <? 2 ^ 16 then _write_num (write self [xfd]) fmt_H size
  else if size <? 2 ^ 32 then _write_num (write self [xfe]) fmt_I size
  else if size <? 2 ^ 64 then _write_num (write self [xff]) fmt_Q size
  else Raise (Exception "size too large for compact_size").

End BCDataStream.


(** The bytes held by a stream ([b''] before the first write). *)
Definition stream_bytes (s : BCDataStream.t) : bytes :=
  default [] (BCDataStream.input s).

(** ** Script classification *)

(** [get_script_type_from_output_script]; the argument may be [None]
    (an absent redeem or witness script). *)
Definition get_script_type_from_output_script (_bytes : option bytes) : option string :=
  match _bytes with
  | None => None
  | Some _bytes =>
    match script_GetOp _bytes with
    | Raise _ => None
    | Ok decoded =>
      let decoded := script_decoded decoded in
      if match_script_against_template decoded SCRIPTPUBKEY_TEMPLATE_P2PKH
      then Some "p2pkh"%string
      else if match_script_against_template decoded SCRIPTPUBKEY_TEMPLATE_P2SH
      then Some "p2sh"%string
      else if match_script_against_template decoded SCRIPTPUBKEY_TEMPLATE_P2WPKH
      then Some "p2wpkh"%string
      else if match_script_against_template decoded SCRIPTPUBKEY_TEMPLATE_P2WSH
      then Some "p2wsh"%string
      else if match_script_against_template decoded SCRIPTPUBKEY_TEMPLATE_P2PK
      then Some "p2pk"%string
      else None
    end
  end.

Definition is_output_script_p2pk (_bytes : bytes) : bool :=
  match script_GetOp _bytes with
  | Raise _ => false
  | Ok raw_decoded =>
    let decoded := chop_at_asset raw_decoded in
    match_script_against_template (script_decoded decoded) SCRIPTPUBKEY_TEMPLATE_P2PK
  end.

(** The loop of [is_asset_output_script_malformed_or_non_standard] that
    keeps the elements from the first [OP_RVN_ASSET] on. *)
Fixpoint record_from_asset (raw_decoded : list ScriptOp) : list ScriptOp :=
  match raw_decoded with
  | [] => []
  | tup :: r =>
    if sop_opcode tup =? opcodes.OP_RVN_ASSET then tup :: r else record_from_asset r
  end.

(** The [try] block of [is_asset_output_script_malformed_or_non_standard]:
    the value it returns, or the exception that its bare [except] turns
    into [True].  [asset_portion.write(None)] fails its assertion. *)
Definition asset_portion_non_standard (decoded : list ScriptOp) : result bool :=
  tup ← index_or_raise decoded 1;
  payload ← match sop_vch tup with
            | Some v => Ok v
            | None => Raise AssertionError
            end;
  let asset_portion := BCDataStream.write BCDataStream.init payload in
  '(magic, asset_portion) ← BCDataStream.read_bytes asset_portion 3;
  _ ← py_assert (bool_decide (magic = [x72; x76; x6e]));
  '(script_type, asset_portion) ← BCDataStream.read_bytes asset_portion 1;
  '(l, asset_portion) ← BCDataStream.read_bytes asset_portion 1;
  asset_name_len ← index_or_raise l 0;
  let asset_name_len := byte_val asset_name_len in
  '(asset_name, asset_portion) ← BCDataStream.read_bytes asset_portion asset_name_len;
  _ ← py_assert (len asset_name =? asset_name_len);
  let finish (asset_portion : BCDataStream.t) : result bool :=
    Ok (BCDataStream.can_read_more asset_portion) in
  if negb (bool_decide (script_type = [x6f])) then
    '(_, asset_portion) ← BCDataStream.read_int64 asset_portion;
    if bool_decide (script_type = [x71]) then
      '(flags, asset_portion) ← BCDataStream.read_bytes asset_portion 3;
      has_ipfs ← index_or_raise flags 2;
      if byte_val has_ipfs =? 1 then
        '(_, asset_portion) ← BCDataStream.read_bytes asset_portion 34;
        finish asset_portion
      else finish asset_portion
    else if bool_decide (script_type = [x72]) then
      '(_, asset_portion) ← BCDataStream.read_bytes asset_portion 2;
      if BCDataStream.can_read_more asset_portion then
        '(_, asset_portion) ← BCDataStream.read_bytes asset_portion 34;
        finish asset_portion
      else finish asset_portion
    else if bool_decide (script_type = [x74]) then finish asset_portion
    else Ok true
  else finish asset_portion.

Definition is_asset_output_script_malformed_or_non_standard (_bytes : bytes) : bool :=
  match script_GetOp _bytes with
  | Raise _ => true
  | Ok raw_decoded =>
    let decoded := record_from_asset raw_decoded in
    match asset_portion_non_standard decoded with
    | Ok b => b
    | Raise _ => true
    end
  end.

(** ** Parsing *)

(** Exception classes that have no constructor of their own in [exn]:
    no handler modelled here tells them apart from [Exception], and they
    are carried by it under the name of their class. *)
Definition ValueError : exn := Exception "ValueError".
Definition UnicodeDecodeError : exn := Exception "UnicodeDecodeError".

(** [b.decode('ascii')] *)
Definition decode_ascii (b : bytes) : result string :=
  if forallb (fun x => byte_val x <? 128) b
  then Ok (string_of_list_ascii (ascii_of_byte <$> b))
  else Raise UnicodeDecodeError.

(** The inner function [search_for_rvn] of [get_assets_from_script]. *)
Definition search_for_rvn (b : bytes) (start : Z) : Z :=
  if bool_decide (py_slice b start (start + 3) = [x72; x76; x6e]) then start + 3
  else if bool_decide (py_slice b (start + 1) (start + 4) = [x72; x76; x6e]) then start + 4
  else -1.

(** [get_assets_from_script]: the dict it returns has no entry or one,
    here a list of pairs. *)
Definition get_assets_from_script (script : bytes) : result (list (string * Z)) :=
  b0 ← index_or_raise script 0;
  is_script_hash ←
    (if byte_val b0 =? 169 then
       b1 ← index_or_raise script 1;
       if byte_val b1 =? 20 then
         b22 ← index_or_raise script 22;
         Ok (byte_val b22 =? 135)
       else Ok false
     else Ok false);
  let index := if is_script_hash : bool then search_for_rvn script 25
               else search_for_rvn script 27 in
  if 0 <? index then
    type ← index_or_raise script index;
    asset_name_len ← index_or_raise script (index + 1);
    let asset_name_len := byte_val asset_name_len in
    let asset_name := py_slice script (index + 2) (index + 2 + asset_name_len) in
    let sat_amt :=
      if negb (byte_val type =? 111)
      then le_decode (py_slice script (index + 2 + asset_name_len)
                                      (index + 10 + asset_name_len))
      else 100000000 in
    name ← decode_ascii asset_name;
    Ok [(name, sat_amt)]
  else Ok [].

(** [[f(vds) for i in range(n)]] for a reader [f] of the stream. *)
Fixpoint read_times {A} (f : BCDataStream.t -> result (A * BCDataStream.t))
    (n : nat) (vds : BCDataStream.t) : result (list A * BCDataStream.t) :=
  match n with
  | O => Ok ([], vds)
  | S n' =>
    '(x, vds) ← f vds;
    '(r, vds) ← read_times f n' vds;
    Ok (x :: r, vds)
  end.

(** [vds.read_bytes(vds.read_compact_size())] *)
Definition read_var_bytes (vds : BCDataStream.t) : result (bytes * BCDataStream.t) :=
  '(n, vds) ← BCDataStream.read_compact_size vds;
  BCDataStream.read_bytes vds n.

(** [TxInput.witness_elements] *)
Definition witness_elements (self : TxInput) : result (list bytes) :=
  if negb (truthy_bytes (witness self)) then Ok []
  else
    let vds := BCDataStream.write BCDataStream.init (default [] (witness self)) in
    '(n, vds) ← BCDataStream.read_compact_size vds;
    '(elements, _) ← read_times read_var_bytes (Z.to_nat n) vds;
    Ok elements.

(** The sighash that [parse_input] reads off the script: the last byte
    of the first push, if that is a member of [SIGHASH]; every exception
    on the way (an empty script, a malformed or data-less first element,
    an empty push, another byte) gives [None]. *)
Definition parse_input_sigtype (script_sig : bytes) : option Z :=
  if 0 <? len script_sig then
    match script_GetOp_step script_sig 0 with
    | Ok first =>
      match sop_vch first with
      | Some vch =>
        match py_index vch (-1) with
        | Some b =>
          if existsb (Z.eqb (byte_val b)) SIGHASH.members then Some (byte_val b) else None
        | None => None
        end
      | None => None
      end
    | Raise _ => None
    end
  else None.

Definition parse_input (vds : BCDataStream.t) : result (TxInput * BCDataStream.t) :=
  '(h, vds) ← BCDataStream.read_bytes vds 32;
  let prevout_hash := rev h in
  '(prevout_n, vds) ← BCDataStream.read_uint32 vds;
  let prevout := mkTxOutpoint prevout_hash prevout_n in
  '(script_sig, vds) ← read_var_bytes vds;
  '(nsequence, vds) ← BCDataStream.read_uint32 vds;
  let sigtype := parse_input_sigtype script_sig in
  Ok (mkTxInput prevout (Some script_sig) nsequence None false sigtype None, vds).

(** The constants of [ravencoin] and the helper of [util] that the
    parser of outputs uses.  [TxOutput_init_Satoshis v] is what
    [TxOutput.__init__] stores in [_value] when it is handed
    [value=Satoshis(v)]: it takes [value.value], asserts that this is a
    [str] or an [int], and raises ValueError for a string that is no
    max-spend marker; [util.Satoshis] is defined in [electrum/util.py].
    Every statement below holds for every instance. *)
Class ParserExternals : Type := {
  TOTAL_COIN_SUPPLY_LIMIT_IN_BTC : Z;
  COIN : Z;
  TxOutput_init_Satoshis : Z -> result value
}.

Section Parsing.
Context `{Externals} `{ParserExternals}.

Definition parse_witness (vds : BCDataStream.t) (txin : TxInput)
  : result (TxInput * BCDataStream.t) :=
  '(n, vds) ← BCDataStream.read_compact_size vds;
  '(witness_elements, vds) ← read_times read_var_bytes (Z.to_nat n) vds;
  w ← construct_witness (item_data <$> witness_elements);
  Ok (set_witness (Some w) txin, vds).

Definition parse_output (vds : BCDataStream.t) : result (TxOutput * BCDataStream.t) :=
  '(value, vds) ← BCDataStream.read_int64 vds;
  if TOTAL_COIN_SUPPLY_LIMIT_IN_BTC * COIN <? value then Raise SerializationError
  else if value <? 0 then Raise SerializationError
  else
    '(scriptpubkey, vds) ← read_var_bytes vds;
    assets ← get_assets_from_script scriptpubkey;
    match assets with
    | (asset, value) :: _ => Ok (mkTxOutput scriptpubkey (IntValue value) (Some asset) None, vds)
    | [] =>
      value ← TxOutput_init_Satoshis value;
      Ok (mkTxOutput scriptpubkey value None None, vds)
    end.

(** [TxOutput.from_network_bytes] *)
Definition from_network_bytes (raw : bytes) : result TxOutput :=
  let vds := BCDataStream.write BCDataStream.init raw in
  '(txout, vds) ← parse_output vds;
  if BCDataStream.can_read_more vds then Raise SerializationError
  else Ok txout.

(** [parse_witness] over the inputs, in order, on one stream. *)
Fixpoint parse_witnesses (vds : BCDataStream.t) (inputs : list TxInput)
  : result (list TxInput * BCDataStream.t) :=
  match inputs with
  | [] => Ok ([], vds)
  | txin :: r =>
    '(txin, vds) ← parse_witness vds txin;
    '(r, vds) ← parse_witnesses vds r;
    Ok (txin :: r, vds)
  end.

(** [Transaction(raw, wallet)] for a [bytes] object [raw], followed by
    [deserialize()]: the transaction with its fields populated. *)
Definition Transaction_deserialize (raw : bytes) (wallet : option Abstract_Wallet)
  : result Transaction :=
  let vds := BCDataStream.write BCDataStream.init raw in
  '(version, vds) ← BCDataStream.read_int32 vds;
  '(n_vin, vds) ← BCDataStream.read_compact_size vds;
  let is_segwit := n_vin =? 0 in
  '(n_vin, vds) ← (if is_segwit then
                     '(marker, vds) ← BCDataStream.read_bytes vds 1;
                     if negb (bool_decide (marker = [x01])) then Raise ValueError
                     else BCDataStream.read_compact_size vds
                   else Ok (n_vin, vds));
  if n_vin <? 1 then Raise SerializationError
  else
    '(inputs, vds) ← read_times parse_input (Z.to_nat n_vin) vds;
    '(n_vout, vds) ← BCDataStream.read_compact_size vds;
    if n_vout <? 1 then Raise SerializationError
    else
      '(outputs, vds) ← read_times parse_output (Z.to_nat n_vout) vds;
      '(inputs, vds) ← (if is_segwit then parse_witnesses vds inputs
                        else Ok (inputs, vds));
      '(locktime, vds) ← BCDataStream.read_uint32 vds;
      if BCDataStream.can_read_more vds then Raise SerializationError
      else Ok (mkTransaction version locktime inputs outputs false (Some raw) None
                             wallet None).

End Parsing.

(** An instance of the parser's constants for closed examples. *)
Definition toy_parser_externals : ParserExternals := {|
  TOTAL_COIN_SUPPLY_LIMIT_IN_BTC := 21000000000;
  COIN := 100000000;
  TxOutput_init_Satoshis v := Ok (IntValue v)
|}.


(** One stream is a later state of another: the same buffer, the cursor
    not moved back. *)
Definition stream_advances (s s' : BCDataStream.t) : Prop :=
  BCDataStream.input s' = BCDataStream.input s
  /\ BCDataStream.read_cursor s <= BCDataStream.read_cursor s'.

(** What [parse_input] guarantees of the input it returns. *)
Definition parsed_input_ok (txin : TxInput) : Prop :=
  length (txid (prevout txin)) = 32%nat
  /\ 0 <= out_idx (prevout txin) < 2 ^ 32
  /\ 0 <= nsequence txin < 2 ^ 32
  /\ is_Some (script_sig txin)
  /\ psbt_in txin = None
  /\ _is_coinbase_output txin = false
  /\ match sighash txin with
     | None => True
     | Some z => In z SIGHASH.members
     end.

(** The payload of an asset transfer: ['rvn'], the type ['t'], the
    length-prefixed name and the amount in eight little-endian bytes. *)
Definition ex_asset_payload (name : bytes) (amount : Z) : bytes :=
  [x72; x76; x6e; x74] ++ [byte_of_Z (len name)] ++ name ++ le_encode 8 amount.

(** A pay-to-pubkey-hash script followed by [OP_RVN_ASSET], the pushed
    asset payload and [OP_DROP]. *)
Definition ex_asset_transfer_script : bytes :=
  ex_p2pkh_script (repeat x07 20)
  ++ [xc0; x10] ++ ex_asset_payload [x41; x42; x43] 500 ++ [x75].


(** A serialized input: the outpoint [ex_outpoint0], an empty script
    and the sequence number [0xfffffffe]. *)
Definition ex_input_bytes : bytes :=
  repeat x01 32 ++ le_encode 4 0 ++ [x00] ++ le_encode 4 4294967294.

(** A serialized legacy transaction: version 2, the input above, one
    output of 1000 to the script [6a], locktime 0. *)
Definition ex_tx_bytes : bytes :=
  le_encode 4 2 ++ [x01] ++ ex_input_bytes
  ++ [x01] ++ le_encode 8 1000 ++ [x01; x6a] ++ le_encode 4 0.


(** An input that [parse_input] builds again from its serialization: a
    plain [TxInput] with a script, no witness, numbers in range and the
    sighash that its script shows. *)
Definition input_round_trips (txin : TxInput) : Prop :=
  length (txid (prevout txin)) = 32%nat
  /\ 0 <= out_idx (prevout txin) < 2 ^ 32
  /\ 0 <= nsequence txin < 2 ^ 32
  /\ (exists script, script_sig txin = Some script
                     /\ len script < 2 ^ 64
                     /\ sighash txin = parse_input_sigtype script)
  /\ witness txin = None
  /\ _is_coinbase_output txin = false
  /\ psbt_in txin = None.

(** An output that [parse_output] builds again from its serialization:
    a plain [TxOutput] with an amount within the supply limit, whose
    asset name and amount are the ones its script carries. *)
Definition output_round_trips `{ParserExternals} (o : TxOutput) : Prop :=
  exists v,
    _value o = IntValue v
    /\ 0 <= v <= TOTAL_COIN_SUPPLY_LIMIT_IN_BTC * COIN
    /\ v < 2 ^ 63
    /\ len (scriptpubkey o) < 2 ^ 64
    /\ psbt_out o = None
    /\ match asset o with
       | None =>
         get_assets_from_script (scriptpubkey o) = Ok []
         /\ TxOutput_init_Satoshis v = Ok (IntValue v)
       | Some a =>
         a <> ""%string /\ get_assets_from_script (scriptpubkey o) = Ok [(a, v)]
       end.

(** The transaction that [ex_tx_bytes] serializes. *)
Definition ex_legacy_tx : Transaction :=
  mkTransaction 2 0
    [mkTxInput ex_outpoint0 (Some []) 4294967294 None false None None]
    [mkTxOutput [x6a] (IntValue 1000) None None]
    false None None None None.


(** ** Further methods of Transaction *)

Definition set__version (v : Z) (t : Transaction) : Transaction :=
  mkTransaction v (_locktime t) (_inputs t) (_outputs t) (for_swap t)
    (_cached_network_ser t) (_cached_txid t) (_wallet t) (psbt_tx t).
Definition set__locktime (v : Z) (t : Transaction) : Transaction :=
  mkTransaction (_version t) v (_inputs t) (_outputs t) (for_swap t)
    (_cached_network_ser t) (_cached_txid t) (_wallet t) (psbt_tx t).
Definition set_for_swap (v : bool) (t : Transaction) : Transaction :=
  mkTransaction (_version t) (_locktime t) (_inputs t) (_outputs t) v
    (_cached_network_ser t) (_cached_txid t) (_wallet t) (psbt_tx t).

(** The [locktime] setter: a swap transaction keeps its locktime. *)
Definition locktime_setter (self : Transaction) (value : Z) : Transaction :=
  if for_swap self then self
  else invalidate_ser_cache (set__locktime value self).

(** The [version] setter. *)
Definition version_setter (self : Transaction) (value : Z) : Transaction :=
  invalidate_ser_cache (set__version value self).

(** [Transaction.is_final]: whether RBF is disabled. *)
Definition is_final (self : Transaction) : bool :=
  negb (existsb (fun txin => nsequence txin <? 4294967295 - 1) (_inputs self)).

(** [Transaction.virtual_size_from_weight] *)
Definition virtual_size_from_weight (weight : Z) : Z :=
  weight / 4 + (if 0 <? weight mod 4 then 1 else 0).

(** [Transaction.estimated_output_size_for_script]; the script is
    handed in as hex, [len(script) // 2] is its length in bytes. *)
Definition estimated_output_size_for_script (script : bytes) : result Z :=
  let script_len := len script in
  v ← var_int script_len;
  let var_int_len := len v in
  Ok (8 + var_int_len + script_len).

(** [PartialTransaction.set_rbf] *)
Definition set_rbf (self : Transaction) (rbf : bool) : Transaction :=
  let nSequence := 4294967295 - (if rbf then 2 else 1) in
  let visit (txin : TxInput) : TxInput :=
    if for_swap self
       && match sighash txin with
          | Some s => negb (s =? 0) && negb (Z.land s SIGHASH.SINGLE =? 0)
          | None => false
          end
    then txin
    else set_nsequence nSequence txin in
  invalidate_ser_cache (set__inputs (visit <$> _inputs self) self).

(** [PartialTxInput.already_has_some_signatures], as a truth value. *)
Definition already_has_some_signatures (self : TxInput) : result bool :=
  match psbt_in self with
  | None => Raise AttributeError
  | Some e =>
    Ok (negb (bool_decide (part_sigs e = ∅))
        || is_not_None (script_sig self) || is_not_None (witness self))
  end.

(** [PartialTransaction.from_tx]: [PartialTransaction()] with the inputs
    and outputs of [tx] converted, then the version, the locktime
    (through their setters) and [for_swap]. *)
Definition PartialTransaction_init : Transaction :=
  mkTransaction 2 0 [] [] false None None None
    (Some (mkPartialTransactionExt ∅ ∅ ∅)).

Definition from_tx (tx : Transaction) (strip : bool) : Transaction :=
  let res := PartialTransaction_init in
  let res := set__inputs ((fun txin => PartialTxInput_from_txin txin strip) <$> _inputs tx)
                         res in
  let res := set__outputs (PartialTxOutput_from_txout <$> _outputs tx) res in
  let res := version_setter res (_version tx) in
  let res := locktime_setter res (_locktime tx) in
  set_for_swap (for_swap tx) res.

(** [PartialTransaction.signature_count] *)
Definition signature_count (self : Transaction) : result (Z * Z) :=
  foldl (fun acc txin =>
           '(s, r) ← acc;
           if is_coinbase_input txin then Ok (s, r)
           else
             e ← ext_of txin;
             Ok (s + Z.of_nat (size (part_sigs e)), r + num_sig e))
        (Ok (0, 0)) (_inputs self).

(** [PartialTransaction.add_signature_to_txin] *)
Definition add_signature_to_txin (self : Transaction) (txin_idx : Z)
    (signing_pubkey sig : bytes) : result Transaction :=
  txin ← index_or_raise (_inputs self) txin_idx;
  e ← ext_of txin;
  let txin := with_ext (fun e => set_part_sigs (<[signing_pubkey := sig]> (part_sigs e)) e)
                       txin in
  let txin := set_witness None (set_script_sig None txin) in
  let position := if txin_idx <? 0 then txin_idx + len (_inputs self) else txin_idx in
  Ok (invalidate_ser_cache
        (set__inputs (<[Z.to_nat position := txin]> (_inputs self)) self)).

(** [PartialTransaction.remove_xpubs_and_bip32_paths] *)
Definition remove_xpubs_and_bip32_paths (self : Transaction) : result Transaction :=
  g ← match psbt_tx self with
      | Some g => Ok g
      | None => Raise AttributeError
      end;
  ins ← mapM (fun txin => _ ← ext_of txin; Ok (with_ext (set_bip32_paths ∅) txin))
             (_inputs self);
  outs ← mapM (fun txout =>
                 match psbt_out txout with
                 | Some e =>
                   Ok (set_out_ext
                         (Some (mkPartialTxOutputExt
                                  (out_redeem_script e) (out_witness_script e) ∅
                                  (out_unknown e) (out_script_type e) (out_num_sig e)
                                  (out_pubkeys e) (is_mine e) (is_change e)))
                         txout)
                 | None => Raise AttributeError
                 end)
              (_outputs self);
  Ok (set_psbt_tx (Some (mkPartialTransactionExt ∅ (psbt_unknown g) (_prevout_overrides g)))
                  (set__outputs outs (set__inputs ins self))).

(** [PartialTransaction.prepare_for_export_for_coinjoin] *)
Definition prepare_for_export_for_coinjoin (self : Transaction) : result Transaction :=
  g ← match psbt_tx self with
      | Some g => Ok g
      | None => Raise AttributeError
      end;
  ins ← mapM (fun txin => _ ← ext_of txin; Ok (with_ext (set_bip32_paths ∅) txin))
             (_inputs self);
  outs ← mapM (fun txout =>
                 match psbt_out txout with
                 | Some e =>
                   Ok (set_out_ext
                         (Some (mkPartialTxOutputExt None None ∅ ∅
                                  (out_script_type e) (out_num_sig e)
                                  (out_pubkeys e) (is_mine e) (is_change e)))
                         txout)
                 | None => Raise AttributeError
                 end)
              (_outputs self);
  Ok (set_psbt_tx (Some (mkPartialTransactionExt ∅ ∅ (_prevout_overrides g)))
                  (set__outputs outs (set__inputs ins self))).

Section Methods.
Context `{Externals}.

(** [Transaction.wtxid] *)
Definition Transaction_wtxid (self : Transaction) : result (option bytes) :=
  complete ← Transaction_is_complete self;
  if negb complete then Ok None
  else
    match serialize_to_network self false true false with
    | Raise UnknownTxinType => Ok None
    | Raise e => Raise e
    | Ok ser => Ok (Some (rev (sha256d ser)))
    end.

(** [Transaction.estimated_total_size]; the cached serialization is
    hex, [len(...) // 2] is its length in bytes. *)
Definition estimated_total_size (self : Transaction) : result Z :=
  complete ← Transaction_is_complete self;
  if negb complete || negb (is_not_None (_cached_network_ser self)) then
    ser ← serialize_to_network self true true false;
    Ok (len ser)
  else Ok (len (default [] (_cached_network_ser self))).

Definition estimated_witness_size (self : Transaction) : result Z :=
  complete ← Transaction_is_complete self;
  let estimate := negb complete in
  sw ← Transaction_is_segwit self estimate;
  if negb sw then Ok 0
  else
    witness ← concat_mapM (fun x => serialize_witness x estimate) (_inputs self);
    let witness_size := len witness + 2 in
    Ok witness_size.

Definition estimated_base_size (self : Transaction) : result Z :=
  total ← estimated_total_size self;
  w ← estimated_witness_size self;
  Ok (total - w).

Definition estimated_weight (self : Transaction) : result Z :=
  total_tx_size ← estimated_total_size self;
  base_tx_size ← estimated_base_size self;
  Ok (3 * base_tx_size + total_tx_size).

Definition estimated_size (self : Transaction) : result Z :=
  weight ← estimated_weight self;
  Ok (virtual_size_from_weight weight).

(** [PartialTransaction.is_complete] *)
Definition PartialTransaction_is_complete (self : Transaction) : result bool :=
  l ← mapM PartialTxInput_is_complete (_inputs self);
  Ok (forallb id l).

(** [PartialTxInput.convert_utxo_to_witness_utxo]; the two fields are
    written directly, not through their setters. *)
Definition convert_utxo_to_witness_utxo (self : TxInput) : result TxInput :=
  e ← ext_of self;
  match _utxo e with
  | Some utxo =>
    o ← index_or_raise (_outputs utxo) (out_idx (prevout self));
    Ok (with_ext (fun e => set__utxo None (set__witness_utxo (Some o) e)) self)
  | None => Ok self
  end.

Definition convert_all_utxos_to_witness_utxos (self : Transaction) : result Transaction :=
  ins ← mapM convert_utxo_to_witness_utxo (_inputs self);
  Ok (set__inputs ins self).

(** [PartialTransaction.remove_signatures] *)
Definition remove_signatures (self : Transaction) : result Transaction :=
  ins ← mapM (fun txin =>
                _ ← ext_of txin;
                Ok (set_witness None
                      (set_script_sig None (with_ext (set_part_sigs ∅) txin))))
             (_inputs self);
  let self := set__inputs ins self in
  complete ← PartialTransaction_is_complete self;
  _ ← py_assert (negb complete);
  Ok (invalidate_ser_cache self).

(** [PartialTransaction.add_inputs] and [add_outputs] *)
Definition add_inputs (self : Transaction) (inputs : list TxInput) : result Transaction :=
  let self := set__inputs (_inputs self ++ inputs) self in
  self ← BIP69_sort self true false;
  Ok (invalidate_ser_cache self).

Definition add_outputs (self : Transaction) (outputs : list TxOutput) : result Transaction :=
  let self := set__outputs (_outputs self ++ outputs) self in
  self ← BIP69_sort self false true;
  Ok (invalidate_ser_cache self).

(** The loop of [join_with_other_psbt] that looks for a prevout seen
    before; the string [prevout.to_str()] is represented by the pair
    it prints. *)
Fixpoint check_duplicate_prevouts (prevouts : gset (bytes * Z)) (inputs : list TxInput)
  : result unit :=
  match inputs with
  | [] => Ok tt
  | txin :: r =>
    let prevout_str := outpoint_key (prevout txin) in
    if bool_decide (prevout_str ∈ prevouts)
    then Raise (Exception "Duplicate inputs!")
    else check_duplicate_prevouts ({[ prevout_str ]} ∪ prevouts) r
  end.

(** [PartialTransaction.join_with_other_psbt].  The inputs and outputs
    of [other_tx] are added as the objects they are, so removing the
    signatures also strips them in [other_tx]; the result given here is
    the transaction joined into. *)
Definition join_with_other_psbt (self other_tx : Transaction) : result Transaction :=
  match psbt_tx other_tx with
  | None => Raise (Exception "Can only join partial transactions.")
  | Some other =>
    _ ← check_duplicate_prevouts ∅ (_inputs self ++ _inputs other_tx);
    g ← match psbt_tx self with
        | Some g => Ok g
        | None => Raise AttributeError
        end;
    let g := mkPartialTransactionExt (xpubs other ∪ xpubs g)
                                     (psbt_unknown other ∪ psbt_unknown g)
                                     (_prevout_overrides g) in
    let self := set_psbt_tx (Some g) self in
    self ← add_inputs self (_inputs other_tx);
    self ← add_outputs self (_outputs other_tx);
    self ← remove_signatures self;
    Ok (invalidate_ser_cache self)
  end.

End Methods.

(** ** Reading PSBT records *)

(** [PSBTSection.get_next_kv_from_fd] on the bytes left in the stream:
    [None] stands for the StopIteration that ends a section (every
    caller catches it); [fd.read(n)] returns the bytes that are left
    when there are fewer than [n]. *)
Definition get_next_kv_from_fd (fd : bytes)
  : result (option (Z * bytes * bytes) * bytes) :=
  r ← deser_compact_size fd;
  match r with
  | None => Raise UnexpectedEndOfStream
  | Some (key_size, fd) =>
    if key_size =? 0 then Ok (None, fd)
    else
      let full_key := firstn (Z.to_nat key_size) fd in
      let fd := skipn (Z.to_nat key_size) fd in
      '(key_type, key) ← get_keytype_and_key_from_fullkey full_key;
      r ← deser_compact_size fd;
      match r with
      | None => Raise UnexpectedEndOfStream
      | Some (val_size, fd) =>
        let val := firstn (Z.to_nat val_size) fd in
        let fd := skipn (Z.to_nat val_size) fd in
        Ok (Some (key_type, key, val), fd)
      end
  end.

Section PsbtParsing.
(** [util.chunks], defined in [electrum/util.py]; every statement below
    holds for every such function. *)
Variable chunks : bytes -> Z -> list bytes.

Definition unpack_bip32_root_fingerprint_and_int_path (path : bytes)
  : result (bytes * list Z) :=
  if negb (len path mod 4 =? 0) then Raise (Exception "unexpected packed path length")
  else
    let xfp := py_slice path 0 4 in
    let int_path := le_decode <$> chunks (py_slice path 4 (len path)) 4 in
    Ok (xfp, int_path).

(** [PartialTxOutput.parse_psbt_section_kv]: the output after a call
    that returns.  (A call that raises after the assignment of a script
    leaves that assignment behind; the exception is all that is kept
    here.) *)
Definition PartialTxOutput_parse_psbt_section_kv (self : TxOutput) (kt : Z) (key val : bytes)
  : result TxOutput :=
  match psbt_out self with
  | None => Raise AttributeError
  | Some e =>
    let update (e : PartialTxOutputExt) := Ok (set_out_ext (Some e) self) in
    let key_must_be_empty (r : result TxOutput) :=
      if truthy_bytes (Some key) then Raise SerializationError else r in
    if kt =? PSBTOutputType.REDEEM_SCRIPT then
      if is_not_None (out_redeem_script e) then Raise SerializationError
      else key_must_be_empty
             (update (mkPartialTxOutputExt (Some val) (out_witness_script e)
                        (out_bip32_paths e) (out_unknown e) (out_script_type e)
                        (out_num_sig e) (out_pubkeys e) (is_mine e) (is_change e)))
    else if kt =? PSBTOutputType.WITNESS_SCRIPT then
      if is_not_None (out_witness_script e) then Raise SerializationError
      else key_must_be_empty
             (update (mkPartialTxOutputExt (out_redeem_script e) (Some val)
                        (out_bip32_paths e) (out_unknown e) (out_script_type e)
                        (out_num_sig e) (out_pubkeys e) (is_mine e) (is_change e)))
    else if kt =? PSBTOutputType.BIP32_DERIVATION then
      if bool_decide (is_Some (out_bip32_paths e !! key)) then Raise SerializationError
      else if negb ((len key =? 33) || (len key =? 65)) then Raise SerializationError
      else
        path ← unpack_bip32_root_fingerprint_and_int_path val;
        update (mkPartialTxOutputExt (out_redeem_script e) (out_witness_script e)
                  (<[key := path]> (out_bip32_paths e)) (out_unknown e) (out_script_type e)
                  (out_num_sig e) (out_pubkeys e) (is_mine e) (is_change e))
    else
      full_key ← get_fullkey_from_keytype_and_key kt key;
      if bool_decide (is_Some (out_unknown e !! full_key)) then Raise SerializationError
      else
        update (mkPartialTxOutputExt (out_redeem_script e) (out_witness_script e)
                  (out_bip32_paths e) (<[full_key := val]> (out_unknown e))
                  (out_script_type e) (out_num_sig e) (out_pubkeys e)
                  (is_mine e) (is_change e))
  end.

End PsbtParsing.


(** The two fields that [TxOutput.__eq__] compares. *)
Definition output_eq_key (o : TxOutput) : bytes * value := (scriptpubkey o, _value o).

(** No two outputs pay the same value to the same script. *)
Definition outputs_distinct (outputs : list TxOutput) : Prop :=
  NoDup (output_eq_key <$> outputs).

(** The output does not pay to a burn address and carries an asset
    whose name ends in ['!'] (an ownership output). *)
Definition is_owner_output `{Externals} (o : TxOutput) : Prop :=
  ~ is_burn_output o
  /\ exists name, asset o = Some name /\ str_last name = Some "!"%char.

(** The outputs that the four variables of the overlay loop hold. *)
Definition overlay_selected (st : overlay_vouts) : list TxOutput :=
  opt_to_list (burn_vout st) ++ opt_to_list (parent_owner_vout st)
  ++ opt_to_list (asset_owner_vout st) ++ opt_to_list (asset_create_vout st).

(** What the four variables of the overlay loop hold: a burn output,
    two ownership outputs, an asset-create output. *)
Definition overlay_kinds `{Externals} (st : overlay_vouts) : Prop :=
  (forall o, burn_vout st = Some o -> is_burn_output o)
  /\ (forall o, parent_owner_vout st = Some o -> is_owner_output o)
  /\ (forall o, asset_owner_vout st = Some o -> is_owner_output o)
  /\ (forall o, asset_create_vout st = Some o -> is_asset_create_output o).


(** ** What a call leaves untouched *)

(** Every outcome of the call, returned or raised, leaves the object
    related to the object it started from. *)
Definition preserves {S A} (R : S -> S -> Prop) (m : method S A) : Prop :=
  forall (s s' : S) (r : result A), m s = (s', r) -> R s s'.

(** The input without its segwit memo. *)
Definition forget_memo (self : TxInput) : TxInput :=
  with_ext (fun e => set__is_native_segwit None (set__is_p2sh_segwit None e)) self.

(** Two states of an input that differ at most in the segwit memo. *)
Definition same_but_memo (self self' : TxInput) : Prop :=
  forget_memo self' = forget_memo self.

(** The two UTXO fields of an input. *)
Definition utxo_fields (self : TxInput) : option (option Transaction * option TxOutput) :=
  (fun e => (_utxo e, _witness_utxo e)) <$> psbt_in self.

(** Two states of an input with the same UTXO fields. *)
Definition same_utxos (self self' : TxInput) : Prop :=
  utxo_fields self' = utxo_fields self.

(** ** What a merge leaves behind

    The merged objects described attribute by attribute, the way the
    combiner is specified: a scalar attribute takes the other side's
    value when the other side has one, a dict is updated with the other
    side's dict, and everything else stays. *)

(** [mine] after [if theirs is not None: mine = theirs]. *)
Definition overridden_by {A} (mine theirs : option A) : option A :=
  match theirs with
  | Some v => Some v
  | None => mine
  end.

(** The attributes of a PSBT input that a merge does not assign. *)
Definition unmerged_fields (e : PartialTxInputExt) :=
  (script_type e, num_sig e, pubkeys e, _trusted_value_sats e, _trusted_address e,
   block_height e, spent_height e, spent_txid e, _is_p2sh_segwit e,
   _is_native_segwit e, witness_sizehint e).

(** [merged] is the PSBT input [self] with the data of [other_txin]
    pulled in, before it is finalized.  The previous transaction of the
    other side is taken as parsed back from its text, and only when it
    is complete; a witness UTXO is kept only when there is no previous
    transaction. *)
Definition merged_input `{Externals} (self other_txin merged : TxInput) : Prop :=
  exists e m : PartialTxInputExt,
    psbt_in self = Some e /\ psbt_in merged = Some m
    /\ prevout other_txin = prevout self
    /\ prevout merged = prevout self
    /\ nsequence merged = nsequence self
    /\ _is_coinbase_output merged = _is_coinbase_output self
    /\ unmerged_fields m = unmerged_fields e
    /\ script_sig merged = overridden_by (script_sig self) (script_sig other_txin)
    /\ witness merged = overridden_by (witness self) (witness other_txin)
    /\ match psbt_in other_txin with
       | None =>
         sighash merged = sighash self
         /\ part_sigs m = part_sigs e
         /\ bip32_paths m = bip32_paths e
         /\ _unknown m = _unknown e
         /\ redeem_script m = redeem_script e
         /\ witness_script m = witness_script e
         /\ _utxo m = _utxo e
         /\ _witness_utxo m = match _utxo m with
                              | Some _ => None
                              | None => _witness_utxo e
                              end
       | Some other =>
         sighash merged = overridden_by (sighash self) (sighash other_txin)
         /\ updated_with (part_sigs e) (part_sigs other) (part_sigs m)
         /\ updated_with (bip32_paths e) (bip32_paths other) (bip32_paths m)
         /\ updated_with (_unknown e) (_unknown other) (_unknown m)
         /\ redeem_script m = overridden_by (redeem_script e) (redeem_script other)
         /\ witness_script m = overridden_by (witness_script e) (witness_script other)
         /\ match _utxo other with
            | None => _utxo m = _utxo e
            | Some u =>
              exists (text : tx_text) (u' : Transaction) (complete : bool),
                Transaction_str u = Ok text /\ tx_from_any text = Ok u'
                /\ Transaction_is_complete u' = Ok complete
                /\ _utxo m = if complete then Some u' else _utxo e
            end
         /\ _witness_utxo m = match _utxo m with
                              | Some _ => None
                              | None => overridden_by (_witness_utxo e) (_witness_utxo other)
                              end
       end.


(** Two PSBTs for one unsigned transaction.  The input of the first
    carries a witness UTXO paying to a legacy address; the input of the
    second carries a final scriptSig and a witness UTXO paying to a
    segwit address. *)
Definition ex_legacy_txin : TxInput :=
  with_ext (set__witness_utxo
              (Some (mkTxOutput (ex_p2pkh_script (repeat x07 20)) (IntValue 1000) None None)))
           (ex_txin ex_outpoint0 None).

Definition ex_segwit_txin : TxInput :=
  set_script_sig (Some [x51])
    (with_ext (set__witness_utxo
                 (Some (mkTxOutput ([x00; x14] ++ repeat x07 20) (IntValue 1000) None None)))
              (ex_txin ex_outpoint0 None)).

Definition ex_legacy_utxo_psbt : Transaction :=
  ex_psbt [ex_legacy_txin] [ex_txout 900 [x6a]].

Definition ex_segwit_utxo_psbt : Transaction :=
  ex_psbt [ex_segwit_txin] [ex_txout 900 [x6a]].


(** * Properties *)

(** ** The error monad *)

Lemma bind_Ok {A B} (m : result A) (f : A -> result B) (b : B) :
  m ≫= f = Ok b -> exists a, m = Ok a /\ f a = Ok b.
Proof. destruct m as [a|e]; simpl; [eauto | discriminate]. Qed.

Lemma bind_Raise_l {A B} (f : A -> result B) (e : exn) : Raise e ≫= f = Raise e.
Proof. reflexivity. Qed.

Lemma fmap_Ok {A B} (g : A -> B) (m : result A) (b : B) :
  g <$> m = Ok b -> exists a, m = Ok a /\ b = g a.
Proof. destruct m as [a|e]; simpl; [intros [= <-]; eauto | discriminate]. Qed.

(** Splits a hypothesis [x ← m; k = Ok r] into [m = Ok x] and [k = Ok r]. *)
Ltac inv_bind H :=
  let a := fresh "a" in
  let Ha := fresh "Ha" in
  apply bind_Ok in H; destruct H as (a & Ha & H).

Lemma mapM_Ok_length {A B} (f : A -> result B) (l : list A) (k : list B) :
  mapM f l = Ok k -> length k = length l.
Proof.
  revert k; induction l as [|x l IH]; intros k Hk; simpl in Hk.
  - injection Hk as <-. reflexivity.
  - inv_bind Hk. inv_bind Hk. injection Hk as <-. simpl. f_equal. eauto.
Qed.

(** ** The script walker *)

Lemma byte_val_range (b : byte) : 0 <= byte_val b < 256.
Proof.
  unfold byte_val. pose proof (Byte.to_N_bounded b) as Hb. lia.
Qed.

Lemma le_decode_nonneg (b : bytes) : 0 <= le_decode b.
Proof.
  induction b as [|x b IH]; simpl; [lia|].
  pose proof (byte_val_range x). lia.
Qed.

Lemma read_push_size_advances (_bytes : bytes) (opcode i nSize i' : Z) :
  0 <= opcode ->
  read_push_size _bytes opcode i = Ok (nSize, i') -> 0 <= nSize /\ i <= i'.
Proof.
  unfold read_push_size, unpack_from. intros Hop Hrd.
  repeat case_match; simplify_eq;
    try (pose proof (byte_val_range b)); try (pose proof (le_decode_nonneg (py_slice _bytes i (i + 2))));
    try (pose proof (le_decode_nonneg (py_slice _bytes i (i + 4)))); lia.
Qed.

(** Every turn of the loop moves the cursor forward. *)
Lemma script_GetOp_step_advances (_bytes : bytes) (i : Z) (op : ScriptOp) :
  script_GetOp_step _bytes i = Ok op -> i < sop_next op.
Proof.
  unfold script_GetOp_step. intros Hs.
  destruct (py_index _bytes i) as [b|]; [|discriminate].
  pose proof (byte_val_range b) as Hb.
  destruct (byte_val b <=? opcodes.OP_PUSHDATA4).
  - inv_bind Hs. destruct a as [nSize j]. injection Hs as <-. simpl.
    apply read_push_size_advances in Ha; lia.
  - injection Hs as <-. simpl. lia.
Qed.

(** The fuel given by [script_GetOp] is enough: more fuel never changes
    the outcome. *)
Lemma script_GetOp_from_fuel (_bytes : bytes) (fuel fuel' : nat) (i : Z) :
  len _bytes - i <= Z.of_nat fuel -> (fuel <= fuel')%nat ->
  script_GetOp_from fuel _bytes i = script_GetOp_from fuel' _bytes i.
Proof.
  revert fuel' i. induction fuel as [|fuel IH]; intros fuel' i Hlen Hle.
  - destruct fuel' as [|fuel']; [reflexivity|]. simpl.
    destruct (Z.ltb_spec i (len _bytes)); [lia | reflexivity].
  - destruct fuel' as [|fuel']; [lia|]. simpl.
    destruct (Z.ltb_spec i (len _bytes)); [|reflexivity].
    destruct (script_GetOp_step _bytes i) as [op|e] eqn:Hstep; [|reflexivity].
    simpl. apply script_GetOp_step_advances in Hstep.
    rewrite (IH fuel' (sop_next op)); [reflexivity | lia | lia].
Qed.

(** The only exception the walker raises is [MalformedBitcoinScript]. *)
Lemma script_GetOp_step_raises (_bytes : bytes) (i : Z) (e : exn) :
  0 <= i < len _bytes ->
  script_GetOp_step _bytes i = Raise e -> e = MalformedBitcoinScript.
Proof.
  unfold script_GetOp_step, read_push_size, py_index. intros Hi Hs.
  destruct (Z.ltb_spec i 0); [lia|].
  destruct (Z.leb_spec 0 i); [|lia]. destruct (Z.ltb_spec i (len _bytes)); [|lia].
  simpl in Hs.
  destruct (nth_error _bytes (Z.to_nat i)) as [b|] eqn:Hn.
  - repeat case_match; simpl in *; simplify_eq; reflexivity.
  - apply nth_error_None in Hn. unfold len in *. lia.
Qed.

Lemma script_GetOp_from_raises (fuel : nat) (_bytes : bytes) (i : Z) (e : exn) :
  0 <= i ->
  script_GetOp_from fuel _bytes i = Raise e -> e = MalformedBitcoinScript.
Proof.
  revert i. induction fuel as [|fuel IH]; intros i Hi Hr; simpl in Hr; [discriminate|].
  destruct (Z.ltb_spec i (len _bytes)); [|discriminate].
  destruct (script_GetOp_step _bytes i) as [op|e'] eqn:Hstep.
  - simpl in Hr. pose proof (script_GetOp_step_advances _ _ _ Hstep).
    destruct (script_GetOp_from fuel _bytes (sop_next op)) eqn:Hrest; [discriminate|].
    simpl in Hr. injection Hr as <-. eapply IH; [|exact Hrest]. lia.
  - simpl in Hr. injection Hr as <-. eapply script_GetOp_step_raises; [|exact Hstep]. lia.
Qed.

Lemma script_GetOp_raises (_bytes : bytes) (e : exn) :
  script_GetOp _bytes = Raise e -> e = MalformedBitcoinScript.
Proof. apply script_GetOp_from_raises. lia. Qed.

(** A direct push (opcode 1..75) never raises, however short the rest of
    the script is: the slice is cut at the end of the script. *)
Lemma script_GetOp_step_direct_push (_bytes : bytes) (i : Z) (b : byte) :
  py_index _bytes i = Some b -> 1 <= byte_val b <= 75 ->
  script_GetOp_step _bytes i
  = Ok (mkScriptOp (byte_val b)
                   (Some (py_slice _bytes (i + 1) (i + 1 + byte_val b)))
                   (i + 1 + byte_val b)).
Proof.
  intros Hb Hr. unfold script_GetOp_step, read_push_size. rewrite Hb.
  unfold opcodes.OP_PUSHDATA4, opcodes.OP_PUSHDATA1, opcodes.OP_PUSHDATA2.
  destruct (Z.leb_spec (byte_val b) 78); [|lia].
  destruct (Z.eqb_spec (byte_val b) 76); [lia|].
  destruct (Z.eqb_spec (byte_val b) 77); [lia|].
  destruct (Z.eqb_spec (byte_val b) 78); [lia|]. reflexivity.
Qed.

(** Once the length prefix has been read, the payload is taken by a
    slice and nothing is compared with the length of the script: the
    walker yields whatever bytes remain, for every push form. *)
Lemma script_GetOp_step_payload_unchecked
    (_bytes : bytes) (i : Z) (b : byte) (nSize j : Z) :
  py_index _bytes i = Some b ->
  byte_val b <= opcodes.OP_PUSHDATA4 ->
  read_push_size _bytes (byte_val b) (i + 1) = Ok (nSize, j) ->
  script_GetOp_step _bytes i
  = Ok (mkScriptOp (byte_val b) (Some (py_slice _bytes j (j + nSize))) (j + nSize)).
Proof.
  intros Hb Hle Hsize. unfold script_GetOp_step. rewrite Hb.
  destruct (Z.leb_spec (byte_val b) opcodes.OP_PUSHDATA4); [|lia].
  rewrite Hsize. reflexivity.
Qed.

Lemma py_slice_length {A} (b : list A) (lo hi : Z) :
  0 <= lo <= hi -> len (py_slice b lo hi) = Z.min hi (len b) - Z.min lo (len b).
Proof.
  intros Hr. unfold py_slice, len. cbv zeta.
  rewrite length_take, length_drop.
  set (L := length b).
  set (c := Z.min lo (Z.of_nat L)). set (a := Z.min hi (Z.of_nat L)).
  assert (0 <= c <= a) by (unfold a, c; lia).
  assert (a <= Z.of_nat L) by (unfold a; lia).
  rewrite Nat.min_l by lia. lia.
Qed.

Lemma py_index_Some_lt {A} (b : list A) (i : Z) (x : A) :
  0 <= i -> py_index b i = Some x -> i < len b.
Proof.
  unfold py_index. intros Hi Hx.
  destruct (Z.ltb_spec i 0); [lia|].
  destruct (Z.leb_spec 0 i); [|lia].
  destruct (Z.ltb_spec i (len b)); [assumption | discriminate].
Qed.

(** A length prefix that was read lies inside the script. *)
Lemma read_push_size_within (_bytes : bytes) (opcode i nSize j : Z) :
  0 <= i <= len _bytes ->
  read_push_size _bytes opcode i = Ok (nSize, j) -> j <= len _bytes.
Proof.
  unfold read_push_size, unpack_from. intros Hi Hrd.
  destruct (opcode =? opcodes.OP_PUSHDATA1).
  { destruct (py_index _bytes i) as [x|] eqn:Hx; [|discriminate].
    injection Hrd as <- <-. apply py_index_Some_lt in Hx; lia. }
  destruct (opcode =? opcodes.OP_PUSHDATA2).
  { destruct (Z.leb_spec (i + 2) (len _bytes)); [|discriminate].
    injection Hrd as <- <-. lia. }
  destruct (opcode =? opcodes.OP_PUSHDATA4).
  { destruct (Z.leb_spec (i + 4) (len _bytes)); [|discriminate].
    injection Hrd as <- <-. lia. }
  injection Hrd as <- <-. lia.
Qed.

(** So a payload announced past the end of the script comes out
    shorter than announced, without an error. *)
Lemma script_GetOp_step_truncated_payload
    (_bytes : bytes) (i : Z) (b : byte) (nSize j : Z) :
  0 <= i ->
  py_index _bytes i = Some b ->
  byte_val b <= opcodes.OP_PUSHDATA4 ->
  read_push_size _bytes (byte_val b) (i + 1) = Ok (nSize, j) ->
  len _bytes < j + nSize ->
  exists vch,
    script_GetOp_step _bytes i = Ok (mkScriptOp (byte_val b) (Some vch) (j + nSize))
    /\ len vch < nSize.
Proof.
  intros Hi Hb Hle Hsize Hpast.
  exists (py_slice _bytes j (j + nSize)). split.
  - apply script_GetOp_step_payload_unchecked; assumption.
  - pose proof (byte_val_range b) as Hrange.
    pose proof (py_index_Some_lt _ _ _ Hi Hb) as Hlt.
    assert (Hin : j <= len _bytes)
      by (eapply read_push_size_within; [|exact Hsize]; lia).
    apply read_push_size_advances in Hsize as [Hn Hij]; [|lia].
    rewrite py_slice_length by lia. lia.
Qed.

(** C3 (the code departs from the claim).  A push whose announced
    payload runs past the end of the script is not reported: for a
    direct push and for OP_PUSHDATA1/2/4 alike, [script_GetOp] returns
    the bytes that are there, with a cursor beyond the end of the
    script.  Only a truncated length prefix raises
    [MalformedBitcoinScript]. *)
Theorem script_GetOp_truncated_push_not_rejected :
  script_GetOp [x05; x01] = Ok [mkScriptOp 5 (Some [x01]) 6]
  /\ script_GetOp [x4c; x05; x01] = Ok [mkScriptOp 76 (Some [x01]) 7]
  /\ script_GetOp [x4d; x05; x00; x01] = Ok [mkScriptOp 77 (Some [x01]) 8]
  /\ script_GetOp [x4e; x05; x00; x00; x00; x01] = Ok [mkScriptOp 78 (Some [x01]) 10]
  /\ script_GetOp [x4c] = Raise MalformedBitcoinScript
  /\ script_GetOp [x4d; x05] = Raise MalformedBitcoinScript
  /\ script_GetOp [x4e; x05; x00; x00] = Raise MalformedBitcoinScript.
Proof. repeat split; vm_compute; reflexivity. Qed.

(** ** The template matcher *)

Lemma firstn_find_op_rvn_asset (script : list ScriptOp) :
  firstn (find_op_rvn_asset script) script = prefix_before_asset_spec script.
Proof.
  induction script as [|x r IH]; simpl; [reflexivity|].
  destruct (Z.eqb_spec (sop_opcode x) opcodes.OP_RVN_ASSET) as [Heq|Hne].
  - rewrite bool_decide_eq_true_2 by exact Heq. reflexivity.
  - rewrite bool_decide_eq_false_2 by exact Hne. simpl. f_equal. exact IH.
Qed.

Lemma prefix_before_asset_spec_idem (script : list ScriptOp) :
  prefix_before_asset_spec (prefix_before_asset_spec script)
  = prefix_before_asset_spec script.
Proof.
  induction script as [|x r IH]; simpl; [reflexivity|].
  destruct (bool_decide (sop_opcode x = opcodes.OP_RVN_ASSET)) eqn:Hx; simpl;
    [reflexivity|].
  rewrite Hx. f_equal. exact IH.
Qed.

Lemma chop_at_asset_spec (raw_decoded : list ScriptOp) :
  chop_at_asset raw_decoded = prefix_before_asset_spec raw_decoded.
Proof.
  induction raw_decoded as [|x r IH]; simpl; [reflexivity|].
  destruct (Z.eqb_spec (sop_opcode x) opcodes.OP_RVN_ASSET) as [Heq|Hne].
  - rewrite bool_decide_eq_true_2 by exact Heq. reflexivity.
  - rewrite bool_decide_eq_false_2 by exact Hne. f_equal. exact IH.
Qed.

Lemma match_decoded_against_template_prefix
    (script : list ScriptOp) (template : list template_item) :
  match_decoded_against_template script template
  = match_decoded_against_template (prefix_before_asset_spec script) template.
Proof.
  unfold match_decoded_against_template.
  rewrite !firstn_find_op_rvn_asset, prefix_before_asset_spec_idem. reflexivity.
Qed.

(** The asset suffix is invisible to the matcher: whatever follows the
    first [OP_RVN_ASSET] can be replaced by anything. *)
Lemma match_decoded_against_template_suffix
    (script suffix suffix' : list ScriptOp) (marker marker' : ScriptOp)
    (template : list template_item) :
  sop_opcode marker = opcodes.OP_RVN_ASSET ->
  sop_opcode marker' = opcodes.OP_RVN_ASSET ->
  match_decoded_against_template (script ++ marker :: suffix) template
  = match_decoded_against_template (script ++ marker' :: suffix') template.
Proof.
  intros Hm Hm'.
  rewrite (match_decoded_against_template_prefix (script ++ marker :: suffix)).
  rewrite (match_decoded_against_template_prefix (script ++ marker' :: suffix')).
  f_equal. induction script as [|x r IH]; simpl.
  - rewrite !bool_decide_eq_true_2 by assumption. reflexivity.
  - destruct (bool_decide (sop_opcode x = opcodes.OP_RVN_ASSET)); [reflexivity|].
    f_equal. exact IH.
Qed.

Lemma template_items_accept_shape (script : list ScriptOp) (template : list template_item) :
  length script = length template ->
  template_items_accept script template = true <-> has_template_shape script template.
Proof.
  revert template. induction script as [|x script IH]; intros [|t template] Hlen;
    try discriminate Hlen.
  - split; [constructor | reflexivity].
  - injection Hlen as Hlen. cbn [template_items_accept]. rewrite andb_true_iff, (IH _ Hlen).
    assert (Hitem : template_item_accepts t x = true
                    <-> template_item_stands_for t (sop_opcode x)).
    { destruct t as [chk|m|o]; cbn [template_item_accepts template_item_stands_for];
        [reflexivity | reflexivity |].
      rewrite Z.eqb_eq. split; congruence. }
    rewrite Hitem. split.
    + intros [Hx Hr]. constructor; assumption.
    + intros Hs. inversion Hs; subst. split; assumption.
Qed.

Lemma match_decoded_against_template_shape
    (script : list ScriptOp) (template : list template_item) :
  match_decoded_against_template script template = true
  <-> has_template_shape (prefix_before_asset_spec script) template.
Proof.
  unfold match_decoded_against_template. rewrite firstn_find_op_rvn_asset.
  destruct (Nat.eqb_spec (length (prefix_before_asset_spec script)) (length template))
    as [Hlen|Hlen]; cbn [negb].
  - apply template_items_accept_shape. exact Hlen.
  - split; [discriminate|]. intros Hs. apply Forall2_length in Hs. contradiction.
Qed.

(** C7 (as the code has it).  For a byte string that [script_GetOp]
    decodes, [match_script_against_template] answers whether the prefix
    of the decoded script that strictly precedes the first
    [OP_RVN_ASSET] has the shape of the template (as many elements as the
    template has items, each accepted by the item at its position), so
    two scripts that decode and have the same such prefix get the same
    answer; for a byte string that does not decode the answer is
    [False].  The same holds for a script passed already decoded, and
    [None] never matches. *)
Theorem match_script_against_template_ignores_asset_suffix
    (template : list template_item) :
  (forall (_bytes : bytes) (decoded : list ScriptOp),
      script_GetOp _bytes = Ok decoded ->
      match_script_against_template (script_bytes _bytes) template = true
      <-> has_template_shape (prefix_before_asset_spec decoded) template)
  /\ (forall (_bytes _bytes' : bytes) (decoded decoded' : list ScriptOp),
         script_GetOp _bytes = Ok decoded ->
         script_GetOp _bytes' = Ok decoded' ->
         prefix_before_asset_spec decoded = prefix_before_asset_spec decoded' ->
         match_script_against_template (script_bytes _bytes) template
         = match_script_against_template (script_bytes _bytes') template)
  /\ (forall (_bytes : bytes) (e : exn),
         script_GetOp _bytes = Raise e ->
         match_script_against_template (script_bytes _bytes) template = false)
  /\ (forall decoded : list ScriptOp,
         match_script_against_template (script_decoded decoded) template = true
         <-> has_template_shape (prefix_before_asset_spec decoded) template)
  /\ match_script_against_template script_None template = false.
Proof.
  split; [|split; [|split; [|split]]].
  - intros _bytes decoded Hd. cbn [match_script_against_template]. rewrite Hd.
    apply match_decoded_against_template_shape.
  - intros _bytes _bytes' decoded decoded' Hd Hd' Hp.
    cbn [match_script_against_template]. rewrite Hd, Hd'.
    rewrite (match_decoded_against_template_prefix decoded),
            (match_decoded_against_template_prefix decoded'), Hp.
    reflexivity.
  - intros _bytes e Hd. cbn [match_script_against_template]. rewrite Hd. reflexivity.
  - intros decoded. cbn [match_script_against_template].
    apply match_decoded_against_template_shape.
  - reflexivity.
Qed.

(** A pay-to-pubkey-hash script with an asset transfer behind it has
    the shape of the p2pkh template in front of [OP_RVN_ASSET]. *)
Lemma match_script_against_template_ignores_asset_suffix_witness :
  exists decoded,
    script_GetOp ex_asset_transfer_script = Ok decoded
    /\ has_template_shape (prefix_before_asset_spec decoded) SCRIPTPUBKEY_TEMPLATE_P2PKH.
Proof.
  destruct (script_GetOp ex_asset_transfer_script) as [decoded|e] eqn:Hd;
    [|vm_compute in Hd; discriminate].
  exists decoded. split; [reflexivity|].
  apply (proj1 (match_script_against_template_ignores_asset_suffix
                  SCRIPTPUBKEY_TEMPLATE_P2PKH) ex_asset_transfer_script decoded Hd).
  vm_compute. reflexivity.
Defined.

(** C7 fails as stated: the second script is the first, a
    pay-to-pubkey-hash script, followed by [OP_RVN_ASSET] and a push
    whose length byte is missing.  What precedes [OP_RVN_ASSET] is the
    same in both, it decodes, and it has the shape of the p2pkh template;
    the first script matches the template and the second does not,
    because its asset suffix is malformed. *)
Lemma match_script_against_template_counterexample :
  (exists decoded,
      script_GetOp (ex_p2pkh_script (repeat x07 20)) = Ok decoded
      /\ prefix_before_asset_spec decoded = decoded
      /\ has_template_shape decoded SCRIPTPUBKEY_TEMPLATE_P2PKH)
  /\ match_script_against_template (script_bytes (ex_p2pkh_script (repeat x07 20)))
       SCRIPTPUBKEY_TEMPLATE_P2PKH = true
  /\ match_script_against_template
       (script_bytes (ex_p2pkh_script (repeat x07 20)
                      ++ [byte_of_Z opcodes.OP_RVN_ASSET; byte_of_Z opcodes.OP_PUSHDATA1]))
       SCRIPTPUBKEY_TEMPLATE_P2PKH = false.
Proof.
  split; [|split; vm_compute; reflexivity].
  destruct (script_GetOp (ex_p2pkh_script (repeat x07 20))) as [decoded|e] eqn:Hd;
    [|vm_compute in Hd; discriminate].
  exists decoded. split; [reflexivity|].
  assert (Hm : match_script_against_template
                 (script_bytes (ex_p2pkh_script (repeat x07 20)))
                 SCRIPTPUBKEY_TEMPLATE_P2PKH = true) by (vm_compute; reflexivity).
  assert (Hp : prefix_before_asset_spec decoded = decoded)
    by (vm_compute in Hd; injection Hd as <-; vm_compute; reflexivity).
  split; [exact Hp|]. rewrite <- Hp.
  cbn [match_script_against_template] in Hm. rewrite Hd in Hm.
  apply match_decoded_against_template_shape. exact Hm.
Qed.

(** ** TxOutput equality *)

(** C10.  [TxOutput.__eq__] compares the scriptpubkey and the value and
    nothing else: two outputs are equal exactly when these two fields
    are, whatever their asset names (and PSBT fields). *)
Theorem TxOutput_eq_ignores_asset :
  (forall a b : TxOutput,
      TxOutput_eq a b = true
      <-> scriptpubkey a = scriptpubkey b /\ _value a = _value b)
  /\ (forall (s : bytes) (v : value) (asset1 asset2 : option string)
             (e1 e2 : option PartialTxOutputExt),
         TxOutput_eq (mkTxOutput s v asset1 e1) (mkTxOutput s v asset2 e2) = true).
Proof.
  split.
  - intros a b. unfold TxOutput_eq.
    rewrite andb_true_iff, !bool_decide_eq_true. reflexivity.
  - intros. unfold TxOutput_eq. simpl.
    rewrite !bool_decide_eq_true_2 by reflexivity. reflexivity.
Qed.

(** [dict.update] as a union that prefers the other side. *)
Lemma updated_with_union {V} (mine theirs : gmap bytes V) :
  updated_with mine theirs (theirs ∪ mine).
Proof.
  intros k. rewrite lookup_union.
  destruct (theirs !! k), (mine !! k); reflexivity.
Qed.


(** ** Calls on an object *)

Lemma method_bind_Ok {S A B} (m : method S A) (f : A -> method S B) (s s' : S) (b : B) :
  (m ≫= f) s = (s', Ok b) ->
  exists s1 a, m s = (s1, Ok a) /\ f a s1 = (s', Ok b).
Proof.
  unfold mbind, method_bind. destruct (m s) as [s1 [a|e]]; [eauto | discriminate].
Qed.

Lemma method_bind_Raise {S A B} (m : method S A) (f : A -> method S B) (s s' : S)
    (e : exn) :
  (m ≫= f) s = (s', Raise e) ->
  m s = (s', Raise e) \/ exists s1 a, m s = (s1, Ok a) /\ f a s1 = (s', Raise e).
Proof.
  unfold mbind, method_bind. destruct (m s) as [s1 [a|e']]; [eauto|].
  intros [= <- <-]. left. reflexivity.
Qed.

(** Splits a hypothesis [(x ← m; k) s = (s', Ok r)]. *)
Ltac inv_call H :=
  let s1 := fresh "s" in
  let a := fresh "a" in
  let Ha := fresh "Ha" in
  apply method_bind_Ok in H; destruct H as (s1 & a & Ha & H).

Lemma reading_inv {S A} (f : S -> result A) (s s' : S) (r : result A) :
  reading f s = (s', r) -> s' = s /\ r = f s.
Proof. unfold reading. intros [= <- <-]. auto. Qed.

Lemma assign_inv {S} (f : S -> S) (s s' : S) (r : result unit) :
  assign f s = (s', r) -> s' = f s /\ r = Ok tt.
Proof. unfold assign. intros [= <- <-]. auto. Qed.


Lemma mret_inv {S A} (a : A) (s s' : S) (r : result A) :
  (mret a : method S A) s = (s', r) -> s' = s /\ r = Ok a.
Proof. unfold mret, method_ret. intros [= <- <-]. auto. Qed.

Section Preserves.
Context {S : Type} (R : S -> S -> Prop) `{!Reflexive R} `{!Transitive R}.

Lemma preserves_bind {A B} (m : method S A) (f : A -> method S B) :
  preserves R m -> (forall a, preserves R (f a)) -> preserves R (m ≫= f).
Proof.
  intros Hm Hf s s' r. unfold mbind, method_bind.
  destruct (m s) as [s1 [a|e]] eqn:Hms.
  - intros Hfa. etransitivity; [eapply Hm; exact Hms | eapply Hf; exact Hfa].
  - intros [= <- <-]. eapply Hm. exact Hms.
Qed.

Lemma preserves_ret {A} (a : A) : preserves R (mret a : method S A).
Proof. intros s s' r [= <- <-]. reflexivity. Qed.

Lemma preserves_reading {A} (f : S -> result A) : preserves R (reading f).
Proof. intros s s' r [= <- <-]. reflexivity. Qed.

Lemma preserves_this : preserves R (@this S).
Proof. intros s s' r [= <- <-]. reflexivity. Qed.

Lemma preserves_assign (f : S -> S) : (forall s, R s (f s)) -> preserves R (assign f).
Proof. intros Hf s s' r [= <- <-]. apply Hf. Qed.

End Preserves.

(** Goes through a call built from binds, tests and matches; what is
    left are its assignments and the calls it makes. *)
Ltac preserves_step :=
  first
    [ apply preserves_ret; apply _
    | apply preserves_reading; apply _
    | apply preserves_this; apply _
    | apply preserves_bind; [apply _ | | intros ?]
    | match goal with
      | |- preserves _ (if ?b then _ else _) => destruct b
      | |- preserves _ (match ?x with _ => _ end) => destruct x
      | |- preserves _ (let '(_, _) := ?x in _) => destruct x
      end ].

#[global] Instance same_but_memo_refl : Reflexive same_but_memo.
Proof. intros s. reflexivity. Qed.

#[global] Instance same_but_memo_trans : Transitive same_but_memo.
Proof. intros a b c Hab Hbc. unfold same_but_memo in *. congruence. Qed.

Lemma same_but_memo_native (v : option bool) (s : TxInput) :
  same_but_memo s (with_ext (set__is_native_segwit v) s).
Proof.
  unfold same_but_memo, forget_memo. destruct s as [po ss ns wi cb sh [e|]]; [|reflexivity].
  destruct e. reflexivity.
Qed.

Lemma same_but_memo_p2sh (v : option bool) (s : TxInput) :
  same_but_memo s (with_ext (set__is_p2sh_segwit v) s).
Proof.
  unfold same_but_memo, forget_memo. destruct s as [po ss ns wi cb sh [e|]]; [|reflexivity].
  destruct e. reflexivity.
Qed.

Lemma same_but_memo_utxo_fields (s s' : TxInput) :
  same_but_memo s s' -> utxo_fields s' = utxo_fields s.
Proof.
  unfold same_but_memo, forget_memo, utxo_fields. intros Hm.
  destruct s as [po ss ns wi cb sh [e|]], s' as [po' ss' ns' wi' cb' sh' [e'|]];
    cbn in Hm |- *; try discriminate; [|reflexivity].
  destruct e, e'. cbn in Hm |- *. injection Hm; intros; subst; reflexivity.
Qed.

Section CallProperties.
Context `{Externals}.

Lemma is_native_segwit_call_memo : preserves same_but_memo is_native_segwit_call.
Proof.
  unfold is_native_segwit_call. repeat preserves_step.
  apply preserves_assign. apply same_but_memo_native.
Qed.

Lemma is_p2sh_segwit_call_memo : preserves same_but_memo is_p2sh_segwit_call.
Proof.
  unfold is_p2sh_segwit_call. repeat preserves_step.
  apply preserves_assign. apply same_but_memo_p2sh.
Qed.

Lemma PartialTxInput_is_segwit_call_memo (g : bool) :
  preserves same_but_memo (PartialTxInput_is_segwit_call g).
Proof.
  unfold PartialTxInput_is_segwit_call.
  repeat first [apply is_native_segwit_call_memo | apply is_p2sh_segwit_call_memo
               | preserves_step].
Qed.

Lemma is_segwit_call_memo (g : bool) : preserves same_but_memo (is_segwit_call g).
Proof.
  unfold is_segwit_call.
  repeat first [apply PartialTxInput_is_segwit_call_memo | preserves_step].
Qed.

Lemma PartialTxInput_is_complete_call_memo :
  preserves same_but_memo PartialTxInput_is_complete_call.
Proof.
  unfold PartialTxInput_is_complete_call.
  repeat first [apply is_segwit_call_memo | preserves_step].
Qed.

Lemma get_siglist_call_memo (estimate_size : bool) :
  preserves same_but_memo (get_siglist_call estimate_size).
Proof.
  unfold get_siglist_call.
  repeat first [apply PartialTxInput_is_complete_call_memo | preserves_step].
Qed.

Lemma serialize_witness_call_memo (estimate_size : bool) :
  preserves same_but_memo (serialize_witness_call estimate_size).
Proof.
  unfold serialize_witness_call.
  repeat first [apply is_segwit_call_memo | apply get_siglist_call_memo | preserves_step].
Qed.

Lemma input_script_call_memo (estimate_size : bool) :
  preserves same_but_memo (input_script_call estimate_size).
Proof.
  unfold input_script_call.
  repeat first [apply is_native_segwit_call_memo | apply is_p2sh_segwit_call_memo
               | apply get_siglist_call_memo | preserves_step].
Qed.


End CallProperties.


(** ** PSBT inputs: one UTXO at a time *)

Section PsbtInputProperties.
Context `{Externals}.

Lemma ext_of_Ok (self : TxInput) (e : PartialTxInputExt) :
  ext_of self = Ok e <-> psbt_in self = Some e.
Proof. unfold ext_of. destruct (psbt_in self); split; congruence. Qed.

Lemma psbt_in_with_ext (f : PartialTxInputExt -> PartialTxInputExt) (self : TxInput) :
  psbt_in (with_ext f self) = f <$> psbt_in self.
Proof. reflexivity. Qed.

Lemma only_one_utxo_fields (self : TxInput) (u : option Transaction) (w : option TxOutput) :
  utxo_fields self = Some (u, w) -> (only_one_utxo self <-> u = None \/ w = None).
Proof.
  unfold utxo_fields, only_one_utxo. destruct (psbt_in self) as [e|]; [|discriminate].
  cbn. intros [= <- <-]. split; [intros Hone; apply Hone; reflexivity|].
  intros Hone e' [= <-]. exact Hone.
Qed.

#[local] Instance same_utxos_refl : Reflexive same_utxos.
Proof. intros s. reflexivity. Qed.

#[local] Instance same_utxos_trans : Transitive same_utxos.
Proof. intros a b c Hab Hbc. unfold same_utxos in *. congruence. Qed.

Lemma preserves_same_utxos {A} (m : method TxInput A) :
  preserves same_but_memo m -> preserves same_utxos m.
Proof.
  intros Hm s s' r Hrun. apply same_but_memo_utxo_fields. eapply Hm. exact Hrun.
Qed.

Lemma clear_fields_when_finalized_utxos (self : TxInput) :
  same_utxos self (clear_fields_when_finalized self).
Proof.
  unfold same_utxos, utxo_fields, clear_fields_when_finalized. rewrite psbt_in_with_ext.
  destruct (psbt_in self) as [e|]; [|reflexivity]. destruct e. reflexivity.
Qed.

(** [finalize] touches neither UTXO field, whether it returns or
    raises. *)
Lemma finalize_utxos : preserves same_utxos finalize.
Proof.
  unfold finalize.
  repeat first
    [ apply preserves_same_utxos, PartialTxInput_is_complete_call_memo
    | apply preserves_same_utxos, input_script_call_memo
    | apply preserves_same_utxos, serialize_witness_call_memo
    | apply preserves_assign; first [apply clear_fields_when_finalized_utxos
                                    | intros s; reflexivity]
    | preserves_step ].
Qed.

(** What [ensure_there_is_only_one_utxo] does: when both UTXOs are
    there it drops the witness UTXO and validates what is left;
    otherwise it does nothing. *)
Lemma ensure_there_is_only_one_utxo_run (self : TxInput) (e : PartialTxInputExt) :
  psbt_in self = Some e ->
  ensure_there_is_only_one_utxo self
  = if is_not_None (_utxo e) && is_not_None (_witness_utxo e)
    then (with_ext (set__witness_utxo None) self,
          validate_data (with_ext (set__witness_utxo None) self) false)
    else (self, Ok tt).
Proof.
  intros He. apply ext_of_Ok in He.
  unfold ensure_there_is_only_one_utxo, mbind, method_bind, reading, assign.
  rewrite He. destruct (is_not_None (_utxo e) && is_not_None (_witness_utxo e));
    reflexivity.
Qed.

(** After [ensure_there_is_only_one_utxo], returned or raised, the
    previous transaction is where it was, and the witness UTXO is gone
    if there is a previous transaction and where it was otherwise. *)
Lemma ensure_there_is_only_one_utxo_fields (self self' : TxInput) (r : result unit)
    (e : PartialTxInputExt) :
  psbt_in self = Some e ->
  ensure_there_is_only_one_utxo self = (self', r) ->
  utxo_fields self'
  = Some (_utxo e, match _utxo e with Some _ => None | None => _witness_utxo e end).
Proof.
  intros He. rewrite (ensure_there_is_only_one_utxo_run _ _ He).
  unfold utxo_fields.
  destruct (_utxo e) as [u|] eqn:Hu, (_witness_utxo e) as [w|] eqn:Hw; cbn [is_not_None andb];
    intros [= <- _]; rewrite ?psbt_in_with_ext, He; cbn; rewrite ?Hu, ?Hw;
    reflexivity.
Qed.

(** What the [witness_utxo] setter does. *)
Lemma witness_utxo_setter_run (value : option TxOutput) (self : TxInput)
    (e : PartialTxInputExt) :
  psbt_in self = Some e ->
  witness_utxo_setter value self
  = match validate_data (with_ext (set__witness_utxo value) self) false with
    | Ok _ => ensure_there_is_only_one_utxo (with_ext (set__witness_utxo value) self)
    | Raise x => (with_ext (set__witness_utxo value) self, Raise x)
    end.
Proof.
  intros He. apply ext_of_Ok in He.
  unfold witness_utxo_setter, mbind, method_bind, reading, assign. rewrite He.
  destruct (validate_data (with_ext (set__witness_utxo value) self) false); reflexivity.
Qed.

(** What the [utxo] setter does. *)
Lemma utxo_setter_run (tx : option Transaction) (self : TxInput) (e : PartialTxInputExt) :
  psbt_in self = Some e ->
  utxo_setter tx self
  = match tx with
    | None => (self, Ok tt)
    | Some tx =>
      match Transaction_str tx ≫= tx_from_any with
      | Raise x => (self, Raise x)
      | Ok tx' =>
        match Transaction_is_complete tx' with
        | Raise x => (self, Raise x)
        | Ok false => (self, Ok tt)
        | Ok true =>
          match validate_data (with_ext (set__utxo (Some tx')) self) false with
          | Ok _ => ensure_there_is_only_one_utxo (with_ext (set__utxo (Some tx')) self)
          | Raise x => (with_ext (set__utxo (Some tx')) self, Raise x)
          end
        end
      end
    end.
Proof.
  intros He. apply ext_of_Ok in He.
  unfold utxo_setter, mbind at 1, method_bind at 1, reading at 1. rewrite He.
  destruct tx as [tx|]; [|reflexivity].
  unfold mbind, method_bind, result_bind, reading, assign.
  destruct (Transaction_str tx) as [text|x]; [|reflexivity].
  destruct (tx_from_any text) as [tx'|x]; [|reflexivity].
  destruct (Transaction_is_complete tx') as [[|]|x]; reflexivity.
Qed.

Lemma utxo_fields_set_witness_utxo (value : option TxOutput) (self : TxInput)
    (e : PartialTxInputExt) :
  psbt_in self = Some e ->
  psbt_in (with_ext (set__witness_utxo value) self) = Some (set__witness_utxo value e)
  /\ utxo_fields (with_ext (set__witness_utxo value) self) = Some (_utxo e, value).
Proof.
  intros He. unfold utxo_fields. rewrite psbt_in_with_ext, He. split; reflexivity.
Qed.

Lemma utxo_fields_set_utxo (tx : option Transaction) (self : TxInput)
    (e : PartialTxInputExt) :
  psbt_in self = Some e ->
  psbt_in (with_ext (set__utxo tx) self) = Some (set__utxo tx e)
  /\ utxo_fields (with_ext (set__utxo tx) self) = Some (tx, _witness_utxo e).
Proof.
  intros He. unfold utxo_fields. rewrite psbt_in_with_ext, He. split; reflexivity.
Qed.

(** The UTXO fields after an assignment to [witness_utxo], by the way
    the assignment ends. *)
Lemma witness_utxo_setter_fields (value : option TxOutput) (self self' : TxInput)
    (r : result unit) (e : PartialTxInputExt) :
  psbt_in self = Some e ->
  witness_utxo_setter value self = (self', r) ->
  (r = Ok tt
   /\ utxo_fields self'
      = Some (_utxo e, match _utxo e with Some _ => None | None => value end))
  \/ (exists x, r = Raise x
                /\ validate_data (with_ext (set__witness_utxo value) self) false = Raise x
                /\ utxo_fields self' = Some (_utxo e, value))
  \/ (exists x, r = Raise x
                /\ validate_data (with_ext (set__witness_utxo value) self) false = Ok tt
                /\ utxo_fields self' = Some (_utxo e, None)).
Proof.
  intros He. rewrite (witness_utxo_setter_run _ _ _ He).
  destruct (utxo_fields_set_witness_utxo value self e He) as [He1 Hf1].
  destruct (validate_data (with_ext (set__witness_utxo value) self) false) as [[]|x] eqn:Hv.
  - intros Hens. pose proof (ensure_there_is_only_one_utxo_fields _ _ _ _ He1 Hens) as Hf.
    replace (_utxo (set__witness_utxo value e)) with (_utxo e) in Hf by reflexivity.
    replace (_witness_utxo (set__witness_utxo value e)) with value in Hf by reflexivity.
    destruct r as [[]|x]; [left; split; [reflexivity | exact Hf]|].
    right. right. exists x. split; [reflexivity|]. split; [reflexivity|].
    rewrite (ensure_there_is_only_one_utxo_run _ _ He1) in Hens.
    replace (_utxo (set__witness_utxo value e)) with (_utxo e) in Hens by reflexivity.
    replace (_witness_utxo (set__witness_utxo value e)) with value in Hens by reflexivity.
    destruct (_utxo e) as [u|], value as [w|]; cbn [is_not_None andb] in Hens;
      try (injection Hens as _ Hr; discriminate Hr).
    exact Hf.
  - intros [= <- <-]. right. left. exists x. split; [reflexivity|].
    split; [reflexivity | exact Hf1].
Qed.

(** The UTXO fields after an assignment to [utxo], by the way the
    assignment ends. *)
Lemma utxo_setter_fields (tx : option Transaction) (self self' : TxInput)
    (r : result unit) (e : PartialTxInputExt) :
  psbt_in self = Some e ->
  utxo_setter tx self = (self', r) ->
  self' = self
  \/ exists t text t',
       tx = Some t /\ Transaction_str t = Ok text /\ tx_from_any text = Ok t'
       /\ Transaction_is_complete t' = Ok true
       /\ ((r = Ok tt /\ utxo_fields self' = Some (Some t', None))
           \/ (exists x, r = Raise x
                         /\ validate_data (with_ext (set__utxo (Some t')) self) false
                            = Raise x
                         /\ utxo_fields self' = Some (Some t', _witness_utxo e))
           \/ (exists x, r = Raise x /\ utxo_fields self' = Some (Some t', None))).
Proof.
  intros He. rewrite (utxo_setter_run _ _ _ He).
  destruct tx as [t|]; [|intros [= <- _]; left; reflexivity].
  unfold mbind, result_bind.
  destruct (Transaction_str t) as [text|x] eqn:Hstr;
    [|intros [= <- _]; left; reflexivity].
  destruct (tx_from_any text) as [t'|x] eqn:Hparse; [|intros [= <- _]; left; reflexivity].
  destruct (Transaction_is_complete t') as [[|]|x] eqn:Hc;
    try (intros [= <- _]; left; reflexivity).
  destruct (utxo_fields_set_utxo (Some t') self e He) as [He1 Hf1].
  intros Hrun. right. exists t, text, t'. repeat (split; [reflexivity || assumption|]).
  destruct (validate_data (with_ext (set__utxo (Some t')) self) false) as [[]|x] eqn:Hv.
  - pose proof (ensure_there_is_only_one_utxo_fields _ _ _ _ He1 Hrun) as Hf.
    replace (_utxo (set__utxo (Some t') e)) with (Some t') in Hf by reflexivity.
    destruct r as [[]|x]; [left; split; [reflexivity | exact Hf]|].
    right. right. exists x. split; [reflexivity | exact Hf].
  - injection Hrun as <- <-. right. left. exists x.
    split; [reflexivity|]. split; [reflexivity | exact Hf1].
Qed.

Lemma with_ext_id (self : TxInput) (e : PartialTxInputExt) :
  psbt_in self = Some e -> with_ext (set__witness_utxo (_witness_utxo e)) self = self.
Proof.
  intros He. destruct self as [po ss ns wi cb sh pe]. cbn in He. subst pe.
  destruct e. reflexivity.
Qed.

Lemma with_ext_with_ext (f g : PartialTxInputExt -> PartialTxInputExt) (self : TxInput) :
  with_ext f (with_ext g self) = with_ext (fun e => f (g e)) self.
Proof. destruct self as [po ss ns wi cb sh [e|]]; reflexivity. Qed.

(** The input after [ensure_there_is_only_one_utxo] has returned. *)
Lemma ensure_there_is_only_one_utxo_Ok (self self' : TxInput) (e : PartialTxInputExt) :
  psbt_in self = Some e ->
  ensure_there_is_only_one_utxo self = (self', Ok tt) ->
  self' = with_ext (set__witness_utxo (match _utxo e with
                                       | Some _ => None
                                       | None => _witness_utxo e
                                       end)) self.
Proof.
  intros He. rewrite (ensure_there_is_only_one_utxo_run _ _ He).
  destruct (_utxo e) as [u|] eqn:Hu, (_witness_utxo e) as [w|] eqn:Hw;
    cbn [is_not_None andb]; intros Hrun; injection Hrun as <-; try reflexivity;
    rewrite <- ?Hw; symmetry; apply with_ext_id; exact He.
Qed.

(** The input after an assignment to [witness_utxo] that has
    returned. *)
Lemma witness_utxo_setter_Ok (value : option TxOutput) (self self' : TxInput)
    (e : PartialTxInputExt) :
  psbt_in self = Some e ->
  witness_utxo_setter value self = (self', Ok tt) ->
  self' = with_ext (set__witness_utxo (match _utxo e with
                                       | Some _ => None
                                       | None => value
                                       end)) self.
Proof.
  intros He. rewrite (witness_utxo_setter_run _ _ _ He).
  destruct (utxo_fields_set_witness_utxo value self e He) as [He1 _].
  destruct (validate_data (with_ext (set__witness_utxo value) self) false) as [[]|x];
    [|discriminate].
  intros Hens. apply (ensure_there_is_only_one_utxo_Ok _ _ _ He1) in Hens.
  rewrite with_ext_with_ext in Hens. subst self'.
  destruct self as [po ss ns wi cb sh pe]. cbn in He. subst pe.
  destruct e as [u w]. cbn. destruct u; reflexivity.
Qed.

(** The input after an assignment to [utxo] that has returned. *)
Lemma utxo_setter_Ok (tx : option Transaction) (self self' : TxInput)
    (e : PartialTxInputExt) :
  psbt_in self = Some e ->
  utxo_setter tx self = (self', Ok tt) ->
  match tx with
  | None => self' = self
  | Some t =>
    exists (text : tx_text) (t' : Transaction) (complete : bool),
      Transaction_str t = Ok text /\ tx_from_any text = Ok t'
      /\ Transaction_is_complete t' = Ok complete
      /\ self' = if complete
                 then with_ext (fun e => set__witness_utxo None (set__utxo (Some t') e)) self
                 else self
  end.
Proof.
  intros He. rewrite (utxo_setter_run _ _ _ He).
  destruct tx as [t|]; [|intros [= <-]; reflexivity].
  unfold mbind, result_bind.
  destruct (Transaction_str t) as [text|x] eqn:Hstr; [|discriminate].
  destruct (tx_from_any text) as [t'|x] eqn:Hparse; [|discriminate].
  destruct (Transaction_is_complete t') as [[|]|x] eqn:Hc; [| |discriminate].
  - destruct (utxo_fields_set_utxo (Some t') self e He) as [He1 _].
    destruct (validate_data (with_ext (set__utxo (Some t')) self) false) as [[]|x];
      [|discriminate].
    intros Hens. apply (ensure_there_is_only_one_utxo_Ok _ _ _ He1) in Hens.
    rewrite with_ext_with_ext in Hens. subst self'.
    exists text, t', true. repeat (split; [reflexivity || assumption|]).
    destruct self as [po ss ns wi cb sh pe]. cbn in He. subst pe.
    destruct e. reflexivity.
  - intros [= <-]. exists text, t', false. repeat (split; [reflexivity || assumption|]).
    reflexivity.
Qed.




Lemma opt_assign_inv {S A} (v : option A) (f : A -> S -> S) (s s' : S) (r : result unit) :
  match v with
  | Some x => assign (f x)
  | None => mret tt
  end s = (s', r) ->
  s' = match v with Some x => f x s | None => s end /\ r = Ok tt.
Proof. destruct v; intros [= <- <-]; auto. Qed.

Lemma opt_set_script_sig (v : option bytes) (s : TxInput) :
  match v with Some x => set_script_sig (Some x) s | None => s end
  = set_script_sig (overridden_by (script_sig s) v) s.
Proof. destruct v, s; reflexivity. Qed.

Lemma opt_set_witness (v : option bytes) (s : TxInput) :
  match v with Some x => set_witness (Some x) s | None => s end
  = set_witness (overridden_by (witness s) v) s.
Proof. destruct v, s; reflexivity. Qed.

Lemma opt_set_sighash (v : option Z) (s : TxInput) :
  match v with Some x => set_sighash (Some x) s | None => s end
  = set_sighash (overridden_by (sighash s) v) s.
Proof. destruct v, s; reflexivity. Qed.

Lemma opt_set_redeem_script (v : option bytes) (s : TxInput) :
  match v with Some x => with_ext (set_redeem_script (Some x)) s | None => s end
  = with_ext (fun e => set_redeem_script (overridden_by (redeem_script e) v) e) s.
Proof. destruct v, s as [po ss ns wi cb sh [[]|]]; reflexivity. Qed.

Lemma opt_set_witness_script (v : option bytes) (s : TxInput) :
  match v with Some x => with_ext (set_witness_script (Some x)) s | None => s end
  = with_ext (fun e => set_witness_script (overridden_by (witness_script e) v) e) s.
Proof. destruct v, s as [po ss ns wi cb sh [[]|]]; reflexivity. Qed.

(** What [combine_with_other_txin] has done when it returns: it has
    merged the other input in and then finalized the merged input. *)
Lemma combine_with_other_txin_Ok (other_txin self self' : TxInput) :
  combine_with_other_txin other_txin self = (self', Ok tt) ->
  exists merged : TxInput,
    merged_input self other_txin merged /\ finalize merged = (self', Ok tt).
Proof.
  unfold combine_with_other_txin. intros Hc.
  apply method_bind_Ok in Hc as (s0 & e & He & Hc).
  apply reading_inv in He as [-> He]. symmetry in He. apply ext_of_Ok in He.
  apply method_bind_Ok in Hc as (s0 & [] & Hpo & Hc).
  apply reading_inv in Hpo as [-> Hpo].
  destruct (bool_decide_reflect (prevout self = prevout other_txin)) as [Hpo'|];
    [|discriminate Hpo].
  clear Hpo.
  apply method_bind_Ok in Hc as (s1 & [] & Hss & Hc).
  apply (opt_assign_inv _ (fun x => set_script_sig (Some x))) in Hss as [-> _].
  apply method_bind_Ok in Hc as (s2 & [] & Hwi & Hc).
  apply (opt_assign_inv _ (fun x => set_witness (Some x))) in Hwi as [-> _].
  apply method_bind_Ok in Hc as (s3 & [] & Hother & Hc).
  apply method_bind_Ok in Hc as (s4 & [] & Hens & Hc).
  exists s4. split; [|exact Hc]. clear Hc self'.
  rewrite opt_set_script_sig, opt_set_witness in Hother.
  destruct self as [po ss ns wi cb sh pe]. cbn in He. subst pe.
  destruct other_txin as [po' ss' ns' wi' cb' sh' pe']. cbn in Hpo'. subst po'.
  cbn [script_sig witness psbt_in sighash set_script_sig set_witness] in Hother, Hens.
  destruct e as [u0 w0 ps0 bp0 rs0 ws0 un0].
  destruct pe' as [other|].
  - destruct other as [u1 w1 ps1 bp1 rs1 ws1 un1].
    cbn [_utxo _witness_utxo part_sigs bip32_paths redeem_script witness_script _unknown]
      in Hother.
    apply method_bind_Ok in Hother as (t1 & [] & Hw & Hother).
    apply method_bind_Ok in Hother as (t2 & [] & Hu & Hother).
    apply method_bind_Ok in Hother as (t3 & [] & H3 & Hother).
    apply assign_inv in H3 as [-> _].
    apply method_bind_Ok in Hother as (t4 & [] & H4 & Hother).
    apply (opt_assign_inv _ (fun x => set_sighash (Some x))) in H4 as [-> _].
    apply method_bind_Ok in Hother as (t5 & [] & H5 & Hother).
    apply assign_inv in H5 as [-> _].
    apply method_bind_Ok in Hother as (t6 & [] & H6 & Hother).
    apply (opt_assign_inv _ (fun x => with_ext (set_redeem_script (Some x)))) in H6
      as [-> _].
    apply method_bind_Ok in Hother as (t7 & [] & H7 & Hother).
    apply (opt_assign_inv _ (fun x => with_ext (set_witness_script (Some x)))) in H7
      as [-> _].
    apply assign_inv in Hother as [-> _].
    rewrite opt_set_witness_script, opt_set_redeem_script, opt_set_sighash in Hens.
    destruct w1 as [w1|], u1 as [u1|];
      (first [ eapply witness_utxo_setter_Ok in Hw; [|reflexivity]
             | apply mret_inv in Hw as [Hw _] ]);
      subst t1;
      (first [ eapply utxo_setter_Ok in Hu; [|reflexivity];
               destruct Hu as (text & u' & complete & Hstr & Hparse & Hcomp & Hu);
               destruct complete
             | apply mret_inv in Hu as [Hu _] ]);
      subst t2;
      destruct u0 as [u0|];
      (eapply ensure_there_is_only_one_utxo_Ok in Hens; [|reflexivity]);
      subst s4; unfold merged_input; eexists _, _;
      (split; [reflexivity|]); (split; [reflexivity|]);
      cbn;
      repeat match goal with
             | |- _ /\ _ => split
             | |- updated_with _ _ _ => apply updated_with_union
             | |- exists _ : tx_text, _ =>
               eexists _, _, _; split; [eassumption|]; split; [eassumption|];
               split; [eassumption|]
             | |- _ = _ => reflexivity
             end.
  - apply mret_inv in Hother as [-> _].
    destruct u0 as [u0|];
      (eapply ensure_there_is_only_one_utxo_Ok in Hens; [|reflexivity]);
      subst s4; unfold merged_input; eexists _, _;
      (split; [reflexivity|]); (split; [reflexivity|]);
      cbn; repeat split.
Qed.

Lemma only_one_utxo_after (self : TxInput) (u : option Transaction) (w : option TxOutput) :
  utxo_fields self = Some (u, match u with Some _ => None | None => w end) ->
  only_one_utxo self.
Proof.
  intros Hf. apply (only_one_utxo_fields _ _ _ Hf). destruct u; [right | left]; reflexivity.
Qed.

(** Writing the PSBT section of an input leaves its UTXO fields as
    [ensure_there_is_only_one_utxo] leaves them, whether the section
    can be written or not. *)
Lemma serialize_psbt_section_kvs_fields (self self' : TxInput) (r : result bytes)
    (e : PartialTxInputExt) :
  psbt_in self = Some e ->
  serialize_psbt_section_kvs self = (self', r) ->
  utxo_fields self'
  = Some (_utxo e, match _utxo e with Some _ => None | None => _witness_utxo e end).
Proof.
  intros He. unfold serialize_psbt_section_kvs, mbind, method_bind.
  destruct (ensure_there_is_only_one_utxo self) as [s1 [[]|x]] eqn:Hens.
  - intros Hread. apply reading_inv in Hread as [-> _].
    eapply ensure_there_is_only_one_utxo_fields; eassumption.
  - intros [= <- _]. eapply ensure_there_is_only_one_utxo_fields; eassumption.
Qed.

(** The UTXO fields after [combine_with_other_txin] has returned. *)
Lemma combine_with_other_txin_fields (other_txin self self' : TxInput)
    (e : PartialTxInputExt) :
  psbt_in self = Some e ->
  combine_with_other_txin other_txin self = (self', Ok tt) ->
  exists (u : option Transaction) (w : option TxOutput),
    utxo_fields self' = Some (u, w)
    /\ (is_Some (_utxo e) -> is_Some u)
    /\ (is_Some u -> w = None)
    /\ (u = None ->
        w = overridden_by (_witness_utxo e) (psbt_in other_txin ≫= _witness_utxo)).
Proof.
  intros He Hc. apply combine_with_other_txin_Ok in Hc as (merged & Hm & Hfin).
  apply finalize_utxos in Hfin. rewrite Hfin. clear Hfin self'.
  destruct Hm as (e0 & m & He0 & Hm & _ & _ & _ & _ & _ & _ & _ & Hrest).
  rewrite He in He0. injection He0 as <-.
  unfold utxo_fields. rewrite Hm. cbn [fmap option_fmap option_map].
  exists (_utxo m), (_witness_utxo m). split; [reflexivity|].
  destruct (psbt_in other_txin) as [other|]; cbn [mbind option_bind].
  - destruct Hrest as (_ & _ & _ & _ & _ & _ & Hu & Hw). rewrite Hw.
    destruct (_utxo other) as [u1|].
    + destruct Hu as (text & u' & [|] & _ & _ & _ & Hu); rewrite Hu.
      * split; [eauto|]. split; [reflexivity|]. discriminate.
      * split; [auto|]. destruct (_utxo e); [|split; [intros []; discriminate | reflexivity]].
        split; [reflexivity | discriminate].
    + rewrite Hu. split; [auto|].
      destruct (_utxo e); [|split; [intros []; discriminate | reflexivity]].
      split; [reflexivity | discriminate].
  - destruct Hrest as (_ & _ & _ & _ & _ & _ & Hu & Hw). rewrite Hw, Hu.
    split; [auto|].
    destruct (_utxo e); [|split; [intros []; discriminate | reflexivity]].
    split; [reflexivity | discriminate].
Qed.

(** C8 (as the code has it).  A fresh PSBT input holds neither UTXO.
    After an assignment through the [witness_utxo] setter that returns,
    the previous transaction is the one the input had, and the witness
    UTXO is the assigned value if there is no previous transaction and
    is dropped otherwise.  An assignment through the [utxo] setter that
    returns was ignored, leaving the input as it was, if it assigned
    [None] or a transaction that is parsed back from its text as not
    complete; otherwise it leaves the transaction parsed back from the
    text of the assigned one as the previous transaction, and no
    witness UTXO.  After
    [combine_with_other_txin] has returned, a previous transaction the
    input had is not lost, there is no witness UTXO next to a previous
    transaction, and without a previous transaction the witness UTXO is
    the one of the other input, or the input's own if the other has
    none.  After [ensure_there_is_only_one_utxo], and after the PSBT
    section was written or failed to be written, the previous
    transaction is kept and the witness UTXO is dropped if there is a
    previous transaction.  In each of these cases but the ignored
    assignment, the input does not hold both. *)
Theorem PartialTxInput_only_one_utxo :
  (forall (txin : TxInput) (strip_witness : bool),
      utxo_fields (PartialTxInput_from_txin txin strip_witness) = Some (None, None)
      /\ only_one_utxo (PartialTxInput_from_txin txin strip_witness))
  /\ (forall (value : option TxOutput) (self self' : TxInput) (e : PartialTxInputExt),
         psbt_in self = Some e ->
         witness_utxo_setter value self = (self', Ok tt) ->
         utxo_fields self'
         = Some (_utxo e, match _utxo e with Some _ => None | None => value end)
         /\ only_one_utxo self')
  /\ (forall (tx : option Transaction) (self self' : TxInput) (e : PartialTxInputExt),
         psbt_in self = Some e ->
         utxo_setter tx self = (self', Ok tt) ->
         match tx with
         | None => self' = self
         | Some t =>
           exists (text : tx_text) (t' : Transaction) (complete : bool),
             Transaction_str t = Ok text /\ tx_from_any text = Ok t'
             /\ Transaction_is_complete t' = Ok complete
             /\ if complete
                then utxo_fields self' = Some (Some t', None) /\ only_one_utxo self'
                else self' = self
         end)
  /\ (forall (other_txin self self' : TxInput) (e : PartialTxInputExt),
         psbt_in self = Some e ->
         combine_with_other_txin other_txin self = (self', Ok tt) ->
         (exists (u : option Transaction) (w : option TxOutput),
             utxo_fields self' = Some (u, w)
             /\ (is_Some (_utxo e) -> is_Some u)
             /\ (is_Some u -> w = None)
             /\ (u = None ->
                 w = overridden_by (_witness_utxo e)
                                   (psbt_in other_txin ≫= _witness_utxo)))
         /\ only_one_utxo self')
  /\ (forall (self self' : TxInput) (r : result unit) (e : PartialTxInputExt),
         psbt_in self = Some e ->
         ensure_there_is_only_one_utxo self = (self', r) ->
         utxo_fields self'
         = Some (_utxo e, match _utxo e with Some _ => None | None => _witness_utxo e end)
         /\ only_one_utxo self')
  /\ (forall (self self' : TxInput) (r : result bytes) (e : PartialTxInputExt),
         psbt_in self = Some e ->
         serialize_psbt_section_kvs self = (self', r) ->
         utxo_fields self'
         = Some (_utxo e, match _utxo e with Some _ => None | None => _witness_utxo e end)
         /\ only_one_utxo self').
Proof.
  split; [|split; [|split; [|split; [|split]]]].
  - intros txin strip. split; [reflexivity|]. intros e. cbn. intros [= <-]. left. reflexivity.
  - intros value self self' e He Hset.
    destruct (witness_utxo_setter_fields _ _ _ _ _ He Hset)
      as [[_ Hf]|[(x & Hx & _)|(x & Hx & _)]]; try discriminate Hx.
    split; [exact Hf|]. eapply only_one_utxo_after; exact Hf.
  - intros tx self self' e He Hset.
    pose proof (utxo_setter_Ok _ _ _ _ He Hset) as Hok.
    destruct tx as [t|]; [|exact Hok].
    destruct Hok as (text & t' & complete & Hstr & Hparse & Hc & ->).
    exists text, t', complete. repeat (split; [assumption|]).
    destruct complete; [|reflexivity].
    assert (Hf : utxo_fields
                   (with_ext (fun e => set__witness_utxo None (set__utxo (Some t') e)) self)
                 = Some (Some t', None))
      by (unfold utxo_fields; rewrite psbt_in_with_ext, He; reflexivity).
    split; [exact Hf|].
    apply (only_one_utxo_fields _ _ _ Hf). right. reflexivity.
  - intros other_txin self self' e He Hc.
    pose proof (combine_with_other_txin_fields _ _ _ _ He Hc) as (u & w & Hf & Hkeep & Hw & Hnone).
    split; [exists u, w; auto|].
    apply (only_one_utxo_fields _ _ _ Hf). destruct u as [u|]; [right | left; reflexivity].
    apply Hw. eauto.
  - intros self self' r e He Hens.
    pose proof (ensure_there_is_only_one_utxo_fields _ _ _ _ He Hens) as Hf.
    split; [exact Hf|]. eapply only_one_utxo_after; exact Hf.
  - intros self self' r e He Hser.
    pose proof (serialize_psbt_section_kvs_fields _ _ _ _ He Hser) as Hf.
    split; [exact Hf|]. eapply only_one_utxo_after; exact Hf.
Qed.

(** C9 (as the code has it).  Assigning [None] to the [utxo] property of
    a PSBT input returns without an error and leaves the input as it
    was; so does assigning a transaction whose text [str(tx)] can be
    built and is parsed back by [tx_from_any] into a transaction that is
    not complete.  An exception raised while the text is built or
    parsed is raised by the assignment, which leaves the input as it
    was. *)
Theorem utxo_setter_ignores_None_and_incomplete (self : TxInput) :
  is_Some (psbt_in self) ->
  utxo_setter None self = (self, Ok tt)
  /\ (forall (tx : Transaction) (text : tx_text) (tx' : Transaction),
         Transaction_str tx = Ok text ->
         tx_from_any text = Ok tx' ->
         Transaction_is_complete tx' = Ok false ->
         utxo_setter (Some tx) self = (self, Ok tt))
  /\ (forall (tx : Transaction) (e : exn),
         Transaction_str tx = Raise e -> utxo_setter (Some tx) self = (self, Raise e))
  /\ (forall (tx : Transaction) (text : tx_text) (e : exn),
         Transaction_str tx = Ok text -> tx_from_any text = Raise e ->
         utxo_setter (Some tx) self = (self, Raise e)).
Proof.
  intros [e He]. split; [|split; [|split]].
  - rewrite (utxo_setter_run _ _ _ He). reflexivity.
  - intros tx text tx' Htext Hparse Hinc. rewrite (utxo_setter_run _ _ _ He).
    unfold mbind, result_bind. rewrite Htext, Hparse, Hinc. reflexivity.
  - intros tx e' Htext. rewrite (utxo_setter_run _ _ _ He).
    unfold mbind, result_bind. rewrite Htext. reflexivity.
  - intros tx text e' Htext Hparse. rewrite (utxo_setter_run _ _ _ He).
    unfold mbind, result_bind. rewrite Htext, Hparse. reflexivity.
Qed.

End PsbtInputProperties.

(** ** The signature pre-image *)

Lemma nth_error_lookup {A} (l : list A) (i : nat) : nth_error l i = l !! i.
Proof. revert i; induction l as [|x l IH]; intros [|i]; simpl; auto. Qed.

Lemma index_or_raise_lookup {A} (l : list A) (i : nat) (a : A) :
  l !! i = Some a -> index_or_raise l (Z.of_nat i) = Ok a.
Proof.
  intros Hl. unfold index_or_raise, py_index.
  pose proof (lookup_lt_Some _ _ _ Hl) as Hlt.
  destruct (Z.ltb_spec (Z.of_nat i) 0); [lia|].
  destruct (Z.leb_spec 0 (Z.of_nat i)); [|lia].
  destruct (Z.ltb_spec (Z.of_nat i) (len l)); [|unfold len in *; lia].
  simpl. rewrite Nat2Z.id, nth_error_lookup, Hl. reflexivity.
Qed.

Section PreimageProperties.
Context `{Externals}.

(** C1 (as the code has it).  For an input that is segwit,
    [serialize_preimage] never returns a pre-image: every call raises,
    and once the integer fields, the sighash and the pre-image script
    are in order the exception is the [NotImplementedError] of the
    segwit branch. *)
Theorem serialize_preimage_segwit_raises
    (self : Transaction) (txin_index : nat) (txin : TxInput) :
  _inputs self !! txin_index = Some txin ->
  is_segwit txin false = Ok true ->
  (exists e, serialize_preimage self txin_index = Raise e)
  /\ (forall (nVersion nLocktime nHashType preimage_script : bytes)
             (g : PartialTransactionExt),
         int_to_hex (_version self) 4 = Ok nVersion ->
         int_to_hex (_locktime self) 4 = Ok nLocktime ->
         existsb (Z.eqb (default SIGHASH.ALL (sighash txin))) SIGHASH.members = true ->
         int_to_hex (default SIGHASH.ALL (sighash txin)) 4 = Ok nHashType ->
         psbt_tx self = Some g ->
         get_preimage_script txin (_wallet self) (_prevout_overrides g)
         = Ok preimage_script ->
         serialize_preimage self txin_index = Raise NotImplementedError).
Proof.
  intros Hin Hseg. apply index_or_raise_lookup in Hin.
  split.
  - unfold serialize_preimage.
    destruct (int_to_hex (_version self) 4); cbn [mbind result_bind]; [|eauto].
    destruct (int_to_hex (_locktime self) 4); cbn [mbind result_bind]; [|eauto].
    rewrite Hin. cbn [mbind result_bind].
    destruct (existsb (Z.eqb (default SIGHASH.ALL (sighash txin))) SIGHASH.members);
      cbn [negb]; [|eauto].
    destruct (int_to_hex (default SIGHASH.ALL (sighash txin)) 4);
      cbn [mbind result_bind]; [|eauto].
    destruct (psbt_tx self) as [g|]; cbn [mbind result_bind]; [|eauto].
    destruct (get_preimage_script txin (_wallet self) (_prevout_overrides g));
      cbn [mbind result_bind]; [|eauto].
    rewrite Hseg. cbn [mbind result_bind]. eauto.
  - intros nVersion nLocktime nHashType preimage_script g Hv Hl Hmem Hh Hg Hps.
    unfold serialize_preimage. rewrite Hv, Hl. cbn [mbind result_bind].
    rewrite Hin. cbn [mbind result_bind]. rewrite Hmem. cbn [negb].
    rewrite Hh. cbn [mbind result_bind]. rewrite Hg. cbn [mbind result_bind].
    rewrite Hps. cbn [mbind result_bind]. rewrite Hseg. reflexivity.
Qed.

(** Under SIGHASH_SINGLE the outputs written for an index inside the
    output list are the outputs before it, blanked, and then the output
    at the index, untouched. *)
Lemma single_txouts_inside (txin_index : nat) (outputs : list TxOutput) (k : nat)
    (before : list TxOutput) (txout : TxOutput) (after : list TxOutput) :
  outputs = before ++ txout :: after ->
  (k + length before)%nat = txin_index ->
  single_txouts txin_index k outputs
  = (blanked ← concat_mapM serialize_blanked_txout before;
     s ← TxOutput_serialize_to_network txout;
     Ok (blanked ++ s)).
Proof.
  revert outputs k. induction before as [|o before IH]; intros outputs k -> Hk.
  - assert (k = txin_index) as -> by (simpl in Hk; lia).
    cbn [app single_txouts]. rewrite Nat.ltb_irrefl, Nat.eqb_refl.
    unfold concat_mapM. cbn [mapM mret result_ret mbind result_bind concat app].
    destruct (TxOutput_serialize_to_network txout) as [s|e];
      cbn [mbind result_bind]; [|reflexivity].
    destruct after as [|o' after]; cbn [single_txouts].
    + cbn [mbind result_bind]. rewrite List.app_nil_r. reflexivity.
    + destruct (Nat.ltb_spec (S txin_index) txin_index); [lia|].
      destruct (Nat.eqb_spec (S txin_index) txin_index); [lia|].
      cbn [mbind result_bind]. rewrite List.app_nil_r. reflexivity.
  - cbn [app single_txouts]. simpl in Hk.
    destruct (Nat.ltb_spec k txin_index); [|lia].
    unfold concat_mapM. cbn [mapM mbind result_bind].
    destruct (serialize_blanked_txout o) as [s|e];
      cbn [mbind result_bind]; [|reflexivity].
    rewrite (IH (before ++ txout :: after) (S k) eq_refl) by lia.
    unfold concat_mapM.
    destruct (mapM _ before) as [parts|e];
      cbn [mbind result_bind mret result_ret concat]; [|reflexivity].
    destruct (TxOutput_serialize_to_network txout) as [s'|e];
      cbn [mbind result_bind]; [|reflexivity].
    rewrite List.app_assoc. reflexivity.
Qed.

(** At the index just past the last output nothing stops the loop: all
    the outputs are written blanked and no output follows them. *)
Lemma single_txouts_past_end (txin_index : nat) (outputs : list TxOutput) (k : nat) :
  (k + length outputs <= txin_index)%nat ->
  single_txouts txin_index k outputs
  = concat_mapM serialize_blanked_txout outputs.
Proof.
  revert k. induction outputs as [|o outputs IH]; intros k Hk; [reflexivity|].
  cbn [single_txouts]. simpl in Hk.
  destruct (Nat.ltb_spec k txin_index); [|lia].
  unfold concat_mapM. cbn [mapM mbind result_bind].
  destruct (serialize_blanked_txout o) as [s|e];
    cbn [mbind result_bind]; [|reflexivity].
  rewrite IH by lia. unfold concat_mapM.
  destruct (mapM _ outputs) as [parts|e]; reflexivity.
Qed.

End PreimageProperties.

(** The segwit branch on a p2wpkh input of the wallet. *)
Lemma serialize_preimage_segwit_raises_witness :
  _inputs ex_segwit_psbt !! 0%nat = Some ex_txin_p2wpkh
  /\ @is_segwit toy_externals ex_txin_p2wpkh false = Ok true
  /\ exists e, @serialize_preimage toy_externals ex_segwit_psbt 0 = Raise e.
Proof.
  assert (Hin : _inputs ex_segwit_psbt !! 0%nat = Some ex_txin_p2wpkh) by reflexivity.
  assert (Hseg : @is_segwit toy_externals ex_txin_p2wpkh false = Ok true)
    by (vm_compute; reflexivity).
  split; [exact Hin|]. split; [exact Hseg|].
  exact (proj1 (@serialize_preimage_segwit_raises toy_externals ex_segwit_psbt 0
                  ex_txin_p2wpkh Hin Hseg)).
Defined.

(** C1 fails as stated: for this segwit input the BIP-143 assembly is
    well defined, and [serialize_preimage] raises instead of returning
    it. *)
Lemma serialize_preimage_segwit_counterexample :
  @is_segwit toy_externals ex_txin_p2wpkh false = Ok true
  /\ is_Ok (@bip143_preimage toy_externals ex_segwit_psbt 0) = true
  /\ @serialize_preimage toy_externals ex_segwit_psbt 0 = Raise NotImplementedError
  /\ @serialize_preimage toy_externals ex_segwit_psbt 0
     <> @bip143_preimage toy_externals ex_segwit_psbt 0.
Proof. repeat split; vm_compute; congruence. Qed.

(** C2 (the code departs from the claim).  The SIGHASH_SINGLE guard
    only rejects [txin_index > len(outputs)].  For a transaction with no
    output, the pre-image of input 0 is computed, with an empty output
    vector.  For two inputs and a single output, the pre-image of
    input 1 is computed although there is no output 1: the output vector
    is the count 1 followed by output 0 blanked (value 2^64-1, empty
    script), here with the blanked value stored as the integer. *)
Theorem serialize_preimage_single_index_past_outputs :
  (len (_outputs ex_no_output_psbt) = 0
   /\ @serialize_preimage toy_externals ex_no_output_psbt 0
      = Ok ([x02; x00; x00; x00]
            ++ [x01]
            ++ (repeat x01 32 ++ [x00; x00; x00; x00] ++ [x01; x51]
                ++ [xfe; xff; xff; xff])
            ++ [x00]
            ++ [x00; x00; x00; x00]
            ++ [x03; x00; x00; x00]))
  /\ (len (_outputs ex_single_psbt) = 1
      /\ @serialize_preimage toy_externals ex_single_psbt 1
         = Ok ([x02; x00; x00; x00]
               ++ [x02]
               ++ (repeat x01 32 ++ [x00; x00; x00; x00] ++ [x00]
                   ++ [x00; x00; x00; x00])
               ++ (repeat x02 32 ++ [x01; x00; x00; x00] ++ [x01; x52]
                   ++ [xfe; xff; xff; xff])
               ++ [x01]
               ++ (repeat xff 8 ++ [x00])
               ++ [x00; x00; x00; x00]
               ++ [x03; x00; x00; x00])).
Proof. repeat split; vm_compute; reflexivity. Qed.

(** Assigning a consistent witness UTXO to an input that already holds
    the previous transaction: the witness UTXO is dropped again. *)
Lemma PartialTxInput_only_one_utxo_witness :
  @witness_utxo_setter toy_externals
     (Some (mkTxOutput [x6a] (IntValue 5000) None None)) ex_txin_with_utxo
  = (ex_txin_with_utxo, Ok tt)
  /\ utxo_fields ex_txin_with_utxo = Some (Some ex_prev_tx, None)
  /\ only_one_utxo ex_txin_with_utxo.
Proof.
  assert (Hset : @witness_utxo_setter toy_externals
                   (Some (mkTxOutput [x6a] (IntValue 5000) None None)) ex_txin_with_utxo
                 = (ex_txin_with_utxo, Ok tt)) by (vm_compute; reflexivity).
  split; [exact Hset|].
  exact (proj1 (proj2 (@PartialTxInput_only_one_utxo toy_externals))
           _ ex_txin_with_utxo _ _ (eq_refl : psbt_in ex_txin_with_utxo = Some _) Hset).
Defined.

(** C8 fails as stated: the setter stores the value before it validates
    it.  Assigning a witness UTXO that differs from the output of the
    previous transaction raises, and the input is left holding both. *)
Lemma PartialTxInput_only_one_utxo_counterexample :
  exists self' : TxInput,
    @witness_utxo_setter toy_externals
       (Some (mkTxOutput [x6a] (IntValue 4999) None None)) ex_txin_with_utxo
    = (self', Raise PSBTInputConsistencyFailure)
    /\ utxo_fields self'
       = Some (Some ex_prev_tx, Some (mkTxOutput [x6a] (IntValue 4999) None None))
    /\ ~ only_one_utxo self'.
Proof.
  eexists. split; [vm_compute; reflexivity|]. split; [reflexivity|].
  intros Hone. destruct (Hone _ eq_refl) as [Hu|Hw]; discriminate.
Qed.

(** Assigning [None] and assigning an unsigned PSBT, with a parser that
    gives the unsigned PSBT back. *)
Lemma utxo_setter_ignores_None_and_incomplete_witness :
  is_Some (psbt_in ex_txin_with_utxo)
  /\ is_Ok (@Transaction_str ex_parsing_externals ex_single_psbt) = true
  /\ @Transaction_is_complete ex_parsing_externals ex_single_psbt = Ok false
  /\ @utxo_setter ex_parsing_externals None ex_txin_with_utxo = (ex_txin_with_utxo, Ok tt)
  /\ @utxo_setter ex_parsing_externals (Some ex_single_psbt) ex_txin_with_utxo
     = (ex_txin_with_utxo, Ok tt).
Proof.
  assert (Hext : is_Some (psbt_in ex_txin_with_utxo)) by (eexists; reflexivity).
  destruct (@Transaction_str ex_parsing_externals ex_single_psbt) as [text|e] eqn:Htext;
    [|vm_compute in Htext; discriminate].
  assert (Hparse : @tx_from_any ex_parsing_externals text = Ok ex_single_psbt)
    by reflexivity.
  assert (Hinc : @Transaction_is_complete ex_parsing_externals ex_single_psbt = Ok false)
    by (vm_compute; reflexivity).
  pose proof (@utxo_setter_ignores_None_and_incomplete ex_parsing_externals
                ex_txin_with_utxo Hext) as (HNone & Hincomplete & _).
  split; [exact Hext|]. split; [reflexivity|]. split; [exact Hinc|].
  split; [exact HNone|].
  exact (Hincomplete ex_single_psbt text ex_single_psbt Htext Hparse Hinc).
Defined.

(** C9 fails as stated: this PSBT is not complete, and assigning it
    raises, because its max-spend output has no serialization. *)
Lemma utxo_setter_incomplete_counterexample :
  @Transaction_is_complete toy_externals ex_maxspend_psbt = Ok false
  /\ @Transaction_str toy_externals ex_maxspend_psbt = Raise AttributeError
  /\ @utxo_setter toy_externals (Some ex_maxspend_psbt) ex_txin_with_utxo
     = (ex_txin_with_utxo, Raise AttributeError).
Proof. repeat split; vm_compute; reflexivity. Qed.

(** ** The txid *)

Section TxidProperties.
Context `{Externals}.

(** C4 (as the code has it).  With no txid cached, [txid()] returns
    [None] when some input is not segwit and the transaction is not
    complete.  When the transaction is complete or every input is
    segwit, it returns the byte-reversed double-SHA256 of the legacy
    serialization (and caches it) if that serialization can be built,
    and [None] if building it raises [UnknownTxinType]. *)
Theorem Transaction_txid_spec (self : Transaction) :
  _cached_txid self = None ->
  (allM (fun txin => is_segwit txin false) (_inputs self) = Ok false ->
   Transaction_is_complete self = Ok false ->
   Transaction_txid self = Ok (None, self))
  /\ (txid_is_attempted self ->
      (forall ser : bytes,
          serialize_to_network self false true true = Ok ser ->
          Transaction_txid self
          = Ok (Some (rev (sha256d ser)),
                set__cached_txid (Some (rev (sha256d ser))) self))
      /\ (serialize_to_network self false true true = Raise UnknownTxinType ->
          Transaction_txid self = Ok (None, self))).
Proof.
  intros Hcache. unfold Transaction_txid. rewrite Hcache. split.
  - intros Hseg Hinc. rewrite Hseg. cbn [mbind result_bind negb].
    rewrite Hinc. reflexivity.
  - intros [Hseg | [Hseg Hcomplete]]; rewrite Hseg; cbn [mbind result_bind negb];
      try rewrite Hcomplete; cbn [mbind result_bind negb];
      (split; [intros ser Hser | intros Hser]; rewrite Hser; reflexivity).
Qed.

(** A cached txid is returned as it is. *)
Lemma Transaction_txid_cached (self : Transaction) (cached : bytes) :
  _cached_txid self = Some cached -> Transaction_txid self = Ok (Some cached, self).
Proof. intros Hc. unfold Transaction_txid. rewrite Hc. reflexivity. Qed.

End TxidProperties.

(** The txid of a complete transaction. *)
Lemma Transaction_txid_spec_witness :
  _cached_txid ex_prev_tx = None
  /\ @txid_is_attempted toy_externals ex_prev_tx
  /\ exists ser : bytes,
      @serialize_to_network toy_externals ex_prev_tx false true true = Ok ser
      /\ @Transaction_txid toy_externals ex_prev_tx
         = Ok (Some (rev (@sha256d toy_externals ser)),
               set__cached_txid (Some (rev (@sha256d toy_externals ser))) ex_prev_tx).
Proof.
  assert (Hcache : _cached_txid ex_prev_tx = None) by reflexivity.
  assert (Hatt : @txid_is_attempted toy_externals ex_prev_tx)
    by (right; split; vm_compute; reflexivity).
  split; [exact Hcache|]. split; [exact Hatt|].
  destruct (@serialize_to_network toy_externals ex_prev_tx false true true)
    as [ser|e] eqn:Hser; [|vm_compute in Hser; discriminate].
  exists ser. split; [reflexivity|].
  exact (proj1 (proj2 (@Transaction_txid_spec toy_externals ex_prev_tx Hcache) Hatt)
           ser Hser).
Defined.

(** C4 fails as stated: every input of this PSBT is segwit, and
    [txid()] returns [None], because the scriptSig of an input of
    unknown script type cannot be built. *)
Lemma Transaction_txid_counterexample :
  _cached_txid ex_witness_only_psbt = None
  /\ allM (fun txin => @is_segwit toy_externals txin false)
          (_inputs ex_witness_only_psbt) = Ok true
  /\ @serialize_to_network toy_externals ex_witness_only_psbt false true true
     = Raise UnknownTxinType
  /\ @Transaction_txid toy_externals ex_witness_only_psbt
     = Ok (None, ex_witness_only_psbt).
Proof. repeat split; vm_compute; reflexivity. Qed.

(** ** Sorting *)

Section StableSort.
Context {A : Type} (leb : A -> A -> bool).
Hypothesis leb_total : forall x y, leb x y = false -> leb y x = true.

Let le (x y : A) : Prop := leb x y = true.

Lemma insert_sorted_Permutation (x : A) (l : list A) :
  insert_sorted leb x l ≡ₚ x :: l.
Proof.
  induction l as [|y r IH]; simpl; [reflexivity|].
  destruct (leb x y); [reflexivity|].
  rewrite IH. apply Permutation_swap.
Qed.

Lemma stable_sort_Permutation (l : list A) : stable_sort leb l ≡ₚ l.
Proof.
  induction l as [|x l IH]; simpl; [reflexivity|].
  rewrite insert_sorted_Permutation. f_equiv. exact IH.
Qed.

Lemma insert_sorted_HdRel (a x : A) (l : list A) :
  le a x -> HdRel le a l -> HdRel le a (insert_sorted leb x l).
Proof.
  intros Hax Hal. destruct l as [|y r]; simpl.
  - constructor. exact Hax.
  - destruct (leb x y); constructor; [exact Hax|].
    inversion Hal; assumption.
Qed.

Lemma insert_sorted_Sorted (x : A) (l : list A) :
  Sorted le l -> Sorted le (insert_sorted leb x l).
Proof.
  induction 1 as [|y r Hr IH Hhd]; simpl.
  - repeat constructor.
  - destruct (leb x y) eqn:Hxy.
    + constructor; [constructor; assumption|]. constructor. exact Hxy.
    + constructor; [exact IH|].
      apply insert_sorted_HdRel; [|exact Hhd]. apply leb_total. exact Hxy.
Qed.

Lemma stable_sort_Sorted (l : list A) : Sorted le (stable_sort leb l).
Proof.
  induction l as [|x l IH]; simpl; [constructor|].
  apply insert_sorted_Sorted. exact IH.
Qed.

(** A list already in order is returned as it is: elements with equal
    keys are not exchanged. *)
Lemma stable_sort_sorted_id (l : list A) : Sorted le l -> stable_sort leb l = l.
Proof.
  induction 1 as [|x l Hl IH Hhd]; simpl; [reflexivity|].
  rewrite IH. destruct Hhd as [|y r Hxy]; simpl; [reflexivity|].
  unfold le in Hxy. rewrite Hxy. reflexivity.
Qed.

End StableSort.

Lemma bytes_compare_antisym (a b : bytes) :
  bytes_compare b a = CompOpp (bytes_compare a b).
Proof.
  revert b. induction a as [|x a IH]; intros [|y b]; simpl; try reflexivity.
  rewrite (Z.compare_antisym (byte_val x) (byte_val y)).
  destruct (byte_val x ?= byte_val y); simpl; [apply IH | reflexivity | reflexivity].
Qed.

Lemma str_compare_antisym (a b : string) :
  str_compare b a = CompOpp (str_compare a b).
Proof.
  revert b. induction a as [|x a IH]; intros [|y b]; simpl; try reflexivity.
  rewrite (N.compare_antisym (N_of_ascii x) (N_of_ascii y)).
  destruct (N_of_ascii x ?= N_of_ascii y)%N; simpl; [apply IH | reflexivity | reflexivity].
Qed.

Lemma value_compare_antisym (a b : value) :
  value_compare b a = CompOpp (value_compare a b).
Proof.
  destruct a, b; simpl; try reflexivity.
  - apply Z.compare_antisym.
  - apply str_compare_antisym.
Qed.

Lemma lex_leb_total (c1 c2 : comparison) :
  lex_leb c1 c2 = false -> lex_leb (CompOpp c1) (CompOpp c2) = true.
Proof. destruct c1, c2; simpl; congruence. Qed.

Lemma input_key_leb_total (a b : TxInput) :
  input_key_leb a b = false -> input_key_leb b a = true.
Proof.
  unfold input_key_leb. intros Hab.
  rewrite (bytes_compare_antisym (txid (prevout a)) (txid (prevout b))).
  rewrite (Z.compare_antisym (out_idx (prevout a)) (out_idx (prevout b))).
  apply lex_leb_total. exact Hab.
Qed.

Lemma output_key_leb_total (a b : TxOutput) :
  output_key_leb a b = false -> output_key_leb b a = true.
Proof.
  unfold output_key_leb. intros Hab.
  rewrite (value_compare_antisym (_value a) (_value b)).
  rewrite (bytes_compare_antisym (scriptpubkey a) (scriptpubkey b)).
  apply lex_leb_total. exact Hab.
Qed.

(** ** The order of the BIP-69 keys is transitive *)

Lemma byte_val_inj (x y : byte) : byte_val x = byte_val y -> x = y.
Proof.
  unfold byte_val. intros Hxy. apply N2Z.inj in Hxy.
  pose proof (Byte.of_to_N x) as Hx. rewrite Hxy, Byte.of_to_N in Hx. congruence.
Qed.

Lemma bytes_compare_Eq (a b : bytes) : bytes_compare a b = Eq -> a = b.
Proof.
  revert b. induction a as [|x a IH]; intros [|y b]; simpl; try discriminate;
    [reflexivity|].
  destruct (byte_val x ?= byte_val y) eqn:Hxy; try discriminate.
  intros Hab. apply Z.compare_eq in Hxy. apply byte_val_inj in Hxy.
  f_equal; [exact Hxy | apply IH; exact Hab].
Qed.

Lemma bytes_compare_Lt_trans (a b c : bytes) :
  bytes_compare a b = Lt -> bytes_compare b c = Lt -> bytes_compare a c = Lt.
Proof.
  revert b c. induction a as [|x a IH]; intros [|y b] [|z c]; simpl; try discriminate;
    try reflexivity.
  destruct (byte_val x ?= byte_val y) eqn:Hxy; try discriminate;
    destruct (byte_val y ?= byte_val z) eqn:Hyz; try discriminate; intros Hab Hbc.
  - apply Z.compare_eq in Hxy, Hyz. rewrite Hxy, Hyz, Z.compare_refl. eauto.
  - apply Z.compare_eq in Hxy. rewrite Hxy, Hyz. reflexivity.
  - apply Z.compare_eq in Hyz. rewrite <- Hyz, Hxy. reflexivity.
  - rewrite Z.compare_lt_iff in Hxy, Hyz.
    replace (byte_val x ?= byte_val z) with Lt
      by (symmetry; apply Z.compare_lt_iff; lia).
    reflexivity.
Qed.

Lemma str_compare_Eq (a b : string) : str_compare a b = Eq -> a = b.
Proof.
  revert b. induction a as [|x a IH]; intros [|y b]; simpl; try discriminate;
    [reflexivity|].
  destruct (N_of_ascii x ?= N_of_ascii y)%N eqn:Hxy; try discriminate.
  intros Hab. apply N.compare_eq in Hxy.
  assert (x = y) by (rewrite <- (ascii_N_embedding x), <- (ascii_N_embedding y), Hxy;
                     reflexivity).
  f_equal; [assumption | apply IH; exact Hab].
Qed.

Lemma str_compare_Lt_trans (a b c : string) :
  str_compare a b = Lt -> str_compare b c = Lt -> str_compare a c = Lt.
Proof.
  revert b c. induction a as [|x a IH]; intros [|y b] [|z c]; simpl; try discriminate;
    try reflexivity.
  destruct (N_of_ascii x ?= N_of_ascii y)%N eqn:Hxy; try discriminate;
    destruct (N_of_ascii y ?= N_of_ascii z)%N eqn:Hyz; try discriminate; intros Hab Hbc.
  - apply N.compare_eq in Hxy, Hyz. rewrite Hxy, Hyz, N.compare_refl. eauto.
  - apply N.compare_eq in Hxy. rewrite Hxy, Hyz. reflexivity.
  - apply N.compare_eq in Hyz. rewrite <- Hyz, Hxy. reflexivity.
  - rewrite N.compare_lt_iff in Hxy, Hyz.
    replace (N_of_ascii x ?= N_of_ascii z)%N with Lt
      by (symmetry; apply N.compare_lt_iff; lia).
    reflexivity.
Qed.

Lemma value_compare_Eq (a b : value) : value_compare a b = Eq -> a = b.
Proof.
  destruct a, b; simpl; try discriminate.
  - intros Hc. apply Z.compare_eq in Hc. congruence.
  - intros Hc. apply str_compare_Eq in Hc. congruence.
Qed.

Lemma value_compare_Lt_trans (a b c : value) :
  value_compare a b = Lt -> value_compare b c = Lt -> value_compare a c = Lt.
Proof.
  destruct a, b, c; simpl; try discriminate; try reflexivity.
  - rewrite !Z.compare_lt_iff. lia.
  - apply str_compare_Lt_trans.
Qed.

Lemma output_key_le_trans (a b c : TxOutput) :
  output_key_le a b -> output_key_le b c -> output_key_le a c.
Proof.
  unfold output_key_le, output_key_leb.
  destruct (value_compare (_value a) (_value b)) eqn:Hab;
    destruct (value_compare (_value b) (_value c)) eqn:Hbc; cbn [lex_leb];
    try discriminate.
  - apply value_compare_Eq in Hab. rewrite Hab, Hbc. cbn [lex_leb].
    destruct (bytes_compare (scriptpubkey a) (scriptpubkey b)) eqn:Sab; try discriminate;
      destruct (bytes_compare (scriptpubkey b) (scriptpubkey c)) eqn:Sbc; try discriminate;
      intros _ _.
    + apply bytes_compare_Eq in Sab. now rewrite Sab, Sbc.
    + apply bytes_compare_Eq in Sab. now rewrite Sab, Sbc.
    + apply bytes_compare_Eq in Sbc. now rewrite <- Sbc, Sab.
    + now rewrite (bytes_compare_Lt_trans _ _ _ Sab Sbc).
  - apply value_compare_Eq in Hab. rewrite Hab, Hbc. reflexivity.
  - apply value_compare_Eq in Hbc. rewrite <- Hbc, Hab. reflexivity.
  - rewrite (value_compare_Lt_trans _ _ _ Hab Hbc). reflexivity.
Qed.

Lemma Sorted_filter_output_key (f : TxOutput -> bool) (l : list TxOutput) :
  Sorted output_key_le l -> Sorted output_key_le (List.filter f l).
Proof.
  intros Hs. apply Sorted_StronglySorted in Hs; [|intros a b c; apply output_key_le_trans].
  apply StronglySorted_Sorted.
  induction Hs as [|x l Hl IH Hx]; cbn [List.filter]; [constructor|].
  destruct (f x); [|exact IH]. constructor; [exact IH|].
  rewrite List.Forall_forall in *. intros y Hy. apply Hx.
  apply List.filter_In in Hy. tauto.
Qed.

Lemma filter_complement_Permutation {A} (f : A -> bool) (l : list A) :
  List.filter f l ++ List.filter (fun x => negb (f x)) l ≡ₚ l.
Proof.
  induction l as [|x l IH]; cbn [List.filter]; [reflexivity|].
  destruct (f x); cbn [negb app].
  - f_equiv. exact IH.
  - rewrite <- Permutation_middle. f_equiv. exact IH.
Qed.

Lemma NoDup_fmap_elem_inj {A B} (f : A -> B) (l : list A) (x y : A) :
  NoDup (f <$> l) -> x ∈ l -> y ∈ l -> f x = f y -> x = y.
Proof.
  induction l as [|a l IH]; intros Hnd Hx Hy Hf; [inversion Hx|].
  rewrite fmap_cons in Hnd. apply NoDup_cons in Hnd as [Ha Hnd].
  apply elem_of_cons in Hx as [->|Hx]; apply elem_of_cons in Hy as [->|Hy].
  - reflexivity.
  - exfalso. apply Ha. rewrite Hf. apply list_elem_of_fmap. eauto.
  - exfalso. apply Ha. rewrite <- Hf. apply list_elem_of_fmap. eauto.
  - eauto.
Qed.

Lemma TxOutput_eq_key (a b : TxOutput) :
  TxOutput_eq a b = true <-> output_eq_key a = output_eq_key b.
Proof.
  unfold TxOutput_eq, output_eq_key.
  rewrite andb_true_iff, !bool_decide_eq_true. split; [intros [-> ->]; reflexivity|].
  intros [= -> ->]. auto.
Qed.

Lemma submseteq_NoDup {A} (l k : list A) : l ⊆+ k -> NoDup k -> NoDup l.
Proof.
  intros Hlk Hk. apply submseteq_Permutation in Hlk as [r Hr].
  rewrite Hr in Hk. apply NoDup_app in Hk. tauto.
Qed.

Section OverlayProperties.
Context `{Externals}.

(** The turns of the overlay loop, by the kind of output met. *)
Lemma overlay_step_cases (st st' : overlay_vouts) (o : TxOutput) :
  overlay_step st o = Ok st' ->
  (is_burn_output o
   /\ st' = mkOverlay (Some o) (parent_owner_vout st) (asset_owner_vout st)
                      (asset_create_vout st))
  \/ (~ is_burn_output o /\ ~ is_owner_output o /\ ~ is_asset_create_output o /\ st' = st)
  \/ (is_owner_output o
      /\ (st' = mkOverlay (burn_vout st)
                          (match parent_owner_vout st with
                           | Some p => Some p
                           | None => asset_owner_vout st
                           end)
                          (Some o) (asset_create_vout st)
          \/ st' = mkOverlay (burn_vout st) (Some o) (asset_owner_vout st)
                             (asset_create_vout st)))
  \/ (is_asset_create_output o
      /\ (st' = mkOverlay (burn_vout st) (parent_owner_vout st) (asset_owner_vout st)
                          (Some o)
          \/ st' = mkOverlay (burn_vout st) (asset_owner_vout st) (parent_owner_vout st)
                             (Some o))).
Proof.
  intros Hstep. unfold overlay_step in Hstep. inv_bind Hstep.
  rename a into address, Ha into Haddr.
  destruct (match address with
            | Some a => existsb (String.eqb a) BURN_ADDRESSES
            | None => false
            end) eqn:Hburn.
  { left. injection Hstep as <-. split; [|reflexivity].
    destruct address as [addr|]; [|discriminate]. exists addr. split; assumption. }
  assert (Hnb : ~ is_burn_output o).
  { intros (a' & Ha' & Hin). rewrite Haddr in Ha'. injection Ha' as ->.
    rewrite Hin in Hburn. discriminate. }
  right.
  destruct (asset o) as [[|c r]|] eqn:Hasset.
  - left. injection Hstep as <-. repeat split; [exact Hnb | | ].
    + intros (_ & name & Hname & Hlast). rewrite Hasset in Hname.
      injection Hname as <-. discriminate.
    + intros (_ & name & Hname & Hne & _). rewrite Hasset in Hname.
      injection Hname as <-. contradiction.
  - destruct (bool_decide (str_last (String c r) = Some "!"%char)) eqn:Hlast.
    + apply bool_decide_eq_true in Hlast. right. left.
      split; [split; [exact Hnb | exists (String c r); split; [exact Hasset | exact Hlast]]|].
      destruct (asset_create_vout st) as [create|] eqn:Hcreate.
      * destruct (bool_decide (Some (str_drop_last (String c r)) = asset create));
          injection Hstep as <-; [left | right]; reflexivity.
      * destruct (asset_owner_vout st) as [owner|] eqn:Howner; injection Hstep as <-;
          [right; reflexivity|].
        left. destruct (parent_owner_vout st); reflexivity.
    + apply bool_decide_eq_false in Hlast. right. right.
      split; [split; [exact Hnb | exists (String c r); repeat split;
                                   [exact Hasset | discriminate | exact Hlast]]|].
      destruct (asset_owner_vout st) as [owner|] eqn:Howner.
      * inv_bind Hstep. destruct (negb (String.eqb a (String c r)));
          injection Hstep as <-; [right | left]; reflexivity.
      * injection Hstep as <-. left. reflexivity.
  - left. injection Hstep as <-. repeat split; [exact Hnb | | ].
    + intros (_ & name & Hname & _). rewrite Hasset in Hname. discriminate.
    + intros (_ & name & Hname & _). rewrite Hasset in Hname. discriminate.
Qed.

(** The loop never holds an output twice: what it holds after a turn
    is taken from what it held before and the output just met. *)
Lemma overlay_step_selected (st st' : overlay_vouts) (o : TxOutput) :
  overlay_step st o = Ok st' ->
  overlay_selected st' ⊆+ o :: overlay_selected st.
Proof.
  intros Hstep. unfold overlay_selected.
  destruct (overlay_step_cases _ _ _ Hstep)
    as [(_ & ->)|[(_ & _ & _ & ->)|[(_ & [->| ->])|(_ & [->| ->])]]];
    cbn [burn_vout parent_owner_vout asset_owner_vout asset_create_vout opt_to_list].
  - solve_submseteq.
  - solve_submseteq.
  - destruct (parent_owner_vout st), (asset_owner_vout st); cbn [opt_to_list];
      solve_submseteq.
  - solve_submseteq.
  - solve_submseteq.
  - solve_submseteq.
Qed.

Lemma overlay_step_kinds (st st' : overlay_vouts) (o : TxOutput) :
  overlay_kinds st -> overlay_step st o = Ok st' -> overlay_kinds st'.
Proof.
  intros (Hb & Hp & Hw & Hc) Hstep. unfold overlay_kinds.
  destruct (overlay_step_cases _ _ _ Hstep)
    as [(Ho & ->)|[(_ & _ & _ & ->)|[(Ho & [->| ->])|(Ho & [->| ->])]]];
    cbn [burn_vout parent_owner_vout asset_owner_vout asset_create_vout];
    (split; [|split; [|split]]); auto; try (intros ? [= <-]; exact Ho).
  destruct (parent_owner_vout st) as [p|] eqn:Hpar; [|exact Hw].
  intros ? [= <-]. apply Hp. reflexivity.
Qed.

Lemma overlay_step_found (st st' : overlay_vouts) (o : TxOutput) :
  overlay_step st o = Ok st' ->
  (is_Some (burn_vout st) \/ is_burn_output o -> is_Some (burn_vout st'))
  /\ (is_Some (asset_create_vout st) \/ is_asset_create_output o
      -> is_Some (asset_create_vout st')).
Proof.
  intros Hstep.
  destruct (overlay_step_cases _ _ _ Hstep)
    as [(Ho & ->)|[(Hnb & _ & Hnc & ->)|[(Ho & Hst)|(Ho & Hst)]]].
  - cbn [burn_vout asset_create_vout]. split; [eauto|].
    intros [Hc|Hc]; [exact Hc|]. destruct Hc as [Hnb _]. contradiction.
  - split; intros [Hs|Hs]; auto; contradiction.
  - assert (Hbc : burn_vout st' = burn_vout st
                  /\ asset_create_vout st' = asset_create_vout st)
      by (destruct Hst as [-> | ->]; split; reflexivity).
    destruct Hbc as [-> ->].
    split; intros [Hs|Hs]; auto.
    + destruct Ho as [Hnb _]. contradiction.
    + destruct Ho as (_ & name & Hname & Hlast).
      destruct Hs as (_ & name' & Hname' & _ & Hlast').
      rewrite Hname in Hname'. injection Hname' as <-. contradiction.
  - assert (Hbc : burn_vout st' = burn_vout st /\ asset_create_vout st' = Some o)
      by (destruct Hst as [-> | ->]; split; reflexivity).
    destruct Hbc as [-> ->].
    split; [|eauto]. intros [Hs|Hs]; auto. destruct Ho as [Hnb _]. contradiction.
Qed.

Lemma overlay_scan_post (outputs : list TxOutput) (st st' : overlay_vouts) :
  overlay_scan st outputs = Ok st' ->
  overlay_kinds st ->
  overlay_selected st' ⊆+ overlay_selected st ++ outputs
  /\ overlay_kinds st'
  /\ (is_Some (burn_vout st) \/ Exists is_burn_output outputs
      -> is_Some (burn_vout st'))
  /\ (is_Some (asset_create_vout st) \/ Exists is_asset_create_output outputs
      -> is_Some (asset_create_vout st')).
Proof.
  revert st. induction outputs as [|o outputs IH]; intros st Hscan Hk.
  - injection Hscan as <-. rewrite app_nil_r.
    split; [reflexivity|]. split; [exact Hk|].
    split; (intros [Hs|Hs]; [exact Hs | inversion Hs]).
  - cbn [overlay_scan] in Hscan. inv_bind Hscan. rename a into st1.
    pose proof (overlay_step_selected _ _ _ Ha) as Hsel.
    pose proof (overlay_step_kinds _ _ _ Hk Ha) as Hk1.
    destruct (overlay_step_found _ _ _ Ha) as [Hfb Hfc].
    destruct (IH st1 Hscan Hk1) as (Hsel' & Hk' & Hb' & Hc').
    split; [|split; [exact Hk'|split]].
    + etransitivity; [exact Hsel'|].
      etransitivity; [apply submseteq_skips_r; exact Hsel|].
      apply Permutation_submseteq. cbn [app]. apply Permutation_middle.
    + intros [Hs|Hs]; [apply Hb'; left; apply Hfb; left; exact Hs|].
      apply Exists_cons in Hs as [Hs|Hs]; [apply Hb'; left; apply Hfb; right; exact Hs|].
      apply Hb'. right. exact Hs.
    + intros [Hs|Hs]; [apply Hc'; left; apply Hfc; left; exact Hs|].
      apply Exists_cons in Hs as [Hs|Hs]; [apply Hc'; left; apply Hfc; right; exact Hs|].
      apply Hc'. right. exact Hs.
Qed.

Lemma output_in_selected (st : overlay_vouts) (o : TxOutput) :
  output_in o [burn_vout st; parent_owner_vout st; asset_owner_vout st;
               asset_create_vout st] = true
  <-> exists m, m ∈ overlay_selected st /\ TxOutput_eq m o = true.
Proof.
  unfold output_in, overlay_selected. rewrite existsb_exists. split.
  - intros (m & Hin & Hm). destruct m as [m|]; [|discriminate].
    exists m. split; [|exact Hm].
    cbn [In] in Hin.
    destruct Hin as [Hm'|[Hm'|[Hm'|[Hm'|[]]]]]; rewrite Hm'; cbn [opt_to_list];
      rewrite ?elem_of_app, ?list_elem_of_singleton; auto.
  - intros (m & Hin & Hm). exists (Some m). split; [|exact Hm].
    cbn [In].
    destruct (burn_vout st), (parent_owner_vout st), (asset_owner_vout st),
             (asset_create_vout st); cbn [opt_to_list app] in Hin;
      repeat (apply elem_of_cons in Hin as [->|Hin]; [tauto|]); inversion Hin.
Qed.

(** When no two outputs pay the same value to the same script, the
    rearrangement loses nothing: it takes out of the sorted list exactly
    the outputs the loop holds and puts them around the others. *)
Lemma overlay_arrange_distinct (st : overlay_vouts) (outputs : list TxOutput)
    (burn create : TxOutput) :
  outputs_distinct outputs ->
  overlay_selected st ⊆+ outputs ->
  burn_vout st = Some burn -> asset_create_vout st = Some create ->
  overlay_arrange st outputs
  = [burn]
    ++ List.filter (fun o => negb (output_in o [burn_vout st; parent_owner_vout st;
                                                asset_owner_vout st; asset_create_vout st]))
                   outputs
    ++ (opt_to_list (parent_owner_vout st) ++ opt_to_list (asset_owner_vout st))
    ++ [create]
  /\ overlay_arrange st outputs ≡ₚ outputs.
Proof.
  intros Hdist Hsel Hb Hc.
  assert (Harr : overlay_arrange st outputs
                 = [burn]
                   ++ List.filter (fun o => negb (output_in o [burn_vout st;
                        parent_owner_vout st; asset_owner_vout st; asset_create_vout st]))
                        outputs
                   ++ (opt_to_list (parent_owner_vout st)
                       ++ opt_to_list (asset_owner_vout st))
                   ++ [create]).
  { unfold overlay_arrange. rewrite Hb, Hc. cbv zeta. rewrite <- !app_assoc. reflexivity. }
  split; [exact Harr|]. rewrite Harr.
  set (held := fun o => output_in o [burn_vout st; parent_owner_vout st;
                                     asset_owner_vout st; asset_create_vout st]).
  assert (Hheld : List.filter held outputs ≡ₚ overlay_selected st).
  { apply NoDup_Permutation.
    - apply NoDup_ListNoDup, List.NoDup_filter, NoDup_ListNoDup.
      apply (NoDup_fmap_1 output_eq_key). exact Hdist.
    - apply (NoDup_fmap_1 output_eq_key).
      eapply submseteq_NoDup; [|exact Hdist]. apply fmap_submseteq. exact Hsel.
    - intros x. rewrite list_elem_of_In, List.filter_In, <- list_elem_of_In.
      unfold held. rewrite output_in_selected. split.
      + intros (Hx & m & Hm & Heq).
        assert (m = x); [|subst; exact Hm].
        apply (NoDup_fmap_elem_inj output_eq_key outputs); auto.
        * eapply elem_of_submseteq; eassumption.
        * apply TxOutput_eq_key. exact Heq.
      + intros Hx. split; [eapply elem_of_submseteq; eassumption|].
        exists x. split; [exact Hx|]. apply TxOutput_eq_key. reflexivity. }
  change (List.filter _ outputs) with (List.filter (fun x => negb (held x)) outputs).
  rewrite <- (filter_complement_Permutation held outputs) at 2.
  rewrite Hheld. unfold overlay_selected. rewrite Hb, Hc. cbn [opt_to_list].
  generalize (List.filter (fun x => negb (held x)) outputs) as others.
  intros others. solve_Permutation.
Qed.

End OverlayProperties.

(** ** BIP-69 ordering *)

Section Bip69Properties.
Context `{Externals}.

(** A turn of the scan that does not meet a burn output keeps
    [burn_vout]. *)
Lemma overlay_step_burn (st st' : overlay_vouts) (o : TxOutput) :
  ~ is_burn_output o -> overlay_step st o = Ok st' -> burn_vout st' = burn_vout st.
Proof.
  intros Ho Hstep. unfold overlay_step in Hstep. inv_bind Hstep.
  rename a into address, Ha into Haddr.
  destruct (match address with
            | Some a => existsb (String.eqb a) BURN_ADDRESSES
            | None => false
            end) eqn:Hburn.
  { exfalso. apply Ho. destruct address as [addr|]; [|discriminate].
    exists addr. split; assumption. }
  destruct (asset o) as [[|c r]|]; try (injection Hstep as <-; reflexivity).
  destruct (bool_decide (str_last (String c r) = Some "!"%char)).
  - destruct (asset_create_vout st) as [create|].
    + destruct (bool_decide (Some (str_drop_last (String c r)) = asset create));
        injection Hstep as <-; reflexivity.
    + destruct (asset_owner_vout st); injection Hstep as <-; reflexivity.
  - destruct (asset_owner_vout st) as [owner|].
    + inv_bind Hstep. destruct (negb (String.eqb a (String c r)));
        injection Hstep as <-; reflexivity.
    + injection Hstep as <-. reflexivity.
Qed.

(** The scan records a burn output only if it meets one. *)
Lemma overlay_scan_no_burn (outputs : list TxOutput) (st st' : overlay_vouts) :
  Forall (fun o => ~ is_burn_output o) outputs ->
  burn_vout st = None ->
  overlay_scan st outputs = Ok st' ->
  burn_vout st' = None.
Proof.
  intros Hall. revert st. induction Hall as [|o outputs Ho Hall IH]; intros st Hst Hscan.
  - injection Hscan as <-. exact Hst.
  - cbn [overlay_scan] in Hscan. inv_bind Hscan. apply (IH a); [|exact Hscan].
    rewrite (overlay_step_burn st a o Ho Ha). exact Hst.
Qed.

(** The scan records an asset-create output only if it meets one. *)
Lemma overlay_scan_no_create (outputs : list TxOutput) (st st' : overlay_vouts) :
  Forall (fun o => ~ is_asset_create_output o) outputs ->
  asset_create_vout st = None ->
  overlay_scan st outputs = Ok st' ->
  asset_create_vout st' = None.
Proof.
  intros Hall. revert st. induction Hall as [|o outputs Ho Hall IH]; intros st Hst Hscan.
  - injection Hscan as <-. exact Hst.
  - cbn [overlay_scan] in Hscan. inv_bind Hscan. apply (IH a); [|exact Hscan].
    unfold overlay_step in Ha. inv_bind Ha. rename a0 into address, Ha0 into Haddr.
    assert (Hcreate : forall name,
               match address with
               | Some a => existsb (String.eqb a) BURN_ADDRESSES
               | None => false
               end = false ->
               asset o = Some name -> name <> EmptyString ->
               str_last name <> Some "!"%char -> False).
    { intros name Hnb Hname Hne Hlast. apply Ho. split.
      - intros (a' & Ha' & Hin). rewrite Haddr in Ha'. injection Ha' as ->.
        rewrite Hin in Hnb. discriminate.
      - exists name. auto. }
    destruct (match address with
              | Some a => existsb (String.eqb a) BURN_ADDRESSES
              | None => false
              end) eqn:Hburn.
    + injection Ha as <-. exact Hst.
    + destruct (asset o) as [[|c r]|] eqn:Hasset;
        [injection Ha as <-; exact Hst | | injection Ha as <-; exact Hst].
      destruct (bool_decide (str_last (String c r) = Some "!"%char)) eqn:Hlast.
      * rewrite Hst in Ha.
        destruct (asset_owner_vout st); injection Ha as <-; reflexivity.
      * exfalso. apply bool_decide_eq_false in Hlast.
        apply (Hcreate (String c r) eq_refl eq_refl); [discriminate | exact Hlast].
Qed.

Lemma overlay_arrange_untouched (st : overlay_vouts) (outputs : list TxOutput) :
  burn_vout st = None \/ asset_create_vout st = None ->
  overlay_arrange st outputs = outputs.
Proof.
  unfold overlay_arrange. intros [-> | ->]; [reflexivity|].
  destruct (burn_vout st); reflexivity.
Qed.

(** C5 (as the code has it).  With [for_swap] set, [BIP69_sort] leaves
    the transaction as it is.  Otherwise, after a call that returns, the
    inputs are the old inputs in non-decreasing order of (prevout txid,
    output index).  The outputs are the old outputs in non-decreasing
    order of (value, scriptpubkey) when no output pays to a burn address
    or no output is an asset-create output.  When there is an output of
    each of these two kinds, the asset overlay rearranges the sorted
    outputs; provided no two outputs pay the same value to the same
    script, the result is the old outputs with a burn output first, an
    asset-create output last, at most two ownership outputs directly
    before it, and all other outputs in between in non-decreasing order
    of (value, scriptpubkey). *)
Theorem BIP69_sort_spec (self : Transaction) :
  (for_swap self = true ->
   forall inputs outputs : bool, BIP69_sort self inputs outputs = Ok self)
  /\ (for_swap self = false ->
      forall self' : Transaction,
        BIP69_sort self true true = Ok self' ->
        (Sorted input_key_le (_inputs self') /\ _inputs self' ≡ₚ _inputs self)
        /\ (Forall (fun o => ~ is_burn_output o) (_outputs self)
            \/ Forall (fun o => ~ is_asset_create_output o) (_outputs self) ->
            Sorted output_key_le (_outputs self')
            /\ _outputs self' ≡ₚ _outputs self)
        /\ (Exists is_burn_output (_outputs self) ->
            Exists is_asset_create_output (_outputs self) ->
            outputs_distinct (_outputs self) ->
            exists (burn : TxOutput) (others owners : list TxOutput) (create : TxOutput),
              _outputs self' = [burn] ++ others ++ owners ++ [create]
              /\ is_burn_output burn
              /\ is_asset_create_output create
              /\ Forall is_owner_output owners
              /\ (length owners <= 2)%nat
              /\ Sorted output_key_le others
              /\ _outputs self' ≡ₚ _outputs self)).
Proof.
  split.
  - intros Hswap inputs outputs. unfold BIP69_sort. rewrite Hswap. reflexivity.
  - intros Hswap self' Hsort. unfold BIP69_sort in Hsort. rewrite Hswap in Hsort.
    inv_bind Hsort. injection Hsort as <-.
    destruct self as [v lt ins outs fs cs ct wl pt]; simpl in *.
    destruct (values_of_one_kind outs); simpl in Ha; [|discriminate].
    inv_bind Ha. rename a0 into st, Ha0 into Hscan. injection Ha as <-. simpl.
    split; [|split].
    + split; [apply stable_sort_Sorted, input_key_leb_total
             | apply stable_sort_Permutation].
    + intros Hno.
      assert (Hst : burn_vout st = None \/ asset_create_vout st = None).
      { destruct Hno as [Hno | Hno].
        - left. eapply overlay_scan_no_burn; [| |exact Hscan]; [|reflexivity].
          rewrite stable_sort_Permutation. exact Hno.
        - right. eapply overlay_scan_no_create; [| |exact Hscan]; [|reflexivity].
          rewrite stable_sort_Permutation. exact Hno. }
      rewrite (overlay_arrange_untouched st _ Hst).
      split; [apply stable_sort_Sorted, output_key_leb_total
             | apply stable_sort_Permutation].
    + intros Hburn Hcreate Hdist.
      set (sorted := stable_sort output_key_leb outs) in *.
      assert (Hperm : sorted ≡ₚ outs) by apply stable_sort_Permutation.
      destruct (overlay_scan_post sorted _ st Hscan) as (Hsel & Hkinds & Hb & Hc).
      { split; [|split; [|split]]; intros ? [=]. }
      cbn [overlay_selected burn_vout parent_owner_vout asset_owner_vout
           asset_create_vout opt_to_list app] in Hsel.
      destruct Hb as [burn Hb]; [right; rewrite Hperm; exact Hburn|].
      destruct Hc as [create Hc]; [right; rewrite Hperm; exact Hcreate|].
      destruct (overlay_arrange_distinct st sorted burn create) as [Harr Hp];
        [unfold outputs_distinct; rewrite Hperm; exact Hdist | exact Hsel
        | exact Hb | exact Hc |].
      destruct Hkinds as (Hkb & Hkp & Hkw & Hkc).
      eexists burn, _, _, create. split; [exact Harr|].
      split; [apply Hkb; exact Hb|]. split; [apply Hkc; exact Hc|].
      split; [|split; [|split]].
      * apply Forall_app. split.
        -- destruct (parent_owner_vout st) as [p|]; cbn [opt_to_list];
             [apply List.Forall_cons; [apply Hkp; reflexivity | apply List.Forall_nil]
             | apply List.Forall_nil].
        -- destruct (asset_owner_vout st) as [w|]; cbn [opt_to_list];
             [apply List.Forall_cons; [apply Hkw; reflexivity | apply List.Forall_nil]
             | apply List.Forall_nil].
      * destruct (parent_owner_vout st), (asset_owner_vout st); cbn; lia.
      * apply Sorted_filter_output_key, stable_sort_Sorted, output_key_leb_total.
      * rewrite Hp. exact Hperm.
Qed.

End Bip69Properties.

Lemma ex_txout_not_burn (v : Z) (script : bytes) :
  @TxOutput_address toy_externals (ex_txout v script) = Ok None ->
  ~ @is_burn_output toy_externals (ex_txout v script).
Proof. intros Haddr (a & Ha & _). rewrite Haddr in Ha. discriminate. Qed.

(** A plain payment is put in BIP-69 order, and the issuance
    [ex_issue_psbt] goes through the overlay: its burn output comes
    first and its asset-create output last. *)
Lemma BIP69_sort_spec_witness :
  (for_swap ex_unsorted_psbt = false
   /\ @BIP69_sort toy_externals ex_unsorted_psbt true true
      = Ok (ex_psbt [ex_txin ex_outpoint0 None; ex_txin ex_outpoint1 None]
                    [ex_txout 1 [x09]; ex_txout 5 [x01]; ex_txout 5 [x02]])
   /\ Forall (fun o => ~ @is_burn_output toy_externals o) (_outputs ex_unsorted_psbt)
   /\ Sorted input_key_le [ex_txin ex_outpoint0 None; ex_txin ex_outpoint1 None]
   /\ Sorted output_key_le [ex_txout 1 [x09]; ex_txout 5 [x01]; ex_txout 5 [x02]])
  /\ (exists self' burn others owners create,
         @BIP69_sort toy_externals ex_issue_psbt true true = Ok self'
         /\ _outputs self' = [burn] ++ others ++ owners ++ [create]
         /\ @is_burn_output toy_externals burn
         /\ @is_asset_create_output toy_externals create
         /\ _outputs self' ≡ₚ _outputs ex_issue_psbt).
Proof.
  split.
  - assert (Hswap : for_swap ex_unsorted_psbt = false) by reflexivity.
    assert (Hsort : @BIP69_sort toy_externals ex_unsorted_psbt true true
                    = Ok (ex_psbt [ex_txin ex_outpoint0 None; ex_txin ex_outpoint1 None]
                                  [ex_txout 1 [x09]; ex_txout 5 [x01]; ex_txout 5 [x02]]))
      by (vm_compute; reflexivity).
    assert (Hburn : Forall (fun o => ~ @is_burn_output toy_externals o)
                           (_outputs ex_unsorted_psbt)).
    { repeat constructor; apply ex_txout_not_burn; vm_compute; reflexivity. }
    pose proof (proj2 (@BIP69_sort_spec toy_externals ex_unsorted_psbt) Hswap _ Hsort)
      as [[Hins _] [Houts _]].
    destruct (Houts (or_introl Hburn)) as [Houts' _].
    split; [exact Hswap|]. split; [exact Hsort|]. split; [exact Hburn|].
    split; [exact Hins | exact Houts'].
  - destruct (@BIP69_sort toy_externals ex_issue_psbt true true) as [self'|e] eqn:Hsort;
      [|vm_compute in Hsort; discriminate].
    destruct (proj2 (@BIP69_sort_spec toy_externals ex_issue_psbt) eq_refl _ Hsort)
      as (_ & _ & Hoverlay).
    assert (Hburn : @is_burn_output toy_externals ex_burn_txout).
    { eexists. split; vm_compute; reflexivity. }
    assert (Hcreate : @is_asset_create_output toy_externals ex_asset_txout).
    { split.
      - intros (a & Ha & Hin). vm_compute in Ha. injection Ha as <-.
        vm_compute in Hin. discriminate.
      - exists "FOO"%string. repeat split; discriminate. }
    destruct Hoverlay
      as (burn & others & owners & create & Hout & Hb & Hc & _ & _ & _ & Hp).
    + apply List.Exists_cons_hd. exact Hburn.
    + apply List.Exists_cons_tl, List.Exists_cons_hd. exact Hcreate.
    + unfold outputs_distinct. change (_outputs ex_issue_psbt)
        with [ex_burn_txout; ex_asset_txout]. rewrite !fmap_cons.
      apply NoDup_cons. split; [|apply NoDup_singleton].
      rewrite list_elem_of_singleton. intros Heq. vm_compute in Heq. discriminate.
    + exists self', burn, others, owners, create. auto.
Defined.

(** C5 fails as stated: with [for_swap] unset, the outputs of this
    issuance come out as burn output (100) and then asset output (5),
    which is not in order of value. *)
Lemma BIP69_sort_counterexample :
  for_swap ex_issue_psbt = false
  /\ @BIP69_sort toy_externals ex_issue_psbt true true
     = Ok (ex_psbt [ex_txin ex_outpoint0 None; ex_txin ex_outpoint1 None]
                   [ex_burn_txout; ex_asset_txout])
  /\ ~ Sorted output_key_le [ex_burn_txout; ex_asset_txout].
Proof.
  split; [reflexivity|]. split; [vm_compute; reflexivity|].
  intros Hs. inversion Hs as [|? ? _ Hhd]; subst.
  inversion Hhd as [|? ? Hle]; subst. vm_compute in Hle. discriminate.
Qed.

(** Outputs that pay the same value to the same script as an output the
    overlay holds are not kept by it: of these two equal burn outputs and
    the asset-create output, two outputs are left. *)
Lemma BIP69_sort_overlay_equal_outputs :
  @BIP69_sort toy_externals
    (ex_psbt [ex_txin ex_outpoint0 None] [ex_burn_txout; ex_burn_txout; ex_asset_txout])
    true true
  = Ok (ex_psbt [ex_txin ex_outpoint0 None] [ex_burn_txout; ex_asset_txout]).
Proof. vm_compute. reflexivity. Qed.

(** ** Combining PSBTs *)



Section CombineProperties.
Context `{Externals}.




End CombineProperties.


(** The segwit memo is written when the combiner serializes the
    transaction, before the merge, and read when the merged input is
    finalized.  Here the input pays to a legacy address before the
    merge and to a segwit address after it: the combiner finalizes it
    as a legacy input, with the empty witness [00]; merged on its own,
    with no memo yet, the same input is not finalized. *)
Lemma combine_with_other_psbt_reads_memo :
  (exists (a' : Transaction) (x' : TxInput) (e' : PartialTxInputExt),
      @combine_with_other_psbt toy_externals ex_legacy_utxo_psbt ex_segwit_utxo_psbt
      = Ok a'
      /\ _inputs a' = [x'] /\ psbt_in x' = Some e'
      /\ script_sig x' = Some [x51] /\ witness x' = Some [x00]
      /\ _is_native_segwit e' = Some false)
  /\ (exists (x' : TxInput) (e' : PartialTxInputExt),
         @combine_with_other_txin toy_externals ex_segwit_txin ex_legacy_txin
         = (x', Ok tt)
         /\ psbt_in x' = Some e'
         /\ script_sig x' = Some [x51] /\ witness x' = None
         /\ _is_native_segwit e' = Some true).
Proof.
  split.
  - eexists _, _, _. split; [vm_compute; reflexivity|]. repeat split.
  - eexists _, _. split; [vm_compute; reflexivity|]. repeat split.
Qed.


(** * Further properties of the code *)

(** ** Bytes and little-endian numbers *)

Lemma byte_val_byte_of_Z (z : Z) : byte_val (byte_of_Z z) = z mod 256.
Proof.
  unfold byte_val, byte_of_Z.
  assert (Hr : 0 <= z mod 256 < 256) by (apply Z.mod_pos_bound; lia).
  destruct (Byte.of_N (Z.to_N (z mod 256))) as [b|] eqn:Hb.
  - apply Byte.to_of_N in Hb. rewrite Hb. lia.
  - apply Byte.of_N_None_iff in Hb. lia.
Qed.

Lemma le_decode_le_encode (n : nat) (z : Z) :
  le_decode (le_encode n z) = z mod 256 ^ Z.of_nat n.
Proof.
  revert z. induction n as [|n IH]; intros z.
  - simpl. rewrite Z.mod_1_r. reflexivity.
  - cbn [le_encode le_decode]. rewrite byte_val_byte_of_Z, IH.
    rewrite Nat2Z.inj_succ, Z.pow_succ_r by lia.
    rewrite Z.rem_mul_r by lia. reflexivity.
Qed.

Lemma le_encode_length (n : nat) (z : Z) : length (le_encode n z) = n.
Proof. revert z. induction n as [|n IH]; intros z; simpl; [reflexivity|]. now rewrite IH. Qed.

Lemma len_app {A} (a b : list A) : len (a ++ b) = len a + len b.
Proof. unfold len. rewrite length_app. lia. Qed.

Lemma len_nonneg {A} (a : list A) : 0 <= len a.
Proof. unfold len. lia. Qed.

(** The slice that starts where [a] ends and is as long as [b]. *)
Lemma py_slice_app_middle {A} (a b c : list A) :
  py_slice (a ++ b ++ c) (len a) (len a + len b) = b.
Proof.
  unfold py_slice. cbv zeta. rewrite !len_app.
  pose proof (len_nonneg a). pose proof (len_nonneg b). pose proof (len_nonneg c).
  rewrite !Z.min_l by lia.
  replace (len a + len b - len a) with (len b) by lia.
  unfold len. rewrite !Nat2Z.id.
  rewrite drop_app_length. apply take_app_length.
Qed.

Lemma py_index_app_middle {A} (a : list A) (x : A) (c : list A) :
  py_index (a ++ x :: c) (len a) = Some x.
Proof.
  unfold py_index. pose proof (len_nonneg a). pose proof (len_nonneg c).
  destruct (Z.ltb_spec (len a) 0); [lia|].
  rewrite len_app. change (len (x :: c)) with (Z.of_nat (S (length c))).
  destruct (Z.leb_spec 0 (len a)); [|lia].
  destruct (Z.ltb_spec (len a) (len a + Z.of_nat (S (length c)))); [|lia].
  simpl. unfold len. rewrite Nat2Z.id, nth_error_lookup.
  apply list_lookup_middle. reflexivity.
Qed.

Lemma unpack_from_app_middle (w : nat) (a b c : bytes) :
  length b = w ->
  unpack_from (Z.of_nat w) (a ++ b ++ c) (len a) = Some (le_decode b).
Proof.
  intros Hb. unfold unpack_from.
  rewrite !len_app. pose proof (len_nonneg c).
  assert (Hlb : len b = Z.of_nat w) by (unfold len; now rewrite Hb).
  destruct (Z.leb_spec (len a + Z.of_nat w) (len a + (len b + len c))); [|lia].
  rewrite <- Hlb, py_slice_app_middle. reflexivity.
Qed.

(** ** BCDataStream *)

Lemma stream_bytes_write (s : BCDataStream.t) (b : bytes) :
  BCDataStream.input (BCDataStream.write s b) = Some (stream_bytes s ++ b)
  /\ BCDataStream.read_cursor (BCDataStream.write s b) = BCDataStream.read_cursor s.
Proof.
  unfold BCDataStream.write, stream_bytes. destruct (BCDataStream.input s); simpl; auto.
Qed.

Lemma struct_pack_Ok (format : struct_format) (num : Z) :
  format_min format <= num < format_max format ->
  struct_pack format num
  = Ok (le_encode (calcsize format) (num mod 256 ^ Z.of_nat (calcsize format))).
Proof.
  intros [Hlo Hhi]. unfold struct_pack.
  destruct (Z.leb_spec (format_min format) num); [|lia].
  destruct (Z.ltb_spec num (format_max format)); [|lia]. reflexivity.
Qed.

Lemma format_value_mod (format : struct_format) (num : Z) :
  format_min format <= num < format_max format ->
  format_value format ((num mod 256 ^ Z.of_nat (calcsize format))
                       mod 256 ^ Z.of_nat (calcsize format)) = num.
Proof.
  intros Hr. rewrite Z.mod_mod by (apply Z.pow_nonzero; lia).
  unfold format_value, format_min, format_max in *.
  destruct format; cbn [format_is_signed calcsize andb] in *;
    change (256 ^ Z.of_nat 2) with 65536 in *;
    change (256 ^ Z.of_nat 4) with 4294967296 in *;
    change (256 ^ Z.of_nat 8) with 18446744073709551616 in *;
    change (65536 / 2) with 32768 in *;
    change (4294967296 / 2) with 2147483648 in *;
    change (18446744073709551616 / 2) with 9223372036854775808 in *.
  all: try (rewrite Z.mod_small by lia; reflexivity).
  all: destruct (Z.lt_ge_cases num 0) as [Hneg|Hpos].
  all: try (rewrite Z.mod_small by lia;
            match goal with |- context [?a <=? ?b] =>
              destruct (Z.leb_spec a b); [lia | reflexivity] end).
  - replace (num mod 65536) with (num + 65536)
      by (apply Z.mod_unique with (-1); lia).
    destruct (Z.leb_spec 32768 (num + 65536)); lia.
  - replace (num mod 4294967296) with (num + 4294967296)
      by (apply Z.mod_unique with (-1); lia).
    destruct (Z.leb_spec 2147483648 (num + 4294967296)); lia.
  - replace (num mod 18446744073709551616) with (num + 18446744073709551616)
      by (apply Z.mod_unique with (-1); lia).
    destruct (Z.leb_spec 9223372036854775808 (num + 18446744073709551616)); lia.
Qed.

Lemma _write_num_Ok (s : BCDataStream.t) (format : struct_format) (num : Z) :
  format_min format <= num < format_max format ->
  BCDataStream._write_num s format num
  = Ok (BCDataStream.write s
          (le_encode (calcsize format) (num mod 256 ^ Z.of_nat (calcsize format)))).
Proof.
  intros Hr. unfold BCDataStream._write_num. now rewrite (struct_pack_Ok _ _ Hr).
Qed.

Lemma _write_num_Raise (s : BCDataStream.t) (format : struct_format) (num : Z) :
  ~ (format_min format <= num < format_max format) ->
  BCDataStream._write_num s format num = Raise struct_error.
Proof.
  intros Hr. unfold BCDataStream._write_num, struct_pack.
  destruct (Z.leb_spec (format_min format) num);
    destruct (Z.ltb_spec num (format_max format)); try reflexivity. lia.
Qed.

(** Reading a packed number at the place where it lies in the buffer. *)
Lemma _read_num_at (buf rest : bytes) (format : struct_format) (num : Z) :
  format_min format <= num < format_max format ->
  BCDataStream._read_num
    (BCDataStream.mk
       (Some (buf ++ le_encode (calcsize format) (num mod 256 ^ Z.of_nat (calcsize format))
                  ++ rest))
       (len buf)) format
  = Ok (num,
        BCDataStream.mk
          (Some (buf ++ le_encode (calcsize format) (num mod 256 ^ Z.of_nat (calcsize format))
                     ++ rest))
          (len buf + Z.of_nat (calcsize format))).
Proof.
  intros Hr. unfold BCDataStream._read_num.
  cbn [BCDataStream.input BCDataStream.read_cursor].
  rewrite (unpack_from_app_middle (calcsize format)) by apply le_encode_length.
  rewrite le_decode_le_encode, (format_value_mod _ _ Hr). reflexivity.
Qed.

Lemma write_at_end (s : BCDataStream.t) (b : bytes) :
  BCDataStream.write s b
  = BCDataStream.mk (Some (stream_bytes s ++ b)) (BCDataStream.read_cursor s).
Proof.
  unfold BCDataStream.write, stream_bytes. destruct (BCDataStream.input s); reflexivity.
Qed.

Lemma stream_bytes_mk (b : bytes) (c : Z) : stream_bytes (BCDataStream.mk (Some b) c) = b.
Proof. reflexivity. Qed.

(** X2: fixed-width integers.  A number that fits its format is read
    back, by the read method of the same format, from a stream whose
    cursor stood at the end of the data when the number was written;
    the cursor ends just after the number.  A number that does not fit
    makes the write raise [struct.error]. *)
Theorem BCDataStream_write_num_read_num
    (s : BCDataStream.t) (format : struct_format) (num : Z) (rest : bytes) :
  BCDataStream.read_cursor s = len (stream_bytes s) ->
  (format_min format <= num < format_max format ->
   exists s1 s2,
     BCDataStream._write_num s format num = Ok s1
     /\ BCDataStream._read_num (BCDataStream.write s1 rest) format = Ok (num, s2)
     /\ stream_bytes s2 = stream_bytes s1 ++ rest
     /\ BCDataStream.read_cursor s2 = len (stream_bytes s1))
  /\ (~ (format_min format <= num < format_max format) ->
      BCDataStream._write_num s format num = Raise struct_error).
Proof.
  intros Hc. split; [|apply _write_num_Raise].
  intros Hr. rewrite (_write_num_Ok _ _ _ Hr).
  eexists. eexists. split; [reflexivity|].
  rewrite !write_at_end, !stream_bytes_mk. cbn [BCDataStream.read_cursor].
  rewrite Hc, <- app_assoc, (_read_num_at _ _ _ _ Hr).
  split; [reflexivity|].
  split; [unfold stream_bytes; cbn [BCDataStream.input default from_option id];
          now rewrite app_assoc|].
  cbn [BCDataStream.read_cursor].
  rewrite len_app. unfold len at 3. now rewrite le_encode_length.
Qed.

Lemma BCDataStream_write_num_read_num_witness :
  BCDataStream.read_cursor BCDataStream.init = len (stream_bytes BCDataStream.init)
  /\ exists s1 s2,
       BCDataStream.write_int32 BCDataStream.init (-2) = Ok s1
       /\ BCDataStream.read_int32 (BCDataStream.write s1 [x07]) = Ok (-2, s2)
       /\ stream_bytes s2 = stream_bytes s1 ++ [x07]
       /\ BCDataStream.read_cursor s2 = len (stream_bytes s1).
Proof.
  split; [reflexivity|].
  apply (BCDataStream_write_num_read_num BCDataStream.init fmt_i (-2) [x07]);
    [reflexivity | vm_compute; split; [discriminate | reflexivity]].
Defined.

Lemma read_compact_size_at (buf rest : bytes) (b : byte) :
  BCDataStream.read_compact_size (BCDataStream.mk (Some (buf ++ b :: rest)) (len buf))
  = let self := BCDataStream.mk (Some (buf ++ b :: rest)) (len buf + 1) in
    if byte_val b =? 253 then BCDataStream._read_num self fmt_H
    else if byte_val b =? 254 then BCDataStream._read_num self fmt_I
    else if byte_val b =? 255 then BCDataStream._read_num self fmt_Q
    else Ok (byte_val b, self).
Proof.
  unfold BCDataStream.read_compact_size.
  cbn [BCDataStream.input BCDataStream.read_cursor].
  now rewrite py_index_app_middle.
Qed.

Lemma read_compact_size_wide (buf rest : bytes) (b : byte) (format : struct_format) (size : Z) :
  format_min format <= size < format_max format ->
  BCDataStream._read_num
    (BCDataStream.mk
       (Some (buf ++ b :: le_encode (calcsize format)
                               (size mod 256 ^ Z.of_nat (calcsize format)) ++ rest))
       (len buf + 1)) format
  = Ok (size,
        BCDataStream.mk
          (Some (buf ++ b :: le_encode (calcsize format)
                                  (size mod 256 ^ Z.of_nat (calcsize format)) ++ rest))
          (len buf + 1 + Z.of_nat (calcsize format))).
Proof.
  intros Hr.
  pose proof (_read_num_at (buf ++ [b]) rest format size Hr) as Hrd.
  rewrite len_app in Hrd. change (len [b]) with 1 in Hrd.
  rewrite <- !app_assoc in Hrd. exact Hrd.
Qed.

(** What [write_compact_size] appends. *)
Lemma write_compact_size_Ok (s : BCDataStream.t) (size : Z) :
  0 <= size < 2 ^ 64 ->
  exists enc,
    BCDataStream.write_compact_size s size = Ok (BCDataStream.write s enc)
    /\ forall buf rest,
         BCDataStream.read_compact_size
           (BCDataStream.mk (Some (buf ++ enc ++ rest)) (len buf))
         = Ok (size, BCDataStream.mk (Some (buf ++ enc ++ rest)) (len buf + len enc)).
Proof.
  intros [Hlo Hhi]. unfold BCDataStream.write_compact_size.
  destruct (Z.ltb_spec size 0); [lia|].
  destruct (Z.ltb_spec size 253).
  { exists [byte_of_Z size]. split; [reflexivity|]. intros buf rest.
    cbn [app]. rewrite read_compact_size_at, byte_val_byte_of_Z.
    rewrite Z.mod_small by lia. cbv zeta.
    destruct (Z.eqb_spec size 253); [lia|].
    destruct (Z.eqb_spec size 254); [lia|].
    destruct (Z.eqb_spec size 255); [lia|]. reflexivity. }
  destruct (Z.ltb_spec size (2 ^ 16)).
  { assert (Hr : format_min fmt_H <= size < format_max fmt_H)
      by (change (0 <= size < 65536); change (2 ^ 16) with 65536 in *; lia).
    exists (xfd :: le_encode (calcsize fmt_H) (size mod 256 ^ Z.of_nat (calcsize fmt_H))).
    split.
    - rewrite (_write_num_Ok _ _ _ Hr), !write_at_end, stream_bytes_mk.
      cbn [BCDataStream.read_cursor]. now rewrite <- app_assoc.
    - intros buf rest. rewrite <- app_comm_cons, read_compact_size_at.
      change (byte_val xfd =? 253) with true. cbv iota zeta.
      rewrite (read_compact_size_wide _ _ _ _ _ Hr). do 3 f_equal.
      change (len (xfd :: ?l)) with (Z.of_nat (S (length l))).
      rewrite le_encode_length. lia. }
  destruct (Z.ltb_spec size (2 ^ 32)).
  { assert (Hr : format_min fmt_I <= size < format_max fmt_I)
      by (change (0 <= size < 4294967296); change (2 ^ 32) with 4294967296 in *; lia).
    exists (xfe :: le_encode (calcsize fmt_I) (size mod 256 ^ Z.of_nat (calcsize fmt_I))).
    split.
    - rewrite (_write_num_Ok _ _ _ Hr), !write_at_end, stream_bytes_mk.
      cbn [BCDataStream.read_cursor]. now rewrite <- app_assoc.
    - intros buf rest. rewrite <- app_comm_cons, read_compact_size_at.
      change (byte_val xfe =? 253) with false. change (byte_val xfe =? 254) with true.
      cbv iota zeta.
      rewrite (read_compact_size_wide _ _ _ _ _ Hr). do 3 f_equal.
      change (len (xfe :: ?l)) with (Z.of_nat (S (length l))).
      rewrite le_encode_length. lia. }
  destruct (Z.ltb_spec size (2 ^ 64)); [|lia].
  assert (Hr : format_min fmt_Q <= size < format_max fmt_Q)
    by (change (0 <= size < 18446744073709551616);
        change (2 ^ 64) with 18446744073709551616 in *; lia).
  exists (xff :: le_encode (calcsize fmt_Q) (size mod 256 ^ Z.of_nat (calcsize fmt_Q))).
  split.
  - rewrite (_write_num_Ok _ _ _ Hr), !write_at_end, stream_bytes_mk.
    cbn [BCDataStream.read_cursor]. now rewrite <- app_assoc.
  - intros buf rest. rewrite <- app_comm_cons, read_compact_size_at.
    change (byte_val xff =? 253) with false. change (byte_val xff =? 254) with false.
    change (byte_val xff =? 255) with true. cbv iota zeta.
    rewrite (read_compact_size_wide _ _ _ _ _ Hr). do 3 f_equal.
    change (len (xff :: ?l)) with (Z.of_nat (S (length l))).
    rewrite le_encode_length. lia.
Qed.

(** X1: compact sizes.  A size in [0, 2^64) written by
    [write_compact_size] at the end of the data is the size
    [read_compact_size] reads back there, and the cursor ends just after
    it; a negative size raises SerializationError and a size of 2^64 or
    more raises Exception, and nothing is written. *)
Theorem BCDataStream_compact_size_round_trip
    (s : BCDataStream.t) (size : Z) (rest : bytes) :
  BCDataStream.read_cursor s = len (stream_bytes s) ->
  (0 <= size < 2 ^ 64 ->
   exists s1 s2,
     BCDataStream.write_compact_size s size = Ok s1
     /\ BCDataStream.read_compact_size (BCDataStream.write s1 rest) = Ok (size, s2)
     /\ stream_bytes s2 = stream_bytes s1 ++ rest
     /\ BCDataStream.read_cursor s2 = len (stream_bytes s1))
  /\ (size < 0 -> BCDataStream.write_compact_size s size = Raise SerializationError)
  /\ (2 ^ 64 <= size ->
      BCDataStream.write_compact_size s size
      = Raise (Exception "size too large for compact_size")).
Proof.
  intros Hc. split; [|split].
  - intros Hr. destruct (write_compact_size_Ok s size Hr) as (enc & Hw & Hrd).
    rewrite Hw. eexists. eexists. split; [reflexivity|].
    rewrite !write_at_end, stream_bytes_mk. cbn [BCDataStream.read_cursor].
    rewrite Hc, <- app_assoc, Hrd.
    split; [reflexivity|].
    split; [unfold stream_bytes; cbn [BCDataStream.input default from_option id];
            now rewrite app_assoc|].
    cbn [BCDataStream.read_cursor]. now rewrite len_app.
  - intros Hneg. unfold BCDataStream.write_compact_size.
    destruct (Z.ltb_spec size 0); [reflexivity | lia].
  - intros Hbig. unfold BCDataStream.write_compact_size.
    destruct (Z.ltb_spec size 0); [lia|].
    destruct (Z.ltb_spec size 253); [lia|].
    destruct (Z.ltb_spec size (2 ^ 16)); [lia|].
    destruct (Z.ltb_spec size (2 ^ 32)); [lia|].
    destruct (Z.ltb_spec size (2 ^ 64)); [lia|]. reflexivity.
Qed.

Lemma BCDataStream_compact_size_round_trip_witness :
  BCDataStream.read_cursor BCDataStream.init = len (stream_bytes BCDataStream.init)
  /\ exists s1 s2,
       BCDataStream.write_compact_size BCDataStream.init 70000 = Ok s1
       /\ BCDataStream.read_compact_size (BCDataStream.write s1 [x07]) = Ok (70000, s2)
       /\ stream_bytes s2 = stream_bytes s1 ++ [x07]
       /\ BCDataStream.read_cursor s2 = len (stream_bytes s1).
Proof.
  split; [reflexivity|].
  apply (BCDataStream_compact_size_round_trip BCDataStream.init 70000 [x07]);
    [reflexivity | lia].
Defined.

(** X3: [read_bytes] stays inside the buffer.  On a stream whose cursor
    is not negative the call returns exactly when the buffer exists, the
    length is not negative and that many bytes are left; it then
    returns exactly [length] bytes, those at the cursor, and moves the
    cursor by [length].  Otherwise it raises: AssertionError for a negative
    length on a written stream, SerializationError in every other
    case. *)
Theorem BCDataStream_read_bytes_within_buffer (s : BCDataStream.t) (length : Z) :
  0 <= BCDataStream.read_cursor s ->
  match BCDataStream.read_bytes s length with
  | Ok (result, s') =>
    exists buf,
      BCDataStream.input s = Some buf
      /\ 0 <= length
      /\ BCDataStream.read_cursor s + length <= len buf
      /\ result = py_slice buf (BCDataStream.read_cursor s)
                               (BCDataStream.read_cursor s + length)
      /\ len result = length
      /\ BCDataStream.input s' = Some buf
      /\ BCDataStream.read_cursor s' = BCDataStream.read_cursor s + length
  | Raise e =>
    match BCDataStream.input s with
    | None => e = SerializationError
    | Some buf =>
      (length < 0 /\ e = AssertionError)
      \/ (0 <= length /\ len buf < BCDataStream.read_cursor s + length
          /\ e = SerializationError)
    end
  end.
Proof.
  intros Hc. unfold BCDataStream.read_bytes.
  destruct (BCDataStream.input s) as [buf|] eqn:Hin; [|reflexivity].
  unfold py_assert. destruct (Z.leb_spec 0 length) as [Hl|Hl]; cbn [mbind result_bind].
  2:{ left. split; [lia | reflexivity]. }
  destruct (Z.leb_spec 0 (BCDataStream.read_cursor s)); [|lia].
  destruct (Z.leb_spec (BCDataStream.read_cursor s) (BCDataStream.read_cursor s + length));
    [|lia].
  destruct (Z.leb_spec (BCDataStream.read_cursor s + length) (len buf)); cbn [andb].
  - exists buf. repeat (split; [first [reflexivity | assumption | lia]|]).
    split; [|split; reflexivity].
    rewrite py_slice_length by lia. lia.
  - right. repeat split; [assumption | lia].
Qed.

Lemma BCDataStream_read_bytes_within_buffer_witness :
  0 <= BCDataStream.read_cursor (BCDataStream.mk (Some [x01; x02; x03]) 1)
  /\ BCDataStream.read_bytes (BCDataStream.mk (Some [x01; x02; x03]) 1) 5
     = Raise SerializationError.
Proof.
  split; [vm_compute; discriminate|].
  pose proof (BCDataStream_read_bytes_within_buffer
                (BCDataStream.mk (Some [x01; x02; x03]) 1) 5) as Hs.
  destruct (BCDataStream.read_bytes (BCDataStream.mk (Some [x01; x02; x03]) 1) 5)
    as [[r s']|e] eqn:Hrd.
  - vm_compute in Hrd. discriminate Hrd.
  - cbn [BCDataStream.input] in Hs.
    destruct Hs as [[Hneg _]|(_ & _ & ->)]; [vm_compute; discriminate | lia | reflexivity].
Defined.

Lemma le_decode_bound (b : bytes) : 0 <= le_decode b < 256 ^ len b.
Proof.
  unfold len. induction b as [|x l IH]; [simpl; lia|].
  cbn [le_decode length]. rewrite Nat2Z.inj_succ, Z.pow_succ_r by lia.
  pose proof (byte_val_range x). lia.
Qed.

Lemma _read_num_safe (s : BCDataStream.t) (buf : bytes) (format : struct_format) :
  BCDataStream.input s = Some buf ->
  0 <= BCDataStream.read_cursor s ->
  (exists n s',
     BCDataStream._read_num s format = Ok (n, s')
     /\ format_min format <= n < format_max format
     /\ BCDataStream.input s' = Some buf
     /\ BCDataStream.read_cursor s' = BCDataStream.read_cursor s + Z.of_nat (calcsize format)
     /\ BCDataStream.read_cursor s' <= len buf)
  \/ (BCDataStream._read_num s format = Raise SerializationError
      /\ len buf < BCDataStream.read_cursor s + Z.of_nat (calcsize format)).
Proof.
  intros Hin Hc. unfold BCDataStream._read_num, unpack_from. rewrite Hin.
  destruct (Z.leb_spec (BCDataStream.read_cursor s + Z.of_nat (calcsize format)) (len buf))
    as [Hle|Hgt]; [left | right; split; [reflexivity | lia]].
  eexists. eexists. split; [reflexivity|].
  split; [|split; [reflexivity | split; [reflexivity | exact Hle]]].
  set (sl := py_slice buf (BCDataStream.read_cursor s)
                      (BCDataStream.read_cursor s + Z.of_nat (calcsize format))).
  assert (Hlen : len sl = Z.of_nat (calcsize format))
    by (unfold sl; rewrite py_slice_length by lia; lia).
  pose proof (le_decode_bound sl) as Hb.
  rewrite Hlen in Hb. clearbody sl.
  unfold format_value, format_min, format_max in *.
  destruct format; cbn [format_is_signed calcsize andb] in *;
    change (256 ^ Z.of_nat 2) with 65536 in *;
    change (256 ^ Z.of_nat 4) with 4294967296 in *;
    change (256 ^ Z.of_nat 8) with 18446744073709551616 in *;
    change (65536 / 2) with 32768 in *;
    change (4294967296 / 2) with 2147483648 in *;
    change (18446744073709551616 / 2) with 9223372036854775808 in *;
    try lia;
    match goal with |- context [?a <=? ?b] => destruct (Z.leb_spec a b); lia end.
Qed.

(** X4: [read_compact_size] on a written stream whose cursor is not
    negative either returns a size in [0, 2^64), having moved the cursor
    forward by 1, 3, 5 or 9 bytes without leaving the buffer, or raises
    SerializationError; at the end of the buffer it raises. *)
Theorem BCDataStream_read_compact_size_safe (s : BCDataStream.t) (buf : bytes) :
  BCDataStream.input s = Some buf ->
  0 <= BCDataStream.read_cursor s ->
  ((exists size s',
      BCDataStream.read_compact_size s = Ok (size, s')
      /\ 0 <= size < 2 ^ 64
      /\ BCDataStream.input s' = Some buf
      /\ BCDataStream.read_cursor s < BCDataStream.read_cursor s' <= len buf
      /\ In (BCDataStream.read_cursor s' - BCDataStream.read_cursor s) [1; 3; 5; 9])
   \/ BCDataStream.read_compact_size s = Raise SerializationError)
  /\ (len buf <= BCDataStream.read_cursor s ->
      BCDataStream.read_compact_size s = Raise SerializationError).
Proof.
  intros Hin Hc. unfold BCDataStream.read_compact_size. rewrite Hin.
  destruct (py_index buf (BCDataStream.read_cursor s)) as [b|] eqn:Hb.
  2:{ split; [right|]; reflexivity. }
  pose proof (py_index_Some_lt _ _ _ Hc Hb) as Hlt.
  split; [|lia].
  pose proof (byte_val_range b) as Hbr.
  set (s1 := BCDataStream.mk (Some buf) (BCDataStream.read_cursor s + 1)).
  assert (Hwide : forall format,
    In (1 + Z.of_nat (calcsize format)) [1; 3; 5; 9] ->
    0 <= format_min format -> format_max format <= 2 ^ 64 ->
    (exists size s',
       BCDataStream._read_num s1 format = Ok (size, s')
       /\ 0 <= size < 2 ^ 64
       /\ BCDataStream.input s' = Some buf
       /\ BCDataStream.read_cursor s < BCDataStream.read_cursor s' <= len buf
       /\ In (BCDataStream.read_cursor s' - BCDataStream.read_cursor s) [1; 3; 5; 9])
    \/ BCDataStream._read_num s1 format = Raise SerializationError).
  { intros format Hw Hmin Hmax.
    destruct (_read_num_safe s1 buf format eq_refl) as [(n & s' & Hrd & Hn & Hi' & Hc' & Hle)|[Hrd _]];
      [unfold s1; cbn [BCDataStream.read_cursor]; lia | left | right; exact Hrd].
    exists n, s'. unfold s1 in Hc'. cbn [BCDataStream.read_cursor] in Hc'.
    split; [exact Hrd|]. split; [lia|]. split; [exact Hi'|]. split; [lia|].
    replace (BCDataStream.read_cursor s' - BCDataStream.read_cursor s)
      with (1 + Z.of_nat (calcsize format)) by lia. exact Hw. }
  fold s1.
  destruct (Z.eqb_spec (byte_val b) 253);
    [apply Hwide; vm_compute; [tauto | discriminate | discriminate]|].
  destruct (Z.eqb_spec (byte_val b) 254);
    [apply Hwide; vm_compute; [tauto | discriminate | discriminate]|].
  destruct (Z.eqb_spec (byte_val b) 255);
    [apply Hwide; vm_compute; [tauto | discriminate | discriminate]|].
  left. exists (byte_val b), s1. split; [reflexivity|].
  split; [lia|]. split; [reflexivity|]. unfold s1. cbn [BCDataStream.read_cursor].
  split; [lia|]. left. lia.
Qed.

Lemma BCDataStream_read_compact_size_safe_witness :
  BCDataStream.read_compact_size (BCDataStream.mk (Some [xfd; x01]) 0)
  = Raise SerializationError
  /\ BCDataStream.read_compact_size (BCDataStream.mk (Some [xfd; x01]) 2)
     = Raise SerializationError.
Proof.
  split; [vm_compute; reflexivity|].
  apply (BCDataStream_read_compact_size_safe (BCDataStream.mk (Some [xfd; x01]) 2)
           [xfd; x01] eq_refl); vm_compute; discriminate.
Defined.

(** ** The script walker, continued *)

Lemma script_GetOp_step_shape (_bytes : bytes) (i : Z) (op : ScriptOp) :
  script_GetOp_step _bytes i = Ok op ->
  exists b, py_index _bytes i = Some b
            /\ sop_opcode op = byte_val b
            /\ (is_Some (sop_vch op) <-> sop_opcode op <= opcodes.OP_PUSHDATA4).
Proof.
  unfold script_GetOp_step. intros Hs.
  destruct (py_index _bytes i) as [b|]; [|discriminate].
  exists b. split; [reflexivity|].
  destruct (Z.leb_spec (byte_val b) opcodes.OP_PUSHDATA4).
  - inv_bind Hs. destruct a as [nSize j]. injection Hs as <-. simpl.
    split; [reflexivity|]. split; [intros _; assumption | intros _; eauto].
  - injection Hs as <-. simpl. split; [reflexivity|].
    split; [intros [? [=]] | lia].
Qed.

Lemma last_cons_default {A} (x : A) (l : list A) (d d' : A) :
  List.last (x :: l) d = List.last (x :: l) d'.
Proof.
  revert x. induction l as [|y l IH]; intros x; [reflexivity|].
  change (List.last (y :: l) d = List.last (y :: l) d'). apply IH.
Qed.

Lemma script_GetOp_from_walk (fuel : nat) (_bytes : bytes) (i : Z) (ops : list ScriptOp) :
  0 <= i -> len _bytes - i <= Z.of_nat fuel ->
  script_GetOp_from fuel _bytes i = Ok ops ->
  Sorted Z.lt (i :: (sop_next <$> ops))
  /\ Z.of_nat (length ops) <= Z.max 0 (len _bytes - i)
  /\ len _bytes <= List.last (i :: (sop_next <$> ops)) i
  /\ Forall (fun op => 0 <= sop_opcode op < 256
                       /\ (is_Some (sop_vch op) <-> sop_opcode op <= opcodes.OP_PUSHDATA4))
            ops.
Proof.
  revert i ops. induction fuel as [|fuel IH]; intros i ops Hi Hlen Hw.
  - simpl in Hw. injection Hw as <-. simpl.
    split; [repeat constructor|]. split; [lia|]. split; [lia | constructor].
  - simpl in Hw. destruct (Z.ltb_spec i (len _bytes)) as [Hlt|Hge].
    2:{ injection Hw as <-. simpl.
        split; [repeat constructor|]. split; [lia|]. split; [lia | constructor]. }
    inv_bind Hw. rename a into op. inv_bind Hw. rename a into rest.
    injection Hw as <-.
    pose proof (script_GetOp_step_advances _ _ _ Ha) as Hadv.
    destruct (script_GetOp_step_shape _ _ _ Ha) as (b & _ & Hop & Hvch).
    pose proof (byte_val_range b) as Hb.
    destruct (IH (sop_next op) rest) as (Hsorted & Hcount & Hlast & Hall);
      [lia | lia | assumption |].
    split; [|split; [|split]].
    + cbn [fmap list_fmap]. constructor; [exact Hsorted | constructor; exact Hadv].
    + cbn [length]. lia.
    + cbn [fmap list_fmap].
      change (len _bytes <= List.last (sop_next op :: (sop_next <$> rest)) i).
      rewrite (last_cons_default _ _ i (sop_next op)). exact Hlast.
    + constructor; [|exact Hall]. split; [lia | exact Hvch].
Qed.

(** X5: the walk of [script_GetOp].  The only exception it raises is
    MalformedBitcoinScript.  When it returns, the cursors of the
    elements increase strictly from 0 and the last one is at or past the
    end of the script (so the loop ends, after at most [len(_bytes)]
    turns); every opcode is a byte, and an element carries a payload
    exactly when its opcode is at most [OP_PUSHDATA4]. *)
Theorem script_GetOp_walk (_bytes : bytes) :
  match script_GetOp _bytes with
  | Raise e => e = MalformedBitcoinScript
  | Ok ops =>
    Sorted Z.lt (0 :: (sop_next <$> ops))
    /\ Z.of_nat (length ops) <= len _bytes
    /\ len _bytes <= List.last (0 :: (sop_next <$> ops)) 0
    /\ Forall (fun op => 0 <= sop_opcode op < 256
                         /\ (is_Some (sop_vch op) <-> sop_opcode op <= opcodes.OP_PUSHDATA4))
              ops
    /\ forall fuel, (length _bytes <= fuel)%nat -> script_GetOp_from fuel _bytes 0 = Ok ops
  end.
Proof.
  destruct (script_GetOp _bytes) as [ops|e] eqn:Hw.
  - destruct (script_GetOp_from_walk (length _bytes) _bytes 0 ops) as (H1 & H2 & H3 & H4);
      [lia | unfold len; lia | exact Hw |].
    split; [exact H1|]. split; [pose proof (len_nonneg _bytes); lia|].
    split; [exact H3|]. split; [exact H4|].
    intros fuel Hf. rewrite <- Hw. unfold script_GetOp. symmetry.
    apply script_GetOp_from_fuel; [unfold len; lia | exact Hf].
  - eapply script_GetOp_raises; exact Hw.
Qed.

(** ** Script classification *)

Lemma match_decoded_against_template_chop
    (decoded : list ScriptOp) (template : list template_item) :
  match_decoded_against_template decoded template
  = Nat.eqb (length (chop_at_asset decoded)) (length template)
    && template_items_accept (chop_at_asset decoded) template.
Proof.
  unfold match_decoded_against_template.
  rewrite firstn_find_op_rvn_asset, <- chop_at_asset_spec.
  destruct (Nat.eqb _ _); reflexivity.
Qed.

Lemma chop_at_asset_idem (decoded : list ScriptOp) :
  chop_at_asset (chop_at_asset decoded) = chop_at_asset decoded.
Proof. rewrite !chop_at_asset_spec. apply prefix_before_asset_spec_idem. Qed.

Lemma chop_at_asset_Forall (P : ScriptOp -> Prop) (decoded : list ScriptOp) :
  Forall P decoded -> Forall P (chop_at_asset decoded).
Proof.
  induction 1 as [|x l Hx Hl IH]; simpl; [constructor|].
  destruct (sop_opcode x =? opcodes.OP_RVN_ASSET); constructor; assumption.
Qed.

(** X6: [is_output_script_p2pk] and [get_script_type_from_output_script]
    agree: a script is reported as pay-to-pubkey by the first exactly
    when the second gives it the type ['p2pk']. *)
Theorem is_output_script_p2pk_iff_script_type (_bytes : bytes) :
  is_output_script_p2pk _bytes = true
  <-> get_script_type_from_output_script (Some _bytes) = Some "p2pk"%string.
Proof.
  unfold is_output_script_p2pk, get_script_type_from_output_script.
  destruct (script_GetOp _bytes) as [decoded|e]; [|split; discriminate].
  cbn [match_script_against_template].
  rewrite !match_decoded_against_template_chop, chop_at_asset_idem.
  generalize (chop_at_asset decoded) as s. intros s.
  destruct s as [|a [|b [|c [|d [|e [|f s]]]]]];
    cbn [length Nat.eqb andb template_items_accept template_item_accepts
         SCRIPTPUBKEY_TEMPLATE_P2PK SCRIPTPUBKEY_TEMPLATE_P2PKH SCRIPTPUBKEY_TEMPLATE_P2SH
         SCRIPTPUBKEY_TEMPLATE_P2WPKH SCRIPTPUBKEY_TEMPLATE_P2WSH];
    try (split; discriminate).
  - rewrite !andb_true_r.
    destruct (Z.eqb_spec opcodes.OP_0 (sop_opcode a)) as [H0|H0].
    + unfold opcodes.OP_0 in H0. rewrite <- H0.
      change ((0 =? 33) || (0 =? 65)) with false. cbn [andb].
      destruct (sop_opcode b =? 20), (sop_opcode b =? 32); split; discriminate.
    + cbn [andb].
      destruct (((sop_opcode a =? 33) || (sop_opcode a =? 65))
                && (opcodes.OP_CHECKSIG =? sop_opcode b));
        split; first [discriminate | intros _; reflexivity].
  - split; [discriminate|].
    match goal with |- context [if ?c then _ else _] => destruct c end; discriminate.
  - split; [discriminate|].
    match goal with |- context [if ?c then _ else _] => destruct c end; discriminate.
Qed.

Section ScriptTypeProperties.
Context `{Externals}.

Lemma vch_at_payload (s : list ScriptOp) (i : nat) (op : ScriptOp) :
  s !! i = Some op -> sop_opcode op <= opcodes.OP_PUSHDATA4 ->
  Forall (fun op => 0 <= sop_opcode op < 256
                    /\ (is_Some (sop_vch op) <-> sop_opcode op <= opcodes.OP_PUSHDATA4)) s ->
  exists v, sop_vch op = Some v /\ vch_at s (Z.of_nat i) = Ok v.
Proof.
  intros Hi Hop Hall.
  rewrite Forall_lookup in Hall. destruct (Hall i op Hi) as [_ Hv].
  destruct (proj2 Hv Hop) as [v Hvch]. exists v. split; [exact Hvch|].
  unfold vch_at, index_or_raise, py_index.
  pose proof (lookup_lt_Some _ _ _ Hi) as Hlt.
  destruct (Z.ltb_spec (Z.of_nat i) 0); [lia|].
  destruct (Z.leb_spec 0 (Z.of_nat i)); [|lia].
  destruct (Z.ltb_spec (Z.of_nat i) (len s)); [|unfold len in *; lia].
  cbn [andb]. rewrite Nat2Z.id, nth_error_lookup, Hi. cbn [mbind result_bind].
  now rewrite Hvch.
Qed.

(** X7: a script that [get_script_type_from_output_script] recognises
    has an address, and [get_address_from_output_script] builds it from
    the push the type points at: the public key of a p2pk script, the
    20-byte hash of a p2pkh or p2sh script, the witness program of a
    p2wpkh or p2wsh script (with witness version 0). *)
Theorem recognised_script_type_has_address (_bytes : bytes) (t : string) :
  get_script_type_from_output_script (Some _bytes) = Some t ->
  exists decoded,
    script_GetOp _bytes = Ok decoded
    /\ ((t = "p2pkh"%string
         /\ exists h, vch_at (chop_at_asset decoded) 2 = Ok h
                      /\ get_address_from_output_script _bytes
                         = Ok (Some (hash160_to_p2pkh h)))
        \/ (t = "p2sh"%string
            /\ exists h, vch_at (chop_at_asset decoded) 1 = Ok h
                         /\ get_address_from_output_script _bytes
                            = Ok (Some (hash160_to_p2sh h)))
        \/ ((t = "p2wpkh"%string \/ t = "p2wsh"%string)
            /\ exists h, vch_at (chop_at_asset decoded) 1 = Ok h
                         /\ get_address_from_output_script _bytes
                            = Some <$> hash_to_segwit_addr h 0)
        \/ (t = "p2pk"%string
            /\ exists pk, vch_at (chop_at_asset decoded) 0 = Ok pk
                          /\ get_address_from_output_script _bytes
                             = Ok (Some (hash160_to_p2pkh (hash_160 pk))))).
Proof.
  unfold get_script_type_from_output_script, get_address_from_output_script.
  pose proof (script_GetOp_from_walk (length _bytes) _bytes 0) as Hwalk.
  fold (script_GetOp _bytes) in Hwalk.
  destruct (script_GetOp _bytes) as [decoded|e]; [|discriminate].
  destruct (Hwalk decoded) as (_ & _ & _ & Hall); [lia | unfold len; lia | reflexivity |].
  apply chop_at_asset_Forall in Hall. clear Hwalk.
  intros Ht. exists decoded. split; [reflexivity|].
  cbn [match_script_against_template] in *.
  rewrite !match_decoded_against_template_chop in *.
  rewrite !chop_at_asset_idem.
  revert Hall Ht. generalize (chop_at_asset decoded) as s. intros s Hall.
  destruct s as [|a [|b [|c [|d [|e [|f s]]]]]];
    cbn [length Nat.eqb andb template_items_accept template_item_accepts
         SCRIPTPUBKEY_TEMPLATE_P2PK SCRIPTPUBKEY_TEMPLATE_P2PKH SCRIPTPUBKEY_TEMPLATE_P2SH
         SCRIPTPUBKEY_TEMPLATE_P2WPKH SCRIPTPUBKEY_TEMPLATE_P2WSH
         SCRIPTPUBKEY_TEMPLATE_WITNESS_V0];
    try discriminate.
  - (* two elements: p2wpkh, p2wsh or p2pk *)
    rewrite !andb_true_r.
    destruct (Z.eqb_spec opcodes.OP_0 (sop_opcode a)) as [H0|H0].
    + unfold opcodes.OP_0 in H0. rewrite <- H0.
      change ((0 =? 33) || (0 =? 65)) with false. cbn [andb].
      destruct (Z.eqb_spec (sop_opcode b) 20) as [H20|H20].
      * cbn [orb]. intros [= <-]. right. right. left. split; [left; reflexivity|].
        destruct (vch_at_payload [a; b] 1 b eq_refl) as (v & _ & Hv);
          [unfold opcodes.OP_PUSHDATA4; lia | exact Hall |].
        change (Z.of_nat 1) with 1 in Hv.
        exists v. split; [exact Hv|]. rewrite Hv. reflexivity.
      * destruct (Z.eqb_spec (sop_opcode b) 32) as [H32|H32]; [|discriminate].
        cbn [orb]. intros [= <-]. right. right. left. split; [right; reflexivity|].
        destruct (vch_at_payload [a; b] 1 b eq_refl) as (v & _ & Hv);
          [unfold opcodes.OP_PUSHDATA4; lia | exact Hall |].
        change (Z.of_nat 1) with 1 in Hv.
        exists v. split; [exact Hv|]. rewrite Hv. reflexivity.
    + cbn [andb].
      destruct (((sop_opcode a =? 33) || (sop_opcode a =? 65))
                && (opcodes.OP_CHECKSIG =? sop_opcode b)) eqn:Hpk; [|discriminate].
      intros [= <-]. right. right. right. split; [reflexivity|].
      apply andb_true_iff in Hpk as [Ha _]. apply orb_true_iff in Ha.
      destruct (vch_at_payload [a; b] 0 a eq_refl) as (v & _ & Hv);
        [unfold opcodes.OP_PUSHDATA4; destruct Ha as [Ha|Ha]; apply Z.eqb_eq in Ha; lia
        | exact Hall |].
      change (Z.of_nat 0) with 0 in Hv.
      exists v. split; [exact Hv|]. rewrite Hv. reflexivity.
  - (* three elements: p2sh *)
    rewrite !andb_true_r.
    destruct ((opcodes.OP_HASH160 =? sop_opcode a)
              && ((sop_opcode b =? 20) && (opcodes.OP_EQUAL =? sop_opcode c))) eqn:Hsh;
      [|discriminate].
    intros [= <-]. right. left. split; [reflexivity|].
    apply andb_true_iff in Hsh as [_ Hb]. apply andb_true_iff in Hb as [Hb _].
    apply Z.eqb_eq in Hb.
    destruct (vch_at_payload [a; b; c] 1 b eq_refl) as (v & _ & Hv);
      [unfold opcodes.OP_PUSHDATA4; lia | exact Hall |].
    change (Z.of_nat 1) with 1 in Hv.
    exists v. split; [exact Hv|]. rewrite Hv. reflexivity.
  - (* five elements: p2pkh *)
    rewrite !andb_true_r.
    destruct ((opcodes.OP_DUP =? sop_opcode a)
              && ((opcodes.OP_HASH160 =? sop_opcode b)
                  && ((sop_opcode c =? 20)
                      && ((opcodes.OP_EQUALVERIFY =? sop_opcode d)
                          && (opcodes.OP_CHECKSIG =? sop_opcode e))))) eqn:Hpkh;
      [|discriminate].
    intros [= <-]. left. split; [reflexivity|].
    apply andb_true_iff in Hpkh as [_ Hc]. apply andb_true_iff in Hc as [_ Hc].
    apply andb_true_iff in Hc as [Hc _]. apply Z.eqb_eq in Hc.
    destruct (vch_at_payload [a; b; c; d; e] 2 c eq_refl) as (v & _ & Hv);
      [unfold opcodes.OP_PUSHDATA4; lia | exact Hall |].
    change (Z.of_nat 2) with 2 in Hv.
    exists v. split; [exact Hv|]. rewrite Hv. reflexivity.
Qed.

End ScriptTypeProperties.

Lemma recognised_script_type_has_address_witness :
  exists decoded,
    script_GetOp (ex_p2pkh_script (repeat x07 20)) = Ok decoded
    /\ @get_address_from_output_script toy_externals (ex_p2pkh_script (repeat x07 20))
       <> Ok None.
Proof.
  destruct (@recognised_script_type_has_address toy_externals
              (ex_p2pkh_script (repeat x07 20)) "p2pkh"%string)
    as (decoded & Hd & Hcases); [vm_compute; reflexivity|].
  exists decoded. split; [exact Hd|].
  destruct Hcases as [(_ & h & _ & ->)|[(_ & h & _ & ->)|[(Ht & _)|(Ht & _)]]];
    discriminate.
Defined.

(** ** Asset scripts *)

Lemma record_from_asset_split (decoded : list ScriptOp) :
  (record_from_asset decoded = []
   /\ Forall (fun op => sop_opcode op <> opcodes.OP_RVN_ASSET) decoded)
  \/ exists pre marker rest,
       decoded = pre ++ marker :: rest
       /\ record_from_asset decoded = marker :: rest
       /\ sop_opcode marker = opcodes.OP_RVN_ASSET
       /\ Forall (fun op => sop_opcode op <> opcodes.OP_RVN_ASSET) pre.
Proof.
  induction decoded as [|x l IH]; [left; split; [reflexivity | constructor]|].
  cbn [record_from_asset].
  destruct (Z.eqb_spec (sop_opcode x) opcodes.OP_RVN_ASSET) as [Hx|Hx].
  - right. exists [], x, l. repeat split; [exact Hx | constructor].
  - destruct IH as [[Hnil Hall]|(pre & marker & rest & -> & Hrec & Hm & Hpre)].
    + left. split; [exact Hnil | constructor; assumption].
    + right. exists (x :: pre), marker, rest.
      repeat split; [exact Hrec | exact Hm | constructor; assumption].
Qed.

Lemma read_bytes_Ok_inv (s s' : BCDataStream.t) (length : Z) (r : bytes) :
  BCDataStream.read_bytes s length = Ok (r, s') ->
  exists buf,
    BCDataStream.input s = Some buf
    /\ 0 <= length
    /\ 0 <= BCDataStream.read_cursor s
    /\ BCDataStream.read_cursor s + length <= len buf
    /\ r = py_slice buf (BCDataStream.read_cursor s) (BCDataStream.read_cursor s + length)
    /\ s' = BCDataStream.mk (Some buf) (BCDataStream.read_cursor s + length).
Proof.
  unfold BCDataStream.read_bytes.
  destruct (BCDataStream.input s) as [buf|] eqn:Hin; [|discriminate].
  unfold py_assert. destruct (Z.leb_spec 0 length); [|discriminate].
  cbn [mbind result_bind].
  destruct (Z.leb_spec 0 (BCDataStream.read_cursor s)); [|discriminate].
  destruct (Z.leb_spec (BCDataStream.read_cursor s) (BCDataStream.read_cursor s + length));
    [|discriminate].
  destruct (Z.leb_spec (BCDataStream.read_cursor s + length) (len buf)); [|discriminate].
  cbn [andb]. intros [= <- <-]. exists buf. repeat split; assumption || reflexivity.
Qed.

Lemma index_or_raise_nat {A} (l : list A) (i : nat) (a : A) :
  l !! i = Some a -> index_or_raise l (Z.of_nat i) = Ok a.
Proof.
  intros Hi. unfold index_or_raise, py_index.
  pose proof (lookup_lt_Some _ _ _ Hi) as Hlt.
  destruct (Z.ltb_spec (Z.of_nat i) 0); [lia|].
  destruct (Z.leb_spec 0 (Z.of_nat i)); [|lia].
  destruct (Z.ltb_spec (Z.of_nat i) (len l)); [|unfold len in *; lia].
  cbn [andb]. now rewrite Nat2Z.id, nth_error_lookup, Hi.
Qed.

(** X8: what a script passes [is_asset_output_script_malformed_or_non_standard]
    with.  When the function returns [False] the script decodes, it
    contains [OP_RVN_ASSET], and the element after the first
    [OP_RVN_ASSET] is a push whose payload starts with the magic
    ['rvn']; so a script that does not decode, or has no asset part, is
    always reported ([True]). *)
Theorem asset_script_standard_has_asset_payload (_bytes : bytes) :
  is_asset_output_script_malformed_or_non_standard _bytes = false ->
  exists pre marker push rest payload,
    script_GetOp _bytes = Ok (pre ++ marker :: push :: rest)
    /\ Forall (fun op => sop_opcode op <> opcodes.OP_RVN_ASSET) pre
    /\ sop_opcode marker = opcodes.OP_RVN_ASSET
    /\ sop_vch push = Some payload
    /\ py_slice payload 0 3 = [x72; x76; x6e].
Proof.
  unfold is_asset_output_script_malformed_or_non_standard.
  destruct (script_GetOp _bytes) as [decoded|e]; [|discriminate].
  destruct (record_from_asset_split decoded)
    as [[Hnil _]|(pre & marker & rest & -> & Hrec & Hm & Hpre)].
  { rewrite Hnil. cbn. discriminate. }
  rewrite Hrec. clear Hrec.
  destruct rest as [|push rest]; [cbn; discriminate|].
  unfold asset_portion_non_standard.
  pose proof (index_or_raise_nat (marker :: push :: rest) 1 push eq_refl) as Hidx.
  change (Z.of_nat 1) with 1 in Hidx. rewrite Hidx. clear Hidx.
  cbn [mbind result_bind].
  destruct (sop_vch push) as [payload|] eqn:Hvch; [|cbn; discriminate].
  cbn [mbind result_bind]. intros Hstd.
  exists pre, marker, push, rest, payload.
  split; [reflexivity|]. split; [exact Hpre|]. split; [exact Hm|]. split; [exact Hvch|].
  destruct (BCDataStream.read_bytes (BCDataStream.write BCDataStream.init payload) 3)
    as [[magic asset_portion]|e] eqn:Hrd; [|cbn [mbind result_bind] in Hstd; discriminate].
  apply read_bytes_Ok_inv in Hrd as (buf & Hbuf & _ & _ & _ & -> & _).
  rewrite write_at_end in Hbuf. injection Hbuf as <-.
  cbn [mbind result_bind] in Hstd. unfold py_assert at 1 in Hstd.
  change (BCDataStream.read_cursor (BCDataStream.write BCDataStream.init payload)) with 0 in *.
  change (stream_bytes BCDataStream.init ++ payload) with payload in *.
  change (0 + 3) with 3 in *.
  destruct (bool_decide (py_slice payload 0 3 = [x72; x76; x6e])) eqn:Hmagic;
    [|cbn [mbind result_bind] in Hstd; discriminate].
  apply bool_decide_eq_true in Hmagic. exact Hmagic.
Qed.

Lemma asset_script_standard_has_asset_payload_witness :
  exists pre marker push rest payload,
    script_GetOp ex_asset_transfer_script = Ok (pre ++ marker :: push :: rest)
    /\ Forall (fun op => sop_opcode op <> opcodes.OP_RVN_ASSET) pre
    /\ sop_opcode marker = opcodes.OP_RVN_ASSET
    /\ sop_vch push = Some payload
    /\ py_slice payload 0 3 = [x72; x76; x6e].
Proof.
  apply (asset_script_standard_has_asset_payload ex_asset_transfer_script).
  vm_compute. reflexivity.
Defined.

Lemma py_slice_at {A} (a b c : list A) (lo hi : Z) :
  lo = len a -> hi = lo + len b -> py_slice (a ++ b ++ c) lo hi = b.
Proof. intros -> ->. apply py_slice_app_middle. Qed.

Lemma py_index_at {A} (a : list A) (x : A) (c : list A) (i : Z) :
  i = len a -> py_index (a ++ x :: c) i = Some x.
Proof. intros ->. apply py_index_app_middle. Qed.

Lemma index_or_raise_at {A} (a : list A) (x : A) (c : list A) (i : Z) :
  i = len a -> index_or_raise (a ++ x :: c) i = Ok x.
Proof. intros Hi. unfold index_or_raise. now rewrite (py_index_at a x c i Hi). Qed.

Lemma le_encode_small (n : nat) (z : Z) :
  0 <= z < 256 ^ Z.of_nat n -> le_decode (le_encode n z) = z.
Proof. intros Hz. rewrite le_decode_le_encode. apply Z.mod_small. exact Hz. Qed.

(** X9: the asset that [get_assets_from_script] reads.  For a script
    whose first byte is not [0xA9] and that carries, from offset 27,
    the magic ['rvn'], a type byte, a length-prefixed ASCII name and (for
    a type other than ['o']) an amount in eight little-endian bytes, the
    result is the single pair of that name with that amount, or with
    100000000 for the ownership type ['o']. *)
Theorem get_assets_from_script_reads_asset
    (p0 : byte) (pre name rest : bytes) (type : byte) (amount : Z) :
  byte_val p0 <> 169 ->
  length pre = 26%nat ->
  len name < 256 ->
  forallb (fun x => byte_val x <? 128) name = true ->
  0 <= amount < 2 ^ 64 ->
  get_assets_from_script
    ((p0 :: pre) ++ [x72; x76; x6e] ++ [type; byte_of_Z (len name)] ++ name
     ++ (if byte_val type =? 111 then rest else le_encode 8 amount ++ rest))
  = Ok [(string_of_list_ascii (ascii_of_byte <$> name),
         if byte_val type =? 111 then 100000000 else amount)].
Proof.
  intros Hp0 Hpre Hname Hascii Hamount.
  pose proof (len_nonneg name) as Hn0.
  set (tail := if byte_val type =? 111 then rest else le_encode 8 amount ++ rest).
  assert (Hlp : len (p0 :: pre) = 27) by (unfold len; cbn [length]; rewrite Hpre; reflexivity).
  unfold get_assets_from_script.
  change (index_or_raise ((p0 :: pre) ++ _) 0) with (Ok p0) at 1.
  cbn [mbind result_bind].
  destruct (Z.eqb_spec (byte_val p0) 169); [contradiction|].
  cbn [mbind result_bind]. unfold search_for_rvn.
  rewrite (py_slice_at (p0 :: pre) [x72; x76; x6e] _ 27 (27 + 3))
    by (try rewrite Hlp; reflexivity).
  rewrite bool_decide_eq_true_2 by reflexivity.
  change (0 <? 27 + 3) with true. cbv iota.
  change (27 + 3) with 30.
  assert (Hl30 : len ((p0 :: pre) ++ [x72; x76; x6e]) = 30)
    by (rewrite len_app, Hlp; reflexivity).
  replace ((p0 :: pre) ++ [x72; x76; x6e] ++ [type; byte_of_Z (len name)] ++ name ++ tail)
    with (((p0 :: pre) ++ [x72; x76; x6e]) ++ type :: (byte_of_Z (len name) :: name ++ tail))
    by (now rewrite <- app_assoc).
  rewrite (index_or_raise_at _ type _ 30) by (now rewrite Hl30).
  cbn [mbind result_bind].
  replace (((p0 :: pre) ++ [x72; x76; x6e]) ++ type :: byte_of_Z (len name) :: name ++ tail)
    with ((((p0 :: pre) ++ [x72; x76; x6e]) ++ [type])
          ++ byte_of_Z (len name) :: (name ++ tail))
    by (now rewrite <- app_assoc).
  assert (Hl31 : len (((p0 :: pre) ++ [x72; x76; x6e]) ++ [type]) = 31)
    by (rewrite len_app, Hl30; reflexivity).
  rewrite (index_or_raise_at _ (byte_of_Z (len name)) _ (30 + 1)) by (now rewrite Hl31).
  cbn [mbind result_bind].
  rewrite byte_val_byte_of_Z, Z.mod_small by lia.
  replace ((((p0 :: pre) ++ [x72; x76; x6e]) ++ [type])
           ++ byte_of_Z (len name) :: name ++ tail)
    with (((((p0 :: pre) ++ [x72; x76; x6e]) ++ [type]) ++ [byte_of_Z (len name)])
          ++ name ++ tail)
    by (now rewrite <- (app_assoc _ [byte_of_Z (len name)])).
  assert (Hl32 : len ((((p0 :: pre) ++ [x72; x76; x6e]) ++ [type]) ++ [byte_of_Z (len name)])
                 = 32)
    by (rewrite len_app, Hl31; reflexivity).
  rewrite (py_slice_at _ name tail (30 + 2) (30 + 2 + len name))
    by (try rewrite Hl32; reflexivity).
  unfold decode_ascii. rewrite Hascii. cbn [mbind result_bind].
  do 3 f_equal. unfold tail.
  destruct (byte_val type =? 111); cbn [negb]; [reflexivity|].
  replace (((((p0 :: pre) ++ [x72; x76; x6e]) ++ [type]) ++ [byte_of_Z (len name)])
           ++ name ++ le_encode 8 amount ++ rest)
    with ((((((p0 :: pre) ++ [x72; x76; x6e]) ++ [type]) ++ [byte_of_Z (len name)]) ++ name)
          ++ le_encode 8 amount ++ rest)
    by (now rewrite <- (app_assoc _ name)).
  rewrite (py_slice_at _ (le_encode 8 amount) rest).
  - apply le_encode_small. exact Hamount.
  - rewrite len_app, Hl32. lia.
  - unfold len. rewrite le_encode_length. lia.
Qed.

Lemma get_assets_from_script_reads_asset_witness :
  get_assets_from_script ex_asset_transfer_script = Ok [("ABC"%string, 500)].
Proof.
  apply (get_assets_from_script_reads_asset x76
           ([xa9; x14] ++ repeat x07 20 ++ [x88; xac; xc0; x10]) [x41; x42; x43] [x75] x74 500);
    [vm_compute; discriminate | reflexivity | reflexivity | reflexivity | lia].
Defined.

(** ** Parsing *)

Lemma _read_num_Ok_inv (s s' : BCDataStream.t) (format : struct_format) (n : Z) :
  0 <= BCDataStream.read_cursor s ->
  BCDataStream._read_num s format = Ok (n, s') ->
  exists buf,
    BCDataStream.input s = Some buf
    /\ s' = BCDataStream.mk (Some buf)
              (BCDataStream.read_cursor s + Z.of_nat (calcsize format))
    /\ format_min format <= n < format_max format
    /\ BCDataStream.read_cursor s + Z.of_nat (calcsize format) <= len buf.
Proof.
  intros Hc Hrd.
  destruct (BCDataStream.input s) as [buf|] eqn:Hin;
    [|unfold BCDataStream._read_num in Hrd; rewrite Hin in Hrd; discriminate].
  exists buf. split; [reflexivity|].
  destruct (_read_num_safe s buf format Hin Hc)
    as [(n' & s1 & Hrd' & Hn & Hi' & Hc' & Hle)|[Hrd' _]];
    [|rewrite Hrd' in Hrd; discriminate].
  rewrite Hrd' in Hrd. injection Hrd as <- <-.
  split; [|split; [exact Hn | lia]].
  destruct s1 as [i1 c1]. cbn in Hi', Hc'. now subst.
Qed.

Lemma read_compact_size_Ok_inv (s s' : BCDataStream.t) (n : Z) :
  0 <= BCDataStream.read_cursor s ->
  BCDataStream.read_compact_size s = Ok (n, s') ->
  exists buf,
    BCDataStream.input s = Some buf
    /\ BCDataStream.input s' = Some buf
    /\ BCDataStream.read_cursor s < BCDataStream.read_cursor s' <= len buf
    /\ 0 <= n < 2 ^ 64.
Proof.
  intros Hc. unfold BCDataStream.read_compact_size.
  destruct (BCDataStream.input s) as [buf|] eqn:Hin; [|discriminate].
  destruct (py_index buf (BCDataStream.read_cursor s)) as [b|] eqn:Hb; [|discriminate].
  pose proof (py_index_Some_lt _ _ _ Hc Hb) as Hlt.
  pose proof (byte_val_range b) as Hbr.
  assert (Hwide : forall format,
    0 <= format_min format -> format_max format <= 18446744073709551616 ->
    BCDataStream._read_num
      (BCDataStream.mk (Some buf) (BCDataStream.read_cursor s + 1)) format = Ok (n, s') ->
    exists buf0,
      Some buf = Some buf0
      /\ BCDataStream.input s' = Some buf0
      /\ BCDataStream.read_cursor s < BCDataStream.read_cursor s' <= len buf0
      /\ 0 <= n < 18446744073709551616).
  { intros format Hmin Hmax Hrd.
    apply _read_num_Ok_inv in Hrd as (buf0 & Hin0 & -> & Hn & Hle);
      [|cbn [BCDataStream.read_cursor]; lia].
    cbn [BCDataStream.input BCDataStream.read_cursor] in *.
    injection Hin0 as <-. exists buf. repeat split; lia. }
  change (2 ^ 64) with 18446744073709551616.
  destruct (Z.eqb_spec (byte_val b) 253);
    [apply Hwide; vm_compute; discriminate|].
  destruct (Z.eqb_spec (byte_val b) 254);
    [apply Hwide; vm_compute; discriminate|].
  destruct (Z.eqb_spec (byte_val b) 255);
    [apply Hwide; vm_compute; discriminate|].
  intros [= <- <-]. exists buf. cbn [BCDataStream.input BCDataStream.read_cursor].
  repeat split; lia.
Qed.

Lemma read_var_bytes_Ok_inv (s s' : BCDataStream.t) (r : bytes) :
  0 <= BCDataStream.read_cursor s ->
  read_var_bytes s = Ok (r, s') ->
  exists buf,
    BCDataStream.input s = Some buf
    /\ BCDataStream.input s' = Some buf
    /\ BCDataStream.read_cursor s < BCDataStream.read_cursor s' <= len buf.
Proof.
  intros Hc Hrd. unfold read_var_bytes in Hrd. inv_bind Hrd. destruct a as [n s1].
  apply read_compact_size_Ok_inv in Ha as (buf & Hin & Hin1 & Hc1 & Hn); [|exact Hc].
  apply read_bytes_Ok_inv in Hrd as (buf1 & Hin1' & Hn0 & _ & Hle & -> & ->).
  rewrite Hin1 in Hin1'. injection Hin1' as <-.
  exists buf. cbn [BCDataStream.input BCDataStream.read_cursor].
  repeat split; lia || assumption.
Qed.

Lemma read_times_inv {A} (f : BCDataStream.t -> result (A * BCDataStream.t))
    (Q : A -> Prop) (n : nat) (vds vds' : BCDataStream.t) (l : list A) :
  (forall s x s', 0 <= BCDataStream.read_cursor s -> f s = Ok (x, s') ->
                  Q x /\ stream_advances s s') ->
  0 <= BCDataStream.read_cursor vds ->
  read_times f n vds = Ok (l, vds') ->
  length l = n /\ Forall Q l /\ stream_advances vds vds'.
Proof.
  intros Hf. revert vds l. induction n as [|n IH]; intros vds l Hc Hrd.
  - injection Hrd as <- <-. repeat split; [constructor | lia].
  - cbn [read_times] in Hrd. inv_bind Hrd. destruct a as [x s1].
    inv_bind Hrd. destruct a as [r s2]. injection Hrd as <- <-.
    destruct (Hf _ _ _ Hc Ha) as (Hx & Hi1 & Hc1).
    destruct (IH s1 r) as (Hlen & Hall & Hi2 & Hc2); [lia | exact Ha0 |].
    cbn [length]. split; [now rewrite Hlen|]. split; [constructor; assumption|].
    split; [congruence | lia].
Qed.

Lemma parse_input_sigtype_member (script_sig : bytes) :
  match parse_input_sigtype script_sig with
  | None => True
  | Some z => In z SIGHASH.members
  end.
Proof.
  unfold parse_input_sigtype.
  destruct (0 <? len script_sig); [|exact I].
  destruct (script_GetOp_step script_sig 0) as [first|]; [|exact I].
  destruct (sop_vch first) as [vch|]; [|exact I].
  destruct (py_index vch (-1)) as [b|]; [|exact I].
  destruct (existsb (Z.eqb (byte_val b)) SIGHASH.members) eqn:Hex; [|exact I].
  apply existsb_exists in Hex as (z & Hz & Heq). apply Z.eqb_eq in Heq.
  now rewrite Heq.
Qed.

Lemma parse_input_Ok_inv (vds vds' : BCDataStream.t) (txin : TxInput) :
  0 <= BCDataStream.read_cursor vds ->
  parse_input vds = Ok (txin, vds') ->
  (parsed_input_ok txin /\ witness txin = None) /\ stream_advances vds vds'.
Proof.
  intros Hc Hp. unfold parse_input in Hp.
  inv_bind Hp. destruct a as [h s1].
  apply read_bytes_Ok_inv in Ha as (buf & Hin & _ & _ & Hle & -> & ->).
  inv_bind Hp. destruct a as [prevout_n s2].
  apply _read_num_Ok_inv in Ha as (buf2 & Hin2 & -> & Hn & Hle2);
    [|cbn [BCDataStream.read_cursor]; lia].
  cbn [BCDataStream.input BCDataStream.read_cursor] in *. injection Hin2 as <-.
  inv_bind Hp. destruct a as [ssig s3].
  apply read_var_bytes_Ok_inv in Ha as (buf3 & Hin3 & Hin3' & Hc3);
    [|cbn [BCDataStream.read_cursor]; lia].
  cbn [BCDataStream.input BCDataStream.read_cursor] in *. injection Hin3 as <-.
  inv_bind Hp. destruct a as [nseq s4].
  apply _read_num_Ok_inv in Ha as (buf4 & Hin4 & -> & Hn4 & Hle4); [|lia].
  rewrite Hin3' in Hin4. injection Hin4 as <-.
  injection Hp as <- <-.
  split; [split; [|reflexivity]|].
  - unfold parsed_input_ok. cbn [prevout txid out_idx nsequence script_sig psbt_in
                                 _is_coinbase_output sighash].
    split.
    { rewrite length_rev. apply Nat2Z.inj. fold (len (py_slice buf
        (BCDataStream.read_cursor vds) (BCDataStream.read_cursor vds + 32))).
      rewrite py_slice_length by lia. lia. }
    split; [exact Hn|]. split; [exact Hn4|]. split; [eauto|].
    split; [reflexivity|]. split; [reflexivity|]. apply parse_input_sigtype_member.
  - split; cbn [BCDataStream.input BCDataStream.read_cursor]; [congruence | lia].
Qed.

Lemma read_uint32_Ok_inv (s s' : BCDataStream.t) (n : Z) :
  0 <= BCDataStream.read_cursor s ->
  BCDataStream.read_uint32 s = Ok (n, s') ->
  exists buf,
    BCDataStream.input s = Some buf
    /\ s' = BCDataStream.mk (Some buf) (BCDataStream.read_cursor s + 4)
    /\ n = le_decode (py_slice buf (BCDataStream.read_cursor s)
                               (BCDataStream.read_cursor s + 4))
    /\ BCDataStream.read_cursor s + 4 <= len buf.
Proof.
  intros Hc Hrd. unfold BCDataStream.read_uint32 in Hrd.
  destruct (_read_num_Ok_inv _ _ _ _ Hc Hrd) as (buf & Hin & Hs' & _ & Hle).
  exists buf. split; [exact Hin|]. split; [exact Hs'|]. split; [|exact Hle].
  unfold BCDataStream._read_num, unpack_from in Hrd. rewrite Hin in Hrd.
  change (Z.of_nat (calcsize fmt_I)) with 4 in *.
  destruct (Z.leb_spec (BCDataStream.read_cursor s + 4) (len buf)); [|lia].
  injection Hrd as <- _. reflexivity.
Qed.

(** X10: what [parse_input] returns, tied to the bytes it reads.  With
    the cursor at [c], the previous-output hash is the 32 bytes at [c]
    reversed, the output index is the little-endian number in the next
    four bytes, the compact size that follows is the length of the
    script, the script is kept as it is as [script_sig], and the
    sequence number is the little-endian number in the four bytes behind
    the script; the cursor ends behind these, inside the buffer.  The
    input has no witness and no PSBT data, and its sighash is the last
    byte of the first push of the script when that byte is a member of
    [SIGHASH], and [None] otherwise (the script is inspected without
    ever raising). *)
Theorem parse_input_invariants (vds vds' : BCDataStream.t) (txin : TxInput) :
  0 <= BCDataStream.read_cursor vds ->
  parse_input vds = Ok (txin, vds') ->
  exists (buf script : bytes) (at_script : Z),
    let c := BCDataStream.read_cursor vds in
    BCDataStream.input vds = Some buf
    /\ BCDataStream.read_compact_size (BCDataStream.mk (Some buf) (c + 36))
       = Ok (len script, BCDataStream.mk (Some buf) at_script)
    /\ c + 36 < at_script
    /\ at_script + len script + 4 <= len buf
    /\ vds' = BCDataStream.mk (Some buf) (at_script + len script + 4)
    /\ txid (prevout txin) = rev (py_slice buf c (c + 32))
    /\ out_idx (prevout txin) = le_decode (py_slice buf (c + 32) (c + 36))
    /\ script = py_slice buf at_script (at_script + len script)
    /\ script_sig txin = Some script
    /\ nsequence txin
       = le_decode (py_slice buf (at_script + len script) (at_script + len script + 4))
    /\ witness txin = None
    /\ match sighash txin with
       | Some z =>
         exists first vch b,
           script_GetOp_step script 0 = Ok first
           /\ sop_vch first = Some vch
           /\ py_index vch (-1) = Some b
           /\ z = byte_val b
       | None =>
         forall first vch b,
           0 < len script ->
           script_GetOp_step script 0 = Ok first ->
           sop_vch first = Some vch ->
           py_index vch (-1) = Some b ->
           ~ In (byte_val b) SIGHASH.members
       end
    /\ parsed_input_ok txin.
Proof.
  intros Hc Hp. pose proof (parse_input_Ok_inv _ _ _ Hc Hp) as [[Hok Hwit] _].
  unfold parse_input in Hp.
  inv_bind Hp. destruct a as [h s1].
  apply read_bytes_Ok_inv in Ha as (buf & Hin & _ & _ & Hle & -> & ->).
  inv_bind Hp. destruct a as [prevout_n s2].
  apply read_uint32_Ok_inv in Ha as (buf2 & Hin2 & -> & -> & Hle2);
    [|cbn [BCDataStream.read_cursor]; lia].
  cbn [BCDataStream.input BCDataStream.read_cursor] in *. injection Hin2 as <-.
  inv_bind Hp. destruct a as [ssig s3].
  unfold read_var_bytes in Ha. inv_bind Ha. destruct a as [n [i2 c2]].
  pose proof Ha0 as Hsize.
  apply read_compact_size_Ok_inv in Ha0 as (buf3 & Hin3 & Hin3' & Hc3 & Hn);
    [|cbn [BCDataStream.read_cursor]; lia].
  cbn [BCDataStream.input BCDataStream.read_cursor] in *.
  injection Hin3 as <-. subst i2.
  apply read_bytes_Ok_inv in Ha as (buf4 & Hin4 & Hn0 & _ & Hle4 & Hssig & ->).
  cbn [BCDataStream.input BCDataStream.read_cursor] in *. injection Hin4 as <-.
  inv_bind Hp. destruct a as [nseq s4].
  apply read_uint32_Ok_inv in Ha as (buf5 & Hin5 & -> & -> & Hle5);
    [|cbn [BCDataStream.read_cursor]; lia].
  cbn [BCDataStream.input BCDataStream.read_cursor] in *. injection Hin5 as <-.
  injection Hp as <- <-.
  assert (Hlen : len ssig = n).
  { rewrite Hssig, py_slice_length by lia. lia. }
  exists buf, ssig, c2. cbv zeta.
  replace (BCDataStream.read_cursor vds + 32 + 4)
    with (BCDataStream.read_cursor vds + 36) in * by lia.
  rewrite Hlen.
  cbn [prevout txid out_idx script_sig nsequence witness sighash].
  split; [exact Hin|]. split; [exact Hsize|]. split; [lia|]. split; [lia|].
  split; [reflexivity|]. split; [reflexivity|]. split; [reflexivity|].
  split; [exact Hssig|]. split; [reflexivity|]. split; [reflexivity|].
  split; [reflexivity|]. split; [|exact Hok].
  unfold parse_input_sigtype. rewrite Hlen.
  destruct (Z.ltb_spec 0 n) as [Hpos|Hpos]; [|intros; lia].
  destruct (script_GetOp_step ssig 0) as [first|e]; [|intros; discriminate].
  destruct (sop_vch first) as [vch|] eqn:Hvch;
    [|intros first' vch' b' _ [= <-] Hv; rewrite Hvch in Hv; discriminate].
  destruct (py_index vch (-1)) as [b|] eqn:Hb;
    [|intros first' vch' b' _ [= <-] Hv Hb'; rewrite Hvch in Hv; injection Hv as <-;
      rewrite Hb in Hb'; discriminate].
  destruct (existsb (Z.eqb (byte_val b)) SIGHASH.members) eqn:Hex.
  - exists first, vch, b. repeat split; assumption || reflexivity.
  - intros first' vch' b' _ [= <-] Hv Hb' Hin'.
    rewrite Hvch in Hv. injection Hv as <-. rewrite Hb in Hb'. injection Hb' as <-.
    assert (Hex' : existsb (Z.eqb (byte_val b)) SIGHASH.members = true)
      by (apply existsb_exists; exists (byte_val b); split; [exact Hin' | apply Z.eqb_refl]).
    rewrite Hex' in Hex. discriminate.
Qed.

(** The input of [ex_input_bytes]: its empty script is kept, and the
    outpoint and the sequence number are those the bytes spell. *)
Lemma parse_input_invariants_witness :
  exists txin vds',
    parse_input (BCDataStream.write BCDataStream.init ex_input_bytes) = Ok (txin, vds')
    /\ script_sig txin = Some []
    /\ prevout txin = ex_outpoint0
    /\ nsequence txin = 4294967294.
Proof.
  destruct (parse_input (BCDataStream.write BCDataStream.init ex_input_bytes))
    as [[txin vds']|e] eqn:Hp; [|vm_compute in Hp; discriminate Hp].
  exists txin, vds'. split; [reflexivity|].
  destruct (parse_input_invariants (BCDataStream.write BCDataStream.init ex_input_bytes)
              vds' txin) as (buf & script & at_script & Hin & Hsize & _ & _ & _ & Htxid
                             & Hidx & Hscript & Hsig & Hseq & _);
    [vm_compute; discriminate | exact Hp |].
  cbv zeta in *. vm_compute in Hin. injection Hin as <-.
  vm_compute in Hsize. injection Hsize as Hlen <-.
  destruct script as [|x script]; [|vm_compute in Hlen; discriminate Hlen].
  split; [exact Hsig|]. split.
  - destruct (prevout txin) as [t o]. cbn [txid out_idx] in Htxid, Hidx.
    rewrite Htxid, Hidx. vm_compute. reflexivity.
  - rewrite Hseq. vm_compute. reflexivity.
Defined.


Section ParsingProperties.
Context `{Externals} `{ParserExternals}.

Lemma parse_output_Ok_inv (vds vds' : BCDataStream.t) (txout : TxOutput) :
  0 <= BCDataStream.read_cursor vds ->
  parse_output vds = Ok (txout, vds') ->
  psbt_out txout = None /\ stream_advances vds vds'.
Proof.
  intros Hc Hp. unfold parse_output in Hp.
  inv_bind Hp. destruct a as [value s1].
  apply _read_num_Ok_inv in Ha as (buf & Hin & -> & Hn & Hle); [|exact Hc].
  destruct (TOTAL_COIN_SUPPLY_LIMIT_IN_BTC * COIN <? value); [discriminate|].
  destruct (value <? 0); [discriminate|].
  inv_bind Hp. destruct a as [spk s2].
  apply read_var_bytes_Ok_inv in Ha as (buf2 & Hin2 & Hin2' & Hc2);
    [|cbn [BCDataStream.read_cursor]; lia].
  cbn [BCDataStream.input BCDataStream.read_cursor] in *. injection Hin2 as <-.
  inv_bind Hp. destruct a as [|[asset amount] more].
  - inv_bind Hp. injection Hp as <- <-.
    split; [reflexivity|]. split; [congruence | lia].
  - injection Hp as <- <-. split; [reflexivity|]. split; [congruence | lia].
Qed.

Lemma parse_witnesses_Ok_inv (inputs inputs' : list TxInput) (vds vds' : BCDataStream.t) :
  0 <= BCDataStream.read_cursor vds ->
  Forall parsed_input_ok inputs ->
  parse_witnesses vds inputs = Ok (inputs', vds') ->
  length inputs' = length inputs /\ Forall parsed_input_ok inputs'
  /\ stream_advances vds vds'.
Proof.
  revert inputs' vds. induction inputs as [|txin r IH]; intros inputs' vds Hc Hall Hp.
  - injection Hp as <- <-. repeat split; [constructor | lia].
  - cbn [parse_witnesses] in Hp. inv_bind Hp. destruct a as [txin' s1].
    inv_bind Hp. destruct a as [r' s2]. injection Hp as <- <-.
    unfold parse_witness in Ha. inv_bind Ha. destruct a as [n s3].
    apply read_compact_size_Ok_inv in Ha1 as (buf & Hin & Hin3 & Hc3 & _); [|exact Hc].
    inv_bind Ha. destruct a as [elements s4].
    apply (read_times_inv read_var_bytes (fun _ => True)) in Ha1
      as (_ & _ & Hi4 & Hc4); [| |lia].
    2:{ intros s x s' Hs Hrd.
        apply read_var_bytes_Ok_inv in Hrd as (b & Hb & Hb' & Hcb); [|exact Hs].
        split; [exact I|]. split; [congruence | lia]. }
    inv_bind Ha. injection Ha as <- <-.
    inversion Hall as [|? ? Htxin Hr]; subst.
    destruct (IH r' s4) as (Hlen & Hall' & Hi2 & Hc2); [lia | exact Hr | exact Ha0 |].
    cbn [length]. split; [now rewrite Hlen|]. split; [constructor; assumption|].
    split; [congruence | lia].
Qed.

(** X11: what a transaction looks like after [deserialize].  Every
    transaction parsed from bytes has at least one input and at least
    one output; each input satisfies the guarantees of [parse_input];
    the version is a signed and the locktime an unsigned 32-bit number;
    the bytes parsed are kept as the cached serialization, and the
    object is a plain [Transaction] with no txid cached. *)
Theorem Transaction_deserialize_invariants
    (raw : bytes) (wallet : option Abstract_Wallet) (tx : Transaction) :
  Transaction_deserialize raw wallet = Ok tx ->
  _inputs tx <> [] /\ _outputs tx <> []
  /\ Forall parsed_input_ok (_inputs tx)
  /\ Forall (fun o => psbt_out o = None) (_outputs tx)
  /\ - 2 ^ 31 <= _version tx < 2 ^ 31
  /\ 0 <= _locktime tx < 2 ^ 32
  /\ _cached_network_ser tx = Some raw
  /\ _cached_txid tx = None
  /\ psbt_tx tx = None
  /\ for_swap tx = false.
Proof.
  unfold Transaction_deserialize. intros Hd.
  inv_bind Hd. destruct a as [version s1].
  apply _read_num_Ok_inv in Ha as (buf & Hin & -> & Hv & Hle); [|rewrite write_at_end; cbn; lia].
  rewrite write_at_end in *. cbn [BCDataStream.input BCDataStream.read_cursor
                                  BCDataStream.init] in *.
  inv_bind Hd. destruct a as [n_vin0 s2].
  apply read_compact_size_Ok_inv in Ha as (buf2 & Hin2 & Hin2' & Hc2 & _);
    [|cbn [BCDataStream.read_cursor]; lia].
  cbn [BCDataStream.input BCDataStream.read_cursor] in *.
  inv_bind Hd. destruct a as [n_vin s3].
  assert (Hs3 : 0 <= BCDataStream.read_cursor s3).
  { destruct (n_vin0 =? 0).
    - inv_bind Ha. destruct a as [marker s2'].
      apply read_bytes_Ok_inv in Ha0 as (b & Hb & _ & _ & _ & _ & ->).
      destruct (negb (bool_decide (marker = [x01]))); [discriminate|].
      apply read_compact_size_Ok_inv in Ha as (b' & _ & _ & Hc' & _);
        cbn [BCDataStream.read_cursor] in *; lia.
    - injection Ha as <- <-. lia. }
  clear Ha.
  destruct (Z.ltb_spec n_vin 1) as [|Hvin]; [discriminate|].
  inv_bind Hd. destruct a as [inputs s4].
  apply (read_times_inv parse_input (fun txin => parsed_input_ok txin /\ witness txin = None))
    in Ha as (Hlen_in & Hall_in & Hi4 & Hc4); [|intros s x s'; apply parse_input_Ok_inv | exact Hs3].
  inv_bind Hd. destruct a as [n_vout s5].
  apply read_compact_size_Ok_inv in Ha as (buf5 & Hin5 & Hin5' & Hc5 & _); [|lia].
  destruct (Z.ltb_spec n_vout 1) as [|Hvout]; [discriminate|].
  inv_bind Hd. destruct a as [outputs s6].
  apply (read_times_inv parse_output (fun o => psbt_out o = None))
    in Ha as (Hlen_out & Hall_out & Hi6 & Hc6); [|intros s x s'; apply parse_output_Ok_inv | lia].
  inv_bind Hd. destruct a as [inputs' s7].
  assert (Hin_ok : Forall parsed_input_ok inputs)
    by (eapply Forall_impl; [exact Hall_in | intros x [Hx _]; exact Hx]).
  assert (Hins : length inputs' = length inputs /\ Forall parsed_input_ok inputs'
                 /\ 0 <= BCDataStream.read_cursor s7).
  { destruct (n_vin0 =? 0).
    - apply parse_witnesses_Ok_inv in Ha as (Hl & Hall' & _ & Hc7);
        [repeat split; [exact Hl | exact Hall' | lia] | lia | exact Hin_ok].
    - injection Ha as <- <-. repeat split; [exact Hin_ok | lia]. }
  destruct Hins as (Hlen' & Hall' & Hc7). clear Ha.
  inv_bind Hd. destruct a as [locktime s8].
  apply _read_num_Ok_inv in Ha as (buf8 & _ & _ & Hlock & _); [|exact Hc7].
  destruct (BCDataStream.can_read_more s8); [discriminate|].
  injection Hd as <-.
  cbn [_inputs _outputs _version _locktime _cached_network_ser _cached_txid psbt_tx for_swap].
  split; [intros ->; cbn [length] in Hlen'; lia|].
  split; [intros ->; cbn [length] in Hlen_out; lia|].
  split; [exact Hall'|]. split; [exact Hall_out|].
  split; [exact Hv|]. split; [exact Hlock|]. repeat split; reflexivity.
Qed.

(** X12: an output without a script cannot be parsed.  For every amount
    within the supply limit, [TxOutput.from_network_bytes] of the eight
    bytes of the amount followed by a zero script length raises
    IndexError (raised by [get_assets_from_script] on the empty script),
    not SerializationError. *)
Theorem from_network_bytes_empty_script (v : Z) :
  0 <= v <= TOTAL_COIN_SUPPLY_LIMIT_IN_BTC * COIN -> v < 2 ^ 63 ->
  from_network_bytes (le_encode 8 v ++ [x00]) = Raise IndexError.
Proof.
  intros Hv Hv63. unfold from_network_bytes, parse_output.
  rewrite write_at_end. change (stream_bytes BCDataStream.init ++ ?b) with b.
  assert (Hr : format_min fmt_q <= v < format_max fmt_q).
  { change (- 9223372036854775808 <= v < 9223372036854775808).
    change (2 ^ 63) with 9223372036854775808 in Hv63. lia. }
  pose proof (_read_num_at [] [x00] fmt_q v Hr) as Hrd.
  change (256 ^ Z.of_nat (calcsize fmt_q)) with 18446744073709551616 in Hrd.
  rewrite Z.mod_small in Hrd
    by (change (2 ^ 63) with 9223372036854775808 in Hv63; lia).
  change (calcsize fmt_q) with 8%nat in Hrd. cbn [app] in Hrd. change (len []) with 0 in Hrd.
  unfold BCDataStream.read_int64. cbn [BCDataStream.read_cursor BCDataStream.init].
  rewrite Hrd. cbn [mbind result_bind].
  destruct (Z.ltb_spec (TOTAL_COIN_SUPPLY_LIMIT_IN_BTC * COIN) v); [lia|].
  destruct (Z.ltb_spec v 0); [lia|].
  unfold read_var_bytes.
  pose proof (read_compact_size_at (le_encode 8 v) [] x00) as Hcs.
  unfold len at 1 in Hcs. rewrite le_encode_length in Hcs.
  change (0 + Z.of_nat 8) with (Z.of_nat 8). rewrite Hcs. clear Hcs.
  change (byte_val x00 =? 253) with false. change (byte_val x00 =? 254) with false.
  change (byte_val x00 =? 255) with false. cbv zeta iota. cbn [mbind result_bind].
  unfold BCDataStream.read_bytes. cbn [BCDataStream.input BCDataStream.read_cursor].
  change (byte_val x00) with 0. cbn [py_assert Z.leb Z.compare mbind result_bind].
  change (0 <=? 0) with true. cbn [py_assert mbind result_bind].
  rewrite len_app. unfold len at 1. rewrite le_encode_length.
  change (len [x00]) with 1. change (Z.of_nat 8 + 1 + 0) with 9.
  change (Z.of_nat 8 + 1) with 9. change ((0 <=? 9) && (9 <=? 9) && (9 <=? 9)) with true.
  cbv iota. cbn [mbind result_bind].
  unfold py_slice. rewrite len_app. unfold len. rewrite le_encode_length.
  change (length [x00]) with 1%nat. change (Z.of_nat 8 + Z.of_nat 1) with 9.
  change (Z.min 9 9) with 9. change (Z.to_nat (9 - 9)) with 0%nat. cbn [firstn].
  reflexivity.
Qed.

End ParsingProperties.

Lemma Transaction_deserialize_invariants_witness :
  exists tx,
    @Transaction_deserialize toy_externals toy_parser_externals ex_tx_bytes None = Ok tx
    /\ _inputs tx <> [] /\ _outputs tx <> [].
Proof.
  destruct (@Transaction_deserialize toy_externals toy_parser_externals ex_tx_bytes None)
    as [tx|e] eqn:Hd; [|vm_compute in Hd; discriminate Hd].
  exists tx. split; [reflexivity|].
  destruct (@Transaction_deserialize_invariants toy_externals toy_parser_externals
              ex_tx_bytes None tx Hd) as (H1 & H2 & _).
  split; assumption.
Defined.

Lemma from_network_bytes_empty_script_witness :
  @from_network_bytes toy_parser_externals (le_encode 8 1000 ++ [x00]) = Raise IndexError.
Proof.
  apply (@from_network_bytes_empty_script toy_parser_externals 1000); vm_compute;
    [split; discriminate | reflexivity].
Defined.

(** ** Serialization and parsing are inverse *)

Ltac solve_app := repeat rewrite <- app_assoc; reflexivity.

Lemma _read_num_in (raw buf rest : bytes) (format : struct_format) (num c : Z) :
  format_min format <= num < format_max format ->
  raw = buf ++ le_encode (calcsize format) (num mod 256 ^ Z.of_nat (calcsize format)) ++ rest ->
  c = len buf ->
  BCDataStream._read_num (BCDataStream.mk (Some raw) c) format
  = Ok (num, BCDataStream.mk (Some raw) (c + Z.of_nat (calcsize format))).
Proof. intros Hr -> ->. apply _read_num_at. exact Hr. Qed.

Lemma read_bytes_in (raw buf b rest : bytes) (c n : Z) :
  raw = buf ++ b ++ rest -> c = len buf -> n = len b ->
  BCDataStream.read_bytes (BCDataStream.mk (Some raw) c) n
  = Ok (b, BCDataStream.mk (Some raw) (c + n)).
Proof.
  intros -> -> ->. unfold BCDataStream.read_bytes.
  cbn [BCDataStream.input BCDataStream.read_cursor].
  pose proof (len_nonneg buf). pose proof (len_nonneg b). pose proof (len_nonneg rest).
  unfold py_assert. destruct (Z.leb_spec 0 (len b)); [|lia]. cbn [mbind result_bind].
  rewrite !len_app.
  destruct (Z.leb_spec 0 (len buf)); [|lia].
  destruct (Z.leb_spec (len buf) (len buf + len b)); [|lia].
  destruct (Z.leb_spec (len buf + len b) (len buf + (len b + len rest))); [|lia].
  cbn [andb]. now rewrite py_slice_app_middle.
Qed.

Lemma int_to_hex_pack (format : struct_format) (num : Z) :
  format_min format <= num < format_max format ->
  int_to_hex num (calcsize format)
  = Ok (le_encode (calcsize format) (num mod 256 ^ Z.of_nat (calcsize format))).
Proof.
  intros Hr. unfold int_to_hex, format_min, format_max in *.
  destruct format; cbn [format_is_signed calcsize] in *;
    change (256 ^ Z.of_nat 2) with 65536 in *;
    change (256 ^ Z.of_nat 4) with 4294967296 in *;
    change (256 ^ Z.of_nat 8) with 18446744073709551616 in *;
    change (65536 / 2) with 32768 in *;
    change (4294967296 / 2) with 2147483648 in *;
    change (18446744073709551616 / 2) with 9223372036854775808 in *;
    cbv zeta;
    match goal with |- context [(num <? ?a) || (?b <=? num)] =>
      destruct (Z.ltb_spec num a); [lia|]; destruct (Z.leb_spec b num); [lia|]
    end; cbn [orb];
    (destruct (Z.ltb_spec num 0);
     [do 2 f_equal; apply Z.mod_unique with (-1); lia
     |now rewrite Z.mod_small by lia]).
Qed.

(** The bytes of [var_int n] are read back as [n]. *)
Lemma var_int_read (n : Z) :
  0 <= n < 2 ^ 64 ->
  exists enc,
    var_int n = Ok enc
    /\ forall raw buf rest c,
         raw = buf ++ enc ++ rest -> c = len buf ->
         BCDataStream.read_compact_size (BCDataStream.mk (Some raw) c)
         = Ok (n, BCDataStream.mk (Some raw) (c + len enc)).
Proof.
  intros [Hlo Hhi]. change (2 ^ 64) with 18446744073709551616 in Hhi.
  unfold var_int, py_assert.
  destruct (Z.leb_spec 0 n); [|lia]. cbn [mbind result_bind].
  destruct (Z.ltb_spec n 253).
  { exists [byte_of_Z n]. split.
    - unfold int_to_hex. cbv zeta. change (256 ^ Z.of_nat 1) with 256.
      change (256 / 2) with 128.
      match goal with |- context [(n <? ?a) || (?b <=? n)] =>
        destruct (Z.ltb_spec n a); [lia|]; destruct (Z.leb_spec b n); [lia|]
      end.
      cbn [orb]. destruct (Z.ltb_spec n 0); [lia|]. reflexivity.
    - intros raw buf rest c -> ->. cbn [app].
      rewrite read_compact_size_at, byte_val_byte_of_Z, Z.mod_small by lia. cbv zeta.
      destruct (Z.eqb_spec n 253); [lia|].
      destruct (Z.eqb_spec n 254); [lia|].
      destruct (Z.eqb_spec n 255); [lia|]. reflexivity. }
  assert (Hwide : forall (format : struct_format) (tag : byte),
    format_min format = 0 -> n < format_max format ->
    (byte_val tag =? 253) || (byte_val tag =? 254) || (byte_val tag =? 255) = true ->
    (if byte_val tag =? 253 then fmt_H
     else if byte_val tag =? 254 then fmt_I else fmt_Q) = format ->
    exists enc,
      (b ← int_to_hex n (calcsize format); Ok (tag :: b)) = Ok enc
      /\ forall raw buf rest c,
           raw = buf ++ enc ++ rest -> c = len buf ->
           BCDataStream.read_compact_size (BCDataStream.mk (Some raw) c)
           = Ok (n, BCDataStream.mk (Some raw) (c + len enc))).
  { intros format tag Hmin Hmax Htag Hfmt.
    assert (Hr : format_min format <= n < format_max format) by lia.
    rewrite (int_to_hex_pack _ _ Hr). cbn [mbind result_bind].
    eexists. split; [reflexivity|]. intros raw buf rest c -> ->.
    rewrite <- app_comm_cons, read_compact_size_at. cbv zeta.
    assert (Hsel : (if byte_val tag =? 253 then BCDataStream._read_num
                       (BCDataStream.mk (Some (buf ++ tag :: le_encode (calcsize format)
                          (n mod 256 ^ Z.of_nat (calcsize format)) ++ rest)) (len buf + 1)) fmt_H
                    else if byte_val tag =? 254 then BCDataStream._read_num
                       (BCDataStream.mk (Some (buf ++ tag :: le_encode (calcsize format)
                          (n mod 256 ^ Z.of_nat (calcsize format)) ++ rest)) (len buf + 1)) fmt_I
                    else if byte_val tag =? 255 then BCDataStream._read_num
                       (BCDataStream.mk (Some (buf ++ tag :: le_encode (calcsize format)
                          (n mod 256 ^ Z.of_nat (calcsize format)) ++ rest)) (len buf + 1)) fmt_Q
                    else Ok (byte_val tag, BCDataStream.mk (Some (buf ++ tag :: le_encode
                          (calcsize format) (n mod 256 ^ Z.of_nat (calcsize format)) ++ rest))
                          (len buf + 1)))
                   = BCDataStream._read_num
                       (BCDataStream.mk (Some (buf ++ tag :: le_encode (calcsize format)
                          (n mod 256 ^ Z.of_nat (calcsize format)) ++ rest)) (len buf + 1))
                       format).
    { subst format. destruct (byte_val tag =? 253); [reflexivity|].
      destruct (byte_val tag =? 254); [reflexivity|].
      destruct (byte_val tag =? 255); [reflexivity | discriminate Htag]. }
    rewrite Hsel, (read_compact_size_wide _ _ _ _ _ Hr). do 3 f_equal.
    change (len (tag :: ?l)) with (Z.of_nat (S (length l))).
    rewrite le_encode_length. lia. }
  destruct (Z.leb_spec n 65535).
  { apply (Hwide fmt_H xfd); [reflexivity | change (n < 65536); lia | reflexivity | reflexivity]. }
  destruct (Z.leb_spec n 4294967295).
  { apply (Hwide fmt_I xfe);
      [reflexivity | change (n < 4294967296); lia | reflexivity | reflexivity]. }
  apply (Hwide fmt_Q xff);
    [reflexivity | change (n < 18446744073709551616); lia | reflexivity | reflexivity].
Qed.

Lemma read_var_bytes_in (raw buf enc b rest : bytes) (c : Z) :
  len b < 2 ^ 64 -> var_int (len b) = Ok enc ->
  raw = buf ++ (enc ++ b) ++ rest -> c = len buf ->
  read_var_bytes (BCDataStream.mk (Some raw) c)
  = Ok (b, BCDataStream.mk (Some raw) (c + len (enc ++ b))).
Proof.
  intros Hb Henc -> ->. pose proof (len_nonneg b).
  destruct (var_int_read (len b)) as (enc' & Henc' & Hrd); [lia|].
  rewrite Henc in Henc'. injection Henc' as <-.
  unfold read_var_bytes.
  rewrite (Hrd _ buf (b ++ rest) (len buf)) by (solve_app || reflexivity).
  cbn [mbind result_bind].
  rewrite (read_bytes_in _ (buf ++ enc) b rest) by (solve_app || now rewrite ?len_app).
  do 3 f_equal. rewrite len_app. lia.
Qed.

Lemma can_read_more_at_end (raw : bytes) :
  BCDataStream.can_read_more (BCDataStream.mk (Some raw) (len raw)) = false.
Proof.
  unfold BCDataStream.can_read_more. cbn [BCDataStream.input BCDataStream.read_cursor].
  destruct raw; [reflexivity|]. apply Z.ltb_irrefl.
Qed.

Lemma len_le_encode (n : nat) (z : Z) : len (le_encode n z) = Z.of_nat n.
Proof. unfold len. now rewrite le_encode_length. Qed.

Section RoundTrip.
Context `{Externals} `{ParserExternals}.

(** An output is read back from its serialization wherever that lies
    in a buffer. *)
Lemma parse_output_in (o : TxOutput) :
  output_round_trips o ->
  exists ser,
    TxOutput_serialize_to_network o = Ok ser
    /\ forall raw buf rest c,
         raw = buf ++ ser ++ rest -> c = len buf ->
         parse_output (BCDataStream.mk (Some raw) c)
         = Ok (o, BCDataStream.mk (Some raw) (c + len ser)).
Proof.
  intros (v & Hval & Hv & Hv63 & Hlen & Hpsbt & Hasset).
  change (2 ^ 63) with 9223372036854775808 in Hv63.
  destruct o as [spk val a e]. cbn [_value scriptpubkey asset psbt_out] in *. subst val e.
  pose proof (len_nonneg spk) as Hspk.
  destruct (var_int_read (len spk)) as (enc & Henc & _); [lia|].
  set (value' := match a with Some _ => 0 | None => v end).
  assert (Hr : format_min fmt_q <= value' < format_max fmt_q).
  { change (- 9223372036854775808 <= value' < 9223372036854775808).
    unfold value'. destruct a; lia. }
  assert (Hser : TxOutput_serialize_to_network (mkTxOutput spk (IntValue v) a None)
                 = Ok (le_encode 8 (value' mod 256 ^ Z.of_nat 8) ++ enc ++ spk)).
  { unfold TxOutput_serialize_to_network. cbn [asset _value scriptpubkey].
    rewrite Henc. unfold value'. destruct a as [[|ch r]|].
    - destruct Hasset as [Hne _]. contradiction.
    - reflexivity.
    - cbn [truthy_str value_to_bytes8].
      change (2 ^ 64) with 18446744073709551616.
      destruct (Z.leb_spec 0 v); [|lia].
      destruct (Z.ltb_spec v 18446744073709551616); [|lia].
      cbn [andb mbind result_bind].
      change (256 ^ Z.of_nat 8) with 18446744073709551616.
      now rewrite Z.mod_small by lia. }
  eexists. split; [exact Hser|].
  intros raw buf rest c -> ->. unfold parse_output, BCDataStream.read_int64.
  rewrite (_read_num_in _ buf ((enc ++ spk) ++ rest) fmt_q value' (len buf) Hr)
    by (solve_app || reflexivity).
  cbn [mbind result_bind].
  destruct (Z.ltb_spec (TOTAL_COIN_SUPPLY_LIMIT_IN_BTC * COIN) value');
    [unfold value' in *; destruct a; lia|].
  destruct (Z.ltb_spec value' 0); [unfold value' in *; destruct a; lia|].
  rewrite (read_var_bytes_in _ (buf ++ le_encode 8 (value' mod 256 ^ Z.of_nat 8)) enc spk rest)
    by (assumption || solve_app
        || (rewrite len_app, len_le_encode; reflexivity)).
  cbn [mbind result_bind].
  assert (Hcur : len buf + Z.of_nat (calcsize fmt_q) + len (enc ++ spk)
                 = len buf + len (le_encode 8 (value' mod 256 ^ Z.of_nat 8) ++ enc ++ spk)).
  { rewrite (len_app (le_encode _ _)), len_le_encode.
    change (calcsize fmt_q) with 8%nat. lia. }
  rewrite Hcur. unfold value' in *. destruct a as [a|].
  - destruct Hasset as [_ ->]. cbn [mbind result_bind]. reflexivity.
  - destruct Hasset as [-> ->]. cbn [mbind result_bind]. reflexivity.
Qed.

(** X13: [TxOutput.from_network_bytes] inverts
    [TxOutput.serialize_to_network].  A plain output whose amount lies
    within the supply limit and whose script carries the asset name and
    amount of the output (or no asset, for an output without one) is
    serialized, and parsing the bytes gives the same output back. *)
Theorem TxOutput_network_round_trip (o : TxOutput) :
  output_round_trips o ->
  exists ser,
    TxOutput_serialize_to_network o = Ok ser /\ from_network_bytes ser = Ok o.
Proof.
  intros Ho. destruct (parse_output_in o Ho) as (ser & Hser & Hrd).
  exists ser. split; [exact Hser|].
  unfold from_network_bytes. rewrite write_at_end.
  change (stream_bytes BCDataStream.init ++ ser) with ser.
  change (BCDataStream.read_cursor BCDataStream.init) with 0.
  rewrite (Hrd ser [] [] 0) by (now rewrite ?app_nil_r).
  cbn [mbind result_bind]. change (0 + len ser) with (len ser).
  now rewrite can_read_more_at_end.
Qed.

End RoundTrip.

Lemma TxOutput_network_round_trip_witness :
  exists ser,
    TxOutput_serialize_to_network (mkTxOutput [x6a] (IntValue 1000) None None) = Ok ser
    /\ @from_network_bytes toy_parser_externals ser
       = Ok (mkTxOutput [x6a] (IntValue 1000) None None).
Proof.
  apply (@TxOutput_network_round_trip toy_parser_externals
           (mkTxOutput [x6a] (IntValue 1000) None None)).
  exists 1000. vm_compute. repeat split; discriminate || reflexivity.
Defined.

Lemma read_times_in {A} (f : BCDataStream.t -> result (A * BCDataStream.t))
    (ser : A -> result bytes) (l : list A) :
  Forall (fun x => exists sx,
            ser x = Ok sx
            /\ forall raw buf rest c,
                 raw = buf ++ sx ++ rest -> c = len buf ->
                 f (BCDataStream.mk (Some raw) c)
                 = Ok (x, BCDataStream.mk (Some raw) (c + len sx))) l ->
  exists parts,
    mapM ser l = Ok parts
    /\ forall raw buf rest c,
         raw = buf ++ concat parts ++ rest -> c = len buf ->
         read_times f (length l) (BCDataStream.mk (Some raw) c)
         = Ok (l, BCDataStream.mk (Some raw) (c + len (concat parts))).
Proof.
  induction 1 as [|x l (sx & Hsx & Hrd) _ (parts & Hparts & Hrds)].
  - exists []. split; [reflexivity|]. intros raw buf rest c _ _.
    cbn [read_times length concat]. change (len []) with 0. now rewrite Z.add_0_r.
  - exists (sx :: parts). split.
    + cbn [mapM]. rewrite Hsx. cbn [mbind result_bind]. rewrite Hparts. reflexivity.
    + intros raw buf rest c -> ->. cbn [length read_times concat].
      rewrite (Hrd _ buf (concat parts ++ rest) (len buf)) by (solve_app || reflexivity).
      cbn [mbind result_bind].
      rewrite (Hrds _ (buf ++ sx) rest (len buf + len sx))
        by (solve_app || now rewrite len_app).
      cbn [mbind result_bind]. do 3 f_equal. rewrite len_app. lia.
Qed.

Section TransactionRoundTrip.
Context `{Externals} `{ParserExternals}.

Lemma parse_input_in (txin : TxInput) :
  input_round_trips txin ->
  exists ser,
    (script ← input_script txin false; serialize_input txin script) = Ok ser
    /\ forall raw buf rest c,
         raw = buf ++ ser ++ rest -> c = len buf ->
         parse_input (BCDataStream.mk (Some raw) c)
         = Ok (txin, BCDataStream.mk (Some raw) (c + len ser)).
Proof.
  intros (Htxid & Hidx & Hseq & (script & Hsig & Hlen & Hsighash) & Hwit & Hcb & Hpsbt).
  destruct txin as [[id idx] sig nseq wit cb sh e].
  cbn [prevout txid out_idx nsequence script_sig witness _is_coinbase_output sighash psbt_in]
    in *. subst sig wit cb e sh.
  pose proof (len_nonneg script) as Hs0.
  destruct (var_int_read (len script)) as (enc & Henc & _); [lia|].
  assert (Hr_idx : format_min fmt_I <= idx < format_max fmt_I)
    by (change (0 <= idx < 4294967296); change (2 ^ 32) with 4294967296 in Hidx; lia).
  assert (Hr_seq : format_min fmt_I <= nseq < format_max fmt_I)
    by (change (0 <= nseq < 4294967296); change (2 ^ 32) with 4294967296 in Hseq; lia).
  set (idx4 := le_encode (calcsize fmt_I) (idx mod 256 ^ Z.of_nat (calcsize fmt_I))).
  set (seq4 := le_encode (calcsize fmt_I) (nseq mod 256 ^ Z.of_nat (calcsize fmt_I))).
  exists ((rev id ++ idx4) ++ enc ++ script ++ seq4). split.
  { unfold input_script, serialize_input, TxOutpoint_serialize_to_network.
    cbn [script_sig prevout txid out_idx nsequence mbind result_bind].
    change 4%nat with (calcsize fmt_I).
    rewrite (int_to_hex_pack _ _ Hr_idx), (int_to_hex_pack _ _ Hr_seq).
    cbn [mbind result_bind]. rewrite Henc. reflexivity. }
  intros raw buf rest c -> ->. unfold parse_input.
  assert (Hlid : len (rev id) = 32) by (unfold len; now rewrite length_rev, Htxid).
  rewrite (read_bytes_in _ buf (rev id) (idx4 ++ enc ++ script ++ seq4 ++ rest) (len buf) 32)
    by (solve_app || reflexivity || now rewrite Hlid).
  cbn [mbind result_bind]. unfold BCDataStream.read_uint32.
  rewrite (_read_num_in _ (buf ++ rev id) (enc ++ script ++ seq4 ++ rest) fmt_I idx
             (len buf + 32) Hr_idx)
    by ((fold idx4; solve_app) || (rewrite len_app, Hlid; reflexivity)).
  cbn [mbind result_bind].
  rewrite (read_var_bytes_in _ ((buf ++ rev id) ++ idx4) enc script (seq4 ++ rest))
    by (assumption || solve_app
        || (rewrite !len_app, Hlid; unfold idx4; rewrite len_le_encode; reflexivity)).
  cbn [mbind result_bind].
  rewrite (_read_num_in _ (((buf ++ rev id) ++ idx4) ++ enc ++ script) rest fmt_I nseq
             _ Hr_seq)
    by ((fold seq4; solve_app)
        || (rewrite !len_app, Hlid; unfold idx4; rewrite len_le_encode; lia)).
  cbn [mbind result_bind]. rewrite rev_involutive.
  do 3 f_equal.
  rewrite !len_app, Hlid. unfold idx4, seq4. rewrite !len_le_encode. lia.
Qed.

Lemma anyM_is_segwit_false (inputs : list TxInput) :
  Forall input_round_trips inputs ->
  anyM (fun txin => is_segwit txin false) inputs = Ok false.
Proof.
  induction 1 as [|txin l (_ & _ & _ & _ & Hwit & _ & Hpsbt) _ IH]; [reflexivity|].
  cbn [anyM].
  assert (Hx : is_segwit txin false = Ok false)
    by (unfold is_segwit, TxInput_is_segwit; now rewrite Hpsbt, Hwit).
  rewrite Hx. cbn [mbind result_bind]. exact IH.
Qed.

(** X14: [deserialize] inverts [serialize_to_network] on legacy
    transactions.  A transaction with at least one input and one
    output, whose inputs are plain scripted inputs without witness and
    whose outputs are as in the round trip of outputs, with version and
    locktime in range, is serialized, and parsing the bytes gives back
    its version, locktime, inputs and outputs, the bytes being kept as
    the cached serialization. *)
Theorem Transaction_network_round_trip (tx : Transaction) (wallet : option Abstract_Wallet) :
  - 2 ^ 31 <= _version tx < 2 ^ 31 ->
  0 <= _locktime tx < 2 ^ 32 ->
  _inputs tx <> [] -> len (_inputs tx) < 2 ^ 64 ->
  _outputs tx <> [] -> len (_outputs tx) < 2 ^ 64 ->
  Forall input_round_trips (_inputs tx) ->
  Forall output_round_trips (_outputs tx) ->
  exists ser,
    serialize_to_network tx false true false = Ok ser
    /\ Transaction_deserialize ser wallet
       = Ok (mkTransaction (_version tx) (_locktime tx) (_inputs tx) (_outputs tx)
                           false (Some ser) None wallet None).
Proof.
  intros Hver Hlock Hin Hnin Hout Hnout Hins Houts.
  destruct tx as [version locktime inputs outputs fs cs ct w g].
  cbn [_version _locktime _inputs _outputs] in *.
  assert (Hr_ver : format_min fmt_i <= version < format_max fmt_i).
  { change (- 2147483648 <= version < 2147483648).
    change (2 ^ 31) with 2147483648 in Hver. lia. }
  assert (Hr_lock : format_min fmt_I <= locktime < format_max fmt_I).
  { change (0 <= locktime < 4294967296). change (2 ^ 32) with 4294967296 in Hlock. lia. }
  pose proof (len_nonneg inputs) as Hi0. pose proof (len_nonneg outputs) as Ho0.
  assert (Hi1 : 1 <= len inputs) by (destruct inputs; [contradiction | unfold len; cbn; lia]).
  assert (Ho1 : 1 <= len outputs) by (destruct outputs; [contradiction | unfold len; cbn; lia]).
  destruct (var_int_read (len inputs)) as (n_in & Hn_in & Hrd_in); [lia|].
  destruct (var_int_read (len outputs)) as (n_out & Hn_out & Hrd_out); [lia|].
  destruct (read_times_in parse_input
              (fun txin => script ← input_script txin false; serialize_input txin script)
              inputs) as (ins & Hser_ins & Hrd_ins).
  { eapply Forall_impl; [exact Hins|]. intros txin Htxin. apply parse_input_in, Htxin. }
  destruct (read_times_in parse_output TxOutput_serialize_to_network outputs)
    as (outs & Hser_outs & Hrd_outs).
  { eapply Forall_impl; [exact Houts|]. intros o Ho. apply parse_output_in, Ho. }
  set (ver4 := le_encode (calcsize fmt_i) (version mod 256 ^ Z.of_nat (calcsize fmt_i))).
  set (lock4 := le_encode (calcsize fmt_I) (locktime mod 256 ^ Z.of_nat (calcsize fmt_I))).
  exists (ver4 ++ (n_in ++ concat ins) ++ (n_out ++ concat outs) ++ lock4). split.
  { unfold serialize_to_network.
    cbn [_version _locktime _inputs _outputs negb andb].
    pose proof (int_to_hex_pack fmt_i version Hr_ver) as Hv4.
    pose proof (int_to_hex_pack fmt_I locktime Hr_lock) as Hl4.
    change (calcsize fmt_i) with 4%nat in Hv4. change (calcsize fmt_I) with 4%nat in Hl4.
    rewrite Hv4. cbn [mbind result_bind]. rewrite Hl4.
    cbn [mbind result_bind]. rewrite Hn_in. cbn [mbind result_bind].
    unfold concat_mapM. rewrite Hser_ins. cbn [mbind result_bind].
    rewrite Hn_out. cbn [mbind result_bind]. rewrite Hser_outs. cbn [mbind result_bind].
    unfold Transaction_is_segwit. cbn [_inputs].
    rewrite (anyM_is_segwit_false _ Hins). cbn [mbind result_bind orb andb]. reflexivity. }
  unfold Transaction_deserialize. rewrite write_at_end.
  change (stream_bytes BCDataStream.init ++ ?b) with b.
  change (BCDataStream.read_cursor BCDataStream.init) with 0.
  set (raw := ver4 ++ (n_in ++ concat ins) ++ (n_out ++ concat outs) ++ lock4).
  unfold BCDataStream.read_int32.
  rewrite (_read_num_in raw [] ((n_in ++ concat ins) ++ (n_out ++ concat outs) ++ lock4)
             fmt_i version 0 Hr_ver) by reflexivity.
  cbn [mbind result_bind].
  assert (Hlv : len ver4 = 4) by (unfold ver4; now rewrite len_le_encode).
  rewrite (Hrd_in raw ver4 (concat ins ++ (n_out ++ concat outs) ++ lock4))
    by ((unfold raw; solve_app) || (rewrite Hlv; reflexivity)).
  cbn [mbind result_bind].
  destruct (Z.eqb_spec (len inputs) 0); [lia|]. cbn [mbind result_bind].
  destruct (Z.ltb_spec (len inputs) 1); [lia|].
  unfold len at 1. rewrite Nat2Z.id.
  rewrite (Hrd_ins raw (ver4 ++ n_in) ((n_out ++ concat outs) ++ lock4))
    by ((unfold raw; solve_app) || (rewrite len_app, Hlv; reflexivity)).
  cbn [mbind result_bind].
  rewrite (Hrd_out raw ((ver4 ++ n_in) ++ concat ins) (concat outs ++ lock4))
    by ((unfold raw; solve_app) || (rewrite !len_app, Hlv; reflexivity)).
  cbn [mbind result_bind].
  destruct (Z.ltb_spec (len outputs) 1); [lia|].
  unfold len at 1. rewrite Nat2Z.id.
  rewrite (Hrd_outs raw (((ver4 ++ n_in) ++ concat ins) ++ n_out) lock4)
    by ((unfold raw; solve_app) || (rewrite !len_app, Hlv; change (Z.of_nat (calcsize fmt_i)) with 4; lia)).
  cbn [mbind result_bind]. unfold BCDataStream.read_uint32.
  assert (Hraw : raw = ((((ver4 ++ n_in) ++ concat ins) ++ n_out) ++ concat outs)
                       ++ lock4 ++ [])
    by (unfold raw; rewrite app_nil_r; solve_app).
  assert (Hc : 0 + Z.of_nat (calcsize fmt_i) + len n_in + len (concat ins) + len n_out
               + len (concat outs)
               = len ((((ver4 ++ n_in) ++ concat ins) ++ n_out) ++ concat outs))
    by (rewrite !len_app, Hlv; change (Z.of_nat (calcsize fmt_i)) with 4; lia).
  rewrite (_read_num_in raw _ [] fmt_I locktime _ Hr_lock Hraw Hc).
  cbn [mbind result_bind].
  assert (Hend : 0 + Z.of_nat (calcsize fmt_i) + len n_in + len (concat ins) + len n_out
                 + len (concat outs) + Z.of_nat (calcsize fmt_I) = len raw).
  { rewrite Hc, Hraw. rewrite (len_app _ (lock4 ++ [])), app_nil_r.
    unfold lock4. now rewrite len_le_encode. }
  rewrite Hend, can_read_more_at_end. reflexivity.
Qed.

End TransactionRoundTrip.

Lemma Transaction_network_round_trip_witness :
  exists ser,
    @serialize_to_network toy_externals ex_legacy_tx false true false = Ok ser
    /\ @Transaction_deserialize toy_externals toy_parser_externals ser None
       = Ok (mkTransaction 2 0 (_inputs ex_legacy_tx) (_outputs ex_legacy_tx)
                           false (Some ser) None None None).
Proof.
  apply (@Transaction_network_round_trip toy_externals toy_parser_externals
           ex_legacy_tx None).
  - split; [discriminate | reflexivity].
  - split; [discriminate | reflexivity].
  - discriminate.
  - reflexivity.
  - discriminate.
  - reflexivity.
  - apply List.Forall_cons; [|apply List.Forall_nil].
    split; [reflexivity|]. split; [split; [discriminate | reflexivity]|].
    split; [split; [discriminate | reflexivity]|].
    split; [exists []; split; [reflexivity|]; split; reflexivity|].
    split; [reflexivity|]. split; reflexivity.
  - apply List.Forall_cons; [|apply List.Forall_nil].
    exists 1000. split; [reflexivity|]. split; [split; discriminate|].
    split; [reflexivity|]. split; [reflexivity|]. split; [reflexivity|].
    split; reflexivity.
Defined.

(** ** PSBT records *)

Lemma var_int_Ok_range (n : Z) (enc : bytes) :
  var_int n = Ok enc -> 0 <= n < 2 ^ 64.
Proof.
  unfold var_int, py_assert. change (2 ^ 64) with 18446744073709551616.
  destruct (Z.leb_spec 0 n); [|discriminate]. cbn [mbind result_bind].
  destruct (Z.ltb_spec n 253); [lia|].
  destruct (Z.leb_spec n 65535); [lia|].
  destruct (Z.leb_spec n 4294967295); [lia|].
  unfold int_to_hex. cbv zeta.
  change (256 ^ Z.of_nat 8) with 18446744073709551616.
  destruct (Z.leb_spec 18446744073709551616 n);
    [rewrite orb_true_r; discriminate | lia].
Qed.

(** [deser_compact_size] reads [var_int n] back as [n] and leaves the
    stream behind it. *)
Lemma deser_compact_size_var_int (n : Z) (enc : bytes) :
  var_int n = Ok enc ->
  0 < len enc /\ forall rest, deser_compact_size (enc ++ rest) = Ok (Some (n, rest)).
Proof.
  intros Henc. pose proof (var_int_Ok_range _ _ Henc) as [Hlo Hhi].
  change (2 ^ 64) with 18446744073709551616 in Hhi.
  revert Henc. unfold var_int, py_assert.
  destruct (Z.leb_spec 0 n); [|lia]. cbn [mbind result_bind].
  destruct (Z.ltb_spec n 253).
  { unfold int_to_hex. cbv zeta. change (256 ^ Z.of_nat 1) with 256.
    change (256 / 2) with 128.
    match goal with |- context [(n <? ?a) || (?b <=? n)] =>
      destruct (Z.ltb_spec n a); [lia|]; destruct (Z.leb_spec b n); [lia|]
    end.
    cbn [orb]. destruct (Z.ltb_spec n 0); [lia|]. intros [= <-].
    split; [reflexivity|]. intros rest. cbn [le_encode app deser_compact_size].
    rewrite byte_val_byte_of_Z, Z.mod_small by lia.
    destruct (Z.eqb_spec n 253); [lia|].
    destruct (Z.eqb_spec n 254); [lia|].
    destruct (Z.eqb_spec n 255); [lia|]. reflexivity. }
  assert (Hwide : forall (format : struct_format) (tag : byte),
    format_min format = 0 -> n < format_max format ->
    (forall r, deser_compact_size (tag :: r)
               = if len r <? Z.of_nat (calcsize format) then Raise struct_error
                 else Ok (Some (le_decode (firstn (calcsize format) r),
                                skipn (calcsize format) r))) ->
    (b ← int_to_hex n (calcsize format); Ok (tag :: b)) = Ok enc ->
    0 < len enc /\ forall rest, deser_compact_size (enc ++ rest) = Ok (Some (n, rest))).
  { intros format tag Hmin Hmax Htag.
    assert (Hr : format_min format <= n < format_max format) by lia.
    rewrite (int_to_hex_pack _ _ Hr). cbn [mbind result_bind]. intros [= <-].
    split; [unfold len; cbn [length]; lia|]. intros rest.
    rewrite <- app_comm_cons, Htag, len_app, len_le_encode.
    pose proof (len_nonneg rest).
    destruct (Z.ltb_spec (Z.of_nat (calcsize format) + len rest) (Z.of_nat (calcsize format)));
      [lia|].
    rewrite take_app_length', drop_app_length' by (symmetry; apply le_encode_length).
    rewrite le_decode_le_encode, Z.mod_mod by (apply Z.pow_nonzero; lia).
    clear Htag. unfold format_min, format_max in *.
    destruct format; cbn [format_is_signed calcsize] in *; try discriminate Hmin;
      change (2 ^ (8 * Z.of_nat 2)) with 65536 in *;
      change (2 ^ (8 * Z.of_nat 4)) with 4294967296 in *;
      change (2 ^ (8 * Z.of_nat 8)) with 18446744073709551616 in *;
      change (256 ^ Z.of_nat 2) with 65536 in *;
      change (256 ^ Z.of_nat 4) with 4294967296 in *;
      change (256 ^ Z.of_nat 8) with 18446744073709551616 in *;
      rewrite Z.mod_small by lia; reflexivity. }
  destruct (Z.leb_spec n 65535).
  { apply (Hwide fmt_H xfd); [reflexivity | change (n < 65536); lia | reflexivity]. }
  destruct (Z.leb_spec n 4294967295).
  { apply (Hwide fmt_I xfe); [reflexivity | change (n < 4294967296); lia | reflexivity]. }
  apply (Hwide fmt_Q xff);
    [reflexivity | change (n < 18446744073709551616); lia | reflexivity].
Qed.

(** X15: a record written by the PSBT writer [wr] is read back by
    [get_next_kv_from_fd] as the same key type, key and value, and the
    stream is left just behind the record (whatever follows it). *)
Theorem psbt_record_round_trip (key_type : Z) (key val record : bytes) :
  wr key_type val key = Ok record ->
  forall rest,
    get_next_kv_from_fd (record ++ rest) = Ok (Some (key_type, key, val), rest).
Proof.
  unfold wr, get_fullkey_from_keytype_and_key. intros Hwr rest.
  inv_bind Hwr. inv_bind Ha. injection Ha as <-.
  inv_bind Hwr. inv_bind Hwr. injection Hwr as <-.
  rename a0 into ktb, a into ks, a1 into vs.
  destruct (deser_compact_size_var_int _ _ Ha0) as [Hktb Hkt].
  destruct (deser_compact_size_var_int _ _ Ha) as [_ Hks].
  destruct (deser_compact_size_var_int _ _ Ha1) as [_ Hvs].
  unfold get_next_kv_from_fd.
  rewrite <- !app_assoc, Hks. cbn [mbind result_bind].
  pose proof (len_nonneg key). rewrite len_app.
  destruct (Z.eqb_spec (len ktb + len key) 0); [lia|].
  rewrite <- len_app. unfold len at 1 2. rewrite Nat2Z.id.
  rewrite (app_assoc ktb key), take_app_length, drop_app_length.
  unfold get_keytype_and_key_from_fullkey. rewrite Hkt. cbn [mbind result_bind].
  rewrite Hvs. cbn [mbind result_bind].
  unfold len. rewrite Nat2Z.id, take_app_length, drop_app_length. reflexivity.
Qed.

Lemma psbt_record_round_trip_witness :
  get_next_kv_from_fd ([x02; x06; xaa; x01; xbb] ++ [x00])
  = Ok (Some (6, [xaa], [xbb]), [x00]).
Proof. apply (psbt_record_round_trip 6 [xaa] [xbb]). reflexivity. Defined.

(** X16: [PartialTxOutput.parse_psbt_section_kv] never accepts the same
    key twice: after a record has been accepted, a record with the same
    key type and key data is rejected with a SerializationError,
    whatever its value, for the known key types and for unknown ones. *)
Theorem PartialTxOutput_parse_psbt_section_kv_rejects_duplicate
    (chunks : bytes -> Z -> list bytes) (self self' : TxOutput)
    (kt : Z) (key val : bytes) :
  PartialTxOutput_parse_psbt_section_kv chunks self kt key val = Ok self' ->
  forall val',
    PartialTxOutput_parse_psbt_section_kv chunks self' kt key val'
    = Raise SerializationError.
Proof.
  unfold PartialTxOutput_parse_psbt_section_kv. intros Hp val'.
  destruct (psbt_out self) as [e|]; [|discriminate]. cbv zeta in *.
  destruct (kt =? PSBTOutputType.REDEEM_SCRIPT).
  { destruct (is_not_None (out_redeem_script e)); [discriminate|].
    destruct (truthy_bytes (Some key)); [discriminate|].
    injection Hp as <-. reflexivity. }
  destruct (kt =? PSBTOutputType.WITNESS_SCRIPT).
  { destruct (is_not_None (out_witness_script e)); [discriminate|].
    destruct (truthy_bytes (Some key)); [discriminate|].
    injection Hp as <-. reflexivity. }
  destruct (kt =? PSBTOutputType.BIP32_DERIVATION).
  { destruct (bool_decide (is_Some (out_bip32_paths e !! key))); [discriminate|].
    destruct (negb ((len key =? 33) || (len key =? 65))); [discriminate|].
    inv_bind Hp. injection Hp as <-.
    cbn [psbt_out set_out_ext out_bip32_paths].
    rewrite bool_decide_eq_true_2; [reflexivity|].
    rewrite lookup_insert_eq. eauto. }
  inv_bind Hp. rewrite Ha.
  destruct (bool_decide (is_Some (out_unknown e !! a))); [discriminate|].
  injection Hp as <-. cbn [mbind result_bind psbt_out set_out_ext out_unknown].
  rewrite bool_decide_eq_true_2; [reflexivity|].
  rewrite lookup_insert_eq. eauto.
Qed.

Lemma PartialTxOutput_parse_psbt_section_kv_rejects_duplicate_witness :
  PartialTxOutput_parse_psbt_section_kv (fun _ _ => [])
    (set_out_ext
       (Some (mkPartialTxOutputExt None None ∅ {[ [xfc; xaa] := [xbb] ]} "unknown"
                0 [] false false))
       (PartialTxOutput_from_txout (ex_txout 100 [])))
    252 [xaa] [xcc]
  = Raise SerializationError.
Proof.
  apply (PartialTxOutput_parse_psbt_section_kv_rejects_duplicate (fun _ _ => [])
           (PartialTxOutput_from_txout (ex_txout 100 [])) _ 252 [xaa] [xbb]).
  vm_compute. reflexivity.
Defined.

(** ** Sizes, identifiers and the RBF flag *)

(** [virtual_size_from_weight] is the weight divided by four, rounded
    up. *)
Lemma virtual_size_from_weight_is_ceiling (weight : Z) :
  4 * (virtual_size_from_weight weight - 1) < weight
  <= 4 * virtual_size_from_weight weight.
Proof.
  unfold virtual_size_from_weight.
  pose proof (Z.div_mod weight 4 ltac:(lia)) as Hdm.
  pose proof (Z.mod_pos_bound weight 4 ltac:(lia)) as Hb.
  destruct (Z.ltb_spec 0 (weight mod 4)); lia.
Qed.

Section SizeProperties.
Context `{Externals}.

(** X17: the size that [estimated_output_size_for_script] gives for the
    script of an output is the length of the output's network
    serialization, whenever the output can be serialized; this holds
    for asset outputs too, whose amount field is eight zero bytes. *)
Theorem estimated_output_size_is_serialized_length (o : TxOutput) (ser : bytes) :
  TxOutput_serialize_to_network o = Ok ser ->
  estimated_output_size_for_script (scriptpubkey o) = Ok (len ser).
Proof.
  unfold TxOutput_serialize_to_network, estimated_output_size_for_script.
  intros Hser. inv_bind Hser. cbv zeta in Hser. inv_bind Hser. injection Hser as <-.
  cbv zeta. rewrite Ha0. cbn [mbind result_bind]. rewrite !len_app.
  assert (Hbuf : len a = 8).
  { destruct (truthy_str (asset o)); [injection Ha as <-; reflexivity|].
    unfold value_to_bytes8 in Ha. destruct (_value o) as [v|]; [|discriminate].
    destruct ((0 <=? v) && (v <? 2 ^ 64)); [|discriminate].
    injection Ha as <-. reflexivity. }
  rewrite Hbuf. f_equal. lia.
Qed.

(** X18: the estimated weight of a transaction is four times its
    estimated total size minus three times its estimated witness size,
    and the estimated (virtual) size is the total size minus three
    quarters of the witness size, rounded down; so a transaction without
    witness data has its total size as its virtual size. *)
Theorem estimated_size_from_total_and_witness (self : Transaction) (total w : Z) :
  estimated_total_size self = Ok total ->
  estimated_witness_size self = Ok w ->
  estimated_weight self = Ok (4 * total - 3 * w)
  /\ estimated_size self = Ok (total - (3 * w) / 4).
Proof.
  intros Ht Hw.
  assert (Hweight : estimated_weight self = Ok (4 * total - 3 * w)).
  { unfold estimated_weight, estimated_base_size. rewrite Ht, Hw.
    cbn [mbind result_bind]. f_equal. lia. }
  split; [exact Hweight|].
  unfold estimated_size. rewrite Hweight. cbn [mbind result_bind]. f_equal.
  unfold virtual_size_from_weight.
  pose proof (Z.div_mod (4 * total - 3 * w) 4 ltac:(lia)) as Hdm.
  pose proof (Z.mod_pos_bound (4 * total - 3 * w) 4 ltac:(lia)) as Hb.
  pose proof (Z.div_mod (3 * w) 4 ltac:(lia)) as Hdm'.
  pose proof (Z.mod_pos_bound (3 * w) 4 ltac:(lia)) as Hb'.
  destruct (Z.ltb_spec 0 ((4 * total - 3 * w) mod 4)); lia.
Qed.

Lemma anyM_false_allM {A} (f : A -> result bool) (l : list A) :
  anyM f l = Ok false ->
  allM f l = Ok (match l with [] => true | _ => false end).
Proof.
  destruct l as [|x l]; [reflexivity|]. cbn [anyM allM].
  destruct (f x) as [[|]|e]; cbn [mbind result_bind]; try discriminate. reflexivity.
Qed.

(** X19: for a transaction none of whose inputs is segwit, [wtxid]
    returns what [txid] computes (when no txid is cached): the same
    hash, [None] in the same cases, and the same exception. *)
Theorem Transaction_wtxid_eq_txid_without_witness (self : Transaction) :
  _cached_txid self = None ->
  Transaction_is_segwit self false = Ok false ->
  Transaction_wtxid self = fst <$> Transaction_txid self.
Proof.
  intros Hcache Hsw. unfold Transaction_wtxid, Transaction_txid. rewrite Hcache.
  rewrite (anyM_false_allM _ _ Hsw).
  assert (Hser : serialize_to_network self false true false
                 = serialize_to_network self false true true).
  { unfold serialize_to_network. cbv zeta. cbn [negb]. rewrite Hsw.
    destruct (int_to_hex (_version self) 4); [|reflexivity].
    destruct (int_to_hex (_locktime self) 4); [|reflexivity].
    cbn [mbind result_bind].
    destruct (var_int (len (_inputs self))); [|reflexivity]. cbn [mbind result_bind].
    destruct (concat_mapM _ (_inputs self)); [|reflexivity]. cbn [mbind result_bind].
    destruct (var_int (len (_outputs self))); [|reflexivity]. cbn [mbind result_bind].
    destruct (concat_mapM _ (_outputs self)); reflexivity. }
  rewrite Hser. clear Hser.
  destruct (_inputs self) as [|txin l] eqn:Hin.
  - assert (Hc : Transaction_is_complete self = Ok true).
    { unfold Transaction_is_complete. rewrite Hin. destruct (psbt_tx self); reflexivity. }
    rewrite Hc. cbn [mbind result_bind negb].
    destruct (serialize_to_network self false true true) as [ser|[]]; reflexivity.
  - cbn [negb mbind result_bind].
    destruct (Transaction_is_complete self) as [[|]|e]; cbn [mbind result_bind negb];
      try reflexivity.
    destruct (serialize_to_network self false true true) as [ser|[]]; reflexivity.
Qed.

End SizeProperties.

(** X20: after [set_rbf] on a transaction that is not a swap (or whose
    inputs carry no sighash with one of the two low bits set)
    [is_final] answers the opposite of the flag: every input signals
    replaceability after [set_rbf(True)], none after [set_rbf(False)]
    (a transaction without inputs is final in both cases). *)
Theorem set_rbf_is_final (self : Transaction) (rbf : bool) :
  for_swap self = false
  \/ Forall (fun txin => match sighash txin with
                         | Some s => Z.land s SIGHASH.SINGLE = 0
                         | None => True
                         end) (_inputs self) ->
  is_final (set_rbf self rbf) = negb rbf || bool_decide (_inputs self = []).
Proof.
  intros Hswap. unfold is_final, set_rbf. cbv zeta.
  cbn [_inputs invalidate_ser_cache set__cached_txid set__cached_network_ser set__inputs].
  assert (Hvisit : forall txin, In txin (_inputs self) ->
    (for_swap self
     && match sighash txin with
        | Some s => negb (s =? 0) && negb (Z.land s SIGHASH.SINGLE =? 0)
        | None => false
        end) = false).
  { intros txin Hin. destruct Hswap as [-> | Hall]; [reflexivity|].
    rewrite List.Forall_forall in Hall. specialize (Hall txin Hin).
    destruct (sighash txin) as [s|]; [|apply andb_false_r].
    rewrite Hall. cbn. rewrite andb_false_r. apply andb_false_r. }
  clear Hswap. revert Hvisit. generalize (_inputs self) as l. intros l Hvisit.
  induction l as [|txin l IH]; [now destruct rbf|].
  rewrite fmap_cons. cbn [existsb].
  rewrite (Hvisit txin (or_introl eq_refl)). cbn [nsequence set_nsequence].
  rewrite bool_decide_eq_false_2 by discriminate. rewrite orb_false_r.
  destruct rbf; [reflexivity|]. cbn [negb orb].
  change (4294967295 - 1 <? 4294967295 - 1) with false. cbn [orb].
  specialize (IH (fun txin Hin => Hvisit txin (or_intror Hin))).
  cbn [negb orb] in IH. exact IH.
Qed.

Lemma set_rbf_is_final_witness :
  is_final (set_rbf ex_single_psbt true) = false.
Proof. apply (set_rbf_is_final ex_single_psbt true). left. reflexivity. Defined.

Lemma estimated_output_size_is_serialized_length_witness :
  estimated_output_size_for_script (scriptpubkey (ex_txout 900 [x6a]))
  = Ok (len (le_encode 8 900 ++ [x01; x6a])).
Proof.
  apply (estimated_output_size_is_serialized_length (ex_txout 900 [x6a])).
  reflexivity.
Defined.

Lemma estimated_size_from_total_and_witness_witness :
  @estimated_weight toy_externals ex_legacy_tx = Ok (4 * 61 - 3 * 0)
  /\ @estimated_size toy_externals ex_legacy_tx = Ok (61 - (3 * 0) / 4).
Proof.
  apply (@estimated_size_from_total_and_witness toy_externals ex_legacy_tx);
    vm_compute; reflexivity.
Defined.

Lemma Transaction_wtxid_eq_txid_without_witness_witness :
  @Transaction_wtxid toy_externals ex_legacy_tx
  = fst <$> @Transaction_txid toy_externals ex_legacy_tx.
Proof.
  apply (@Transaction_wtxid_eq_txid_without_witness toy_externals ex_legacy_tx);
    reflexivity.
Defined.
